(* ===== verification/_CoqProject ===== *)
-Q . S2P
Prelude.v
CRuntime.v
CLib.v
Ucx.v
HelloUtil.v
Ownership.v
OobSocket.v
OutOfBand.v
TagApi.v
TagSock.v
TagHello.v
TagOwn.v
TagLife.v
TagOutside.v
TagRun.v
TagReceive.v
TagMem.v
TagClient.v
TagServer.v
TagMain.v
Tag.v
UctApi.v
UctSend.v
UctLookup.v
UctOptions.v
UctMain.v
UctSteady.v
UctOwn.v
UctLife.v
UctLifeMain.v
UctFind.v
UctWire.v
UctClient.v
UctZcopy.v
UctServer.v
UctReach.v
UctExchange.v
UctBlocks.v
UctRun.v
UctRunMain.v
UctPlayers.v
Uct.v
UctPair.v
RmaApi.v
RmaTcp.v
RmaUcx.v
RmaMain.v
RmaSpec.v
RmaWire.v
RmaRead.v
RmaVec.v
RmaOwn.v
RmaRun.v
RmaClient.v
RmaServe.v
RmaLife.v
RmaLifeMain.v
Rma.v
CsApi.v
Iov.v
SockAddr.v
Callbacks.v
Request.v
SendRecv.v
Options.v
ClientServer.v
Protocol.v
Messages.v
Outside.v
Exchange.v
Client.v
Server.v
AmCount.v
AmWork.v
Fuel.v
Demo.v
Program.v
Parts.v
