(* ===== verification/Prelude.v ===== *)
(** * A verification development for the UCX demo programs

    The repository holds example programs for the communication library UCX. All
    four programs are modelled here, each from its main function down to the calls
    of UCX, CUDA, the socket layer and the C library:

    - src/03_ucp_am_stream_tag_client_server/ucp_client_server.c ("client-server"):
      a client and a server that exchange messages over stream, tag matching or
      active messages, with hello_world_util.h and ucp_util.h;
    - src/02_ucp_tag_GPUP2P_hello_world/ucp_hello_world.c ("tag hello world"): a
      client sends its UCX address to a server, which answers with a string from
      CUDA memory, with its own hello_world_util.h;
    - src/01_uct_am_hello_world/uct_hello_world.c ("UCT hello world"): a client and a
      server look for a transport, exchange addresses over a socket, and the client
      sends one active message in one of three ways; with its hello_world_util.h;
    - src/04_ucp_rma_client_server (C++; "RMA client-server"): a server exports a
      buffer, clients put into it or get from it; client.cpp, server.cpp and
      ucx_util.cpp, ucx_util.h.

    ** The model of C and of the outside

    Prelude.v (this file) has the monad [M W A]: a computation over a world stops
    with [Ok a] or with [Halt h], where [h] is undefined behaviour, a failed
    assert, an exception, exit, or the bound of a loop ([NoFuel]); [loop], [while]
    and their relatives; the rules of [wp] (weakest precondition, with a second
    postcondition for runs that stop), of [keeps] (a relation between the world
    before and after) and of [approx] (more fuel); and arithmetic on machine
    integers. The tactic [solve_keeps] and the hint database [keeps] prove the
    frame conditions.

    CRuntime.v has the memory (blocks of bytes, each byte possibly uninitialised,
    on the host heap, the stack or a device; and typed cells), malloc, free, memcpy,
    printf, and the history of the program: a list of events, newest first. What
    is not in the repository is a strategy [lib]: it sees the history and decides
    the result of each external call, whether an allocation succeeds, and what
    happens inside a call (callbacks that the program registered, stores into
    memory that was lent). A vocabulary [api] of a program names its global
    variables, cells, calls and callbacks: CsApi.v, TagApi.v, UctApi.v, RmaApi.v.
    Theorems that do not restrict [lib] hold for every behaviour of the outside.

    CLib.v has strtol, atoi, strcasecmp, getopt, htons and object representations;
    Ucx.v the constants of UCX as classes with the documented facts as laws (and an
    instance for concrete runs); Ownership.v a multiset of the descriptors and UCX
    objects that are alive.

    ** Which file models what

    hello_world_util.h (of programs 01 and 03): HelloUtil.v: mem_type_malloc, mem_type_free,
    mem_type_memcpy, mem_type_memset, check_mem_type_support, parse_mem_type,
    print_common_help, generate_test_string; OobSocket.v: connect_common, barrier.
    Both against an interface (classes [HelloApi], [OobApi]) that a vocabulary
    implements; [cuda_run] and its relatives of HelloUtil.v also serve program 02.
    generate_test_string of program 01 differs and is in UctSend.v.

    ucp_client_server.c: Iov.v (buffer_malloc, buffer_free, fill_buffer, print_iov,
    print_result, fill_request_param), SockAddr.v (set_sock_addr,
    sockaddr_get_ip_str, sockaddr_get_port_str), Callbacks.v (completion, error,
    connection and active message callbacks, and the dispatch [handler]),
    Request.v (request_wait, request_finalize, and ep_close of ucp_util.h),
    SendRecv.v (send_recv_stream, send_recv_tag, send_recv_am,
    client_server_communication), Options.v (parse_cmd, usage), ClientServer.v
    (init_worker, start_client, start_server, server_create_ep,
    client_server_do_work, run_server with its labels, run_client, init_context,
    main).

    ucp_hello_world.c: TagApi.v (static variables, calls, callbacks), TagSock.v
    (server_connect, client_connect, barrier), TagHello.v (everything else, to
    main as [hello_main]). UCX keeps a struct ucx_context in every request: these
    are [g_requests], and [context] is a pointer to one of them or to a variable.

    uct_hello_world.c: UctApi.v (types, static variables, calls, callbacks),
    UctSend.v (do_am_short, do_am_bcopy, do_am_zcopy, their callbacks, hello_world),
    UctLookup.v (init_iface, dev_tl_lookup), UctOptions.v (parse_cmd), UctMain.v
    (sendrecv, main as [uct_main]). desc_holder is a value of type [holder]; UCT
    counts the operations of a uct_completion_t in [completion].

    program 04: RmaTcp.v (namespace tcp, struct Handshake), RmaUcx.v (UcxEnv,
    UcxMem, UcxEndpoint), RmaMain.v (the two main functions). Objects with a
    destructor are scopes of RmaApi.v; what the implementation does with them when
    an exception is not caught is the parameter [unwinds].

    ** What the theorems show

    Program.v (client-server, whole runs): UCX objects are used while alive and
    destroyed innermost first, in callbacks too, under every behaviour of UCX that runs
    the handler of a listener only while the listener exists (against the stack
    automaton of Protocol.v); over stream or tag matching the client and the server
    are memory safe from the command line on, with buffers of at least the 16 bytes
    that are printed and a UCX that keeps to the promises of Outside.v (Exchange.v, Client.v; Server.v: connection requests, one round of
    the loop over the clients, run_server); the server waits without a bound only
    between messages; with active messages the work of the client and the messages
    of the server are safe whatever arrives (AmWork.v), and each iteration of the server
    uses up a message that was accepted (AmCount.v; a message that arrives later
    is written to freed memory, see [am_late_message], so that there is no theorem
    about whole runs); the messages of a run are counted (Messages.v) and
    their content is what fill_buffer puts there; the transcript of a client that
    exits with success is given exactly, and so is that of a round of the server,
    and the two fit, each transfer with room for the bytes of the other side
    (transcript and transfer in Messages.v, answers in Client.v); runs end if UCX
    completes what it started, and the bound of the loops does not matter once it is
    reached (Fuel.v); the exit code, as a function of the command line where an option
    is rejected (Options.v). Demo.v is a concrete UCX for the witnesses. Parts.v: the
    command line, addresses, buffers, the test string, active messages and
    connection requests one by one, with several that are theorems about what goes
    wrong.

    Rma.v (RMA client-server): the handshake is read back as it was sent, in
    pieces of any size (RmaWire.v, RmaRead.v: recv_fd refines a parser of the wire
    format); the operations of a client that returns 0 are exactly one transfer of the
    parameters it received, flushed and complete (RmaRun.v, RmaVec.v, RmaClient.v); the
    server serves every client with the same handshake, that of its buffer, and stops at the first that fails (RmaServe.v); the life of
    the objects, exceptions included (RmaSpec.v, RmaOwn.v, RmaLife.v,
    RmaLifeMain.v).

    Tag.v (tag hello world): what a client and a server tell the world in a run
    that succeeds, byte by byte, and that the two fit together; that they return
    (TagOutside.v states the promises, TagRun.v the states between calls and the
    waiting loops, TagReceive.v a receive, TagMem.v memory and messages,
    TagClient.v, TagServer.v and TagMain.v the program); the life of the objects
    for every behaviour of the outside (TagOwn.v, TagLife.v); and three error
    paths.

    Uct.v and UctPair.v (UCT hello world): for every behaviour of the outside, the
    objects of UCT (a component: while its list is alive) and the sockets are used while
    alive and gone at the end (UctOwn.v, UctLife.v, UctLifeMain.v); dev_tl_lookup computes the function [pick]
    of what the machine offers (UctFind.v); sendrecv on both sides exchanges the
    addresses (UctExchange.v); the client's branch returns, and UCT has its test
    string or an error is reported (UctWire.v states the promises, UctClient.v,
    UctZcopy.v); the command line that says given arguments is read back to them; a
    client and a server, each from its command line to the end of
    main, fit together: the addresses that pass over the sockets, the message, and
    what the server shows (UctSteady.v and UctBlocks.v have the states between the
    steps, UctRun.v and UctRunMain.v main around the message, UctServer.v the
    server's branch, UctPlayers.v the client and the server in main); and three
    theorems about what goes wrong: a header read beyond a short string, a
    registration that is never undone, a peer that cannot be reached (UctReach.v).

    OutOfBand.v: connect_common leaks no descriptor; barrier ends.

    ** Hypotheses about the outside

    They are predicates on [lib], stated where they are used and met by a concrete
    one in each witness: callbacks run only for operations that are under way, and
    stores go only into lent memory ([polite], [polite_tag], [takes_messages]); the handler
    of a listener runs only while the listener exists ([conn_callbacks]); a new
    worker has a handle of its own ([fresh_workers]); what
    arrives is the content of a message or a byte stream ([delivers], [delivers_tag],
    [connected_socket], [delivers_one], [connected]); the queries of UCT have fixed
    answers ([catalogued]), and it accepts the peer's addresses ([cooperates]);
    waiting ends ([responsive_tag], [completes]: a measure of the history that polls
    without result reduce).

    ** Bounds and fuel

    Loops that wait for UCX, and the accept loop of a server, take a [fuel]; the
    theorems on termination ask for more fuel than the measure of the outside
    gives at the start, which is enough for every such loop, because the measure
    never grows (for the UCT hello world: more than the number of messages UCT
    refuses, and of calls for progress it needs). Loops over buffers and options have the bound of the source.
    Integers have the width of the source ([u16], [u32], [u64], [s32], [c_int] for
    overflow that is undefined).

    ** Not modelled

    - mem_type_* in hello_world_util.h of program 02: the program does not call them.
      mem_type_*, connect_common and barrier of programs 01 and 03 are the same text
      and have one model.
    - The memory behind a descriptor that UCT keeps for the program, other than the
      bytes of the message, and fields of UCT's attributes that are not read.
    - The text of messages beyond format and arguments, the formatting of floating
      point numbers, and the messages of getopt; SIGPIPE, which a send to a closed
      socket raises by default.
    - UCX, CUDA, the socket layer and the kernel: the parameter [lib].
    - Threads: the programs use one worker in one thread, and callbacks run inside
      calls of that thread.
    - Object representations are little-endian, size_t and long have 64 bits, int
      32. *)

From stdpp Require Export prelude gmap strings list numbers.

Open Scope Z_scope.


(** ** Outcomes *)

(** The ways a computation stops without returning to its caller. *)
Inductive halt : Type :=
  | UB (why : string)          (* undefined behaviour of the C abstract machine *)
  | AssertFail (what : string) (* a failed assert() *)
  | Throw (what : string)      (* an uncaught C++ exception *)
  | Exit (code : Z)            (* exit(code) *)
  | NoFuel.                    (* a loop reached the bound of the model *)

#[export] Instance halt_eq_dec : EqDecision halt.
Proof. solve_decision. Defined.

Inductive res (A : Type) : Type :=
  | Ok (a : A)
  | Halt (h : halt).
Arguments Ok {A} a.
Arguments Halt {A} h.

(** A computation over a world [W]: it changes the world, then returns or halts. *)
Definition M (W A : Type) : Type := W → res A * W.

#[export] Instance M_ret W : MRet (M W) := λ A a w, (Ok a, w).

#[export] Instance M_bind W : MBind (M W) := λ A B f m w,
  match m w with
  | (Ok a, w') => f a w'
  | (Halt h, w') => (Halt h, w')
  end.

Section combinators.
Context {W : Type}.

Definition stop {A} (h : halt) : M W A := λ w, (Halt h, w).
Definition gets {A} (f : W → A) : M W A := λ w, (Ok (f w), w).
Definition modify (f : W → W) : M W unit := λ w, (Ok tt, f w).

Definition when (b : bool) (m : M W unit) : M W unit :=
  if b then m else mret tt.

(** A value that must be there, or undefined behaviour. *)
Definition the {A} (why : string) (o : option A) : M W A :=
  match o with Some a => mret a | None => stop (UB why) end.

(** [loop fuel body s]: run [body] from the loop state [s] until it answers
    [inr]; [fuel] bounds the number of rounds. *)
Fixpoint loop {S A} (fuel : nat) (body : S → M W (S + A)) (s : S) : M W A :=
  match fuel with
  | O => stop NoFuel
  | Datatypes.S fuel' =>
      x ← body s;
      match x with
      | inl s' => loop fuel' body s'
      | inr a => mret a
      end
  end.

(** while (c) b; *)
Definition while (fuel : nat) (c : M W bool) (b : M W unit) : M W unit :=
  loop fuel (λ _ : unit,
    x ← c;
    if (x : bool) then b;; mret (inl tt) else mret (inr tt)) tt.

(** do b while the answer of b says so; *)
Definition do_while {A} (fuel : nat) (b : M W A) (again : A → bool) : M W A :=
  loop fuel (λ _ : unit,
    a ← b;
    if again a then mret (inl tt) else mret (inr a)) tt.

(** for (i = start; i < start + n; i++) body(i); *)
Fixpoint for_up (start : nat) (n : nat) (body : nat → M W unit) : M W unit :=
  match n with
  | O => mret tt
  | S n' => body start;; for_up (S start) n' body
  end.

(** The same, left early with a value when [body] answers [Some]. *)
Fixpoint for_break {A} (start : nat) (n : nat) (body : nat → M W (option A))
  : M W (option A) :=
  match n with
  | O => mret None
  | S n' =>
      x ← body start;
      match x with
      | Some a => mret (Some a)
      | None => for_break (S start) n' body
      end
  end.

(** for (i = start, s = init; i < start + n; i++) s = body(i, s); *)
Fixpoint for_fold {S} (start n : nat) (body : nat → S → M W S) (s : S) : M W S :=
  match n with
  | O => mret s
  | Datatypes.S n' => s' ← body start s; for_fold (Datatypes.S start) n' body s'
  end.
End combinators.

(** ** Weakest preconditions *)

Section wp.
Context {W : Type}.
Implicit Types (w : W) (E : halt → W → Prop).

(** [wp E m Q w]: run from [w], [m] either returns in [Q] or halts in [E]. *)
Definition wp {A} E (m : M W A) (Q : A → W → Prop) w : Prop :=
  match m w with
  | (Ok a, w') => Q a w'
  | (Halt h, w') => E h w'
  end.

Lemma wp_ret {A} E (a : A) Q w : Q a w → wp E (mret a) Q w.
Proof. done. Qed.

Lemma wp_bind {A B} E (m : M W A) (f : A → M W B) Q w :
  wp E m (λ a w', wp E (f a) Q w') w → wp E (m ≫= f) Q w.
Proof.
  unfold wp, mbind, M_bind. destruct (m w) as [[a|h] w']; done.
Qed.

Lemma wp_mono {A} E E' (m : M W A) (Q Q' : A → W → Prop) w :
  wp E m Q w → (∀ a w', Q a w' → Q' a w') → (∀ h w', E h w' → E' h w') →
  wp E' m Q' w.
Proof.
  unfold wp. destruct (m w) as [[a|h] w']; auto.
Qed.

Lemma wp_conseq {A} E (m : M W A) (Q Q' : A → W → Prop) w :
  wp E m Q w → (∀ a w', Q a w' → Q' a w') → wp E m Q' w.
Proof. intros H ?. eapply wp_mono; eauto. Qed.

Lemma wp_stop {A} E h (Q : A → W → Prop) w : E h w → wp E (stop h) Q w.
Proof. done. Qed.

Lemma wp_gets {A} E (f : W → A) Q w : Q (f w) w → wp E (gets f) Q w.
Proof. done. Qed.

Lemma wp_modify E f (Q : unit → W → Prop) w : Q tt (f w) → wp E (modify f) Q w.
Proof. done. Qed.

Lemma wp_when E (b : bool) m (Q : unit → W → Prop) w :
  (b = true → wp E m Q w) → (b = false → Q tt w) → wp E (when b m) Q w.
Proof. destruct b; intros H1 H2; [apply H1|apply wp_ret, H2]; done. Qed.

Lemma wp_the {A} E why (o : option A) a Q w :
  o = Some a → Q a w → wp E (the why o) Q w.
Proof. intros -> ?. done. Qed.

(** Partial correctness of a loop: the invariant [I] and a clause for the
    round that leaves it; running out of fuel must be acceptable. *)
Lemma wp_loop {S A} E fuel (body : S → M W (S + A)) (I : S → W → Prop)
    (Q : A → W → Prop) s w :
  I s w →
  (∀ s w, I s w → E NoFuel w) →
  (∀ s w, I s w →
     wp E (body s) (λ x w', match x with inl s' => I s' w' | inr a => Q a w' end) w) →
  wp E (loop fuel body s) Q w.
Proof.
  intros HI HE Hbody. revert s w HI.
  induction fuel as [|fuel IH]; intros s w HI; simpl.
  { apply wp_stop. eauto. }
  apply wp_bind. eapply wp_conseq; [by apply Hbody|].
  intros [s'|a] w' H; [by apply IH|by apply wp_ret].
Qed.

(** Total correctness: a measure that every continuing round decreases. *)
Lemma wp_loop_total {S A} E fuel (body : S → M W (S + A)) (I : S → W → Prop)
    (μ : S → W → nat) (Q : A → W → Prop) s w :
  I s w →
  (μ s w < fuel)%nat →
  (∀ s w, I s w →
     wp E (body s) (λ x w', match x with
                   | inl s' => I s' w' ∧ (μ s' w' < μ s w)%nat
                   | inr a => Q a w' end) w) →
  wp E (loop fuel body s) Q w.
Proof.
  intros HI Hf Hbody. revert s w HI Hf.
  induction fuel as [|fuel IH]; intros s w HI Hf; [lia|]. simpl.
  apply wp_bind. eapply wp_conseq; [by apply Hbody|].
  intros [s'|a] w'; [|intros; by apply wp_ret].
  intros [HI' Hμ]. apply IH; [done|lia].
Qed.

Lemma wp_while E fuel (c : M W bool) (b : M W unit) (I : W → Prop)
    (Q : unit → W → Prop) w :
  I w →
  (∀ w, I w → E NoFuel w) →
  (∀ w, I w → wp E c (λ x w', if (x : bool) then wp E b (λ _ w'', I w'') w'
                              else Q tt w') w) →
  wp E (while fuel c b) Q w.
Proof.
  intros HI HE H. apply wp_loop with (I := λ _ w, I w); [done|eauto|].
  intros [] w' Hw'. apply wp_bind. eapply wp_conseq; [by apply H|].
  intros [] w'' Hw''; [|by apply wp_ret].
  apply wp_bind. eapply wp_conseq; [done|]. intros [] ? ?. by apply wp_ret.
Qed.

Lemma wp_while_total E fuel (c : M W bool) (b : M W unit) (I : W → Prop)
    (μ : W → nat) (Q : unit → W → Prop) w :
  I w →
  (μ w < fuel)%nat →
  (∀ w0, I w0 → wp E c (λ x w',
     if (x : bool) then wp E b (λ _ w'', I w'' ∧ (μ w'' < μ w0)%nat) w'
     else Q tt w') w0) →
  wp E (while fuel c b) Q w.
Proof.
  intros HI Hf H.
  apply wp_loop_total with (I := λ _ w, I w) (μ := λ _ w, μ w); [done|done|].
  intros [] w' Hw'. apply wp_bind. eapply wp_conseq; [by apply H|].
  intros [] w'' Hw''; [|by apply wp_ret].
  apply wp_bind. eapply wp_conseq; [done|]. intros [] ? [? ?]. by apply wp_ret.
Qed.

(** A counted loop: [I k] holds after [k] rounds. *)
Lemma wp_for_up E start n (body : nat → M W unit) (I : nat → W → Prop)
    (Q : unit → W → Prop) w :
  I start w →
  (∀ k w, (start ≤ k < start + n)%nat → I k w → wp E (body k) (λ _ w', I (S k) w') w) →
  (∀ w, I (start + n)%nat w → Q tt w) →
  wp E (for_up start n body) Q w.
Proof.
  revert start w. induction n as [|n IH]; intros start w HI Hb HQ; simpl.
  { apply wp_ret, HQ. by rewrite Nat.add_0_r. }
  apply wp_bind. eapply wp_conseq; [apply Hb; [lia|done]|].
  intros [] w' HI'. apply IH; [done| |].
  - intros. apply Hb; [lia|done].
  - intros ? ?. apply HQ. by replace (start + S n)%nat with (S start + n)%nat by lia.
Qed.

Lemma wp_for_break {A} E start n (body : nat → M W (option A)) (I : nat → W → Prop)
    (Q : option A → W → Prop) w :
  I start w →
  (∀ k w, (start ≤ k < start + n)%nat → I k w →
     wp E (body k) (λ x w', match x with Some a => Q (Some a) w' | None => I (S k) w' end) w) →
  (∀ w, I (start + n)%nat w → Q None w) →
  wp E (for_break start n body) Q w.
Proof.
  revert start w. induction n as [|n IH]; intros start w HI Hb HQ; simpl.
  { apply wp_ret, HQ. by rewrite Nat.add_0_r. }
  apply wp_bind. eapply wp_conseq; [apply Hb; [lia|done]|].
  intros [a|] w' HI'; [by apply wp_ret|]. apply IH; [done| |].
  - intros. apply Hb; [lia|done].
  - intros ? ?. apply HQ. by replace (start + S n)%nat with (S start + n)%nat by lia.
Qed.

Lemma wp_for_fold {S} E start n (body : nat → S → M W S) (I : nat → S → W → Prop)
    (Q : S → W → Prop) s w :
  I start s w →
  (∀ k s w, (start ≤ k < start + n)%nat → I k s w →
     wp E (body k s) (λ s' w', I (Datatypes.S k) s' w') w) →
  (∀ s w, I (start + n)%nat s w → Q s w) →
  wp E (for_fold start n body s) Q w.
Proof.
  revert start s w. induction n as [|n IH]; intros start s w HI Hb HQ; simpl.
  { apply wp_ret, HQ. by rewrite Nat.add_0_r. }
  apply wp_bind. eapply wp_conseq; [apply Hb; [lia|done]|].
  intros s' w' HI'. apply IH; [done| |].
  - intros. apply Hb; [lia|done].
  - intros ? ? ?. apply HQ.
    by replace (start + Datatypes.S n)%nat with (Datatypes.S start + n)%nat by lia.
Qed.

Lemma wp_and {A} E E' (m : M W A) (Q Q' : A → W → Prop) w :
  wp E m Q w → wp E' m Q' w →
  wp (λ h w', E h w' ∧ E' h w') m (λ a w', Q a w' ∧ Q' a w') w.
Proof. unfold wp. destruct (m w) as [[]]; auto. Qed.

(** Adding what is known of the result without regard to how the run may stop. *)
Lemma wp_also {A} E (m : M W A) (Q Q' : A → W → Prop) w :
  wp (λ _ _, True) m Q' w → wp E m (λ a w', Q' a w' → Q a w') w → wp E m Q w.
Proof. unfold wp. destruct (m w) as [[]]; auto. Qed.

(** Reading a [wp] back as a statement about the run. *)
Lemma wp_run {A} E (m : M W A) Q w a w' :
  wp E m Q w → m w = (Ok a, w') → Q a w'.
Proof. unfold wp. intros H Hm. by rewrite Hm in H. Qed.

Lemma wp_returns {A} (m : M W A) Q w :
  wp (λ _ _, False) m Q w → ∃ a w', m w = (Ok a, w') ∧ Q a w'.
Proof. unfold wp. destruct (m w) as [[a|h] w'] eqn:?; [eauto|done]. Qed.

Lemma wp_answers {A} (m : M W A) a Q w :
  wp (λ _ _, False) m (λ a' w', a' = a ∧ Q w') w → ∃ w', m w = (Ok a, w') ∧ Q w'.
Proof. intros (a' & w' & Hm & -> & HQ)%wp_returns. eauto. Qed.

(** A run that cannot go on stops, for the reason given. *)
Lemma wp_halts {A} (m : M W A) h w :
  wp (λ h' _, h' = h) m (λ _ _, False) w → ∃ w', m w = (Halt h, w').
Proof. unfold wp. destruct (m w) as [[a|h'] w']; [done|]. intros ->. by exists w'. Qed.
End wp.

#[global] Arguments wp : simpl never.

(** ** Relations that every run respects

    [keeps R m]: however [m] ends, the world it leaves is related by [R] to
    the world it started from. For a preorder the property is closed under the
    combinators, so an invariant of a whole program is proved from the
    invariance of its primitive steps. *)

Definition keeps {W A} (R : W → W → Prop) (m : M W A) : Prop :=
  ∀ w, R w (snd (m w)).

Section keeps.
Context {W : Type} (R : W → W → Prop) `{!PreOrder R}.

Lemma keeps_ret {A} (a : A) : keeps R (mret a).
Proof. intros w. reflexivity. Qed.

Lemma keeps_stop {A} h : keeps R (stop h : M W A).
Proof. intros w. reflexivity. Qed.

Lemma keeps_gets {A} (f : W → A) : keeps R (gets f).
Proof. intros w. reflexivity. Qed.

Lemma keeps_modify f : (∀ w, R w (f w)) → keeps R (modify f).
Proof. intros H w. apply H. Qed.

Lemma keeps_bind {A B} (m : M W A) (f : A → M W B) :
  keeps R m → (∀ a, keeps R (f a)) → keeps R (m ≫= f).
Proof.
  intros Hm Hf w. unfold mbind, M_bind. specialize (Hm w).
  destruct (m w) as [[a|h] w']; simpl in *; [|done].
  etrans; [done|]. apply Hf.
Qed.

Lemma keeps_when b m : keeps R m → keeps R (when b m).
Proof. destruct b; [done|intros; apply keeps_ret]. Qed.

Lemma keeps_the {A} why (o : option A) : keeps R (the why o).
Proof. destruct o; [apply keeps_ret|apply keeps_stop]. Qed.

Lemma keeps_loop {S A} fuel (body : S → M W (S + A)) s :
  (∀ s, keeps R (body s)) → keeps R (loop fuel body s).
Proof.
  intros Hb. revert s. induction fuel as [|fuel IH]; intros s; simpl.
  { apply keeps_stop. }
  apply keeps_bind; [apply Hb|]. intros [s'|a]; [apply IH|apply keeps_ret].
Qed.

Lemma keeps_while fuel c b : keeps R c → keeps R b → keeps R (while fuel c b).
Proof.
  intros Hc Hb. apply keeps_loop. intros _. apply keeps_bind; [done|].
  intros []; [|apply keeps_ret]. apply keeps_bind; [done|]. intros. apply keeps_ret.
Qed.

Lemma keeps_do_while {A} fuel (b : M W A) again :
  keeps R b → keeps R (do_while fuel b again).
Proof.
  intros Hb. apply keeps_loop. intros _. apply keeps_bind; [done|].
  intros a. destruct (again a); apply keeps_ret.
Qed.

Lemma keeps_for_up start n body :
  (∀ k, keeps R (body k)) → keeps R (for_up start n body).
Proof.
  intros Hb. revert start. induction n as [|n IH]; intros start; simpl.
  { apply keeps_ret. }
  apply keeps_bind; [apply Hb|]. intros. apply IH.
Qed.

Lemma keeps_for_break {A} start n (body : nat → M W (option A)) :
  (∀ k, keeps R (body k)) → keeps R (for_break start n body).
Proof.
  intros Hb. revert start. induction n as [|n IH]; intros start; simpl.
  { apply keeps_ret. }
  apply keeps_bind; [apply Hb|]. intros [a|]; [apply keeps_ret|apply IH].
Qed.

Lemma keeps_for_fold {S} start n (body : nat → S → M W S) s :
  (∀ k s, keeps R (body k s)) → keeps R (for_fold start n body s).
Proof.
  intros Hb. revert start s. induction n as [|n IH]; intros start s; simpl.
  { apply keeps_ret. }
  apply keeps_bind; [apply Hb|]. intros. apply IH.
Qed.

Lemma keeps_wp {A} (m : M W A) w :
  keeps R m → wp (λ _ w', R w w') m (λ _ w', R w w') w.
Proof.
  intros Hm. specialize (Hm w). unfold wp. by destruct (m w) as [[a|h] w'].
Qed.

(** Use in a [wp] proof that the computation keeps [R]. *)
Lemma wp_with_keeps {A} E (m : M W A) Q w :
  keeps R m → wp E m (λ a w', R w w' → Q a w') w → wp E m Q w.
Proof.
  intros Hm. specialize (Hm w). unfold wp. destruct (m w) as [[a|h] w']; auto.
Qed.

(** The same with the relation in the halting case too. *)
Lemma wp_with_keeps_E {A} E (m : M W A) Q w :
  keeps R m →
  wp (λ h w', R w w' → E h w') m (λ a w', R w w' → Q a w') w → wp E m Q w.
Proof.
  intros Hm. specialize (Hm w). unfold wp. destruct (m w) as [[a|h] w']; auto.
Qed.
End keeps.

(** ** Fuel is only a bound

    [approx m m']: wherever [m] does not run out of fuel, [m'] does the same. *)

Definition approx {W A} (m m' : M W A) : Prop :=
  ∀ w, m w = m' w ∨ fst (m w) = Halt NoFuel.

Section approx.
Context {W : Type}.

#[export] Instance approx_refl {A} : Reflexive (@approx W A).
Proof. intros m w. by left. Qed.

#[export] Instance approx_trans {A} : Transitive (@approx W A).
Proof.
  intros m1 m2 m3 H12 H23 w.
  destruct (H12 w) as [->|?]; [apply H23|by right].
Qed.

Lemma approx_bind {A B} (m m' : M W A) (f f' : A → M W B) :
  approx m m' → (∀ a, approx (f a) (f' a)) → approx (m ≫= f) (m' ≫= f').
Proof.
  intros Hm Hf w. unfold mbind, M_bind. destruct (Hm w) as [<-|Hn].
  - destruct (m w) as [[a|h] w']; [apply Hf|by left].
  - right. destruct (m w) as [[a|h] w']; simpl in *; [done|by simplify_eq].
Qed.

Lemma approx_loop {S A} n n' (body body' : S → M W (S + A)) s :
  (n ≤ n')%nat → (∀ s, approx (body s) (body' s)) →
  approx (loop n body s) (loop n' body' s).
Proof.
  intros Hn Hb. revert n' Hn s. induction n as [|n IH]; intros n' Hn s.
  { intros w. by right. }
  destruct n' as [|n']; [lia|]. simpl. apply approx_bind; [done|].
  intros [s'|a]; [apply IH; lia|reflexivity].
Qed.

Lemma approx_while n n' (c : M W bool) b b' :
  (n ≤ n')%nat → approx b b' → approx (while n c b) (while n' c b').
Proof.
  intros Hn Hb. apply approx_loop; [done|]. intros _.
  apply approx_bind; [reflexivity|]. intros []; [|reflexivity].
  apply approx_bind; [done|]. intros. reflexivity.
Qed.

Lemma approx_do_while {A} n n' (b b' : M W A) again :
  (n ≤ n')%nat → approx b b' → approx (do_while n b again) (do_while n' b' again).
Proof.
  intros Hn Hb. apply approx_loop; [done|]. intros _.
  apply approx_bind; [done|]. intros. reflexivity.
Qed.

Lemma approx_for_up s n (b b' : nat → M W unit) :
  (∀ k, approx (b k) (b' k)) → approx (for_up s n b) (for_up s n b').
Proof.
  intros Hb. revert s. induction n as [|n IH]; intros s; [reflexivity|]. simpl.
  apply approx_bind; [done|]. intros. apply IH.
Qed.

Lemma approx_for_break {A} s n (b b' : nat → M W (option A)) :
  (∀ k, approx (b k) (b' k)) → approx (for_break s n b) (for_break s n b').
Proof.
  intros Hb. revert s. induction n as [|n IH]; intros s; [reflexivity|]. simpl.
  apply approx_bind; [done|]. intros []; [reflexivity|apply IH].
Qed.

(** What a run that did not run out of fuel did, a larger bound does too. *)
Lemma approx_ok {A} (m m' : M W A) w a w' :
  approx m m' → m w = (Ok a, w') → m' w = (Ok a, w').
Proof. intros H Hw. destruct (H w) as [<-|Hn]; [done|]. by rewrite Hw in Hn. Qed.
End approx.

Lemma option_clash {A} (o : option A) x : o = None → o = Some x → False.
Proof. by intros ->. Qed.

Lemma option_agree {A} (o : option A) x y : o = Some x → o = Some y → x = y.
Proof. intros -> ?. by simplify_eq. Qed.

(** ** Resources in a list *)

Section remove1.
Context {X : Type} `{!EqDecision X}.

(** Remove one occurrence. *)
Fixpoint remove1 (x : X) (l : list X) : option (list X) :=
  match l with
  | [] => None
  | y :: l' => if decide (x = y) then Some l' else (λ r, y :: r) <$> remove1 x l'
  end.

Lemma remove1_head x l : remove1 x (x :: l) = Some l.
Proof. simpl. by rewrite decide_True. Qed.

Lemma remove1_second x y l : remove1 x (y :: x :: l) = Some (y :: l).
Proof.
  simpl. rewrite (decide_True _ _ (eq_refl x)).
  destruct (decide (x = y)) as [Heq|]; [by subst|done].
Qed.

Lemma remove1_is_Some x l : x ∈ l → is_Some (remove1 x l).
Proof.
  induction 1 as [x l|x y l _ [r IH]]; simpl; [rewrite decide_True by done; eauto|].
  destruct (decide (x = y)); [eauto|]. rewrite IH. simpl. eauto.
Qed.
End remove1.

(** ** Machine integers *)

Definition u16 (z : Z) : Z := z `mod` 2 ^ 16.
Definition u32 (z : Z) : Z := z `mod` 2 ^ 32.
Definition u64 (z : Z) : Z := z `mod` 2 ^ 64.

(** Two's complement reinterpretation in [w] bits. *)
Definition sgn (w : Z) (z : Z) : Z :=
  let m := z `mod` 2 ^ w in if m <? 2 ^ (w - 1) then m else m - 2 ^ w.
Definition s32 : Z → Z := sgn 32.
Definition s64 : Z → Z := sgn 64.
#[global] Arguments u16 : simpl never.
#[global] Arguments u32 : simpl never.
#[global] Arguments u64 : simpl never.
#[global] Arguments sgn : simpl never.

Lemma sgn_small w z : 0 < w → - 2 ^ (w - 1) ≤ z < 2 ^ (w - 1) → sgn w z = z.
Proof.
  intros Hw Hz. unfold sgn.
  assert (2 ^ w = 2 * 2 ^ (w - 1)) as Hp.
  { rewrite <-Z.pow_succ_r by lia. f_equal. lia. }
  destruct (decide (0 ≤ z)) as [H|H].
  - rewrite Z.mod_small by lia. destruct (Z.ltb_spec z (2 ^ (w - 1))); lia.
  - replace (z `mod` 2 ^ w) with (z + 2 ^ w).
    2:{ rewrite <-(Z.mod_add z 1) by lia. rewrite Z.mul_1_l. rewrite Z.mod_small; lia. }
    destruct (Z.ltb_spec (z + 2 ^ w) (2 ^ (w - 1))); lia.
Qed.

Lemma sgn_range w z : 0 < w → - 2 ^ (w - 1) ≤ sgn w z < 2 ^ (w - 1).
Proof.
  intros Hw. unfold sgn.
  assert (2 ^ w = 2 * 2 ^ (w - 1)) as Hp.
  { rewrite <-Z.pow_succ_r by lia. f_equal. lia. }
  assert (0 < 2 ^ (w - 1)) by (apply Z.pow_pos_nonneg; lia).
  pose proof (Z.mod_pos_bound z (2 ^ w) ltac:(lia)).
  destruct (Z.ltb_spec (z `mod` 2 ^ w) (2 ^ (w - 1))); lia.
Qed.

Lemma u16_range z : 0 ≤ u16 z < 65536.
Proof. apply Z.mod_pos_bound. lia. Qed.

Lemma u16_small z : 0 ≤ z < 65536 → u16 z = z.
Proof. intros. by apply Z.mod_small. Qed.

Lemma u64_small z : 0 ≤ z < 2 ^ 64 → u64 z = z.
Proof. intros. by apply Z.mod_small. Qed.

Lemma u64_range z : 0 ≤ u64 z < 2 ^ 64.
Proof. apply Z.mod_pos_bound. lia. Qed.

Lemma u32_small z : 0 ≤ z < 2 ^ 32 → u32 z = z.
Proof. intros. by apply Z.mod_small. Qed.

Lemma u32_range z : 0 ≤ u32 z < 2 ^ 32.
Proof. apply Z.mod_pos_bound. lia. Qed.

(** ** Automation *)

Create HintDb keeps discriminated.
#[export] Hint Resolve keeps_ret keeps_stop keeps_gets keeps_when keeps_the : keeps.
#[export] Hint Extern 1 (PreOrder _) => typeclasses eauto : keeps.

(** Decompose a [keeps] goal along the program; [tac] closes the leaves. *)
Ltac keeps_step :=
  match goal with
  | |- ∀ _, _ => intros ?
  | |- keeps _ (mbind _ _) => apply keeps_bind; [typeclasses eauto|..]
  | |- keeps _ (loop _ _ _) => apply keeps_loop; [typeclasses eauto|..]
  | |- keeps _ (while _ _ _) => apply keeps_while; [typeclasses eauto|..]
  | |- keeps _ (do_while _ _ _) => apply keeps_do_while; [typeclasses eauto|..]
  | |- keeps _ (for_up _ _ _) => apply keeps_for_up; [typeclasses eauto|..]
  | |- keeps _ (for_break _ _ _) => apply keeps_for_break; [typeclasses eauto|..]
  | |- keeps _ (for_fold _ _ _ _) => apply keeps_for_fold; [typeclasses eauto|..]
  | |- keeps _ (when _ _) => apply keeps_when; [typeclasses eauto|..]
  | |- keeps _ (match ?x with _ => _ end) => destruct x
  | |- keeps _ _ => progress cbv zeta
  end.

Ltac solve_keeps :=
  repeat first [solve [eauto 4 with keeps] | keeps_step].

(** One step of a [wp] proof along the program. *)
Ltac wp_step :=
  lazymatch goal with
  | |- wp _ (mbind _ _) _ _ => apply wp_bind
  | |- wp _ (mret _) _ _ => apply wp_ret
  | |- wp _ (stop _) _ _ => apply wp_stop
  | |- wp _ (gets _) _ _ => apply wp_gets
  | |- wp _ (modify _) _ _ => apply wp_modify
  end; simpl.
Ltac wp_steps := repeat wp_step.

(** Continue after a computation with a known specification. *)
Tactic Notation "wp_use" uconstr(H) := eapply wp_conseq; [eapply H|].
