(* ===== verification/CRuntime.v ===== *)
(** * The C run-time model

    Pointers, memory objects, the event trace of a program and its interface
    to the code that is not in the repository (UCX, CUDA, the socket layer).

    The outside is a strategy [lib]: it sees the whole history of the program
    (newest event first) and decides the result of every external call, the
    success of every allocation, and what it does inside a call before the call
    returns: run callbacks the program registered, or write into memory the
    program lent to it. Every theorem that does not restrict [lib] holds for
    all behaviours of the outside. *)

From S2P Require Import Prelude.
Open Scope Z_scope.

(** ** Pointers and objects *)

Inductive ptr : Type :=
  | Null
  | Loc (b : N) (off : Z)   (* byte [off] of the object [b] *)
  | Indet                   (* an uninitialised pointer variable *)
  | Abs (z : Z).            (* an integer cast to a pointer *)

#[export] Instance ptr_eq_dec : EqDecision ptr.
Proof. solve_decision. Defined.

(** Where an object lives: malloc, a stack frame, cudaMalloc, cudaMallocManaged. *)
Inductive mkind : Type := KHost | KStack | KDevice | KManaged.

#[export] Instance mkind_eq_dec : EqDecision mkind.
Proof. solve_decision. Defined.

(** A byte of memory: its value, or [None] while it was never written. *)
Abbreviation mbyte := (option Z).

(** What printf is given. *)
Inductive arg : Type :=
  | AStr (s : string)
  | AZ (z : Z)
  | ABytes (bs : list mbyte)
  | APtr (p : ptr).

Inductive stream : Type := Stdout | Stderr.

(** ** Programs and their outside *)

(** The vocabulary of one program: its global variables, the typed objects it
    keeps in memory besides byte arrays, the external calls it makes with their
    results, the callbacks it registers with their results. *)
Record api : Type := Api {
  a_glob : Type;
  a_cell : Type;
  a_call : Type;
  a_ret : a_call → Type;
  a_cbk : Type;
  a_cbr : Type;
}.

Inductive event (A : api) : Type :=
  | ECall (c : a_call A) (r : a_ret A c)
  | ECb (cb : a_cbk A) (r : a_cbr A)
  | EStore (p : ptr) (bs : list Z)
  | EAlloc (n : Z) (ok : bool)
  | EOut (s : stream) (fmt : string) (args : list arg).
Arguments ECall {A} c r.
Arguments ECb {A} cb r.
Arguments EStore {A} p bs.
Arguments EAlloc {A} n ok.
Arguments EOut {A} s fmt args.

Abbreviation history A := (list (event A)).

(** What the outside does during a call. *)
Inductive act (A : api) : Type :=
  | Callback (cb : a_cbk A)
  | Store (p : ptr) (bs : list Z).
Arguments Callback {A} cb.
Arguments Store {A} p bs.

Record lib (A : api) : Type := Lib {
  l_acts : history A → a_call A → list (act A);
  l_ret : history A → ∀ c : a_call A, a_ret A c;
  l_alloc : history A → Z → bool;
}.
Arguments l_acts {A} l.
Arguments l_ret {A} l.
Arguments l_alloc {A} l.

Inductive obj (C : Type) : Type :=
  | Bytes (k : mkind) (d : list mbyte)
  | Cell (k : mkind) (c : C).
Arguments Bytes {C} k d.
Arguments Cell {C} k c.

Definition obj_kind {C} (o : obj C) : mkind :=
  match o with Bytes k _ => k | Cell k _ => k end.

Record world (A : api) : Type := World {
  glob : a_glob A;
  heap : gmap N (obj (a_cell A));
  next : N;                      (* no object has an identifier from here on *)
  trace : history A;
}.
Arguments World {A} glob heap next trace.
Arguments glob {A} w.
Arguments heap {A} w.
Arguments next {A} w.
Arguments trace {A} w.

Definition set_glob {A} (g : a_glob A) (w : world A) : world A :=
  World g (heap w) (next w) (trace w).
Definition set_heap {A} (h : gmap N (obj (a_cell A))) (w : world A) : world A :=
  World (glob w) h (next w) (trace w).
Definition push {A} (e : event A) (w : world A) : world A :=
  World (glob w) (heap w) (next w) (e :: trace w).

(** Identifiers are never reused. *)
Definition wf_mem {A} (w : world A) : Prop :=
  ∀ b, (next w ≤ b)%N → heap w !! b = None.

(** Pointer arithmetic in bytes. *)
Definition ptr_add (p : ptr) (n : Z) : ptr :=
  match p with
  | Loc b off => Loc b (off + n)
  | Abs z => Abs (z + n)
  | _ => p
  end.

(** ** Byte ranges *)

Definition in_range (off n len : Z) : bool :=
  (0 <=? off) && (0 <=? n) && (off + n <=? len).

Definition slice {X} (off n : Z) (d : list X) : option (list X) :=
  if in_range off n (Z.of_nat (length d))
  then Some (take (Z.to_nat n) (drop (Z.to_nat off) d)) else None.

Definition splice {X} (off : Z) (bs d : list X) : option (list X) :=
  if in_range off (Z.of_nat (length bs)) (Z.of_nat (length d))
  then Some (take (Z.to_nat off) d ++ bs ++ drop (Z.to_nat off + length bs) d)
  else None.

Lemma in_range_spec off n len :
  in_range off n len = true ↔ 0 ≤ off ∧ 0 ≤ n ∧ off + n ≤ len.
Proof. unfold in_range. rewrite !andb_true_iff, !Z.leb_le. tauto. Qed.

Lemma slice_some {X} off n (d : list X) :
  0 ≤ off → 0 ≤ n → off + n ≤ Z.of_nat (length d) →
  slice off n d = Some (take (Z.to_nat n) (drop (Z.to_nat off) d)).
Proof. intros. unfold slice. by rewrite (proj2 (in_range_spec _ _ _)). Qed.

Lemma slice_none {X} off n (d : list X) :
  Z.of_nat (length d) < off + n → slice off n d = None.
Proof.
  intros Hn. unfold slice. destruct (in_range _ _ _) eqn:E; [|done].
  apply in_range_spec in E. lia.
Qed.

Lemma slice_all {X} (d : list X) n :
  n = Z.of_nat (length d) → slice 0 n d = Some d.
Proof.
  intros ->. rewrite slice_some by lia. rewrite Nat2Z.id.
  change (drop _ d) with d. by rewrite firstn_all.
Qed.

Lemma slice_inv {X} off n (d r : list X) :
  slice off n d = Some r →
  0 ≤ off ∧ 0 ≤ n ∧ off + n ≤ Z.of_nat (length d) ∧
  r = take (Z.to_nat n) (drop (Z.to_nat off) d).
Proof.
  unfold slice. destruct (in_range _ _ _) eqn:E; [|done].
  apply in_range_spec in E. intros. simplify_eq. tauto.
Qed.

Lemma slice_length {X} off n (d r : list X) :
  slice off n d = Some r → Z.of_nat (length r) = n.
Proof.
  intros (?&?&?&->)%slice_inv. rewrite length_take, length_drop. lia.
Qed.

Lemma splice_some {X} off (bs d : list X) :
  0 ≤ off → off + Z.of_nat (length bs) ≤ Z.of_nat (length d) →
  splice off bs d =
    Some (take (Z.to_nat off) d ++ bs ++ drop (Z.to_nat off + length bs) d).
Proof.
  intros H1 H2. unfold splice. rewrite (proj2 (in_range_spec _ _ _)); [done|lia].
Qed.

Lemma splice_inv {X} off (bs d r : list X) :
  splice off bs d = Some r →
  0 ≤ off ∧ off + Z.of_nat (length bs) ≤ Z.of_nat (length d) ∧
  r = take (Z.to_nat off) d ++ bs ++ drop (Z.to_nat off + length bs) d.
Proof.
  unfold splice. destruct (in_range _ _ _) eqn:E; [|done].
  apply in_range_spec in E. intros. simplify_eq. tauto.
Qed.

Lemma splice_none {X} off (bs d : list X) :
  Z.of_nat (length d) < off + Z.of_nat (length bs) → splice off bs d = None.
Proof.
  intros H. unfold splice. destruct (in_range _ _ _) eqn:E; [|done].
  apply in_range_spec in E. lia.
Qed.

Lemma splice_length {X} off (bs d r : list X) :
  splice off bs d = Some r → length r = length d.
Proof.
  intros (?&?&->)%splice_inv.
  rewrite !length_app, length_take, length_drop. lia.
Qed.

Lemma splice_all {X} (bs d : list X) :
  length bs = length d → splice 0 bs d = Some bs.
Proof.
  intros H. rewrite splice_some by lia. simpl.
  rewrite drop_ge by lia. by rewrite app_nil_r.
Qed.

Lemma splice_head {X} (a b c : list X) :
  length a = length b → splice 0 a (b ++ c) = Some (a ++ c).
Proof.
  intros Hl. rewrite splice_some by (rewrite ?length_app; lia). simpl.
  by rewrite Hl, drop_app_length.
Qed.

Lemma splice_tail {X} (a b c : list X) n :
  n = Z.of_nat (length a) → length b = length c → splice n b (a ++ c) = Some (a ++ b).
Proof.
  intros -> Hl. rewrite splice_some by (rewrite ?length_app; lia).
  rewrite Nat2Z.id, take_app_length, drop_ge by (rewrite length_app; lia).
  by rewrite app_nil_r.
Qed.

(** The bytes of a string: at most [max], and no byte after a NUL. [None]: neither
    the bound nor a NUL was reached. *)
Fixpoint scan (max : nat) (d : list mbyte) : option (list mbyte) :=
  match max with
  | O => Some []
  | S max' =>
      match d with
      | [] => None
      | Some 0 :: _ => Some []
      | b :: d' => (λ r, b :: r) <$> scan max' d'
      end
  end.

Lemma scan_some n (d : list mbyte) : (n ≤ length d)%nat → ∃ r, scan n d = Some r.
Proof.
  revert d. induction n as [|n IH]; intros d Hn; [by eexists|].
  destruct d as [|c d]; [simpl in Hn; lia|].
  destruct (IH d) as [r Hr]; [simpl in Hn; lia|].
  simpl. rewrite Hr. destruct c as [[]|]; simpl; by eexists.
Qed.

Lemma scan_none n (d : list mbyte) :
  (length d < n)%nat → Some 0 ∉ d → scan n d = None.
Proof.
  revert d. induction n as [|n IH]; intros [|c d] Hn Hd; simpl in *; [lia..|done|].
  apply not_elem_of_cons in Hd as [Hc Hd].
  rewrite IH by (done || lia). by destruct c as [[]|].
Qed.

(** A terminated string. *)
Lemma scan_terminated n (s r : list mbyte) :
  (length s < n)%nat → Some 0 ∉ s → scan n (s ++ Some 0 :: r) = Some s.
Proof.
  revert s. induction n as [|n IH]; intros s Hn Hs; [lia|].
  destruct s as [|c s]; [done|]. simpl in *. apply not_elem_of_cons in Hs as [Hc Hs].
  rewrite IH by (done || lia). by destruct c as [[]|].
Qed.

(** ** Operations *)

Section ops.
Context {A : api}.
Implicit Types (w : world A).

Definition emit (e : event A) : M (world A) unit := modify (push e).

Definition fprintf (s : stream) (fmt : string) (args : list arg) : M (world A) unit :=
  emit (EOut s fmt args).
Definition printf (fmt : string) (args : list arg) : M (world A) unit :=
  fprintf Stdout fmt args.

Definition get_glob : M (world A) (a_glob A) := gets glob.
Definition mod_glob (f : a_glob A → a_glob A) : M (world A) unit :=
  modify (λ w, set_glob (f (glob w)) w).

(** A new object, under an identifier never used before. *)
Definition alloc (o : obj (a_cell A)) : M (world A) ptr := λ w,
  (Ok (Loc (next w) 0),
   World (glob w) (<[next w := o]> (heap w)) (N.succ (next w)) (trace w)).

Definition lookup_obj (why : string) (b : N) : M (world A) (obj (a_cell A)) :=
  o ← gets (λ w, heap w !! b); the why o.

Definition put_obj (b : N) (o : obj (a_cell A)) : M (world A) unit :=
  modify (λ w, set_heap (<[b := o]> (heap w)) w).
Definition del_obj (b : N) : M (world A) unit :=
  modify (λ w, set_heap (delete b (heap w)) w).

(** The CPU cannot reach cudaMalloc'ed memory; the CUDA and UCX libraries can. *)
Definition by_cpu (k : mkind) : bool := bool_decide (k ≠ KDevice).
Definition by_lib (k : mkind) : bool := true.

Definition read_mem (acc : mkind → bool) (p : ptr) (n : Z) : M (world A) (list mbyte) :=
  match p with
  | Loc b off =>
      o ← lookup_obj "read of a dead object" b;
      match o with
      | Bytes k d =>
          if acc k then the "read out of bounds" (slice off n d)
          else stop (UB "CPU read of device memory")
      | Cell _ _ => stop (UB "bytes of a typed object")
      end
  | _ => stop (UB "read through an invalid pointer")
  end.

Definition write_mem (acc : mkind → bool) (p : ptr) (bs : list mbyte) : M (world A) unit :=
  match p with
  | Loc b off =>
      o ← lookup_obj "write to a dead object" b;
      match o with
      | Bytes k d =>
          if acc k then
            d' ← the "write out of bounds" (splice off bs d);
            put_obj b (Bytes k d')
          else stop (UB "CPU write of device memory")
      | Cell _ _ => stop (UB "bytes of a typed object")
      end
  | _ => stop (UB "write through an invalid pointer")
  end.

Definition memcpy (dst src : ptr) (n : Z) : M (world A) unit :=
  bs ← read_mem by_cpu src n; write_mem by_cpu dst bs.
Definition memset (dst : ptr) (v n : Z) : M (world A) unit :=
  write_mem by_cpu dst (replicate (Z.to_nat n) (Some (v `mod` 256))).

(** What printf reads for "%s", or for "%.ns" with [max = Some n]. *)
Definition read_string (max : option nat) (p : ptr) : M (world A) (list mbyte) :=
  match p with
  | Loc b off =>
      o ← lookup_obj "read of a dead object" b;
      match o with
      | Bytes k d =>
          let d := drop (Z.to_nat off) d in
          if by_cpu k then the "read out of bounds" (scan (default (S (length d)) max) d)
          else stop (UB "CPU read of device memory")
      | _ => stop (UB "bytes of a typed object")
      end
  | _ => stop (UB "read through an invalid pointer")
  end.

(** Typed objects. *)
Definition read_cell (p : ptr) : M (world A) (a_cell A) :=
  match p with
  | Loc b 0 =>
      o ← lookup_obj "read of a dead object" b;
      match o with Cell _ c => mret c | _ => stop (UB "wrong type") end
  | _ => stop (UB "read through an invalid pointer")
  end.
(** An assignment to a part of one; [f] rejects an object of another type. *)
Definition update_cell (why : string) (p : ptr) (f : a_cell A → option (a_cell A))
  : M (world A) unit :=
  match p with
  | Loc b 0 =>
      o ← lookup_obj "write to a dead object" b;
      match o with
      | Cell k c => c' ← the why (f c); put_obj b (Cell k c')
      | _ => stop (UB "wrong type")
      end
  | _ => stop (UB "write through an invalid pointer")
  end.

(** A local variable whose address is taken: it lives while [body] runs. *)
Definition local {X} (o : obj (a_cell A)) (body : ptr → M (world A) X) : M (world A) X :=
  p ← alloc o;
  r ← body p;
  match p with Loc b _ => del_obj b | _ => mret tt end;;
  mret r.

Definition free (p : ptr) : M (world A) unit :=
  match p with
  | Null => mret tt
  | Loc b 0 =>
      o ← lookup_obj "free of a dead object" b;
      if bool_decide (obj_kind o = KHost) then del_obj b
      else stop (UB "free of memory that malloc did not return")
  | _ => stop (UB "free of an invalid pointer")
  end.

Context (L : lib A).

Definition ask_alloc (n : Z) : M (world A) bool := λ w,
  let ok := l_alloc L (trace w) n in (Ok ok, push (EAlloc n ok) w).

Definition malloc_obj (n : Z) (o : obj (a_cell A)) : M (world A) ptr :=
  ok ← ask_alloc n; if (ok : bool) then alloc o else mret Null.
Definition malloc (n : Z) : M (world A) ptr :=
  malloc_obj n (Bytes KHost (replicate (Z.to_nat n) None)).
(** calloc(1, n) *)
Definition calloc (n : Z) : M (world A) ptr :=
  malloc_obj n (Bytes KHost (replicate (Z.to_nat n) (Some 0))).

(** An external call during which no callback runs. *)
Definition ext0 (c : a_call A) : M (world A) (a_ret A c) := λ w,
  let r := l_ret L (trace w) c in (Ok r, push (ECall c r) w).

Context (handler : a_cbk A → M (world A) (a_cbr A)).

Definition run_act (x : act A) : M (world A) unit :=
  match x with
  | Callback cb => r ← handler cb; emit (ECb cb r)
  | Store p bs => write_mem by_lib p (Some <$> bs);; emit (EStore p bs)
  end.

Fixpoint run_acts (xs : list (act A)) : M (world A) unit :=
  match xs with
  | [] => mret tt
  | x :: xs' => run_act x;; run_acts xs'
  end.

(** An external call: what the outside does inside it, then its result. *)
Definition ext (c : a_call A) : M (world A) (a_ret A c) :=
  xs ← gets (λ w, l_acts L (trace w) c); run_acts xs;; ext0 c.
End ops.

(** ** Specifications of the operations *)

Section specs.
Context {A : api} (L : lib A).
Implicit Types (w : world A) (E : halt → world A → Prop).

Lemma wp_emit E e Q w : Q tt (push e w) → wp E (emit e) Q w.
Proof. done. Qed.
Lemma wp_fprintf E s f l Q w : Q tt (push (EOut s f l) w) → wp E (fprintf s f l) Q w.
Proof. done. Qed.
Lemma wp_get_glob E Q w : Q (glob w) w → wp E get_glob Q w.
Proof. done. Qed.
Lemma wp_mod_glob E f Q w : Q tt (set_glob (f (glob w)) w) → wp E (mod_glob f) Q w.
Proof. done. Qed.
Lemma wp_ext0 E c Q w :
  Q (l_ret L (trace w) c) (push (ECall c (l_ret L (trace w) c)) w) →
  wp E (ext0 L c) Q w.
Proof. done. Qed.

Lemma wp_alloc E o Q w :
  (∀ b, b = next w → wf_mem w → heap w !! b = None →
     Q (Loc b 0) (World (glob w) (<[b := o]> (heap w)) (N.succ b) (trace w))) →
  wf_mem w → wp E (alloc o) Q w.
Proof. intros H Hwf. apply H; [done..|]. apply Hwf. lia. Qed.

Lemma wp_ask_alloc E n Q w :
  Q (l_alloc L (trace w) n) (push (EAlloc n (l_alloc L (trace w) n)) w) →
  wp E (ask_alloc L n) Q w.
Proof. done. Qed.

(** Both outcomes of an allocation. *)
Lemma wp_malloc_obj E n o Q w :
  wf_mem w →
  (l_alloc L (trace w) n = false → Q Null (push (EAlloc n false) w)) →
  (∀ b, l_alloc L (trace w) n = true → b = next w → heap w !! b = None →
     Q (Loc b 0) (World (glob w) (<[b := o]> (heap w)) (N.succ b)
                        (EAlloc n true :: trace w))) →
  wp E (malloc_obj L n o) Q w.
Proof.
  intros Hwf HF HT. unfold malloc_obj. apply wp_bind, wp_ask_alloc.
  destruct (l_alloc L (trace w) n) eqn:Ea; [|by apply wp_ret, HF].
  apply wp_alloc; [|exact Hwf]. intros b -> _ Hn. by apply HT.
Qed.

Lemma wp_lookup_obj E why b o Q w :
  heap w !! b = Some o → Q o w → wp E (lookup_obj why b) Q w.
Proof. intros Ho HQ. apply wp_bind, wp_gets. by eapply wp_the. Qed.

Lemma wp_read_mem E acc b off n k d r Q w :
  heap w !! b = Some (Bytes k d) → acc k = true → slice off n d = Some r →
  Q r w → wp E (read_mem acc (Loc b off) n) Q w.
Proof.
  intros Hb Hk Hs HQ. unfold read_mem. apply wp_bind.
  eapply wp_lookup_obj; [done|]; cbv beta iota. rewrite Hk. by eapply wp_the.
Qed.

Lemma wp_write_mem E acc b off bs k d d' Q w :
  heap w !! b = Some (Bytes k d) → acc k = true → splice off bs d = Some d' →
  Q tt (set_heap (<[b := Bytes k d']> (heap w)) w) →
  wp E (write_mem acc (Loc b off) bs) Q w.
Proof.
  intros Hb Hk Hs HQ. unfold write_mem. apply wp_bind.
  eapply wp_lookup_obj; [done|]; cbv beta iota. rewrite Hk. apply wp_bind.
  eapply wp_the; [done|]. by apply wp_modify.
Qed.

Lemma wp_read_string E max b k d r Q w :
  heap w !! b = Some (Bytes k d) → by_cpu k = true →
  scan (default (S (length d)) max) d = Some r → Q r w →
  wp E (read_string max (Loc b 0)) Q w.
Proof.
  intros Hb Hk Hr HQ. unfold read_string. apply wp_bind.
  eapply wp_lookup_obj; [done|]. cbv beta iota zeta. rewrite Hk.
  change (drop (Z.to_nat 0) d) with d. by eapply wp_the.
Qed.

Lemma wp_read_cell E b k c Q w :
  heap w !! b = Some (Cell k c) → Q c w → wp E (read_cell (Loc b 0)) Q w.
Proof.
  intros Hb HQ. apply wp_bind. eapply wp_lookup_obj; [done|]; cbv beta iota. by apply wp_ret.
Qed.

Lemma wp_update_cell E why b k c c' f Q w :
  heap w !! b = Some (Cell k c) → f c = Some c' →
  Q tt (set_heap (<[b := Cell k c']> (heap w)) w) →
  wp E (update_cell why (Loc b 0) f) Q w.
Proof.
  intros Hb Hf HQ. apply wp_bind. eapply wp_lookup_obj; [done|]; cbv beta iota.
  apply wp_bind. rewrite Hf. by apply wp_ret, wp_modify.
Qed.

Lemma wp_local_raw {X} E o (body : ptr → M (world A) X) Q w :
  wp E (body (Loc (next w) 0)) (λ r w', Q r (set_heap (delete (next w) (heap w')) w'))
     (World (glob w) (<[next w := o]> (heap w)) (N.succ (next w)) (trace w)) →
  wp E (local o body) Q w.
Proof.
  intros H. apply wp_bind. unfold wp at 1, alloc. cbv beta iota.
  apply wp_bind. eapply wp_conseq; [exact H|]. intros r w' HQ. by apply wp_bind, wp_modify.
Qed.

Lemma wp_local {X} E o (body : ptr → M (world A) X) Q w :
  wf_mem w →
  (∀ b, b = next w → heap w !! b = None →
     wp E (body (Loc b 0)) (λ r w', Q r (set_heap (delete b (heap w')) w'))
        (World (glob w) (<[b := o]> (heap w)) (N.succ b) (trace w))) →
  wp E (local o body) Q w.
Proof.
  intros Hwf H. apply wp_local_raw, H; [done|]. apply Hwf. lia.
Qed.

Lemma wp_free E b o Q w :
  heap w !! b = Some o → obj_kind o = KHost →
  Q tt (set_heap (delete b (heap w)) w) → wp E (free (Loc b 0)) Q w.
Proof.
  intros Hb Hk HQ. apply wp_bind. eapply wp_lookup_obj; [done|]; cbv beta iota.
  rewrite bool_decide_eq_true_2 by done. by apply wp_modify.
Qed.

Lemma wp_free_null E Q w : Q tt w → wp E (free Null) Q w.
Proof. done. Qed.

(** The actions of the outside, one after the other. *)
Lemma wp_run_acts E handler (P : list (act A) → world A → Prop) Q xs w :
  P xs w →
  (∀ x xs w, P (x :: xs) w → wp E (run_act handler x) (λ _ w', P xs w') w) →
  (∀ w, P [] w → Q tt w) →
  wp E (run_acts handler xs) Q w.
Proof.
  intros HP Hs HQ. revert w HP. induction xs as [|x xs IH]; intros w HP; simpl.
  { by apply wp_ret, HQ. }
  apply wp_bind. eapply wp_conseq; [by apply Hs|]. intros [] w' ?. by apply IH.
Qed.

Lemma wp_ext E handler c Q w :
  wp E (run_acts handler (l_acts L (trace w) c))
     (λ _ w', Q (l_ret L (trace w') c) (push (ECall c (l_ret L (trace w') c)) w')) w →
  wp E (ext L handler c) Q w.
Proof.
  intros H. apply wp_bind, wp_gets, wp_bind. eapply wp_conseq; [done|].
  intros [] w' HQ. by apply wp_ext0.
Qed.

End specs.

(** ** Preserved relations

    [compat c c']: a typed object that holds [c] may come to hold [c'] by an
    assignment any function can make. [ordinary c]: any function may have a typed
    object that holds [c] at first. [MemStable R]: [R] is kept by the allocation of
    ordinary objects, by writes, by the release of memory that is not on the stack
    and by the whole life of an ordinary local variable. *)

Class Typed (A : api) : Type := {
  compat : a_cell A → a_cell A → Prop;
  ordinary : a_cell A → Prop;
}.
Definition ordinary_obj {A} `{!Typed A} (o : obj (a_cell A)) : Prop :=
  match o with Cell _ c => ordinary c | _ => True end.

Class MemStable {A} `{!Typed A} (R : world A → world A → Prop) : Prop := {
  ms_preorder :: PreOrder R;
  ms_alloc o : ordinary_obj o → keeps R (alloc o);
  ms_write_mem acc p bs : keeps R (write_mem acc p bs);
  ms_update w b k c c' :
    heap w !! b = Some (Cell k c) → compat c c' →
    R w (set_heap (<[b := Cell k c']> (heap w)) w);
  ms_release w b o :
    heap w !! b = Some o → obj_kind o ≠ KStack → R w (set_heap (delete b (heap w)) w);
  ms_local w o w' : ordinary_obj o →
    R (World (glob w) (<[next w := o]> (heap w)) (N.succ (next w)) (trace w)) w' →
    R w (set_heap (delete (next w) (heap w')) w');
}.

(** [Quiet R]: moreover [R] ignores allocations and output. *)
Class Quiet {A} `{!Typed A} (R : world A → world A → Prop) : Prop := {
  quiet_stable :: MemStable R;
  quiet_alloc w n ok : R w (push (EAlloc n ok) w);
  quiet_out w s f l : R w (push (EOut s f l) w);
}.

(** [Interactive R]: moreover [R] ignores what the outside does by itself. *)
Class Interactive {A} `{!Typed A} (R : world A → world A → Prop) : Prop := {
  inter_quiet :: Quiet R;
  inter_cb w cb r : R w (push (ECb cb r) w);
  inter_store w p bs : R w (push (EStore p bs) w);
}.

#[export] Hint Extern 1 (MemStable _) => typeclasses eauto : keeps.
#[export] Hint Extern 1 (Quiet _) => typeclasses eauto : keeps.
#[export] Hint Extern 1 (Interactive _) => typeclasses eauto : keeps.

Section keeps_ops.
Context {A : api} `{!Typed A} (L : lib A) (R : world A → world A → Prop).
Implicit Types (w : world A).

Section preorder.
Context `{!PreOrder R}.
Lemma keeps_emit e : (∀ w, R w (push e w)) → keeps R (emit e).
Proof. intros. by apply keeps_modify. Qed.
Lemma keeps_get_glob : keeps R get_glob.
Proof. apply keeps_gets; done. Qed.
Lemma keeps_mod_glob f : (∀ w, R w (set_glob (f (glob w)) w)) → keeps R (mod_glob f).
Proof. intros. by apply keeps_modify. Qed.
Lemma keeps_ext0 c : (∀ w r, R w (push (ECall c r) w)) → keeps R (ext0 L c).
Proof. intros H w. apply H. Qed.
Lemma keeps_lookup_obj why b : keeps R (lookup_obj why b).
Proof. unfold lookup_obj. solve_keeps. Qed.
Lemma keeps_read_mem acc p n : keeps R (read_mem acc p n).
Proof using PreOrder0. pose proof keeps_lookup_obj. unfold read_mem. solve_keeps. Qed.
Lemma keeps_read_cell p : keeps R (read_cell p).
Proof using PreOrder0. pose proof keeps_lookup_obj. unfold read_cell. solve_keeps. Qed.
Lemma keeps_read_string max p : keeps R (read_string max p).
Proof using PreOrder0. pose proof keeps_lookup_obj. unfold read_string. solve_keeps. Qed.
End preorder.

Section stable.
Context `{!MemStable R}.
Hint Extern 0 (ordinary_obj _) => exact I : keeps.
Hint Resolve ms_alloc ms_write_mem : keeps.
Hint Resolve keeps_lookup_obj keeps_read_mem keeps_read_cell : keeps.

Lemma keeps_update_cell why p f :
  (∀ c c', f c = Some c' → compat c c') → keeps R (update_cell why p f).
Proof.
  intros Hf w. unfold update_cell, lookup_obj, mbind, M_bind, gets, the.
  destruct p as [|b [| |]| |]; try reflexivity.
  destruct (heap w !! b) as [[k d|k c]|] eqn:Hb; simpl; try reflexivity.
  destruct (f c) as [c'|] eqn:Hc; simpl; [|reflexivity]. eapply ms_update; eauto.
Qed.

Lemma keeps_free p : keeps R (free p).
Proof.
  intros w. unfold free, lookup_obj, mbind, M_bind, gets, the.
  destruct p as [|b [| |]| |]; try reflexivity.
  destruct (heap w !! b) as [o|] eqn:Hb; simpl; [|reflexivity].
  case_bool_decide as Hk; [|reflexivity]. eapply ms_release; [done|]. by rewrite Hk.
Qed.

Lemma keeps_local {X} o (body : ptr → M (world A) X) :
  ordinary_obj o → (∀ p, keeps R (body p)) → keeps R (local o body).
Proof.
  intros Ho Hb w. unfold local, alloc, mbind, M_bind. simpl.
  match goal with |- context [body ?p ?w1] =>
    specialize (Hb p w1); destruct (body p w1) as [[r|h] w']; simpl in * end.
  - by eapply ms_local.
  - etrans; [|done]. by apply (ms_alloc o).
Qed.

Lemma keeps_memcpy d s n : keeps R (memcpy d s n).
Proof. unfold memcpy. solve_keeps. Qed.
Lemma keeps_memset d v n : keeps R (memset d v n).
Proof. unfold memset. solve_keeps. Qed.
End stable.

Section quiet.
Context `{!Quiet R}.
Lemma keeps_fprintf s f l : keeps R (fprintf s f l).
Proof. apply keeps_emit. intros. apply quiet_out. Qed.
Lemma keeps_malloc_obj n o : ordinary_obj o → keeps R (malloc_obj L n o).
Proof.
  intros Ho. unfold malloc_obj. apply keeps_bind; [typeclasses eauto| |].
  - intros w. apply quiet_alloc.
  - intros []; [by apply ms_alloc|apply keeps_ret; typeclasses eauto].
Qed.
End quiet.

Section interactive.
Context `{!Interactive R}.

Lemma keeps_run_act handler x :
  (∀ cb, keeps R (handler cb)) → keeps R (run_act handler x).
Proof.
  intros Hh. destruct x as [cb|p bs]; simpl;
    (apply keeps_bind; [typeclasses eauto|first [apply Hh|apply ms_write_mem]|]);
    intros ?; apply keeps_emit; intros; [apply inter_cb|apply inter_store].
Qed.

Lemma keeps_run_acts handler xs :
  (∀ cb, keeps R (handler cb)) → keeps R (run_acts handler xs).
Proof.
  intros Hh. induction xs as [|x xs IH]; simpl; [solve_keeps|].
  apply keeps_bind; [typeclasses eauto|by apply keeps_run_act|done].
Qed.

Lemma keeps_ext handler c :
  (∀ cb, keeps R (handler cb)) → (∀ w r, R w (push (ECall c r) w)) →
  keeps R (ext L handler c).
Proof.
  intros Hh Hc. unfold ext. apply keeps_bind; [typeclasses eauto|solve_keeps|].
  intros xs. apply keeps_bind; [typeclasses eauto|by apply keeps_run_acts|].
  intros _. by apply keeps_ext0.
Qed.
End interactive.
End keeps_ops.

#[export] Hint Resolve ms_alloc ms_write_mem
  keeps_emit keeps_get_glob keeps_mod_glob keeps_ext0 keeps_lookup_obj
  keeps_read_mem keeps_read_cell keeps_read_string keeps_free keeps_memcpy
  keeps_memset keeps_fprintf keeps_malloc_obj keeps_ext : keeps.

#[export] Hint Extern 3 (keeps _ (ext0 _ _)) => apply keeps_ext0; intros : keeps.
#[export] Hint Extern 3 (keeps _ (ext _ _ _)) => apply keeps_ext; intros : keeps.

#[export] Hint Extern 3 (keeps _ (local _ _)) =>
  apply keeps_local; [typeclasses eauto|exact I|]; solve_keeps : keeps.
#[export] Hint Extern 0 (ordinary_obj _) => exact I : keeps.
#[export] Hint Extern 3 (keeps _ (update_cell _ _ _)) =>
  apply keeps_update_cell; [typeclasses eauto|];
  intros [] ? ?; repeat case_match; simplify_eq; done : keeps.

(** A relation that does not look at the memory is stable. *)
Lemma mem_blind_stable {A} `{!Typed A} (R : world A → world A → Prop) :
  PreOrder R → (∀ w h n, R w (World (glob w) h n (trace w))) → MemStable R.
Proof.
  intros HR Hb.
  assert (∀ b o, keeps R (put_obj b o)) by (intros b o w; apply Hb).
  split; [done|..].
  - intros o _ w. apply Hb.
  - intros. unfold write_mem. pose proof (keeps_lookup_obj R). solve_keeps.
  - intros. apply Hb.
  - intros. apply Hb.
  - intros w o w' _ Hw. etrans; [|apply Hb]. etrans; [|exact Hw]. apply Hb.
Qed.

(** Such a relation is also kept by the life of a variable that is not ordinary. *)
Lemma keeps_local_blind {A X} (R : world A → world A → Prop) o (body : ptr → M (world A) X) :
  PreOrder R → (∀ w h n, R w (World (glob w) h n (trace w))) →
  (∀ p, keeps R (body p)) → keeps R (local o body).
Proof.
  intros HR Hb Hbody w. unfold local, alloc, mbind, M_bind. simpl.
  match goal with |- context [body ?p ?w1] =>
    specialize (Hbody p w1); destruct (body p w1) as [[r|h] w']; simpl in * end.
  - etrans; [|apply Hb]. etrans; [|exact Hbody]. apply Hb.
  - etrans; [|exact Hbody]. apply Hb.
Qed.

(** The relation "this observation is unchanged". *)
Definition same {W X} (f : W → X) (w w' : W) : Prop := f w' = f w.

#[export] Instance same_preorder {W X} (f : W → X) : PreOrder (same f).
Proof. split; [by intros w|]. intros a b c H1 H2. unfold same in *. congruence. Qed.

Lemma wf_mem_push {A} (e : event A) w : wf_mem w → wf_mem (push e w).
Proof. done. Qed.

Lemma wf_mem_alloc {A} g o tr (w : world A) :
  wf_mem w → wf_mem (World g (<[next w := o]> (heap w)) (N.succ (next w)) tr).
Proof. intros Hw b Hb. simpl in *. rewrite lookup_insert_ne by lia. apply Hw. lia. Qed.

Lemma wf_mem_glob {A} g (w : world A) : wf_mem w → wf_mem (set_glob g w).
Proof. done. Qed.

(** What a write may change: the bytes of one object. *)
Lemma write_mem_cases {A} acc p bs (w : world A) :
  snd (write_mem acc p bs w) = w ∨
  ∃ b k d d', heap w !! b = Some (Bytes k d) ∧ length d' = length d ∧
    snd (write_mem acc p bs w) = set_heap (<[b := Bytes k d']> (heap w)) w.
Proof.
  unfold write_mem. destruct p as [|b off| |]; try (by left).
  unfold lookup_obj, mbind, M_bind, gets, the. simpl.
  destruct (heap w !! b) as [[k d|k c]|] eqn:Hb; simpl; try (by left).
  destruct (acc k); simpl; [|by left].
  destruct (splice off bs d) as [d'|] eqn:Hs; simpl; [|by left].
  right. exists b, k, d, d'. split_and!; [done|by eapply splice_length|done].
Qed.

(** ** What every operation does to the world

    [grows w w']: identifiers only move forward, [wf_mem] is kept, and the
    history is extended. Every operation has this property. *)
Definition grows {A} (w w' : world A) : Prop :=
  (next w ≤ next w')%N ∧ (wf_mem w → wf_mem w') ∧ trace w `suffix_of` trace w'.

#[export] Instance grows_preorder {A} : PreOrder (@grows A).
Proof.
  split; [by intros w; split_and!|].
  intros a b c (?&?&?) (?&?&?). split_and!; [by etrans|auto|by etrans].
Qed.

Lemma grows_wf {A} (w w' : world A) : grows w w' → wf_mem w → wf_mem w'.
Proof. intros (?&?&?). auto. Qed.

Lemma grows_push {A} (e : event A) w : grows w (push e w).
Proof. split_and!; [done|done|]. simpl. by apply suffix_cons_r. Qed.

Lemma grows_set_glob {A} g (w : world A) : grows w (set_glob g w).
Proof. by split_and!. Qed.

Lemma grows_insert {A} (w : world A) b (o o' : obj (a_cell A)) :
  heap w !! b = Some o' → grows w (set_heap (<[b := o]> (heap w)) w).
Proof.
  intros Hb. split_and!; simpl; [done| |done]. intros Hwf b' Hb'. simpl.
  destruct (decide (b = b')) as [->|]; [by rewrite Hwf in Hb by done|].
  rewrite lookup_insert_ne by done. by apply Hwf.
Qed.

#[export] Instance grows_interactive {A} `{!Typed A} : Interactive (@grows A).
Proof.
  split; [|intros; apply grows_push..]. split; [|intros; apply grows_push..].
  split; [typeclasses eauto|..].
  - intros o _ w. split_and!; simpl; [lia| |done]. intros Hwf b Hb. simpl in *.
    rewrite lookup_insert_ne by lia. apply Hwf. lia.
  - intros acc p bs w.
    destruct (write_mem_cases acc p bs w) as [->|(b & k & d & d' & Hb & _ & ->)];
      [reflexivity|by eapply grows_insert].
  - intros w b k c c' Hb _. by eapply grows_insert.
  - intros w b o _ _. split_and!; simpl; [done| |done]. intros Hwf b' Hb'. simpl.
    rewrite lookup_delete_None. right. by apply Hwf.
  - intros w o w' _ (Hn&Hwf&Ht). simpl in *. split_and!; simpl; [lia| |done].
    intros Hw b' Hb'. simpl in *. rewrite lookup_delete_None. right.
    apply Hwf; [|done]. intros b Hb. simpl in *. rewrite lookup_insert_ne by lia.
    apply Hw. lia.
Qed.

#[export] Hint Resolve grows_push grows_set_glob : keeps.

(** Several relations at once. *)
Lemma all_interactive {A I} `{!Typed A} (R : I → world A → world A → Prop) :
  (∀ i, Interactive (R i)) → Interactive (λ w w', ∀ i, R i w w').
Proof.
  intros HR. split; [split; [split|..]|..].
  - split; [by intros w i|]. intros w1 w2 w3 H1 H2 i. etrans; [apply H1|apply H2].
  - intros o Ho w i. by apply (ms_alloc (R := R i)).
  - intros acc p bs w i. apply (ms_write_mem (R := R i)).
  - intros w b k c c' Hb Hc i. by eapply (ms_update (R := R i)).
  - intros w b o Hb Hk i. by eapply (ms_release (R := R i)).
  - intros w o w' Ho Hw i. eapply (ms_local (R := R i)), Hw; exact Ho.
  - intros w n ok i. apply (quiet_alloc (R := R i)).
  - intros w s f l i. apply (quiet_out (R := R i)).
  - intros w cb r i. apply (inter_cb (R := R i)).
  - intros w p bs i. apply (inter_store (R := R i)).
Qed.

(** An observation of the history that ignores what [Interactive] lists. *)
Lemma same_trace_interactive {A X} `{!Typed A} (f : history A → X) :
  (∀ e h, match e with ECall _ _ => True | _ => f (e :: h) = f h end) →
  Interactive (same (λ w : world A, f (trace w))).
Proof.
  intros Hf. split; [split; [apply mem_blind_stable; [typeclasses eauto|by intros]|..]|..];
    intros; unfold same; simpl.
  - apply (Hf (EAlloc n ok)).
  - apply (Hf (EOut s f0 l)).
  - apply (Hf (ECb cb r)).
  - apply (Hf (EStore p bs)).
Qed.

#[export] Instance same_glob_interactive {A X} `{!Typed A} (f : a_glob A → X) :
  Interactive (same (λ w : world A, f (glob w))).
Proof.
  split; [split; [apply mem_blind_stable; [typeclasses eauto|by intros]|..]|..]; done.
Qed.
