(* ===== verification/CLib.v ===== *)
(** * The C library functions the programs use on strings and integers

    strtol and its wrappers, strcasecmp, getopt, byte order, little-endian
    object representations. All of them are executable. *)

From S2P Require Import Prelude.
From stdpp Require Import pretty.
From Stdlib Require Import Ascii.
Open Scope Z_scope.

(** ** Numbers in strings *)

Definition code (c : ascii) : Z := Z.of_N (N_of_ascii c).

Definition is_space (c : ascii) : bool :=
  let n := code c in (n =? 32) || ((9 <=? n) && (n <=? 13)).

Definition digit (c : ascii) : option Z :=
  let n := code c in
  if (48 <=? n) && (n <=? 57) then Some (n - 48) else None.

(** The value of the longest prefix of decimal digits, after [acc]. *)
Fixpoint digits (s : string) (acc : Z) : Z :=
  match s with
  | EmptyString => acc
  | String c s' =>
      match digit c with Some d => digits s' (10 * acc + d) | None => acc end
  end.

Fixpoint skip_space (s : string) : string :=
  match s with
  | String c s' => if is_space c then skip_space s' else s
  | EmptyString => EmptyString
  end.

(** Sign and magnitude of the number at the start of a string. *)
Definition number (s : string) : bool * Z :=
  match skip_space s with
  | String "-" s' => (true, digits s' 0)
  | String "+" s' => (false, digits s' 0)
  | s' => (false, digits s' 0)
  end.

Definition LONG_MAX : Z := 2 ^ 63 - 1.
Definition LONG_MIN : Z := - 2 ^ 63.

(** strtol(s, NULL, 10): clamped at the ends of long. *)
Definition strtol (s : string) : Z :=
  let '(neg, m) := number s in
  Z.max LONG_MIN (Z.min LONG_MAX (if neg then - m else m)).

(** glibc: atol is strtol, atoi is strtol converted to int. *)
Definition atol (s : string) : Z := strtol s.
Definition atoi (s : string) : Z := s32 (strtol s).

(** strtoul / strtoull(s, NULL, 10): a minus sign negates modulo 2^64. *)
Definition strtoul (s : string) : Z :=
  let '(neg, m) := number s in
  if 2 ^ 64 <=? m then 2 ^ 64 - 1 else if neg then u64 (- m) else m.

Lemma digit_nonneg c d : digit c = Some d → 0 ≤ d.
Proof.
  unfold digit. destruct (Z.leb_spec 48 (code c)); [|done].
  destruct (_ <=? _); [|done]. simpl. intros [= <-]. lia.
Qed.

Lemma digits_nonneg s acc : 0 ≤ acc → 0 ≤ digits s acc.
Proof.
  revert acc. induction s as [|c s IH]; intros acc Ha; simpl; [done|].
  destruct (digit c) as [d|] eqn:Hd; [|done]. apply digit_nonneg in Hd. apply IH. lia.
Qed.

Lemma number_nonneg s : 0 ≤ (number s).2.
Proof.
  unfold number. destruct (skip_space s) as [|[[] [] [] [] [] [] [] []] s']; simpl; try done;
    by apply digits_nonneg || (apply (digits_nonneg (String _ _)); done).
Qed.

Lemma strtoul_range s : 0 ≤ strtoul s < 2 ^ 64.
Proof.
  unfold strtoul. pose proof (number_nonneg s) as Hn. destruct (number s) as [neg m]. simpl in Hn.
  destruct (Z.leb_spec (2 ^ 64) m); [lia|]. destruct neg; [apply u64_range|lia].
Qed.

Lemma atol_range s : LONG_MIN ≤ atol s ≤ LONG_MAX.
Proof.
  unfold atol, strtol, LONG_MIN, LONG_MAX. destruct (number s) as [[] m]; lia.
Qed.

Lemma atoi_range s : - 2 ^ 31 ≤ atoi s < 2 ^ 31.
Proof. apply (sgn_range 32). lia. Qed.

(** ** Arithmetic on int and long

    The exact result of an operation, or undefined behaviour if the type does
    not hold it. *)

Definition c_int {W} (z : Z) : M W Z :=
  if (- 2 ^ 31 <=? z) && (z <? 2 ^ 31) then mret z else stop (UB "signed overflow").
Definition c_long {W} (z : Z) : M W Z :=
  if (LONG_MIN <=? z) && (z <=? LONG_MAX) then mret z else stop (UB "signed overflow").

Lemma wp_c_int {W} E z (Q : Z → W → Prop) w :
  - 2 ^ 31 ≤ z < 2 ^ 31 → Q z w → wp E (c_int z) Q w.
Proof.
  intros Hz HQ. unfold c_int. rewrite (proj2 (Z.leb_le _ _)) by lia.
  rewrite (proj2 (Z.ltb_lt _ _)) by lia. by apply wp_ret.
Qed.

Lemma wp_c_long {W} E z (Q : Z → W → Prop) w :
  LONG_MIN ≤ z ≤ LONG_MAX → Q z w → wp E (c_long z) Q w.
Proof.
  intros Hz HQ. unfold c_long. rewrite !(proj2 (Z.leb_le _ _)) by lia. by apply wp_ret.
Qed.

Section keeps_arith.
Context {W : Type} (R : W → W → Prop) `{!PreOrder R}.
Lemma keeps_c_int z : keeps R (c_int z).
Proof. unfold c_int. solve_keeps. Qed.
Lemma keeps_c_long z : keeps R (c_long z).
Proof. unfold c_long. solve_keeps. Qed.
End keeps_arith.
#[export] Hint Resolve keeps_c_int keeps_c_long : keeps.

(** ** strcasecmp *)

Definition to_lower (c : ascii) : ascii :=
  let n := code c in
  if (65 <=? n) && (n <=? 90) then ascii_of_N (Z.to_N (n + 32)) else c.

Fixpoint lower (s : string) : string :=
  match s with
  | EmptyString => EmptyString
  | String c s' => String (to_lower c) (lower s')
  end.

(** strcasecmp(a, b) == 0 *)
Definition strcaseeq (a b : string) : bool := bool_decide (lower a = lower b).

(** ** getopt

    The answers of successive calls of getopt(argc, argv, spec) until it
    returns -1: an option character with its argument, or "?" for an unknown
    option or a missing argument. Operands are skipped (GNU permutation). *)

Definition char_eqb (a b : ascii) : bool := Ascii.eqb a b.

(** Does the option take an argument? [None]: not an option. *)
Fixpoint opt_spec (spec : string) (c : ascii) : option bool :=
  match spec with
  | EmptyString => None
  | String o spec' =>
      if char_eqb o c && negb (char_eqb c ":") then
        match spec' with String ":" _ => Some true | _ => Some false end
      else opt_spec spec' c
  end.

(** One argument "-xyz": the options in it, and the option that still needs the
    next argument. *)
Fixpoint cluster (spec s : string) : list (ascii * string) * option ascii :=
  match s with
  | EmptyString => ([], None)
  | String c s' =>
      match opt_spec spec c with
      | Some true =>
          match s' with
          | EmptyString => ([], Some c)
          | _ => ([(c, s')], None)
          end
      | Some false => let '(os, need) := cluster spec s' in ((c, EmptyString) :: os, need)
      | None => let '(os, need) := cluster spec s' in (("?"%char, EmptyString) :: os, need)
      end
  end.

Fixpoint getopt (spec : string) (args : list string) : list (ascii * string) :=
  match args with
  | [] => []
  | String "-" (String "-" EmptyString) :: _ => []
  | String "-" (String c s) :: rest =>
      let '(os, need) := cluster spec (String c s) in
      match need with
      | None => os ++ getopt spec rest
      | Some o =>
          match rest with
          | [] => os ++ [("?"%char, EmptyString)]
          | a :: rest' => os ++ (o, a) :: getopt spec rest'
          end
      end
  | _ :: rest => getopt spec rest
  end.

(** The operands: what is at argv[optind], ... when getopt has returned -1. *)
Fixpoint operands (spec : string) (args : list string) : list string :=
  match args with
  | [] => []
  | String "-" (String "-" EmptyString) :: rest => rest
  | String "-" (String c s) :: rest =>
      match snd (cluster spec (String c s)) with
      | None => operands spec rest
      | Some _ => match rest with [] => [] | _ :: rest' => operands spec rest' end
      end
  | a :: rest => a :: operands spec rest
  end.

(** ** Byte order *)

(** htons / ntohs on a little-endian machine. *)
Definition htons (x : Z) : Z := Z.lor (Z.shiftl (Z.land x 255) 8) (Z.shiftr x 8).
Definition ntohs (x : Z) : Z := htons x.

(** The object representation of an [n]-byte unsigned integer. *)
Fixpoint le_bytes (n : nat) (z : Z) : list Z :=
  match n with
  | O => []
  | S n' => z `mod` 256 :: le_bytes n' (z / 256)
  end.

Fixpoint le_val (bs : list Z) : Z :=
  match bs with
  | [] => 0
  | b :: bs' => b + 256 * le_val bs'
  end.

Definition is_byte (b : Z) : Prop := 0 ≤ b < 256.

Lemma le_bytes_length n z : length (le_bytes n z) = n.
Proof. revert z. induction n; simpl; auto. Qed.

Lemma le_bytes_bytes n z : Forall is_byte (le_bytes n z).
Proof.
  revert z. induction n as [|n IH]; intros z; simpl; constructor; [|apply IH].
  unfold is_byte. pose proof (Z.mod_pos_bound z 256). lia.
Qed.

Lemma le_val_bytes n z : le_val (le_bytes n z) = z `mod` 256 ^ Z.of_nat n.
Proof.
  revert z. induction n as [|n IH]; intros z.
  { cbn [le_bytes le_val]. by rewrite Z.mod_1_r. }
  cbn [le_bytes le_val]. rewrite IH, Nat2Z.inj_succ, Z.pow_succ_r by lia.
  rewrite Z.rem_mul_r; [lia|lia|]. apply Z.pow_pos_nonneg; lia.
Qed.

Lemma le_bytes_val bs : Forall is_byte bs → le_bytes (length bs) (le_val bs) = bs.
Proof.
  induction 1 as [|b bs Hb Hbs IH]; [done|]. cbn [length le_val le_bytes].
  unfold is_byte in Hb. f_equal.
  - rewrite Z.mul_comm, Z.mod_add by lia. by apply Z.mod_small.
  - rewrite Z.mul_comm, Z.div_add by lia. by rewrite Z.div_small.
Qed.

Lemma le_val_range bs : Forall is_byte bs → 0 ≤ le_val bs < 256 ^ Z.of_nat (length bs).
Proof.
  induction 1 as [|b bs Hb Hbs IH]; [done|]. cbn [length le_val].
  rewrite Nat2Z.inj_succ, Z.pow_succ_r by lia. unfold is_byte in Hb. lia.
Qed.

Lemma htons_bytes x : 0 ≤ x < 65536 → htons x = 256 * (x `mod` 256) + x / 256.
Proof.
  intros Hx. unfold htons.
  change 255 with (Z.ones 8). rewrite Z.land_ones by lia.
  rewrite Z.shiftr_div_pow2, Z.shiftl_mul_pow2 by lia.
  change (2 ^ 8) with 256.
  assert (Z.land (x `mod` 256 * 256) (x / 256) = 0) as Hz.
  { apply Z.bits_inj'. intros i Hi. rewrite Z.land_spec, Z.bits_0.
    destruct (decide (i < 8)) as [Hlt|Hge].
    - change 256 with (2 ^ 8) at 2. rewrite Z.mul_pow2_bits_low by lia. done.
    - rewrite (Z.bits_above_log2 (x / 256)); [by rewrite andb_false_r|..].
      + apply Z.div_pos; lia.
      + destruct (decide (x / 256 = 0)) as [->|]; [simpl; lia|].
        apply Z.log2_lt_pow2; [pose proof (Z.div_pos x 256); lia|].
        apply Z.lt_le_trans with (2 ^ 8); [apply Z.div_lt_upper_bound; lia|].
        apply Z.pow_le_mono_r; lia. }
  pose proof (Z.add_lor_land (x `mod` 256 * 256) (x / 256)) as Hs. lia.
Qed.

Lemma htons_range x : 0 ≤ x < 65536 → 0 ≤ htons x < 65536.
Proof.
  intros Hx. rewrite htons_bytes by done.
  pose proof (Z.mod_pos_bound x 256).
  pose proof (Z.div_lt_upper_bound x 256 256). pose proof (Z.div_pos x 256). lia.
Qed.

Lemma ntohs_htons x : 0 ≤ x < 65536 → ntohs (htons x) = x.
Proof.
  intros Hx. unfold ntohs. rewrite (htons_bytes (htons x)) by by apply htons_range.
  rewrite htons_bytes by done.
  Z.div_mod_to_equations. lia.
Qed.

(** ** Printed numbers are read back *)

Lemma digit_char x : (x < 10)%N → digit (pretty_N_char x) = Some (Z.of_N x).
Proof.
  intros Hx. destruct x as [|p]; [done|].
  do 4 (destruct p as [p|p|]; [..|done]); lia || done.
Qed.

Lemma last_digit x : (x `mod` 10 < 10)%N.
Proof. by apply N.mod_lt. Qed.

Lemma tenth_lt x : (0 < x → x / 10 < x)%N.
Proof. intros Hx. by apply N.div_lt. Qed.

(** The digits in front of [s] are read before it. *)
Lemma digits_pretty x s :
  (0 < x)%N → digits (pretty_N_go x s) 0 = digits s (Z.of_N x).
Proof.
  revert s. induction (N.lt_wf_0 x) as [x _ IH]; intros s Hx.
  rewrite pretty_N_go_step by done.
  pose proof (N.div_mod x 10). pose proof (last_digit x).
  destruct (decide (x / 10 = 0)%N) as [Hz|Hz].
  - rewrite Hz, pretty_N_go_0. simpl. rewrite digit_char by done. f_equal. lia.
  - rewrite IH by first [by apply tenth_lt|by apply N.neq_0_lt_0]. simpl.
    rewrite digit_char by done. f_equal. lia.
Qed.

Lemma pretty_starts x s :
  (0 < x)%N → ∃ d s', (d < 10)%N ∧ pretty_N_go x s = String (pretty_N_char d) s'.
Proof.
  revert s. induction (N.lt_wf_0 x) as [x _ IH]; intros s Hx.
  rewrite pretty_N_go_step by done.
  destruct (decide (x / 10 = 0)%N) as [Hz|Hz].
  - rewrite Hz, pretty_N_go_0. exists (x `mod` 10)%N, s. split; [apply last_digit|done].
  - apply IH; [by apply tenth_lt|by apply N.neq_0_lt_0].
Qed.

Lemma number_pretty z : 0 ≤ z → number (pretty z) = (false, z).
Proof.
  intros Hz. destruct z as [|p|p]; [done| |lia]. change (pretty (Zpos p)) with (pretty_N_go (Npos p) "").
  destruct (pretty_starts (Npos p) "") as (d & s & Hd & Heq); [lia|].
  pose proof (digits_pretty (Npos p) "" ltac:(lia)) as Hdig. rewrite Heq in *.
  unfold number. simpl in Hdig |- *. revert Hdig.
  destruct d as [|q]; [by intros <-|].
  do 4 (destruct q as [q|q|]; [..|by intros <-]); lia.
Qed.

Lemma strtol_pretty z : 0 ≤ z ≤ LONG_MAX → strtol (pretty z) = z.
Proof.
  intros Hz. unfold strtol. rewrite number_pretty by lia. unfold LONG_MAX, LONG_MIN in *. lia.
Qed.

Lemma atol_pretty z : 0 ≤ z ≤ LONG_MAX → atol (pretty z) = z.
Proof. apply strtol_pretty. Qed.

Lemma atoi_pretty z : 0 ≤ z < 2 ^ 31 → atoi (pretty z) = z.
Proof.
  intros Hz. unfold atoi. rewrite strtol_pretty by (unfold LONG_MAX; lia).
  apply sgn_small; lia.
Qed.
