(* ===== verification/Ucx.v ===== *)
(** * The UCX constants and macros the programs are compiled against

    The headers of UCX are not part of the repository: status codes, the
    encoding of status pointers and the flag bits are fields of type classes,
    with the documented facts the programs rely on as laws. [Reference] gives
    instances, so that concrete runs can be evaluated. *)

From S2P Require Import Prelude.
Open Scope Z_scope.

(** ** Status codes and status pointers (ucs/type/status.h) *)

Class Ucs : Type := {
  UCS_OK : Z;
  UCS_INPROGRESS : Z;
  UCS_ERR_NO_MESSAGE : Z;
  UCS_ERR_NO_RESOURCE : Z;
  UCS_ERR_IO_ERROR : Z;
  UCS_ERR_NO_MEMORY : Z;
  UCS_ERR_INVALID_PARAM : Z;
  UCS_ERR_UNSUPPORTED : Z;
  (* a request handle as the library returns it: NULL, an error, or a request *)
  UCS_PTR_IS_ERR : Z → bool;
  UCS_PTR_IS_PTR : Z → bool;
  UCS_PTR_STATUS : Z → Z;

  ucs_ok_zero : UCS_OK = 0;
  ucs_inprogress_pos : 0 < UCS_INPROGRESS;
  ucs_errors_neg : Forall (λ e, e < 0)
    [UCS_ERR_NO_MESSAGE; UCS_ERR_NO_RESOURCE; UCS_ERR_IO_ERROR;
     UCS_ERR_NO_MEMORY; UCS_ERR_INVALID_PARAM; UCS_ERR_UNSUPPORTED];
  ucs_ptr_null :
    UCS_PTR_IS_ERR 0 = false ∧ UCS_PTR_IS_PTR 0 = false ∧ UCS_PTR_STATUS 0 = UCS_OK;
  ucs_ptr_nonnull : ∀ p, p ≠ 0 → UCS_PTR_IS_PTR p = negb (UCS_PTR_IS_ERR p);
  ucs_ptr_err : ∀ p, UCS_PTR_IS_ERR p = true → UCS_PTR_STATUS p < 0;
}.

(** ** UCP flag bits (ucp/api/ucp_def.h, ucp/api/ucp.h) *)

Class Ucp : Type := {
  UCP_PARAM_FIELD_FEATURES : Z;
  UCP_PARAM_FIELD_REQUEST_SIZE : Z;
  UCP_PARAM_FIELD_REQUEST_INIT : Z;
  UCP_PARAM_FIELD_NAME : Z;
  UCP_FEATURE_TAG : Z;
  UCP_FEATURE_RMA : Z;
  UCP_FEATURE_STREAM : Z;
  UCP_FEATURE_AM : Z;
  UCP_WORKER_PARAM_FIELD_THREAD_MODE : Z;
  UCS_THREAD_MODE_SINGLE : Z;
  UCS_THREAD_MODE_MULTI : Z;
  UCS_CONFIG_PRINT_CONFIG : Z;
  UCP_WORKER_ATTR_FIELD_ADDRESS : Z;
  UCP_MEM_MAP_PARAM_FIELD_ADDRESS : Z;
  UCP_MEM_MAP_PARAM_FIELD_LENGTH : Z;
  UCP_EP_PARAM_FIELD_REMOTE_ADDRESS : Z;
  UCP_EP_PARAM_FIELD_ERR_HANDLING_MODE : Z;
  UCP_EP_PARAM_FIELD_ERR_HANDLER : Z;
  UCP_EP_PARAM_FIELD_USER_DATA : Z;
  UCP_EP_PARAM_FIELD_SOCK_ADDR : Z;
  UCP_EP_PARAM_FIELD_FLAGS : Z;
  UCP_EP_PARAM_FIELD_CONN_REQUEST : Z;
  UCP_EP_PARAMS_FLAGS_CLIENT_SERVER : Z;
  UCP_EP_CLOSE_FLAG_FORCE : Z;
  UCP_LISTENER_PARAM_FIELD_SOCK_ADDR : Z;
  UCP_LISTENER_PARAM_FIELD_CONN_HANDLER : Z;
  UCP_LISTENER_ATTR_FIELD_SOCKADDR : Z;
  UCP_CONN_REQUEST_ATTR_FIELD_CLIENT_ADDR : Z;
  UCP_AM_HANDLER_PARAM_FIELD_ID : Z;
  UCP_AM_HANDLER_PARAM_FIELD_CB : Z;
  UCP_AM_HANDLER_PARAM_FIELD_ARG : Z;
  UCP_AM_RECV_ATTR_FLAG_RNDV : Z;
  UCP_OP_ATTR_FIELD_CALLBACK : Z;
  UCP_OP_ATTR_FIELD_USER_DATA : Z;
  UCP_OP_ATTR_FIELD_DATATYPE : Z;
  UCP_OP_ATTR_FIELD_FLAGS : Z;
  UCP_OP_ATTR_FIELD_MEMORY_TYPE : Z;
  UCP_OP_ATTR_FIELD_MEMH : Z;
  UCP_OP_ATTR_FLAG_NO_IMM_CMPL : Z;
  UCP_STREAM_RECV_FLAG_WAITALL : Z;
  (* sizeof(ucp_dt_iov_t), the element of an array the program allocates *)
  sizeof_ucp_dt_iov_t : Z;
  sizeof_ucp_dt_iov_t_pos : 0 < sizeof_ucp_dt_iov_t;
}.

(** ucp_dt_make_contig(n) and UCP_DATATYPE_IOV *)
Inductive ucp_datatype : Type :=
  | ucp_dt_make_contig (elem_size : Z)
  | UCP_DATATYPE_IOV.

(** flag & bit, as a condition *)
Definition has_flag (flags bit : Z) : bool := negb (Z.land flags bit =? 0).

Lemma ucs_inprogress_not_ok `{!Ucs} : UCS_INPROGRESS ≠ UCS_OK.
Proof. pose proof ucs_inprogress_pos. rewrite ucs_ok_zero. lia. Qed.

Lemma ucs_ptr_cases `{!Ucs} p :
  p = 0 ∨ (p ≠ 0 ∧ UCS_PTR_IS_ERR p = true ∧ UCS_PTR_IS_PTR p = false) ∨
  (p ≠ 0 ∧ UCS_PTR_IS_ERR p = false ∧ UCS_PTR_IS_PTR p = true).
Proof.
  destruct (decide (p = 0)) as [|Hp]; [by left|right].
  rewrite (ucs_ptr_nonnull p Hp). destruct (UCS_PTR_IS_ERR p); auto.
Qed.

Lemma ucs_ptr_not_err `{!Ucs} p : UCS_PTR_IS_PTR p = true → UCS_PTR_IS_ERR p = false.
Proof.
  destruct (ucs_ptr_cases p) as [->|[(_ & _ & ->)|(_ & -> & _)]]; [|done..].
  by destruct ucs_ptr_null as (-> & _).
Qed.

(** ** Reference instances *)

Module Reference.
#[export] Program Instance ucs : Ucs := {|
  UCS_OK := 0;
  UCS_INPROGRESS := 1;
  UCS_ERR_NO_MESSAGE := -1;
  UCS_ERR_NO_RESOURCE := -2;
  UCS_ERR_IO_ERROR := -3;
  UCS_ERR_NO_MEMORY := -4;
  UCS_ERR_INVALID_PARAM := -5;
  UCS_ERR_UNSUPPORTED := -22;
  UCS_PTR_IS_ERR p := 2 ^ 64 - 100 <=? p;
  UCS_PTR_IS_PTR p := negb (p =? 0) && (p <? 2 ^ 64 - 100);
  UCS_PTR_STATUS p := if 2 ^ 64 - 100 <=? p then - (2 ^ 64 - Z.min p (2 ^ 64 - 1)) else 0;
|}.
Next Obligation. done. Qed.
Next Obligation. lia. Qed.
Next Obligation. repeat constructor. Qed.
Next Obligation. done. Qed.
Next Obligation.
  intros p Hp. simpl.
  destruct (Z.eqb_spec p 0), (Z.ltb_spec p (2 ^ 64 - 100)),
    (Z.leb_spec (2 ^ 64 - 100) p); simpl; try done; lia.
Qed.
Next Obligation. intros p H. simpl in *. rewrite H. lia. Qed.

#[export] Program Instance ucp : Ucp := {|
  UCP_PARAM_FIELD_FEATURES := 1;
  UCP_PARAM_FIELD_REQUEST_SIZE := 2;
  UCP_PARAM_FIELD_REQUEST_INIT := 4;
  UCP_PARAM_FIELD_NAME := 128;
  UCP_FEATURE_TAG := 1;
  UCP_FEATURE_RMA := 2;
  UCP_FEATURE_STREAM := 32;
  UCP_FEATURE_AM := 64;
  UCP_WORKER_PARAM_FIELD_THREAD_MODE := 1;
  UCS_THREAD_MODE_SINGLE := 0;
  UCS_THREAD_MODE_MULTI := 2;
  UCS_CONFIG_PRINT_CONFIG := 1;
  UCP_WORKER_ATTR_FIELD_ADDRESS := 2;
  UCP_MEM_MAP_PARAM_FIELD_ADDRESS := 1;
  UCP_MEM_MAP_PARAM_FIELD_LENGTH := 2;
  UCP_EP_PARAM_FIELD_REMOTE_ADDRESS := 1;
  UCP_EP_PARAM_FIELD_ERR_HANDLING_MODE := 2;
  UCP_EP_PARAM_FIELD_ERR_HANDLER := 4;
  UCP_EP_PARAM_FIELD_USER_DATA := 8;
  UCP_EP_PARAM_FIELD_SOCK_ADDR := 16;
  UCP_EP_PARAM_FIELD_FLAGS := 32;
  UCP_EP_PARAM_FIELD_CONN_REQUEST := 64;
  UCP_EP_PARAMS_FLAGS_CLIENT_SERVER := 1;
  UCP_EP_CLOSE_FLAG_FORCE := 1;
  UCP_LISTENER_PARAM_FIELD_SOCK_ADDR := 1;
  UCP_LISTENER_PARAM_FIELD_CONN_HANDLER := 4;
  UCP_LISTENER_ATTR_FIELD_SOCKADDR := 1;
  UCP_CONN_REQUEST_ATTR_FIELD_CLIENT_ADDR := 1;
  UCP_AM_HANDLER_PARAM_FIELD_ID := 1;
  UCP_AM_HANDLER_PARAM_FIELD_CB := 4;
  UCP_AM_HANDLER_PARAM_FIELD_ARG := 8;
  UCP_AM_RECV_ATTR_FLAG_RNDV := 2;
  UCP_OP_ATTR_FIELD_CALLBACK := 2;
  UCP_OP_ATTR_FIELD_USER_DATA := 4;
  UCP_OP_ATTR_FIELD_DATATYPE := 8;
  UCP_OP_ATTR_FIELD_FLAGS := 16;
  UCP_OP_ATTR_FIELD_MEMORY_TYPE := 64;
  UCP_OP_ATTR_FIELD_MEMH := 256;
  UCP_OP_ATTR_FLAG_NO_IMM_CMPL := 65536;
  UCP_STREAM_RECV_FLAG_WAITALL := 1;
  sizeof_ucp_dt_iov_t := 16;
|}.
Next Obligation. lia. Qed.
End Reference.
