(* ===== verification/HelloUtil.v ===== *)
(** * hello_world_util.h: memory of a selectable type, the test string

    The header is included by three programs; the definitions are written
    against the interface [HelloApi], which a program's vocabulary implements:
    where its copy of the global test_mem_type is, and how it calls CUDA. *)

From S2P Require Import Prelude CRuntime Ucx.
Open Scope Z_scope.

(** The values of ucs_memory_type_t that the programs use. *)
Inductive ucs_memory_type_t : Type :=
  | UCS_MEMORY_TYPE_HOST
  | UCS_MEMORY_TYPE_CUDA
  | UCS_MEMORY_TYPE_CUDA_MANAGED
  | UCS_MEMORY_TYPE_LAST.

#[export] Instance ucs_memory_type_t_eq_dec : EqDecision ucs_memory_type_t.
Proof. solve_decision. Defined.

(** The CUDA runtime calls the programs make. *)
Inductive cuda_op : Type :=
  | cudaMalloc (length : Z)
  | cudaMallocManaged (length : Z)
  | cudaFree (p : ptr)
  | cudaMemcpy (dst src : ptr) (count : Z)
  | cudaMemset (dst : ptr) (value count : Z).

(** How the programs were built: with -DHAVE_CUDA or not, and the values of the
    constants they print or compare with. *)
Class Cuda : Type := {
  HAVE_CUDA : bool;
  cudaSuccess : Z;
  mem_type_num : ucs_memory_type_t → Z;
}.

(** What a program provides to the header. *)
Class HelloApi (A : api) : Type := {
  test_mem_type : a_glob A → ucs_memory_type_t;
  cuda_call : cuda_op → a_call A;
  cuda_res : ∀ op, a_ret A (cuda_call op) → Z;    (* a cudaError_t *)
}.

(** The character the test string has at position [i]: 'A' + (i % 26). *)
Definition test_char (i : Z) : Z := 65 + i `mod` 26.

(** Its first [n] characters. *)
Definition test_chars (n : nat) : list mbyte :=
  (λ i, Some (test_char (Z.of_nat i))) <$> seq 0 n.

Section hello.
Context `{!Cuda} {A : api} `{!HelloApi A} (L : lib A).
Local Abbreviation M := (M (world A)).

Definition eprintf (fmt : string) (args : list arg) : M unit := fprintf Stderr fmt args.

(** CUDA_FUNC(_func): report a failure and go on. *)
Definition CUDA_FUNC (name : string) (op : cuda_op) : M Z :=
  r ← ext0 L (cuda_call op);
  let _result := cuda_res op r in
  when (negb (_result =? cudaSuccess))
    (eprintf "%s failed: %s\n" [AStr name; AZ _result]);;
  mret _result.

(** cudaMalloc(&ptr, n): a failed call leaves [ptr] as it was. *)
Definition cuda_malloc (name : string) (op : cuda_op) (k : mkind) (n : Z) (old : ptr)
  : M ptr :=
  e ← CUDA_FUNC name op;
  if e =? cudaSuccess then alloc (Bytes k (replicate (Z.to_nat n) None)) else mret old.

(** What a successful cudaFree, cudaMemcpy and cudaMemset do. cudaFree takes a block
    that came from CUDA, or NULL. *)
Definition cuda_release (p : ptr) : M unit :=
  match p with
  | Null => mret tt
  | Loc b 0 =>
      o ← lookup_obj "cudaFree of a dead object" b;
      match obj_kind o with
      | KDevice | KManaged => del_obj b
      | _ => stop (UB "cudaFree of memory that CUDA did not return")
      end
  | _ => stop (UB "cudaFree of an invalid pointer")
  end.
Definition cuda_copy (dst src : ptr) (count : Z) : M unit :=
  bs ← read_mem by_lib src count; write_mem by_lib dst bs.
Definition cuda_fill (dst : ptr) (value count : Z) : M unit :=
  write_mem by_lib dst (replicate (Z.to_nat count) (Some (value `mod` 256))).

(** CUDA_FUNC(op), with the effect [m] that the call has if it succeeds. *)
Definition cuda_run (name : string) (op : cuda_op) (m : M unit) : M unit :=
  e ← CUDA_FUNC name op; when (e =? cudaSuccess) m.

Definition cuda_free (p : ptr) : M unit :=
  cuda_run "cudaFree(address)" (cudaFree p) (cuda_release p).
Definition cuda_memcpy (dst src : ptr) (count : Z) : M unit :=
  cuda_run "cudaMemcpy(dst, src, count, cudaMemcpyDefault)" (cudaMemcpy dst src count)
    (cuda_copy dst src count).
Definition cuda_memset (dst : ptr) (value count : Z) : M unit :=
  cuda_run "cudaMemset(dst, value, count)" (cudaMemset dst value count)
    (cuda_fill dst value count).

Definition mem_type_malloc (length : Z) : M ptr :=
  g ← get_glob;
  let unsupported :=
    eprintf "Unsupported memory type: %d\n" [AZ (mem_type_num (test_mem_type g))];; mret Null in
  match test_mem_type g with
  | UCS_MEMORY_TYPE_HOST => malloc L length
  | UCS_MEMORY_TYPE_CUDA =>
      if HAVE_CUDA
      then cuda_malloc "cudaMalloc(&ptr, length)" (cudaMalloc length) KDevice length Indet
      else unsupported
  | UCS_MEMORY_TYPE_CUDA_MANAGED =>
      if HAVE_CUDA
      then cuda_malloc "cudaMallocManaged(&ptr, length, cudaMemAttachGlobal)"
             (cudaMallocManaged length) KManaged length Indet
      else unsupported
  | UCS_MEMORY_TYPE_LAST => unsupported
  end.

Definition mem_type_free (address : ptr) : M unit :=
  g ← get_glob;
  match test_mem_type g with
  | UCS_MEMORY_TYPE_HOST => free address
  | UCS_MEMORY_TYPE_CUDA | UCS_MEMORY_TYPE_CUDA_MANAGED =>
      if HAVE_CUDA then cuda_free address
      else eprintf "Unsupported memory type: %d\n" [AZ (mem_type_num (test_mem_type g))]
  | UCS_MEMORY_TYPE_LAST => eprintf "Unsupported memory type: %d\n" [AZ (mem_type_num (test_mem_type g))]
  end.

Definition mem_type_memcpy (dst src : ptr) (count : Z) : M ptr :=
  g ← get_glob;
  match test_mem_type g with
  | UCS_MEMORY_TYPE_HOST => memcpy dst src count
  | UCS_MEMORY_TYPE_CUDA | UCS_MEMORY_TYPE_CUDA_MANAGED =>
      if HAVE_CUDA then cuda_memcpy dst src count
      else eprintf "Unsupported memory type: %d\n" [AZ (mem_type_num (test_mem_type g))]
  | UCS_MEMORY_TYPE_LAST => eprintf "Unsupported memory type: %d\n" [AZ (mem_type_num (test_mem_type g))]
  end;;
  mret dst.

Definition mem_type_memset (dst : ptr) (value count : Z) : M ptr :=
  g ← get_glob;
  match test_mem_type g with
  | UCS_MEMORY_TYPE_HOST => memset dst value count
  | UCS_MEMORY_TYPE_CUDA | UCS_MEMORY_TYPE_CUDA_MANAGED =>
      if HAVE_CUDA then cuda_memset dst value count
      else eprintf "Unsupported memory type: %d" [AZ (mem_type_num (test_mem_type g))]
  | UCS_MEMORY_TYPE_LAST => eprintf "Unsupported memory type: %d" [AZ (mem_type_num (test_mem_type g))]
  end;;
  mret dst.

(** The switch is on the global test_mem_type, not on the parameter. *)
Definition check_mem_type_support (mem_type : ucs_memory_type_t) : M bool :=
  g ← get_glob;
  match test_mem_type g with
  | UCS_MEMORY_TYPE_HOST => mret true
  | UCS_MEMORY_TYPE_CUDA | UCS_MEMORY_TYPE_CUDA_MANAGED => mret HAVE_CUDA
  | UCS_MEMORY_TYPE_LAST => eprintf "Unsupported memory type: %d" [AZ (mem_type_num (test_mem_type g))];; mret false
  end.

Definition parse_mem_type (opt_arg : string) : M ucs_memory_type_t :=
  let unsupported :=
    eprintf "Unsupported memory type: '%s'.\n" [AStr opt_arg];;
    mret UCS_MEMORY_TYPE_LAST in
  let try_managed :=
    if bool_decide (opt_arg = "cuda-managed") then
      ok ← check_mem_type_support UCS_MEMORY_TYPE_CUDA_MANAGED;
      if (ok : bool) then mret UCS_MEMORY_TYPE_CUDA_MANAGED else unsupported
    else unsupported in
  if bool_decide (opt_arg = "host") then mret UCS_MEMORY_TYPE_HOST
  else if bool_decide (opt_arg = "cuda") then
    ok ← check_mem_type_support UCS_MEMORY_TYPE_CUDA;
    if (ok : bool) then mret UCS_MEMORY_TYPE_CUDA else try_managed
  else try_managed.

Definition print_common_help : M unit :=
  eprintf "  -p <port>     Set alternative server port (default:13337)\n" [];;
  eprintf "  -6            Use IPv6 address in data exchange\n" [];;
  eprintf "  -s <size>     Set test string length (default:16)\n" [];;
  eprintf "  -m <mem type> Memory type of messages\n" [];;
  eprintf "                host - system memory (default)\n" [];;
  c ← check_mem_type_support UCS_MEMORY_TYPE_CUDA;
  when c (eprintf "                cuda - NVIDIA GPU memory\n" []);;
  m ← check_mem_type_support UCS_MEMORY_TYPE_CUDA_MANAGED;
  when m (eprintf "                cuda-managed - NVIDIA GPU managed/unified memory\n" []).

(** tmp_str[i] = c, then ++i on the int i. *)
Definition put_char (tmp_str : ptr) (i : nat) : M unit :=
  match tmp_str with
  | Loc b off => write_mem by_cpu (Loc b (off + Z.of_nat i)) [Some (test_char (Z.of_nat i))]
  | p => write_mem by_cpu p [Some (test_char (Z.of_nat i))]
  end;;
  when (Z.of_nat i =? 2 ^ 31 - 1) (stop (UB "signed overflow")).

(** The size is a size_t: the bound size - 1 wraps around at 0. *)
Definition generate_test_string (str : ptr) (size : Z) : M Z :=
  tmp_str ← malloc L size;
  if bool_decide (tmp_str = Null) then
    eprintf "Failed to %s\n" [AStr "allocate memory\n"];; mret (-1)
  else
    for_up 0 (Z.to_nat (u64 (size - 1))) (put_char tmp_str);;
    mem_type_memcpy str tmp_str size;;
    free tmp_str;;
    mret 0.
End hello.

(** ** Preserved relations *)

(** [HelloQuiet R]: [R] also ignores the calls of the CUDA run time. *)
Class HelloQuiet {A} `{!HelloApi A, !Typed A} (R : world A → world A → Prop) : Prop := {
  hq_quiet :: Quiet R;
  hq_cuda w op r : R w (push (ECall (cuda_call op) r) w);
}.
#[export] Hint Extern 1 (HelloQuiet _) => typeclasses eauto : keeps.

#[export] Instance grows_hello {A} `{!HelloApi A, !Typed A} : HelloQuiet (@grows A).
Proof. split; [typeclasses eauto|]. intros. apply grows_push. Qed.

Section hello_keeps.
Context `{!Cuda} {A : api} `{!HelloApi A, !Typed A} (L : lib A).
Context (R : world A → world A → Prop) `{!HelloQuiet R}.

Lemma keeps_eprintf fmt l : keeps R (eprintf fmt l).
Proof. unfold eprintf. solve_keeps. Qed.
Hint Resolve keeps_eprintf : keeps.

Lemma keeps_CUDA_FUNC name op : keeps R (CUDA_FUNC L name op).
Proof. pose proof hq_cuda. unfold CUDA_FUNC. solve_keeps. Qed.
Hint Resolve keeps_CUDA_FUNC : keeps.

Lemma keeps_mem_type_malloc n : keeps R (mem_type_malloc L n).
Proof. unfold mem_type_malloc, cuda_malloc, malloc. solve_keeps. Qed.
Lemma keeps_cuda_run name op m : keeps R m → keeps R (cuda_run L name op m).
Proof. unfold cuda_run. intros. solve_keeps. Qed.
(** CUDA releases what CUDA allocated. *)
Lemma keeps_cuda_release p : keeps R (cuda_release p).
Proof.
  intros w. unfold cuda_release. unfold lookup_obj, mbind, M_bind, gets, the.
  destruct p as [|b [| |]| |]; try reflexivity.
  destruct (heap w !! b) as [o|] eqn:Hb; simpl; [|reflexivity].
  destruct (obj_kind o) eqn:Hk; try reflexivity; (eapply ms_release; [done|]; by rewrite Hk).
Qed.
Lemma keeps_cuda_copy d s n : keeps R (cuda_copy d s n).
Proof. unfold cuda_copy. solve_keeps. Qed.
Lemma keeps_cuda_fill d v n : keeps R (cuda_fill d v n).
Proof. unfold cuda_fill. solve_keeps. Qed.
Hint Resolve keeps_cuda_run keeps_cuda_release keeps_cuda_copy keeps_cuda_fill : keeps.
Lemma keeps_mem_type_free p : keeps R (mem_type_free L p).
Proof. unfold mem_type_free, cuda_free. solve_keeps. Qed.
Lemma keeps_mem_type_memcpy d s n : keeps R (mem_type_memcpy L d s n).
Proof. unfold mem_type_memcpy, cuda_memcpy. solve_keeps. Qed.
Lemma keeps_mem_type_memset d v n : keeps R (mem_type_memset L d v n).
Proof. unfold mem_type_memset, cuda_memset. solve_keeps. Qed.
Hint Resolve keeps_mem_type_memcpy : keeps.

Lemma keeps_check_mem_type_support t : keeps R (check_mem_type_support t).
Proof. unfold check_mem_type_support. solve_keeps. Qed.
Hint Resolve keeps_check_mem_type_support : keeps.
Lemma keeps_parse_mem_type s : keeps R (parse_mem_type s).
Proof. unfold parse_mem_type. solve_keeps. Qed.
Lemma keeps_print_common_help : keeps R print_common_help.
Proof. unfold print_common_help. solve_keeps. Qed.
Lemma keeps_generate_test_string p n : keeps R (generate_test_string L p n).
Proof. unfold generate_test_string, put_char, malloc. solve_keeps. Qed.
End hello_keeps.

#[export] Hint Resolve keeps_eprintf keeps_cuda_run keeps_cuda_release keeps_cuda_copy
  keeps_cuda_fill keeps_mem_type_malloc keeps_mem_type_free
  keeps_mem_type_memcpy keeps_mem_type_memset keeps_check_mem_type_support
  keeps_parse_mem_type keeps_print_common_help keeps_generate_test_string : keeps.

(** ** Specifications when the memory type is usable *)

Definition kind_of (t : ucs_memory_type_t) : mkind :=
  match t with
  | UCS_MEMORY_TYPE_CUDA => KDevice
  | UCS_MEMORY_TYPE_CUDA_MANAGED => KManaged
  | _ => KHost
  end.

Section hello_specs.
Context `{!Cuda} {A : api} `{!HelloApi A, !Typed A} (L : lib A).
Implicit Types (w : world A) (E : halt → world A → Prop).

(** The memory type is one parse_mem_type accepts; if it is a CUDA type, the
    program was built for CUDA and the CUDA calls succeed. Host allocations
    may fail. *)
Record mem_usable (t : ucs_memory_type_t) : Prop := {
  mu_type : t ≠ UCS_MEMORY_TYPE_LAST;
  mu_cuda : t ≠ UCS_MEMORY_TYPE_HOST →
    HAVE_CUDA = true ∧ ∀ h op, cuda_res op (l_ret L h (cuda_call op)) = cudaSuccess;
}.

(** Some allocation failed. *)
Definition oom w : Prop := ∃ n, EAlloc n false ∈ trace w.

Lemma oom_grows w w' : oom w → grows w w' → oom w'.
Proof.
  intros [n Hn] (_&_&[l Hl]). exists n. rewrite Hl. apply elem_of_app. by right.
Qed.

(** [w'] has the heap [h] and the globals of [w]. *)
Definition heap_only w (h : gmap N (obj (a_cell A))) w' : Prop :=
  heap w' = h ∧ glob w' = glob w.

Lemma wp_malloc_ok E n o Q w :
  l_alloc L (trace w) n = true → wf_mem w →
  (∀ b w', b = next w → heap w !! b = None →
     heap_only w (<[b := o]> (heap w)) w' → Q (Loc b 0) w') →
  wp E (malloc_obj L n o) Q w.
Proof.
  intros Ha Hwf HQ. apply wp_malloc_obj; [done|congruence|].
  intros b _ Hb Hn. by eapply HQ.
Qed.

Lemma wp_CUDA_FUNC E name op Q w :
  cuda_res op (l_ret L (trace w) (cuda_call op)) = cudaSuccess →
  (∀ w', heap w' = heap w → glob w' = glob w → next w' = next w → Q cudaSuccess w') →
  wp E (CUDA_FUNC L name op) Q w.
Proof.
  intros Hs HQ. unfold CUDA_FUNC. apply wp_bind, wp_ext0. cbv zeta.
  rewrite Hs, Z.eqb_refl. apply wp_bind, wp_ret, wp_ret. by apply HQ.
Qed.

(** Allocation may fail, and says so with NULL, on host memory. *)
Lemma mem_type_malloc_ok E t n Q w :
  mem_usable t → test_mem_type (glob w) = t → wf_mem w →
  (∀ w', heap_only w (heap w) w' → oom w' → Q Null w') →
  (∀ b w', b = next w → heap w !! b = None →
     heap_only w (<[b := Bytes (kind_of t) (replicate (Z.to_nat n) None)]> (heap w)) w' →
     Q (Loc b 0) w') →
  wp E (mem_type_malloc L n) Q w.
Proof.
  intros [Ht Hc] Hg Hwf HN HQ. unfold mem_type_malloc.
  apply wp_bind, wp_get_glob. rewrite Hg.
  destruct t; [| | |done].
  { apply wp_malloc_obj; [done| |].
    - intros _. apply HN; [done|]. exists n. simpl. left.
    - intros b _ -> Hn. by apply HQ. }
  all: destruct Hc as [-> Hc]; [done|]; unfold cuda_malloc; apply wp_bind;
    apply wp_CUDA_FUNC; [apply Hc|];
    intros w' Hh Hgl Hn; rewrite Z.eqb_refl;
    apply wp_alloc; [|intros b; rewrite Hh, Hn; apply Hwf];
    intros b -> _ Hb; rewrite Hh in *; apply HQ; done.
Qed.

Lemma mem_type_free_ok E t b o Q w :
  mem_usable t → test_mem_type (glob w) = t →
  heap w !! b = Some o → obj_kind o = kind_of t →
  (∀ w', heap_only w (delete b (heap w)) w' → Q tt w') →
  wp E (mem_type_free L (Loc b 0)) Q w.
Proof.
  intros [Ht Hc] Hg Hb Hk HQ. unfold mem_type_free.
  apply wp_bind, wp_get_glob. rewrite Hg.
  destruct t; [by eapply wp_free; eauto; apply HQ| | |done].
  all: destruct Hc as [-> Hc]; [done|]; unfold cuda_free; apply wp_bind;
    apply wp_CUDA_FUNC; [apply Hc|];
    intros w' Hh Hgl Hn; rewrite Z.eqb_refl; apply wp_bind;
    (eapply wp_lookup_obj; [by rewrite Hh|]); cbv beta iota;
    rewrite Hk; simpl; apply wp_modify; apply HQ; split; simpl; by rewrite ?Hh.
Qed.

Lemma mem_type_free_null_ok E t Q w :
  mem_usable t → test_mem_type (glob w) = t →
  (∀ w', heap_only w (heap w) w' → Q tt w') →
  wp E (mem_type_free L Null) Q w.
Proof.
  intros [Ht Hc] Hg HQ. unfold mem_type_free. apply wp_bind, wp_get_glob. rewrite Hg.
  destruct t; [by apply wp_free_null, HQ| | |done].
  all: destruct Hc as [-> Hc]; [done|]; unfold cuda_free; apply wp_bind;
    apply wp_CUDA_FUNC; [apply Hc|];
    intros w' Hh Hgl Hn; rewrite Z.eqb_refl; apply wp_ret; by apply HQ.
Qed.

(** Copying to NULL: the source is read, then the write is undefined. *)
Lemma mem_type_memcpy_null E t bs offs n ks ds r Q w :
  mem_usable t → test_mem_type (glob w) = t →
  heap w !! bs = Some (Bytes ks ds) →
  (t = UCS_MEMORY_TYPE_HOST → by_cpu ks = true) →
  slice offs n ds = Some r →
  (∀ w', grows w w' → E (UB "write through an invalid pointer") w') →
  wp E (mem_type_memcpy L Null (Loc bs offs) n) Q w.
Proof.
  intros [Ht Hc] Hg Hs Hk Hsl HE. apply (wp_with_keeps_E grows); [solve_keeps|].
  unfold mem_type_memcpy.
  apply wp_bind, wp_get_glob. rewrite Hg. destruct t; [| | |done].
  - apply wp_bind, wp_bind. eapply wp_read_mem; [done|by apply Hk|done|].
    apply wp_stop. apply HE.
  - destruct Hc as [-> Hc]; [done|]. apply wp_bind, wp_bind.
    apply wp_CUDA_FUNC; [apply Hc|]. intros w' Hh Hgl Hn. rewrite Z.eqb_refl.
    apply wp_bind. eapply wp_read_mem; [by rewrite Hh|done|done|].
    apply wp_stop. apply HE.
  - destruct Hc as [-> Hc]; [done|]. apply wp_bind, wp_bind.
    apply wp_CUDA_FUNC; [apply Hc|]. intros w' Hh Hgl Hn. rewrite Z.eqb_refl.
    apply wp_bind. eapply wp_read_mem; [by rewrite Hh|done|done|].
    apply wp_stop. apply HE.
Qed.

(** Copying a readable range over a whole number of bytes of [dst]. *)
Lemma mem_type_memcpy_ok E t bd offd bs offs n kd ks dd ds r dd' Q w :
  mem_usable t → test_mem_type (glob w) = t →
  heap w !! bs = Some (Bytes ks ds) → heap w !! bd = Some (Bytes kd dd) →
  (t = UCS_MEMORY_TYPE_HOST → by_cpu ks = true ∧ by_cpu kd = true) →
  slice offs n ds = Some r → splice offd r dd = Some dd' →
  (∀ w', heap_only w (<[bd := Bytes kd dd']> (heap w)) w' → Q (Loc bd offd) w') →
  wp E (mem_type_memcpy L (Loc bd offd) (Loc bs offs) n) Q w.
Proof.
  intros [Ht Hc] Hg Hs Hd Hk Hsl Hsp HQ. unfold mem_type_memcpy.
  apply wp_bind, wp_get_glob. rewrite Hg. destruct t; [| | |done].
  - apply wp_bind, wp_bind. destruct Hk as [? ?]; [done|].
    eapply wp_read_mem; [done..|]. eapply wp_write_mem; [done..|].
    apply wp_ret. by apply HQ.
  - destruct Hc as [-> Hc]; [done|]. apply wp_bind, wp_bind.
    apply wp_CUDA_FUNC; [apply Hc|]. intros w' Hh Hgl Hn. rewrite Z.eqb_refl.
    apply wp_bind. eapply wp_read_mem; [by rewrite Hh|done..|].
    eapply wp_write_mem; [by rewrite Hh|done..|]. apply wp_ret. apply HQ.
    split; simpl; by rewrite ?Hh.
  - destruct Hc as [-> Hc]; [done|]. apply wp_bind, wp_bind.
    apply wp_CUDA_FUNC; [apply Hc|]. intros w' Hh Hgl Hn. rewrite Z.eqb_refl.
    apply wp_bind. eapply wp_read_mem; [by rewrite Hh|done..|].
    eapply wp_write_mem; [by rewrite Hh|done..|]. apply wp_ret. apply HQ.
    split; simpl; by rewrite ?Hh.
Qed.
End hello_specs.

(** ** The test string *)

Lemma test_chars_length n : length (test_chars n) = n.
Proof. unfold test_chars. by rewrite length_fmap, length_seq. Qed.

Lemma test_chars_S n :
  test_chars (S n) = test_chars n ++ [Some (test_char (Z.of_nat n))].
Proof. unfold test_chars. by rewrite seq_S, fmap_app. Qed.

Lemma test_char_upper i : 65 ≤ test_char i ≤ 90.
Proof. unfold test_char. pose proof (Z.mod_pos_bound i 26). lia. Qed.

(** One more character in a buffer whose other bytes are [x]. *)
Lemma splice_char (x : mbyte) n k :
  (k < n)%nat →
  splice (0 + Z.of_nat k) [Some (test_char (Z.of_nat k))] (test_chars k ++ replicate (n - k) x)
    = Some (test_chars (S k) ++ replicate (n - S k) x).
Proof.
  intros Hk. rewrite splice_some.
  2: lia.
  2:{ rewrite length_app, test_chars_length, length_replicate. simpl. lia. }
  rewrite Z.add_0_l, Nat2Z.id. f_equal.
  rewrite take_app_le by (by rewrite test_chars_length).
  rewrite take_ge by (rewrite test_chars_length; lia).
  rewrite drop_app_ge by (rewrite test_chars_length; simpl; lia).
  rewrite test_chars_length, drop_replicate, test_chars_S, <-app_assoc.
  simpl. do 3 f_equal. lia.
Qed.

Section generate.
Context `{!Cuda} {A : api} `{!HelloApi A, !Typed A} (L : lib A).
Implicit Types (w : world A) (E : halt → world A → Prop).

(** What the temporary buffer holds when [k] characters are written; [x] is what was
    there before. *)
Definition half_filled (x : mbyte) (n k : nat) : list mbyte := test_chars k ++ replicate (n - k) x.

Lemma put_char_ok E b x n k Q w :
  heap w !! b = Some (Bytes KHost (half_filled x n k)) →
  (k < n)%nat → Z.of_nat k < 2 ^ 31 - 1 →
  (∀ w', heap_only w (<[b := Bytes KHost (half_filled x n (S k))]> (heap w)) w' → Q tt w') →
  wp E (put_char (Loc b 0) k) Q w.
Proof.
  intros Hb Hk Hi HQ. unfold put_char. apply wp_bind.
  eapply wp_write_mem with (d' := half_filled x n (S k)); [done|done| |].
  - by apply splice_char.
  - rewrite (proj2 (Z.eqb_neq _ _)) by lia. apply wp_ret. by apply HQ.
Qed.

Lemma generate_test_string_ok E t b d n Q w :
  mem_usable L t → test_mem_type (glob w) = t → wf_mem w →
  heap w !! b = Some (Bytes (kind_of t) d) → length d = n →
  (1 ≤ n)%nat → Z.of_nat n < 2 ^ 31 →
  (∀ w', heap_only w (heap w) w' → oom w' → Q (-1) w') →
  (∀ w', heap_only w (<[b := Bytes (kind_of t) (test_chars (n - 1) ++ [None])]> (heap w)) w' →
     Q 0 w') →
  wp E (generate_test_string L (Loc b 0) (Z.of_nat n)) Q w.
Proof.
  intros Hm Ht Hwf Hb Hd Hn Hmax HN HQ. unfold generate_test_string, malloc.
  apply wp_bind, wp_malloc_obj; [done| |].
  { intros Ha. rewrite bool_decide_eq_true_2 by done.
    apply wp_bind, wp_fprintf, wp_ret. apply HN; [done|].
    exists (Z.of_nat n). simpl. right. left. }
  intros b1 Ha -> Htmp.
  match goal with |- wp _ _ _ ?w => set (w1 := w) end.
  assert (heap_only w (<[next w := Bytes KHost (replicate (Z.to_nat (Z.of_nat n)) None)]>
                       (heap w)) w1) as [Hh1 Hg1] by done.
  clearbody w1. assert (next w ≠ b) as Hne by (intros <-; congruence).
  rewrite bool_decide_eq_false_2 by done.
  rewrite u64_small by lia. replace (Z.to_nat (Z.of_nat n - 1)) with (n - 1)%nat by lia.
  rewrite Nat2Z.id in Hh1.
  apply wp_bind, wp_for_up with
    (I := λ k w', heap_only w (<[next w := Bytes KHost (half_filled None n k)]> (heap w)) w').
  { split; [|done]. unfold half_filled. simpl. by rewrite Nat.sub_0_r. }
  { intros k w2 Hk [Hh2 Hg2]. apply put_char_ok with (x := None) (n := n).
    - by rewrite Hh2, lookup_insert_eq.
    - lia.
    - lia.
    - intros w3 [Hh3 Hg3]. split; [|by rewrite Hg3].
      by rewrite Hh3, Hh2, insert_insert_eq. }
  intros w2 [Hh2 Hg2]. simpl in Hh2.
  assert (half_filled None n (n - 1) = test_chars (n - 1) ++ [None]) as Hfull.
  { unfold half_filled. by replace (n - (n - 1))%nat with 1%nat by lia. }
  rewrite Hfull in Hh2.
  apply wp_bind. eapply mem_type_memcpy_ok; [done|by rewrite Hg2|..].
  - by rewrite Hh2, lookup_insert_eq.
  - by rewrite Hh2, lookup_insert_ne.
  - intros ->. done.
  - apply slice_all. rewrite length_app, test_chars_length. simpl. lia.
  - apply splice_all. rewrite length_app, test_chars_length. simpl. lia.
  - intros w3 [Hh3 Hg3]. apply wp_bind. eapply wp_free.
    + rewrite Hh3, Hh2, lookup_insert_ne by done. by rewrite lookup_insert_eq.
    + done.
    + apply wp_ret. apply HQ. split; simpl; [|by rewrite Hg3, Hg2].
      rewrite Hh3, Hh2, insert_insert_ne by done.
      by rewrite delete_insert_id by (by rewrite lookup_insert_ne).
Qed.
(** Size 0: the bound of the loop is 2^64 - 1 and the buffer has no byte. *)
Lemma generate_test_string_0 str w :
  wf_mem w → l_alloc L (trace w) 0 = true →
  fst (generate_test_string L str 0 w) = Halt (UB "write out of bounds").
Proof.
  intros Hwf Ha.
  assert (wp (λ h _, h = UB "write out of bounds") (generate_test_string L str 0)
            (λ _ _, False) w) as Hu.
  { unfold generate_test_string. apply wp_bind, wp_malloc_ok; [done..|].
    intros b w1 -> _ [Hh1 _]. rewrite bool_decide_eq_false_2 by done.
    destruct (Z.to_nat (u64 (0 - 1))) as [|m] eqn:Hm; [exfalso; change (u64 (0 - 1)) with (2 ^ 64 - 1) in Hm; lia|].
    apply wp_bind. simpl. apply wp_bind. unfold put_char. apply wp_bind.
    unfold wp, write_mem, lookup_obj, mbind, M_bind, gets, the.
    by rewrite Hh1, lookup_insert_eq. }
  revert Hu. unfold wp.
  destruct (generate_test_string L str 0 w) as [[a|h'] w']; [done|]. intros Hu.
  simpl. by rewrite Hu.
Qed.
End generate.
