(* ===== verification/Ownership.v ===== *)
(** * Ownership of external objects

    Descriptors and UCX objects that are alive, as a multiset, and what a call may
    do with them. A key is bound to its endpoint, and a list of components holds its
    elements. The programs give each of their calls a meaning in these terms
    (RmaOwn.v, TagOwn.v, UctOwn.v). *)

From S2P Require Import Prelude.
From stdpp Require Import gmultiset.
Open Scope Z_scope.

(** ** Objects *)

Inductive object : Type :=
  | Fd (fd : Z)
  | Config (c : Z)
  | Ctx (c : Z)
  | Worker (w : Z)
  | Addr (a : Z)
  | Mem (m : Z)
  | RkeyBuf (b : Z)
  | Ep (e : Z)
  (* a key, with the endpoint it was unpacked for *)
  | Rkey (e r : Z)
  | Req (r : Z)
  (* UCT *)
  | Async (a : Z)
  (* a list of components, with its elements *)
  | Components (l : Z) (cs : list Z)
  | Md (m : Z)
  | TlList (l : Z)
  | Iface (i : Z).

#[export] Instance object_eq_dec : EqDecision object.
Proof. solve_decision. Defined.

Definition object_code (x : object) : (nat * Z) + (Z * Z) + (Z * list Z) :=
  match x with
  | Components l cs => inr (l, cs)
  | Rkey e r => inl (inr (e, r))
  | Fd z => inl (inl (0%nat, z)) | Config z => inl (inl (1%nat, z))
  | Ctx z => inl (inl (2%nat, z)) | Worker z => inl (inl (3%nat, z))
  | Addr z => inl (inl (4%nat, z)) | Mem z => inl (inl (5%nat, z))
  | RkeyBuf z => inl (inl (6%nat, z)) | Ep z => inl (inl (7%nat, z))
  | Req z => inl (inl (8%nat, z)) | Async z => inl (inl (9%nat, z))
  | Md z => inl (inl (10%nat, z)) | TlList z => inl (inl (11%nat, z))
  | Iface z => inl (inl (12%nat, z))
  end.

#[export] Instance object_countable : Countable object.
Proof.
  refine (inj_countable object_code (λ k,
    match k with
    | inr (l, cs) => Some (Components l cs)
    | inl (inr (e, r)) => Some (Rkey e r)
    | inl (inl (0, z)) => Some (Fd z) | inl (inl (1, z)) => Some (Config z)
    | inl (inl (2, z)) => Some (Ctx z) | inl (inl (3, z)) => Some (Worker z)
    | inl (inl (4, z)) => Some (Addr z) | inl (inl (5, z)) => Some (Mem z)
    | inl (inl (6, z)) => Some (RkeyBuf z) | inl (inl (7, z)) => Some (Ep z)
    | inl (inl (8, z)) => Some (Req z) | inl (inl (9, z)) => Some (Async z)
    | inl (inl (10, z)) => Some (Md z) | inl (inl (11, z)) => Some (TlList z)
    | inl (inl (12, z)) => Some (Iface z) | _ => None
    end%nat) _).
  by intros [].
Defined.

Abbreviation objects := (gmultiset object).

(** What must be gone before a worker, and before a context. *)
Definition needs_worker (x : object) : bool :=
  match x with Ep _ | Req _ => true | _ => false end.
Definition needs_ctx (x : object) : bool :=
  match x with Worker _ | Mem _ => true | _ => needs_worker x end.

(** ** Changes *)

Definition make (x : object) (o : objects) : objects := {[+ x +]} ⊎ o.
Definition make_if (b : bool) (x : object) (o : objects) : option objects :=
  Some (if b then make x o else o).
Definition drop_object (x : object) (o : objects) : option objects :=
  if decide (x ∈ o) then Some (o ∖ {[+ x +]}) else None.
Definition with_objects (xs : list object) (o : objects) (k : option objects) : option objects :=
  if decide (Forall (λ x, x ∈ o) xs) then k else None.
Definition none_left (p : object → bool) (o : objects) (k : option objects) : option objects :=
  if decide (Forall (λ x, p x = false) (elements o)) then k else None.

Lemma use_ok xs o k : Forall (λ x, x ∈ o) xs → with_objects xs o k = k.
Proof. intros. unfold with_objects. by rewrite decide_True. Qed.

Lemma drop_ok x o o' : o = make x o' → drop_object x o = Some o'.
Proof.
  intros ->. unfold drop_object, make. rewrite decide_True by multiset_solver.
  f_equal. multiset_solver.
Qed.

Lemma none_ok p o k : (∀ x, x ∈ o → p x = false) → none_left p o k = k.
Proof.
  intros Hp. unfold none_left. rewrite decide_True; [done|].
  apply List.Forall_forall. intros x Hx. apply Hp.
  by apply gmultiset_elem_of_elements, list_elem_of_In.
Qed.

Lemma free_made p x o :
  p x = false → (∀ y, y ∈ o → p y = false) → ∀ y, y ∈ make x o → p y = false.
Proof.
  intros Hx Ho y Hy. unfold make in Hy.
  apply gmultiset_elem_of_disj_union in Hy as [Hy|Hy]; [|auto].
  apply gmultiset_elem_of_singleton in Hy. by subst.
Qed.

Lemma none_made p x o k :
  p x = false → (∀ y, y ∈ o → p y = false) → none_left p (make x o) k = k.
Proof. intros. by apply none_ok, free_made. Qed.

(** ** Objects of a kind *)

(** An end of the object that [p] holds of. *)
Definition drop_first (p : object → bool) (o : objects) : option objects :=
  match base.filter (λ x, p x = true) (elements o) with
  | x :: _ => Some (o ∖ {[+ x +]})
  | [] => None
  end.

Lemma drop_first_ok p x o o' :
  o = make x o' → p x = true → (∀ y, y ∈ o' → p y = false) → drop_first p o = Some o'.
Proof.
  intros -> Hx Ho. unfold drop_first.
  assert (x ∈ base.filter (λ x, p x = true) (elements (make x o'))) as Hin.
  { apply list_elem_of_filter. split; [done|]. apply gmultiset_elem_of_elements.
    unfold make. clear. multiset_solver. }
  destruct (base.filter _ _) as [|y ys] eqn:Hf; [by apply elem_of_nil in Hin|].
  assert (y ∈ base.filter (λ x, p x = true) (elements (make x o'))) as Hy by (rewrite Hf; left).
  apply list_elem_of_filter in Hy as [Hp Hy]. apply gmultiset_elem_of_elements in Hy.
  unfold make in Hy. apply gmultiset_elem_of_disj_union in Hy as [Hy|Hy].
  - apply gmultiset_elem_of_singleton in Hy. subst y. f_equal. unfold make. multiset_solver.
  - by rewrite Ho in Hp.
Qed.

(** A use of what some object stands for. *)
Definition with_some (p : object → bool) (o : objects) (k : option objects) : option objects :=
  if decide (Exists (λ x, p x = true) (elements o)) then k else None.

Lemma some_ok p x o k : x ∈ o → p x = true → with_some p o k = k.
Proof.
  intros Hx Hp. unfold with_some. rewrite decide_True; [done|].
  apply List.Exists_exists. exists x. split; [|done].
  by apply list_elem_of_In, gmultiset_elem_of_elements.
Qed.

(** A component is used while a list that holds it is alive. *)
Definition lists_component (c : Z) (x : object) : bool :=
  match x with Components _ cs => bool_decide (c ∈ cs) | _ => false end.
Definition is_list (l : Z) (x : object) : bool :=
  match x with Components l' _ => l' =? l | _ => false end.

(** ** Keys

    A key is destroyed while the endpoint it was unpacked for is alive. *)

Definition usable_key (r : Z) (o : objects) (x : object) : bool :=
  match x with Rkey e r' => (r' =? r) && bool_decide (Ep e ∈ o) | _ => false end.
Definition drop_key (r : Z) (o : objects) : option objects := drop_first (usable_key r o) o.

Definition keyless (o : objects) : Prop := ∀ e r, Rkey e r ∉ o.

Lemma drop_key_ok e r o o' :
  o = make (Rkey e r) o' → Ep e ∈ o' → keyless o' → drop_key r o = Some o'.
Proof.
  intros -> He Hk. apply (drop_first_ok _ (Rkey e r)); [done|..].
  - simpl. rewrite Z.eqb_refl, bool_decide_true; [done|]. unfold make. multiset_solver.
  - intros [] Hy; try done. by destruct (Hk e0 r0).
Qed.
