(* ===== verification/OobSocket.v ===== *)
(** * hello_world_util.h: the out-of-band socket

    connect_common and barrier, which the programs use to exchange addresses and
    to end together. As in HelloUtil.v the definitions are written against an
    interface: how a program calls the socket layer, and how a socket call is
    recognised in its history. [descriptors] is the specification: which
    descriptors are open after a history, if none was misused. *)

From S2P Require Import Prelude CRuntime HelloUtil.
From stdpp Require Import pretty.
Open Scope Z_scope.

(** ** The socket layer *)

(** An element of the list getaddrinfo answers: family, type, protocol. *)
Record addrinfo : Type := AddrInfo {
  ai_family : Z;
  ai_socktype : Z;
  ai_protocol : Z;
}.

Inductive sock_op : Type :=
  | getaddrinfo (server : option string) (service : string) (passive : bool) (af : Z)
  | freeaddrinfo
  | socket (t : addrinfo)
  | connect (fd : Z) (t : addrinfo)
  | setsockopt_reuseaddr (fd : Z)
  | bind_ (fd : Z) (t : addrinfo)
  | listen (fd backlog : Z)
  | accept (fd : Z)
  | close_ (fd : Z)
  | send_ (fd len : Z)
  | poll_in (fd timeout : Z)
  | recv_waitall (fd len : Z).

(** getaddrinfo answers the list it allocated along with its result. *)
Definition sock_ret (op : sock_op) : Type :=
  match op with
  | getaddrinfo _ _ _ _ => Z * list addrinfo
  | freeaddrinfo => unit
  | _ => Z
  end.

Inductive sock_event : Type := SockEvent (op : sock_op) (r : sock_ret op).

(** What a program provides: its socket calls, and the socket calls among all its
    calls. *)
Class OobApi (A : api) : Type := {
  oob_call : sock_op → a_call A;
  oob_res : ∀ op, a_ret A (oob_call op) → sock_ret op;
  oob_view : ∀ c : a_call A, a_ret A c → option sock_event;
  oob_view_call : ∀ op r, oob_view (oob_call op) r = Some (SockEvent op (oob_res op r));
}.

(** ** The functions *)

Section oob.
Context {A : api} `{!OobApi A} (L : lib A).
Local Abbreviation M := (M (world A)).

Definition sys (op : sock_op) : M (sock_ret op) :=
  r ← ext0 L (oob_call op); mret (oob_res op r).

(** How the loop over the addresses is left: the end of the list or a break, or
    the label err_close_sockfd. *)
Inductive oob_exit : Type :=
  | Opened (sockfd : Z)
  | ErrCloseSockfd (sockfd : Z).

(** CHKERR_JUMP: the message, and the label. *)
Definition chkerr (msg : string) : M unit :=
  fprintf Stderr "Failed to %s\n" [AStr msg].

(** for (t = res; t != NULL; t = t->ai_next) *)
Fixpoint try_addresses (server : option string) (res : list addrinfo) (sockfd : Z)
  : M oob_exit :=
  match res with
  | [] => mret (Opened sockfd)
  | t :: res' =>
      sockfd ← sys (socket t);
      if sockfd <? 0 then try_addresses server res' sockfd
      else
        let next := sys (close_ sockfd);; try_addresses server res' (-1) in
        match server with
        | Some _ =>
            c ← sys (connect sockfd t);
            if c =? 0 then mret (Opened sockfd) else next
        | None =>
            ret ← sys (setsockopt_reuseaddr sockfd);
            if ret <? 0 then chkerr "server setsockopt()";; mret (ErrCloseSockfd sockfd)
            else
              b ← sys (bind_ sockfd t);
              if b =? 0 then
                ret ← sys (listen sockfd 0);
                if ret <? 0 then chkerr "listen server";; mret (ErrCloseSockfd sockfd)
                else
                  printf "Waiting for connection...\n" [];;
                  let listenfd := sockfd in
                  sockfd ← sys (accept listenfd);
                  sys (close_ listenfd);;
                  mret (Opened sockfd)
              else next
        end
  end.

(** [service] is the port in decimal, of which a char[8] holds every value. *)
Definition connect_common (server : option string) (server_port af : Z) : M Z :=
  '(ret, res) ← sys (getaddrinfo server (pretty server_port) (bool_decide (server = None)) af);
  if ret <? 0 then chkerr "getaddrinfo() failed";; mret (-1)
  else if negb (ret =? 0) then stop (UB "uninitialised res")
  else
    x ← try_addresses server res (-1);
    match x with
    | Opened sockfd =>
        when (sockfd <? 0)
          (chkerr (match server with Some _ => "open client socket" | None => "open server socket" end));;
        sys freeaddrinfo;;
        mret sockfd
    | ErrCloseSockfd sockfd =>
        sys (close_ sockfd);;
        sys freeaddrinfo;;
        mret (-1)
    end.

(** sizeof(dummy), and the result of send or recv as an int. *)
Definition sizeof_int : Z := 4.

Definition barrier (fuel : nat) (oob_sock : Z) (progress_cb : M unit) : M Z :=
  res ← sys (send_ oob_sock sizeof_int);
  if res <? 0 then mret (s32 res)
  else
    do_while fuel (res ← sys (poll_in oob_sock 1); progress_cb;; mret res)
      (λ res, negb (res =? 1));;
    res ← sys (recv_waitall oob_sock sizeof_int);
    mret (if res =? sizeof_int then 0 else 1).
End oob.

(** ** Preserved relations *)

Section oob_keeps.
Context {A : api} `{!OobApi A, !Typed A} (L : lib A) (R : world A → world A → Prop) `{!Quiet R}.
Context (Hsys : ∀ w op r, R w (push (ECall (oob_call op) r) w)).

Lemma keeps_sys op : keeps R (sys L op).
Proof using All. unfold sys. solve_keeps. Qed.
Hint Extern 3 (keeps _ (sys _ _)) => apply keeps_sys : keeps.
Lemma keeps_oob_chkerr m : keeps R (chkerr m).
Proof using All. unfold chkerr. solve_keeps. Qed.
Hint Resolve keeps_oob_chkerr : keeps.
Lemma keeps_try_addresses server res sockfd : keeps R (try_addresses L server res sockfd).
Proof using All.
  revert sockfd. induction res as [|t res IH]; intros sockfd; simpl; unfold printf; solve_keeps.
Qed.
Hint Resolve keeps_try_addresses : keeps.
Lemma keeps_connect_common server port af : keeps R (connect_common L server port af).
Proof using All. unfold connect_common. solve_keeps. Qed.
Lemma keeps_barrier n fd cb : keeps R cb → keeps R (barrier L n fd cb).
Proof using All. intros. unfold barrier. solve_keeps. Qed.
End oob_keeps.

(** ** Descriptors *)

(** Open descriptors, and lists of addresses that were not freed. *)
Record oob_state : Type := OobState { open_fds : list Z; lists : nat }.

Definition open_fd (fd : Z) (s : oob_state) : oob_state :=
  if fd <? 0 then s else OobState (fd :: open_fds s) (lists s).

(** A use of a descriptor that is not open, a second close and a second
    freeaddrinfo are misuse. *)
Definition oob_step (e : sock_event) (s : oob_state) : option oob_state :=
  let used fd (s' : oob_state) := if decide (fd ∈ open_fds s) then Some s' else None in
  match e with
  | SockEvent op r =>
      match op return sock_ret op → option oob_state with
      | getaddrinfo _ _ _ _ => λ r,
          Some (if r.1 =? 0 then OobState (open_fds s) (S (lists s)) else s)
      | freeaddrinfo => λ _,
          match lists s with O => None | S k => Some (OobState (open_fds s) k) end
      | socket _ => λ fd, Some (open_fd fd s)
      | accept l => λ fd, used l (open_fd fd s)
      | close_ fd => λ _, (λ fds, OobState fds (lists s)) <$> remove1 fd (open_fds s)
      | connect fd _ | setsockopt_reuseaddr fd | bind_ fd _ | listen fd _
      | send_ fd _ | poll_in fd _ | recv_waitall fd _ => λ _, used fd s
      end r
  end.

(** How often poll was called on a descriptor. *)
Fixpoint polls {A} `{!OobApi A} (fd : Z) (h : history A) : nat :=
  match h with
  | [] => O
  | ECall c r :: h' =>
      match oob_view c r with
      | Some (SockEvent (poll_in fd' _) _) => if decide (fd' = fd) then S (polls fd h') else polls fd h'
      | _ => polls fd h'
      end
  | _ :: h' => polls fd h'
  end.

Section descriptors.
Context {A : api} `{!OobApi A} (L : lib A).
Implicit Types (w : world A).

Fixpoint descriptors (h : history A) : option oob_state :=
  match h with
  | [] => Some (OobState [] 0)
  | ECall c r :: h' =>
      s ← descriptors h';
      match oob_view c r with Some e => oob_step e s | None => Some s end
  | _ :: h' => descriptors h'
  end.

(** Nothing was misused so far, and [s] is open. *)
Definition opens_exactly (s : oob_state) w : Prop := descriptors (trace w) = Some s.

(** One socket call that is allowed. *)
Lemma sys_ok E op s (Q : sock_ret op → world A → Prop) w :
  opens_exactly s w →
  (∀ r, ∃ s', oob_step (SockEvent op r) s = Some s' ∧
     ∀ w', opens_exactly s' w' → Q r w') →
  wp E (sys L op) Q w.
Proof.
  intros Hs Hstep. unfold sys. apply wp_bind, wp_ext0, wp_ret.
  destruct (Hstep (oob_res op (l_ret L (trace w) (oob_call op)))) as (s' & Hs' & HQ).
  apply HQ. unfold opens_exactly in *. simpl. rewrite Hs. simpl. by rewrite oob_view_call.
Qed.

(** A call that uses an open descriptor. *)
Lemma sys_use_ok E op fd s (Q : sock_ret op → world A → Prop) w :
  (∀ r, oob_step (SockEvent op r) s = if decide (fd ∈ open_fds s) then Some s else None) →
  fd ∈ open_fds s → opens_exactly s w →
  (∀ r w', opens_exactly s w' → Q r w') → wp E (sys L op) Q w.
Proof.
  intros Hop Hfd Hs HQ. eapply sys_ok; [done|]. intros r. exists s.
  rewrite Hop, decide_True by done. eauto.
Qed.

Lemma sys_close_ok E fd fds k (Q : Z → world A → Prop) w :
  opens_exactly (OobState (fd :: fds) k) w →
  (∀ r w', opens_exactly (OobState fds k) w' → Q r w') → wp E (sys L (close_ fd)) Q w.
Proof.
  intros Hs HQ. eapply sys_ok; [done|]. intros r. exists (OobState fds k).
  split; [simpl; by rewrite decide_True|intros; by apply HQ].
Qed.

Lemma emit_ok E s f l st (Q : unit → world A → Prop) w :
  opens_exactly st w → (∀ w', opens_exactly st w' → Q tt w') → wp E (fprintf s f l) Q w.
Proof. intros Hs HQ. by apply wp_fprintf, HQ. Qed.

(** Closing the listening descriptor once accept has answered. *)
Lemma close_listener_ok E fd l fds k (Q : Z → world A → Prop) w :
  opens_exactly (open_fd fd (OobState (l :: fds) k)) w →
  (∀ r w', opens_exactly (open_fd fd (OobState fds k)) w' → Q r w') →
  wp E (sys L (close_ l)) Q w.
Proof.
  unfold open_fd. destruct (fd <? 0); [exact (sys_close_ok E l fds k Q w)|].
  cbn [open_fds lists]. intros Hs HQ. eapply sys_ok; [exact Hs|]. intros r.
  exists (OobState (fd :: fds) k). split; [|intros; by apply HQ].
  cbn [oob_step open_fds lists]. by rewrite remove1_second.
Qed.

Lemma try_addresses_ok E server res sockfd fds k w (Q : oob_exit → world A → Prop) :
  sockfd < 0 → opens_exactly (OobState fds k) w →
  (∀ r w', opens_exactly (open_fd r (OobState fds k)) w' → Q (Opened r) w') →
  (∀ r w', opens_exactly (OobState (r :: fds) k) w' → Q (ErrCloseSockfd r) w') →
  wp E (try_addresses L server res sockfd) Q w.
Proof.
  intros Hneg Hs HO HErr. revert sockfd w Hneg Hs.
  induction res as [|t res IH]; intros sockfd w Hneg Hs; simpl.
  { apply wp_ret, HO. unfold open_fd. by rewrite (proj2 (Z.ltb_lt _ _)) by done. }
  apply wp_bind. eapply (sys_ok _ (socket t)); [done|]. intros fd. eexists. split; [done|]. intros w1 Hs1.
  unfold open_fd in Hs1. destruct (Z.ltb_spec fd 0) as [Hfd|Hfd]; [by apply IH|]. simpl in Hs1.
  assert (fd ∈ fd :: fds) as Hin by left.
  assert (∀ w', opens_exactly (OobState (fd :: fds) k) w' →
    wp E (sys L (close_ fd);; try_addresses L server res (-1)) Q w') as Hnext.
  { intros w' Hs'. apply wp_bind. eapply sys_close_ok; [done|]. intros r w2 Hs2.
    apply IH; [lia|done]. }
  assert (∀ w', opens_exactly (OobState (fd :: fds) k) w' →
    opens_exactly (open_fd fd (OobState fds k)) w') as Hopen.
  { intros w' Hs'. unfold open_fd. by rewrite (proj2 (Z.ltb_ge _ _)) by done. }
  destruct server as [s|].
  - apply wp_bind. eapply (sys_use_ok _ (connect fd t) fd (OobState (fd :: fds) k)); [done|exact Hin|done|]. intros c w2 Hs2.
    destruct (c =? 0); [apply wp_ret, HO|]; auto.
  - apply wp_bind. eapply (sys_use_ok _ (setsockopt_reuseaddr fd) fd (OobState (fd :: fds) k)); [done|exact Hin|done|].
    intros r w2 Hs2. destruct (r <? 0).
    { apply wp_bind. eapply emit_ok; [done|]. intros w3 Hs3. by apply wp_ret, HErr. }
    apply wp_bind. eapply (sys_use_ok _ (bind_ fd t) fd (OobState (fd :: fds) k)); [done|exact Hin|done|]. intros b w3 Hs3.
    destruct (b =? 0); [|auto].
    apply wp_bind. eapply (sys_use_ok _ (listen fd 0) fd (OobState (fd :: fds) k)); [done|exact Hin|done|]. intros l w4 Hs4.
    destruct (l <? 0).
    { apply wp_bind. eapply emit_ok; [done|]. intros w5 Hs5. by apply wp_ret, HErr. }
    apply wp_bind. eapply emit_ok; [done|]. intros w5 Hs5.
    apply wp_bind. eapply (sys_ok _ (accept fd)); [done|]. intros a. eexists.
    split; [simpl; by rewrite decide_True|]. intros w6 Hs6.
    apply wp_bind. eapply close_listener_ok; [exact Hs6|]. intros r' w7 Hs7. by apply wp_ret, HO.
Qed.

(** The only open descriptor more than before is the one that is returned. *)
Lemma connect_common_ok server port af s (Q : Z → world A → Prop) w :
  opens_exactly s w → (∀ r w', opens_exactly (open_fd r s) w' → Q r w') →
  wp (λ h w', h = UB "uninitialised res" ∧ opens_exactly s w')
    (connect_common L server port af) Q w.
Proof.
  intros Hs HQ. destruct s as [fds k]. unfold connect_common.
  apply wp_bind. eapply (sys_ok _ (getaddrinfo _ _ _ _)); [done|]. intros [ret res]. eexists. split; [done|].
  intros w1 Hs1. simpl in Hs1. destruct (Z.ltb_spec ret 0) as [Hneg|Hnn].
  { rewrite (proj2 (Z.eqb_neq _ _)) in Hs1 by lia.
    apply wp_bind. eapply emit_ok; [exact Hs1|]. intros w2 Hs2. by apply wp_ret, HQ. }
  destruct (ret =? 0); cbn [negb]; [|by apply wp_stop].
  apply wp_bind. eapply try_addresses_ok; [lia|exact Hs1|..].
  - intros r w2 Hs2. apply wp_bind, wp_conseq with
      (Q := λ _ w', opens_exactly (open_fd r (OobState fds (S k))) w').
    { apply wp_when; intros _; [by apply wp_fprintf|done]. }
    intros [] w3 Hs3. apply wp_bind. eapply (sys_ok _ freeaddrinfo); [exact Hs3|]. intros u.
    exists (open_fd r (OobState fds k)). split; [by unfold open_fd; destruct (r <? 0)|].
    intros w4 Hs4. by apply wp_ret, HQ.
  - intros r w2 Hs2. apply wp_bind. eapply sys_close_ok; [exact Hs2|]. intros x w3 Hs3.
    apply wp_bind. eapply (sys_ok _ freeaddrinfo); [exact Hs3|]. intros u. eexists. split; [done|].
    intros w4 Hs4. by apply wp_ret, HQ.
Qed.
End descriptors.
