(* ===== verification/OutOfBand.v ===== *)
(** * Properties of the out-of-band socket

    The theorems about connect_common and barrier, against the interface of
    OobSocket.v; [sock_api] is a program that makes socket calls and nothing else,
    for the witnesses. *)

From S2P Require Import Prelude CRuntime HelloUtil OobSocket.
Open Scope Z_scope.

(** A program whose calls are socket calls. *)
Canonical Structure sock_api : api := {|
  a_glob := unit;
  a_cell := Empty_set;
  a_call := sock_op;
  a_ret := sock_ret;
  a_cbk := Empty_set;
  a_cbr := Empty_set;
|}.

#[export] Program Instance sock_oob : OobApi sock_api := {|
  oob_call op := op;
  oob_res op r := r;
  oob_view c r := Some (SockEvent c r);
|}.
Next Obligation. done. Qed.

(** Two addresses, of which the first cannot be bound; a peer that answers. *)
Definition sock_lib : lib sock_api := {|
  l_acts := λ _ _, [];
  l_ret := λ h c, match c return sock_ret c with
    | getaddrinfo _ _ _ _ => (0, [AddrInfo 2 1 6; AddrInfo 10 1 6])
    | freeaddrinfo => tt
    | socket t => ai_family t
    | bind_ fd _ => if fd =? 2 then -1 else 0
    | accept _ => 20
    | poll_in _ _ => if (length h <? 4)%nat then 0 else 1
    | send_ _ len | recv_waitall _ len => len
    | _ => 0
    end;
  l_alloc := λ _ _, true;
|}.

Definition sock_world : world sock_api := World tt ∅ 0%N [].

(** Between the two worlds only polls of [fd] and what the callback does. *)
Definition sock_progress {A} `{!OobApi A} (fd : Z) (cb : M (world A) unit) : Prop :=
  ∀ w, ∃ w', cb w = (Ok tt, w') ∧ polls fd (trace w') = polls fd (trace w).

Section oob.
Context {A : api} `{!OobApi A} (L : lib A).
Implicit Types (w : world A).

(** C36: connect_common, for a client and for a server and for every behaviour of
    the socket layer: no descriptor is used after it was closed or closed twice,
    the list of addresses is freed, and the only descriptor left open is the one
    that is returned, if it is not negative; the exception is an answer of
    getaddrinfo the code does not expect, which leaves [res] uninitialised. *)
Theorem connect_common_descriptors server port af s w :
  opens_exactly s w →
  wp (λ h _, h = UB "uninitialised res") (connect_common L server port af)
     (λ fd w', opens_exactly (open_fd fd s) w') w.
Proof.
  intros Hs. eapply wp_mono with (Q := λ fd w', opens_exactly (open_fd fd s) w');
    [eapply connect_common_ok; [exact Hs|done]|done|by intros ? ? []].
Qed.

(** C37: the barrier ends, if the peer's message is there after [n] polls and the
    progress callback returns: it answers the error of send, or 0 exactly when the
    whole message was received; and it polls at most [n] + 1 times. *)
Theorem barrier_ends fd cb n w :
  sock_progress fd cb →
  (∀ h, (n ≤ polls fd h)%nat →
     oob_res (poll_in fd 1) (l_ret L h (oob_call (poll_in fd 1))) = 1) →
  polls fd (trace w) = 0%nat →
  ∃ r w', barrier L (n + 1) fd cb w = (Ok r, w') ∧ (polls fd (trace w') ≤ n + 1)%nat ∧
    ((∃ u, trace w' = ECall (oob_call (send_ fd sizeof_int)) u :: trace w ∧
        oob_res _ u < 0 ∧ r = s32 (oob_res _ u)) ∨
     ∃ u h, trace w' = ECall (oob_call (recv_waitall fd sizeof_int)) u :: h ∧
        r = if oob_res _ u =? sizeof_int then 0 else 1).
Proof.
  intros Hcb Hpoll Hw. apply wp_returns. unfold barrier, sys.
  apply wp_bind, wp_bind, wp_ext0, wp_ret.
  set (x := oob_res _ _). set (w1 := push _ w).
  assert (polls fd (trace w1) = 0%nat) as Hw1 by (simpl; by rewrite oob_view_call).
  destruct (Z.ltb_spec x 0) as [Hx|Hx].
  { apply wp_ret. split; [lia|]. left. by eexists. }
  clearbody w1. apply wp_bind. unfold do_while.
  apply wp_loop_total with (I := λ _ w', (polls fd (trace w') ≤ n)%nat)
    (μ := λ _ w', (n - polls fd (trace w'))%nat); [lia|lia|].
  intros [] w2 Hle. apply wp_bind, wp_bind, wp_bind, wp_ext0, wp_ret, wp_bind.
  set (y := oob_res _ _). set (w3 := push _ w2).
  assert (polls fd (trace w3) = S (polls fd (trace w2))) as Hw3.
  { simpl. by rewrite oob_view_call, decide_True. }
  clearbody w3. destruct (Hcb w3) as (w4 & Hrun & Hp4). unfold wp at 1. rewrite Hrun.
  apply wp_ret. destruct (Z.eqb_spec y 1) as [Hy|Hy]; simpl.
  - apply wp_ret, wp_bind, wp_bind, wp_ext0, wp_ret, wp_ret. split.
    + simpl. rewrite oob_view_call. lia.
    + right. eexists _, _. done.
  - apply wp_ret. destruct (decide (n ≤ polls fd (trace w2))%nat) as [Hge|Hlt]; [|lia].
    exfalso. apply Hy, Hpoll, Hge.
Qed.
End oob.

(** ** Witnesses *)

(** The server: the first socket is closed, the listener too. *)
Lemma connect_common_descriptors_witness :
  fst (connect_common sock_lib None 13337 2 sock_world) = Ok 20 ∧
  wp (λ h _, h = UB "uninitialised res") (connect_common sock_lib None 13337 2)
     (λ fd w', opens_exactly (open_fd fd (OobState [] 0)) w') sock_world.
Proof.
  split; [vm_compute; reflexivity|].
  apply (connect_common_descriptors sock_lib None 13337 2 (OobState [] 0) sock_world). done.
Defined.

Lemma barrier_ends_witness :
  ∃ r w', barrier sock_lib (4 + 1) 20 (mret tt) sock_world = (Ok r, w') ∧
    (polls 20 (trace w') ≤ 4 + 1)%nat ∧
    ((∃ u, trace w' = ECall (oob_call (send_ 20 sizeof_int)) u :: trace sock_world ∧
        oob_res _ u < 0 ∧ r = s32 (oob_res _ u)) ∨
     ∃ u h, trace w' = ECall (oob_call (recv_waitall 20 sizeof_int)) u :: h ∧
        r = if oob_res _ u =? sizeof_int then 0 else 1).
Proof.
  apply (barrier_ends sock_lib 20 (mret tt) 4 sock_world); [by intros w; exists w| |done].
  intros h Hp. simpl. assert (∀ h : history sock_api, (polls 20 h ≤ length h)%nat) as Hlen.
  { clear. intros h. induction h as [|e h IH]; [done|].
    destruct e as [c r| | | |]; simpl; try lia. destruct c; simpl; try lia.
    destruct (decide _); lia. }
  specialize (Hlen h). by rewrite (proj2 (Nat.ltb_ge _ _)) by lia.
Defined.
