(* ===== verification/TagApi.v ===== *)
(** * ucp_tag_hello_world: data types and external interface

    ucp_hello_world.c with the functions of its hello_world_util.h: the static
    variables, the structures it hands out, the functions it calls and the
    callbacks it registers. *)

From S2P Require Import Prelude CRuntime CLib Ucx HelloUtil.
Open Scope Z_scope.

(** ** Data *)

(** struct ucx_context, where its address is handed out as user data: completed,
    [None] before it is assigned. UCX keeps one inside every request too
    ([g_requests]). *)
Inductive tag_cell : Type := CCtx (completed : option Z).

(** The static variables that change, and the contexts inside the requests
    (ucp_params.request_size), by request handle. *)
Record tag_glob : Type := TagGlob {
  g_local_addr : list Z;        (* the bytes at local_addr *)
  g_local_addr_handle : Z;      (* local_addr itself, memory of UCX *)
  g_peer_addr : ptr;
  g_peer_addr_len : Z;          (* size_t *)
  g_requests : gmap Z Z;
}.

Definition server_port : Z := 13337.
Definition test_string_length : Z := 16.
Definition tag : Z := 322414720.                (* 0x1337a880u *)
Definition tag_mask : Z := 2 ^ 64 - 1.          (* UINT64_MAX *)

(** sizeof( *msg): a data_len and nothing else. *)
Definition sizeof_msg : Z := 8.
Definition sizeof_ucx_context : Z := 4.

Definition tag_init_glob : tag_glob := TagGlob [] 0 Null 0 ∅.

(** static size_t local_addr_len: the length that came with local_addr. *)
Definition g_local_addr_len (g : tag_glob) : Z := Z.of_nat (length (g_local_addr g)).

(** Assignments. *)
Definition with_local_addr handle bytes g :=
  TagGlob bytes handle (g_peer_addr g) (g_peer_addr_len g) (g_requests g).
Definition with_peer_addr p g :=
  TagGlob (g_local_addr g) (g_local_addr_handle g) p (g_peer_addr_len g) (g_requests g).
Definition with_peer_addr_len n g :=
  TagGlob (g_local_addr g) (g_local_addr_handle g) (g_peer_addr g) n (g_requests g).
Definition with_request q completed g :=
  TagGlob (g_local_addr g) (g_local_addr_handle g) (g_peer_addr g) (g_peer_addr_len g)
    (<[q := completed]> (g_requests g)).

(** struct sockaddr_in; an unassigned byte is [None]. *)
Record sockaddr_in : Type := SockAddrIn {
  sin_family : Z;
  sin_port : Z;                (* network byte order *)
  sin_addr : list mbyte;
}.

(** struct hostent: h_addr_list is NULL, or the addresses before the final NULL. *)
Record hostent : Type := HostEnt {
  h_addrtype : Z;
  h_length : Z;
  h_addr_list : option (list (list Z));
}.

Definition AF_INET : Z := 2.
Definition SOCK_STREAM : Z := 1.
Definition INADDR_ANY : list mbyte := replicate 4 (Some 0).

(** ** External functions *)

Inductive tag_cb_name : Type := F_send_handler | F_recv_handler | F_flush_callback.

(** ucp_request_param_t; [None]: a member that was not set. *)
Record tag_param : Type := TagParam {
  tp_attr_mask : Z;
  tp_cb : tag_cb_name;
  tp_user_data : option ptr;
  tp_memory_type : option ucs_memory_type_t;
}.

(** ucp_ep_params_t: the address, as a pointer and as what is there; user_data can
    be the address of client_status. *)
Record tag_ep_params : Type := TagEpParams {
  tep_field_mask : Z;
  tep_address : ptr;
  tep_address_bytes : list mbyte;
  tep_client_status : bool;
}.

Inductive tag_call : Type :=
  | Tag_cuda (op : cuda_op)
  | pthread_self
  (* sockets *)
  | socket (domain type protocol : Z)
  | setsockopt_reuseaddr (fd : Z)
  | bind (fd : Z) (addr : sockaddr_in)
  | listen (fd backlog : Z)
  | accept (fd : Z)
  | gethostbyname (name : string)
  | connect (fd : Z) (addr : sockaddr_in)
  | send (fd : Z) (bs : list mbyte)
  | recv_waitall (fd len : Z)
  | close (fd : Z)
  (* UCX *)
  | ucp_config_read
  | ucp_config_print (config flags : Z)
  | ucp_config_release (config : Z)
  | ucp_init (field_mask features request_size config : Z)
  | ucp_cleanup (ctx : Z)
  | ucp_worker_create (ctx field_mask thread_mode : Z)
  | ucp_worker_destroy (worker : Z)
  | ucp_worker_get_address (worker : Z)
  | ucp_worker_release_address (worker addr : Z)
  | ucp_worker_progress (worker : Z)
  | ucp_ep_create (worker : Z) (p : tag_ep_params)
  | ucp_ep_destroy (ep : Z)
  | ucp_ep_flush_nbx (ep : Z) (p : tag_param)
  | ucp_tag_send_nbx (ep : Z) (buffer : ptr) (payload : list mbyte) (tag : Z) (p : tag_param)
  | ucp_tag_probe_nb (worker tag mask remove : Z)
  | ucp_tag_msg_recv_nb (worker : Z) (buffer : ptr) (count : Z) (dt : ucp_datatype)
      (message : Z) (cb : tag_cb_name)
  | ucp_request_check_status (request : Z)
  | ucp_request_release (request : Z).

(** A result with what the call wrote through its out parameters: recv answers the
    bytes it stored, the probe the length of the message it found. *)
Definition tag_ret (c : tag_call) : Type :=
  match c with
  | gethostbyname _ => option hostent
  | recv_waitall _ _ => Z * list Z
  | ucp_config_read | ucp_init _ _ _ _ | ucp_worker_create _ _ _ | ucp_ep_create _ _
  | ucp_tag_probe_nb _ _ _ _ => Z * Z
  | ucp_worker_get_address _ => Z * (Z * list Z)
  | ucp_config_print _ _ | ucp_config_release _ | ucp_cleanup _ | ucp_worker_destroy _
  | ucp_worker_release_address _ _ | ucp_ep_destroy _ | ucp_request_release _ => unit
  | _ => Z
  end.

(** ** Callbacks *)

Inductive tag_cbk : Type :=
  | Cb_request_init (request : Z)
  | Cb_send (request status : Z) (user_data : ptr)
  | Cb_recv (request status length : Z)
  | Cb_flush (request status : Z).

Canonical Structure tag_api : api := {|
  a_glob := tag_glob;
  a_cell := tag_cell;
  a_call := tag_call;
  a_ret := tag_ret;
  a_cbk := tag_cbk;
  a_cbr := unit;
|}.

(** test_mem_type is a variable of hello_world_util.h that this program does not
    use. *)
#[export] Instance tag_hello : HelloApi tag_api := {|
  test_mem_type := λ _ : a_glob tag_api, UCS_MEMORY_TYPE_HOST;
  cuda_call := Tag_cuda : _ → a_call tag_api;
  cuda_res op r := r;
|}.

#[export] Instance tag_typed : Typed tag_api := {| compat _ _ := True; ordinary _ := True |}.

Abbreviation tag_world := (world tag_api).
Abbreviation tag_lib := (lib tag_api).
Abbreviation TM := (M (world tag_api)).

Definition tag_init_world : tag_world := World tag_init_glob ∅ 0%N [].

Definition glb {X} (f : tag_glob → X) : TM X := g ← get_glob; mret (f g).
Definition set_glb (f : tag_glob → tag_glob) : TM unit := mod_glob f.
