(* ===== verification/TagSock.v ===== *)
(** * ucp_tag_hello_world: sockets

    server_connect, client_connect and barrier of the hello_world_util.h of this
    program. *)

From S2P Require Import Prelude CRuntime CLib Ucx HelloUtil TagApi.
Open Scope Z_scope.

Section sock.
Context (L : tag_lib).

(** A call during which no callback runs. *)
Definition call0 (c : tag_call) : TM (tag_ret c) := ext0 L c.

(** CHKERR_JUMP: the message; the goto is what follows. *)
Definition chkerr (msg : string) : TM unit := eprintf "Failed to %s\n" [AStr msg].
(** CHKERR_JUMP_RETVAL *)
Definition chkerr_retval (msg : string) (retval : Z) : TM unit :=
  eprintf "Failed to %s, return value %d\n" [AStr msg; AZ retval].

Definition server_connect (server_port : Z) : TM Z :=
  lsock ← call0 (socket AF_INET SOCK_STREAM 0);
  let err_sock msg := chkerr msg;; call0 (close lsock);; mret (-1) in
  if lsock <? 0 then chkerr "open server socket";; mret (-1)
  else
    ret ← call0 (setsockopt_reuseaddr lsock);
    if ret <? 0 then err_sock "server setsockopt()"
    else
      let inaddr := SockAddrIn AF_INET (htons server_port) INADDR_ANY in
      ret ← call0 (bind lsock inaddr);
      if ret <? 0 then err_sock "bind server"
      else
        ret ← call0 (listen lsock 0);
        if ret <? 0 then err_sock "listen server"
        else
          printf "Waiting for connection...\n" [];;
          dsock ← call0 (accept lsock);
          if dsock <? 0 then err_sock "accept server"
          else
            call0 (close lsock);;
            mret dsock.

(** memcpy(&conn_addr.sin_addr, he->h_addr_list[0], he->h_length) *)
Definition copy_address (he : hostent) : TM (list mbyte) :=
  addrs ← the "null h_addr_list" (h_addr_list he);
  addr ← the "read through an invalid pointer" (head addrs);
  bs ← the "read out of bounds" (slice 0 (h_length he) addr);
  the "write out of bounds" (splice 0 (Some <$> bs) (replicate 4 None)).

Definition client_connect (server : string) (server_port : Z) : TM Z :=
  connfd ← call0 (socket AF_INET SOCK_STREAM 0);
  let err_conn msg := chkerr msg;; call0 (close connfd);; mret (-1) in
  if connfd <? 0 then chkerr "open client socket";; mret (-1)
  else
    found ← call0 (gethostbyname server);
    match found with
    | None | Some (HostEnt _ _ None) => err_conn "found a host"
    | Some he =>
        addr ← copy_address he;
        let conn_addr := SockAddrIn (h_addrtype he) (htons server_port) addr in
        ret ← call0 (connect connfd conn_addr);
        if ret <? 0 then err_conn "connect client" else mret connfd
    end.

(** sizeof(dummy) *)
Definition sizeof_int : Z := 4.

Definition hello_barrier (oob_sock : Z) : TM Z :=
  res ← call0 (send oob_sock (Some <$> le_bytes 4 0));
  if res <? 0 then mret (s32 res)
  else
    '(res, dummy) ← call0 (recv_waitall oob_sock sizeof_int);
    mret (if res =? sizeof_int then 0 else 1).
End sock.
