(* ===== verification/TagHello.v ===== *)
(** * ucp_hello_world.c

    The program from its callbacks to main. [fuel] bounds each of the waiting
    loops. A goto to the label of a function that only releases an object is the
    code behind the label; the two labels of main that the address exchange jumps
    to are values of [label]. *)

From S2P Require Import Prelude CRuntime CLib Ucx HelloUtil TagApi TagSock.
Open Scope Z_scope.

(** struct ucx_context *: a variable of a function, or a request of UCX. *)
Inductive context : Type :=
  | InMemory (p : ptr)
  | InRequest (request : Z).

(** context->completed *)
Definition completed (context : context) : TM Z :=
  match context with
  | InMemory p =>
      '(CCtx c) ← (read_cell p : TM tag_cell); the "uninitialised completed" c
  | InRequest q => rs ← glb g_requests; the "not a request" (rs !! q)
  end.
Definition set_completed (context : context) (v : Z) : TM unit :=
  match context with
  | InMemory p => update_cell "wrong type" p (λ _, Some (CCtx (Some v)))
  | InRequest q => set_glb (with_request q v)
  end.

Section hello.
Context `{!Ucs, !Ucp, !Cuda} (L : tag_lib) (fuel : nat).

(** ** Callbacks *)

Definition request_init (request : Z) : TM unit := set_completed (InRequest request) 0.

(** (unsigned int)pthread_self() *)
Definition self : TM arg := t ← call0 L pthread_self; mret (AZ (u32 t)).

Definition send_handler (request status : Z) (ctx : ptr) : TM unit :=
  set_completed (InMemory ctx) 1;;
  id ← self;
  printf "[0x%x] send handler called with status %d (%s)\n" [id; AZ status; AZ status].

Definition recv_handler (request status length : Z) : TM unit :=
  set_completed (InRequest request) 1;;
  id ← self;
  printf "[0x%x] receive handler called with status %d (%s), length %lu\n"
    [id; AZ status; AZ status; AZ length].

Definition flush_callback (request status : Z) : TM unit := mret tt.

Definition tag_handler (cb : tag_cbk) : TM unit :=
  match cb with
  | Cb_request_init request => request_init request
  | Cb_send request status user_data => send_handler request status user_data
  | Cb_recv request status length => recv_handler request status length
  | Cb_flush request status => flush_callback request status
  end.

(** A call during which callbacks may run. *)
Definition call (c : tag_call) : TM (tag_ret c) := ext L tag_handler c.

(** ** Common parts *)

Definition set_msg_data_len (msg : ptr) (data_len : Z) : TM unit :=
  local (Bytes KStack (Some <$> le_bytes 8 data_len)) (λ p,
    cuda_run L "cudaMemcpy(&msg->data_len, &data_len, sizeof(data_len), cudaMemcpyDefault)"
      (cudaMemcpy msg p 8) (cuda_copy msg p 8)).

Definition ucx_wait (ucp_worker : Z) (context : context) : TM unit :=
  while fuel
    (c ← completed context; mret (c =? 0))
    (call (ucp_worker_progress ucp_worker);; mret tt).

(** context->completed is set back before UCX gets the request again. *)
Definition wait_received (ucp_worker request : Z) : TM unit :=
  ucx_wait ucp_worker (InRequest request);;
  set_completed (InRequest request) 0;;
  call (ucp_request_release request).

Definition flush_ep (worker ep : Z) : TM Z :=
  let param := TagParam UCP_OP_ATTR_FIELD_CALLBACK F_flush_callback None None in
  request ← call (ucp_ep_flush_nbx ep param);
  if request =? 0 then mret UCS_OK
  else if UCS_PTR_IS_ERR request then mret (UCS_PTR_STATUS request)
  else
    status ← do_while fuel
      (call (ucp_worker_progress worker);; call (ucp_request_check_status request))
      (λ status, status =? UCS_INPROGRESS);
    call (ucp_request_release request);;
    mret status.

(** The size is an int here, and calloc clears the last byte. *)
Definition hello_generate_test_string (str : ptr) (size : Z) : TM Z :=
  tmp_str ← calloc L (u64 size);
  if bool_decide (tmp_str = Null) then chkerr "allocate memory\n";; mret (-1)
  else
    last ← c_int (size - 1);
    for_up 0 (Z.to_nat last) (put_char tmp_str);;
    cuda_run L "cudaMemcpy(str, tmp_str, size, cudaMemcpyDefault)"
      (cudaMemcpy str tmp_str (u64 size)) (cuda_copy str tmp_str (u64 size));;
    free tmp_str;;
    mret 0.

(** UCX reads the address by itself: [tep_address_bytes] is what is there. *)
Definition ep_params (field_mask : Z) (client_status : bool) : TM tag_ep_params :=
  peer_addr ← glb g_peer_addr;
  peer_addr_len ← glb g_peer_addr_len;
  address ← read_mem by_lib peer_addr peer_addr_len;
  mret (TagEpParams field_mask peer_addr address client_status).

(** The callback that reports to [ctx]. *)
Definition send_param (ctx : ptr) (mask : Z) (memory_type : option ucs_memory_type_t) : tag_param :=
  TagParam (Z.lor (Z.lor UCP_OP_ATTR_FIELD_CALLBACK UCP_OP_ATTR_FIELD_USER_DATA) mask)
    F_send_handler (Some ctx) memory_type.

(** cudaMallocManaged on the address of msg: on failure msg is as it was. *)
Definition malloc_managed (name : string) (length : Z) (msg : ptr) : TM ptr :=
  cuda_malloc L name (cudaMallocManaged length) KManaged length msg.

(** ** Client *)

(** msg = len + local_addr *)
Definition fill_address (msg : ptr) (msg_len : Z) (local_addr : list Z) (local_addr_len : Z)
  : TM unit :=
  memset msg 0 msg_len;;
  write_mem by_cpu msg (Some <$> le_bytes 8 local_addr_len);;
  write_mem by_cpu (ptr_add msg sizeof_msg) (Some <$> local_addr).

(** Send client UCX address to server. [inl]: msg, which was freed; [inr]: err_ep. *)
Definition send_address (ucp_worker server_ep : Z) (ctx : ptr) : TM (ptr + Z) :=
  local_addr ← glb g_local_addr;
  local_addr_len ← glb g_local_addr_len;
  let msg_len := u64 (sizeof_msg + local_addr_len) in
  msg ← malloc L msg_len;
  if bool_decide (msg = Null) then chkerr "allocate memory\n";; mret (inr (-1))
  else
    fill_address msg msg_len local_addr local_addr_len;;
    set_completed (InMemory ctx) 0;;
    payload ← read_mem by_lib msg msg_len;
    request ← call (ucp_tag_send_nbx server_ep msg payload tag (send_param ctx 0 None));
    if UCS_PTR_IS_ERR request then
      eprintf "unable to send UCX address message\n" [];;
      free msg;;
      mret (inr (-1))
    else
      when (UCS_PTR_IS_PTR request)
        (ucx_wait ucp_worker (InMemory ctx);; call (ucp_request_release request));;
      free msg;;
      mret (inl msg).

(** for (;;): the handle of the message, and info_tag.length. *)
Definition probe_client (ucp_worker : Z) : TM (Z * Z) :=
  loop fuel (λ _ : unit,
    '(msg_tag, length) ← call (ucp_tag_probe_nb ucp_worker tag tag_mask 1);
    if negb (msg_tag =? 0) then mret (inr (msg_tag, length))
    else call (ucp_worker_progress ucp_worker);; mret (inl tt)) tt.

(** printf("%s", str) between the two lines. *)
Definition print_received (str : ptr) : TM unit :=
  printf "\n\n----- UCP TEST SUCCESS ----\n\n" [];;
  s ← read_string None str;
  printf "%s" [ABytes s];;
  printf "\n\n---------------------------\n\n" [].

(** Receive test string from server. [msg]: the value of the variable so far. *)
Definition receive_string (ucp_worker : Z) (msg : ptr) : TM Z :=
  '(msg_tag, length) ← probe_client ucp_worker;
  msg ← malloc_managed
    "cudaMallocManaged((void **)&msg, info_tag.length, cudaMemAttachGlobal)" length msg;
  if bool_decide (msg = Null) then chkerr "allocate memory\n";; mret (-1)
  else
    request ← call (ucp_tag_msg_recv_nb ucp_worker msg length (ucp_dt_make_contig 1) msg_tag
                      F_recv_handler);
    if UCS_PTR_IS_ERR request then
      eprintf "unable to receive UCX data message (%u)\n" [AZ (u32 (UCS_PTR_STATUS request))];;
      free msg;;
      mret (-1)
    else if negb (UCS_PTR_IS_PTR request) then stop (AssertFail "UCS_PTR_IS_PTR(request)")
    else
      wait_received ucp_worker request;;
      printf "UCX data message was received\n" [];;
      str ← calloc L test_string_length;
      if bool_decide (str = Null) then eprintf "Memory allocation failed\n" [];; mret (-1)
      else
        cuda_run L "cudaMemcpy(str, msg + 1, test_string_length, cudaMemcpyDefault)"
          (cudaMemcpy str (ptr_add msg sizeof_msg) test_string_length)
          (cuda_copy str (ptr_add msg sizeof_msg) test_string_length);;
        print_received str;;
        free str;;
        cuda_run L "cudaFree(msg)" (cudaFree msg) (cuda_release msg);;
        mret 0.

(** Everything before err_ep. *)
Definition client_work (ucp_worker server_ep : Z) (ctx : ptr) : TM Z :=
  sent ← send_address ucp_worker server_ep ctx;
  match sent with
  | inl msg => receive_string ucp_worker msg
  | inr ret => mret ret
  end.

Definition run_ucx_client (ucp_worker : Z) : TM Z :=
  local (Cell KStack (CCtx None)) (λ ctx,
  params ← ep_params UCP_EP_PARAM_FIELD_REMOTE_ADDRESS false;
  '(status, server_ep) ← call (ucp_ep_create ucp_worker params);
  if negb (status =? UCS_OK) then chkerr "ucp_ep_create\n";; mret (-1)
  else
    ret ← client_work ucp_worker server_ep ctx;
    call (ucp_ep_destroy server_ep);;
    mret ret).

(** ** Server *)

Definition probe_server (ucp_worker : Z) : TM (Z * Z) :=
  do_while fuel
    (call (ucp_worker_progress ucp_worker);;
     call (ucp_tag_probe_nb ucp_worker tag tag_mask 1))
    (λ '(msg_tag, _), msg_tag =? 0).

(** msg->data_len: all its bytes must have been written. *)
Definition read_data_len (msg : ptr) : TM Z :=
  bs ← read_mem by_cpu msg sizeof_msg;
  vs ← the "uninitialised data_len" (mapM id bs);
  mret (le_val vs).

(** peer_addr and peer_addr_len become what msg says, and msg goes. *)
Definition keep_address (msg : ptr) : TM (ptr + Z) :=
  data_len ← read_data_len msg;
  set_glb (with_peer_addr_len data_len);;
  peer_addr ← malloc L data_len;
  set_glb (with_peer_addr peer_addr);;
  if bool_decide (peer_addr = Null) then
    eprintf "unable to allocate memory for peer address\n" [];;
    free msg;;
    mret (inr (-1))
  else
    memcpy peer_addr (ptr_add msg sizeof_msg) data_len;;
    free msg;;
    mret (inl msg).

(** Receive client UCX address: peer_addr and peer_addr_len are set. [inl]: msg,
    which was freed; [inr]: err. *)
Definition receive_address (ucp_worker : Z) : TM (ptr + Z) :=
  '(msg_tag, length) ← probe_server ucp_worker;
  msg ← malloc L length;
  if bool_decide (msg = Null) then chkerr "allocate memory\n";; mret (inr (-1))
  else
    request ← call (ucp_tag_msg_recv_nb ucp_worker msg length (ucp_dt_make_contig 1) msg_tag
                      F_recv_handler);
    if UCS_PTR_IS_ERR request then
      eprintf "unable to receive UCX address message (%s)\n" [AZ (UCS_PTR_STATUS request)];;
      free msg;;
      mret (inr (-1))
    else if negb (UCS_PTR_IS_PTR request) then stop (AssertFail "UCS_PTR_IS_PTR(request)")
    else
      wait_received ucp_worker request;;
      printf "UCX address message was received\n" [];;
      keep_address msg.

(** From msg_len on: everything before err_ep. *)
Definition send_string (ucp_worker client_ep : Z) (ctx : ptr) (msg : ptr) : TM Z :=
  let msg_len := u64 (sizeof_msg + test_string_length) in
  msg ← malloc_managed "cudaMallocManaged((void **)&msg, msg_len, cudaMemAttachGlobal)" msg_len msg;
  if bool_decide (msg = Null) then chkerr "allocate memory\n";; mret (-1)
  else
    cuda_run L "cudaMemset(msg, 0, msg_len)" (cudaMemset msg 0 msg_len) (cuda_fill msg 0 msg_len);;
    set_msg_data_len msg (u64 (msg_len - sizeof_msg));;
    ret ← hello_generate_test_string (ptr_add msg sizeof_msg) (s32 test_string_length);
    ret ←
      (if ret <? 0 then chkerr "generate test string";; mret ret
       else
         set_completed (InMemory ctx) 0;;
         payload ← read_mem by_lib msg msg_len;
         request ← call (ucp_tag_send_nbx client_ep msg payload tag
           (send_param ctx UCP_OP_ATTR_FIELD_MEMORY_TYPE (Some UCS_MEMORY_TYPE_CUDA)));
         if UCS_PTR_IS_ERR request then
           eprintf "unable to send UCX data message\n" [];; mret (-1)
         else
           when (UCS_PTR_IS_PTR request)
             (printf "UCX data message was scheduled for send\n" [];;
              ucx_wait ucp_worker (InMemory ctx);;
              call (ucp_request_release request));;
           status ← flush_ep ucp_worker client_ep;
           printf "flush_ep completed with status %d (%s)\n" [AZ status; AZ status];;
           mret 0);
    e ← call0 L (Tag_cuda (cudaFree msg));
    when ((e : Z) =? cudaSuccess) (cuda_release msg);;
    mret ret.

(** err_handler is among the fields that are announced, but it is not set. *)
Definition run_ucx_server (ucp_worker : Z) : TM Z :=
  local (Cell KStack (CCtx None)) (λ ctx,
  received ← receive_address ucp_worker;
  match received with
  | inr ret => mret ret
  | inl msg =>
      params ← ep_params
        (Z.lor (Z.lor UCP_EP_PARAM_FIELD_REMOTE_ADDRESS UCP_EP_PARAM_FIELD_ERR_HANDLER)
           UCP_EP_PARAM_FIELD_USER_DATA) true;
      '(status, client_ep) ← call (ucp_ep_create ucp_worker params);
      if negb (status =? UCS_OK) then chkerr "ucp_ep_create\n";; mret (-1)
      else
        ret ← send_string ucp_worker client_ep ctx msg;
        call (ucp_ep_destroy client_ep);;
        mret ret
  end).

Definition run_test (client_target_name : option string) (ucp_worker : Z) : TM Z :=
  match client_target_name with
  | Some _ => run_ucx_client ucp_worker
  | None => run_ucx_server ucp_worker
  end.

(** ** main *)

Inductive label : Type := err_peer_addr | err_addr.

(** A uint64_t that holds 0, after recv stored [bs] in it. *)
Definition received_uint64 (bs : list Z) : TM Z :=
  bs' ← the "write out of bounds" (splice 0 bs (le_bytes 8 0)); mret (le_val bs').

(** OOB connection establishment: the socket, or a value of ret and a label. *)
Definition oob_client (client_target_name : string) : TM (Z + Z * label) :=
  local_addr_len ← glb g_local_addr_len;
  set_glb (with_peer_addr_len local_addr_len);;
  oob_sock ← client_connect L client_target_name server_port;
  if oob_sock <? 0 then chkerr "client_connect\n";; mret (inr (-1, err_addr))
  else
    '(n, bs) ← call0 L (recv_waitall oob_sock 8);
    addr_len ← received_uint64 bs;
    let ret := s32 n in
    if negb (ret =? 8) then
      chkerr_retval "receive address length\n" ret;; mret (inr (ret, err_addr))
    else
      set_glb (with_peer_addr_len addr_len);;
      peer_addr ← malloc L addr_len;
      set_glb (with_peer_addr peer_addr);;
      if bool_decide (peer_addr = Null) then
        chkerr "allocate memory\n";; mret (inr (ret, err_addr))
      else
        '(n, bs) ← call0 L (recv_waitall oob_sock addr_len);
        write_mem by_cpu peer_addr (Some <$> bs);;
        let ret := s32 n in
        if negb (ret =? s32 addr_len) then
          chkerr_retval "receive address\n" ret;; mret (inr (ret, err_peer_addr))
        else mret (inl oob_sock).

Definition oob_server : TM (Z + Z * label) :=
  oob_sock ← server_connect L server_port;
  if oob_sock <? 0 then chkerr "server_connect\n";; mret (inr (-1, err_peer_addr))
  else
    local_addr ← glb g_local_addr;
    local_addr_len ← glb g_local_addr_len;
    n ← call0 L (send oob_sock (Some <$> le_bytes 8 local_addr_len));
    let ret := s32 n in
    if negb (ret =? 8) then
      chkerr_retval "send address length\n" ret;; mret (inr (ret, err_peer_addr))
    else
      n ← call0 L (send oob_sock (Some <$> local_addr));
      let ret := s32 n in
      if negb (ret =? s32 local_addr_len) then
        chkerr_retval "send address\n" ret;; mret (inr (ret, err_peer_addr))
      else mret (inl oob_sock).

(** From the address exchange to err_peer_addr, with free(peer_addr) there. *)
Definition exchange_and_run (client_target_name : option string) (ucp_worker : Z) : TM Z :=
  connected ← match client_target_name with
              | Some name => oob_client name
              | None => oob_server
              end;
  '(ret, l) ←
    match connected with
    | inr (ret, l) => mret (ret, l)
    | inl oob_sock =>
        ret ← run_test client_target_name ucp_worker;
        ret ← (if ret =? 0 then hello_barrier L oob_sock else mret ret);
        call0 L (close oob_sock);;
        mret (ret, err_peer_addr)
    end;
  match l with
  | err_peer_addr => peer_addr ← glb g_peer_addr; free peer_addr
  | err_addr => mret tt
  end;;
  mret ret.

(** From ucp_worker_get_address to err_addr. *)
Definition with_worker (client_target_name : option string) (ucp_worker : Z) : TM Z :=
  '(status, (local_addr, bytes)) ← call (ucp_worker_get_address ucp_worker);
  if negb (status =? UCS_OK) then chkerr "ucp_worker_get_address\n";; mret (-1)
  else
    set_glb (with_local_addr local_addr bytes);;
    id ← self;
    printf "[0x%x] local address length: %lu\n" [id; AZ (Z.of_nat (length bytes))];;
    ret ← exchange_and_run client_target_name ucp_worker;
    call (ucp_worker_release_address ucp_worker local_addr);;
    mret ret.

(** From ucp_worker_create to err_worker. *)
Definition with_context (client_target_name : option string) (ucp_context : Z) : TM Z :=
  '(status, ucp_worker) ← call (ucp_worker_create ucp_context
      UCP_WORKER_PARAM_FIELD_THREAD_MODE UCS_THREAD_MODE_SINGLE);
  if negb (status =? UCS_OK) then chkerr "ucp_worker_create\n";; mret (-1)
  else
    ret ← with_worker client_target_name ucp_worker;
    call (ucp_worker_destroy ucp_worker);;
    mret ret.

(** [argv] with the program name. *)
Definition hello_main (argv : list string) : TM Z :=
  let client_target_name := if (length argv =? 2)%nat then argv !! 1%nat else None in
  if (2 <? length argv)%nat then
    printf "Usage: ucp_hello_world [server_address]\n\tUCX hello world example using ucp. Start server by providing no args, or connect to a running server at server_address\n" [];;
    mret 0
  else
    '(status, config) ← call ucp_config_read;
    if negb (status =? UCS_OK) then chkerr "ucp_config_read\n";; mret (-1)
    else
      '(status, ucp_context) ← call (ucp_init
          (Z.lor (Z.lor UCP_PARAM_FIELD_FEATURES UCP_PARAM_FIELD_REQUEST_SIZE)
             UCP_PARAM_FIELD_REQUEST_INIT) UCP_FEATURE_TAG sizeof_ucx_context config);
      call (ucp_config_print config UCS_CONFIG_PRINT_CONFIG);;
      call (ucp_config_release config);;
      if negb (status =? UCS_OK) then chkerr "ucp_init\n";; mret (-1)
      else
        ret ← with_context client_target_name ucp_context;
        call (ucp_cleanup ucp_context);;
        mret ret.
End hello.
