(* ===== verification/TagOwn.v ===== *)
(** * ucp_tag_hello_world: ownership of external objects

    What each call of the program does to the descriptors and UCX objects that are
    alive ([tag_step]), and the proof that the program follows the rules: nothing
    is used or destroyed when it is not alive, or destroyed while something that
    depends on it is. What can be left at the end is the socket. *)

From S2P Require Import Prelude CRuntime CLib Ucx HelloUtil Ownership TagApi TagSock TagHello.
From stdpp Require Import gmultiset.
Open Scope Z_scope.

(** ** Calls *)

Section step.
Context `{!Ucs}.

(** [None] is misuse. *)
Definition tag_step (c : tag_call) : tag_ret c → objects → option objects :=
  let ok (st : Z) := st =? UCS_OK in
  match c return tag_ret c → objects → option objects with
  | Tag_cuda _ => λ _ o, Some o
  | pthread_self => λ _ o, Some o
  | gethostbyname _ => λ _ o, Some o
  | socket _ _ _ => λ fd o, make_if (0 <=? fd) (Fd fd) o
  | setsockopt_reuseaddr fd | bind fd _ | listen fd _ | connect fd _ | send fd _ => λ _ o,
      with_objects [Fd fd] o (Some o)
  | recv_waitall fd _ => λ _ o, with_objects [Fd fd] o (Some o)
  | accept l => λ fd o, with_objects [Fd l] o (make_if (0 <=? fd) (Fd fd) o)
  | close fd => λ _ o, drop_object (Fd fd) o
  | ucp_config_read => λ r o, make_if (ok r.1) (Config r.2) o
  | ucp_config_print c _ => λ _ o, with_objects [Config c] o (Some o)
  | ucp_config_release c => λ _ o, drop_object (Config c) o
  | ucp_init _ _ _ c => λ r o, with_objects [Config c] o (make_if (ok r.1) (Ctx r.2) o)
  | ucp_cleanup c => λ _ o, none_left needs_ctx o (drop_object (Ctx c) o)
  | ucp_worker_create c _ _ => λ r o,
      with_objects [Ctx c] o (make_if (ok r.1) (Worker r.2) o)
  | ucp_worker_destroy w => λ _ o, none_left needs_worker o (drop_object (Worker w) o)
  | ucp_worker_get_address w => λ r o,
      with_objects [Worker w] o (make_if (ok r.1) (Addr r.2.1) o)
  | ucp_worker_release_address w a => λ _ o, with_objects [Worker w] o (drop_object (Addr a) o)
  | ucp_worker_progress w => λ _ o, with_objects [Worker w] o (Some o)
  | ucp_tag_probe_nb w _ _ _ => λ _ o, with_objects [Worker w] o (Some o)
  | ucp_ep_create w _ => λ r o, with_objects [Worker w] o (make_if (ok r.1) (Ep r.2) o)
  | ucp_ep_destroy e => λ _ o, drop_object (Ep e) o
  | ucp_ep_flush_nbx e _ => λ q o,
      with_objects [Ep e] o (make_if (UCS_PTR_IS_PTR q) (Req q) o)
  | ucp_tag_send_nbx e _ _ _ _ => λ q o,
      with_objects [Ep e] o (make_if (UCS_PTR_IS_PTR q) (Req q) o)
  | ucp_tag_msg_recv_nb w _ _ _ _ _ => λ q o,
      with_objects [Worker w] o (make_if (UCS_PTR_IS_PTR q) (Req q) o)
  | ucp_request_check_status q => λ _ o, with_objects [Req q] o (Some o)
  | ucp_request_release q => λ _ o, drop_object (Req q) o
  end.

(** What is alive after a history. *)
Fixpoint tag_owned (h : history tag_api) : option objects :=
  match h with
  | [] => Some ∅
  | ECall c r :: h' => tag_owned h' ≫= tag_step c r
  | _ :: h' => tag_owned h'
  end.

Definition tag_owns (o : objects) (w : tag_world) : Prop := tag_owned (trace w) = Some o.

(** The program said that something failed. *)
Definition reported (w : tag_world) : Prop := ∃ f l, EOut Stderr f l ∈ trace w.

Lemma reported_grows w w' : grows w w' → reported w → reported w'.
Proof.
  intros (_ & _ & [l Hl]) (f & a & Hin). exists f, a. rewrite Hl. apply elem_of_app. by right.
Qed.
End step.

(** ** Preserved relations *)

(** [TagQuiet R]: [R] also ignores assignments to the static variables and
    pthread_self. *)
Class TagQuiet (R : tag_world → tag_world → Prop) : Prop := {
  tq_hello :: HelloQuiet R;
  tq_glob w g : R w (set_glob g w);
  tq_self w r : R w (push (ECall (A := tag_api) pthread_self r) w);
}.
#[export] Hint Extern 1 (TagQuiet _) => typeclasses eauto : keeps.

Section tag_keeps.
Context `{!Ucs, !Ucp, !Cuda} (L : tag_lib) (R : tag_world → tag_world → Prop) `{!TagQuiet R}.

Lemma keeps_tag_set_glb f : keeps R (set_glb f).
Proof. intros w. apply tq_glob. Qed.
Lemma keeps_tag_glb {X} (f : tag_glob → X) : keeps R (glb f).
Proof. unfold glb. solve_keeps. Qed.
Hint Resolve keeps_tag_set_glb keeps_tag_glb : keeps.
Lemma keeps_completed c : keeps R (completed c).
Proof. unfold completed. solve_keeps. Qed.
Lemma keeps_set_completed c v : keeps R (set_completed c v).
Proof.
  destruct c; simpl; [|apply keeps_tag_set_glb].
  apply keeps_update_cell; [typeclasses eauto|]. by intros [] ? [= <-].
Qed.
Hint Resolve keeps_completed keeps_set_completed : keeps.
Lemma keeps_self : keeps R (self L).
Proof. pose proof tq_self. unfold self, call0. solve_keeps. Qed.
Hint Resolve keeps_self : keeps.
Lemma keeps_tag_handler cb : keeps R (tag_handler L cb).
Proof.
  destruct cb; simpl; unfold request_init, send_handler, recv_handler, flush_callback, printf;
    solve_keeps.
Qed.

Lemma keeps_chkerr m : keeps R (chkerr m).
Proof. unfold chkerr. solve_keeps. Qed.
Lemma keeps_chkerr_retval m v : keeps R (chkerr_retval m v).
Proof. unfold chkerr_retval. solve_keeps. Qed.
Lemma keeps_set_msg_data_len p n : keeps R (set_msg_data_len L p n).
Proof. unfold set_msg_data_len. solve_keeps. Qed.
Lemma keeps_hello_generate p n : keeps R (hello_generate_test_string L p n).
Proof.
  pose proof keeps_chkerr. pose proof (keeps_c_int R).
  unfold hello_generate_test_string, put_char, calloc. solve_keeps.
Qed.
Lemma keeps_malloc_managed s n p : keeps R (malloc_managed L s n p).
Proof.
  pose proof (hq_cuda (R := R)). unfold malloc_managed, cuda_malloc, CUDA_FUNC. solve_keeps.
Qed.
Lemma keeps_malloc n : keeps R (malloc L n).
Proof. unfold malloc. solve_keeps. Qed.
Lemma keeps_calloc n : keeps R (calloc L n).
Proof. unfold calloc. solve_keeps. Qed.
Lemma keeps_ep_params m c : keeps R (ep_params m c).
Proof. unfold ep_params. solve_keeps. Qed.
Lemma keeps_fill_address p n bs m : keeps R (fill_address p n bs m).
Proof. unfold fill_address. solve_keeps. Qed.
Lemma keeps_read_data_len p : keeps R (read_data_len p).
Proof. unfold read_data_len. solve_keeps. Qed.
Lemma keeps_print_received p : keeps R (print_received p).
Proof. unfold print_received, printf. solve_keeps. Qed.
Lemma keeps_received_uint64 bs : keeps R (received_uint64 bs).
Proof. unfold received_uint64. solve_keeps. Qed.
Lemma keeps_copy_address he : keeps R (copy_address he).
Proof. unfold copy_address. solve_keeps. Qed.
End tag_keeps.

#[export] Hint Resolve keeps_tag_set_glb keeps_tag_glb keeps_completed keeps_set_completed keeps_self
  keeps_tag_handler keeps_chkerr keeps_chkerr_retval keeps_set_msg_data_len
  keeps_hello_generate keeps_malloc_managed keeps_malloc keeps_calloc keeps_ep_params
  keeps_fill_address keeps_read_data_len keeps_print_received keeps_received_uint64 keeps_copy_address : keeps.

#[export] Instance tag_owned_interactive `{!Ucs} :
  Interactive (same (λ w : tag_world, tag_owned (trace w))).
Proof. apply same_trace_interactive. by intros []. Qed.

#[export] Instance tag_owned_quiet `{!Ucs} : TagQuiet (same (λ w : tag_world, tag_owned (trace w))).
Proof.
  split; [split|..].
  - typeclasses eauto.
  - intros w op r. unfold same. simpl. by destruct (tag_owned (trace w)).
  - by intros.
  - intros w r. unfold same. simpl. by destruct (tag_owned (trace w)).
Qed.

#[export] Instance grows_tag : TagQuiet grows.
Proof.
  split; [typeclasses eauto|..]; intros; [apply grows_set_glob|apply grows_push].
Qed.
