(* ===== verification/TagLife.v ===== *)
(** * ucp_tag_hello_world: the life of its objects

    For every behaviour of the outside: each function uses objects that are alive
    and leaves what it found, the sockets of the address exchange apart. *)

From S2P Require Import Prelude CRuntime CLib Ucx HelloUtil Ownership TagApi TagSock TagHello TagOwn.
From stdpp Require Import gmultiset.
Open Scope Z_scope.

Section life.
Context `{!Ucs, !Ucp, !Cuda} (L : tag_lib) (fuel : nat).
Implicit Types (w : tag_world) (o : objects).

(** Wherever the run stops, nothing was misused before. *)
Definition never_misused : halt → tag_world → Prop := λ _ w, ∃ o, tag_owns o w.

Lemma alive_quiet {A} o (m : TM A) (Q : A → tag_world → Prop) w :
  keeps (same (λ w : tag_world, tag_owned (trace w))) m →
  tag_owns o w → (∀ a w', tag_owns o w' → Q a w') → wp never_misused m Q w.
Proof.
  intros Hk Ho HQ. specialize (Hk w). unfold same in Hk. unfold wp.
  destruct (m w) as [[a|h] w']; simpl in Hk.
  - apply HQ. unfold tag_owns in *. congruence.
  - exists o. unfold tag_owns in *. congruence.
Qed.

(** One call. *)
Lemma alive_call0 o c (Q : tag_ret c → tag_world → Prop) w :
  tag_owns o w →
  (∀ r, ∃ o', tag_step c r o = Some o' ∧ ∀ w', tag_owns o' w' → Q r w') →
  wp never_misused (call0 L c) Q w.
Proof.
  intros Ho Hc. apply wp_ext0. destruct (Hc (l_ret L (trace w) c)) as (o' & Hst & HQ). apply HQ.
  unfold tag_owns in *. simpl. by rewrite Ho.
Qed.

Lemma alive_call o c (Q : tag_ret c → tag_world → Prop) w :
  tag_owns o w →
  (∀ r, ∃ o', tag_step c r o = Some o' ∧ ∀ w', tag_owns o' w' → Q r w') →
  wp never_misused (call L c) Q w.
Proof.
  intros Ho Hc. unfold call, ext. apply wp_bind, wp_gets, wp_bind.
  eapply alive_quiet; [|exact Ho|].
  - apply keeps_run_acts; [typeclasses eauto|]. intros. apply keeps_tag_handler. typeclasses eauto.
  - intros [] w' Ho'. by eapply alive_call0.
Qed.

(** A call that only uses objects. *)
Lemma alive_use o c xs (Q : tag_ret c → tag_world → Prop) w :
  (∀ r, tag_step c r o = with_objects xs o (Some o)) →
  tag_owns o w → Forall (λ x, x ∈ o) xs → (∀ r w', tag_owns o w' → Q r w') →
  wp never_misused (call L c) Q w.
Proof.
  intros Hst Ho Hx HQ. eapply alive_call; [done|]. intros r. exists o.
  split; [|auto]. rewrite Hst. by apply use_ok.
Qed.
Lemma alive_use0 o c xs (Q : tag_ret c → tag_world → Prop) w :
  (∀ r, tag_step c r o = with_objects xs o (Some o)) →
  tag_owns o w → Forall (λ x, x ∈ o) xs → (∀ r w', tag_owns o w' → Q r w') →
  wp never_misused (call0 L c) Q w.
Proof.
  intros Hst Ho Hx HQ. eapply alive_call0; [done|]. intros r. exists o.
  split; [|auto]. rewrite Hst. by apply use_ok.
Qed.

(** A call that ends an object. *)
Lemma alive_drop o c x (Q : tag_ret c → tag_world → Prop) w :
  (∀ r, tag_step c r (make x o) = Some o) →
  tag_owns (make x o) w → (∀ r w', tag_owns o w' → Q r w') → wp never_misused (call L c) Q w.
Proof. intros Hst Ho HQ. eapply alive_call; [done|]. intros r. exists o. split; [apply Hst|auto]. Qed.

(** ** Waiting *)

Lemma ucx_wait_alive o wk c (Q : unit → tag_world → Prop) w :
  tag_owns o w → Worker wk ∈ o → (∀ w', tag_owns o w' → Q tt w') →
  wp never_misused (ucx_wait L fuel wk c) Q w.
Proof.
  intros Ho Hw HQ. apply wp_while with (I := tag_owns o); [done|by exists o|].
  intros w1 Ho1. apply wp_bind. eapply alive_quiet; [solve_keeps|done|]. intros v w2 Ho2.
  apply wp_ret. destruct (v =? 0); [|by apply HQ]. apply wp_bind.
  eapply (alive_use o (ucp_worker_progress wk)); [done|done|by repeat constructor|].
  intros. by apply wp_ret.
Qed.

Lemma release_alive o q (Q : unit → tag_world → Prop) w :
  tag_owns (make (Req q) o) w → (∀ w', tag_owns o w' → Q tt w') →
  wp never_misused (call L (ucp_request_release q)) Q w.
Proof.
  intros Ho HQ. eapply (alive_drop o (ucp_request_release q)); [|done|].
  - intros r. by apply drop_ok.
  - intros []. apply HQ.
Qed.

Lemma wait_received_alive o wk q (Q : unit → tag_world → Prop) w :
  tag_owns (make (Req q) o) w → Worker wk ∈ o → (∀ w', tag_owns o w' → Q tt w') →
  wp never_misused (wait_received L fuel wk q) Q w.
Proof.
  intros Ho Hw HQ. apply wp_bind. eapply ucx_wait_alive; [done|unfold make; multiset_solver|].
  intros w1 Ho1. apply wp_bind. eapply alive_quiet; [solve_keeps|done|]. intros [] w2 Ho2.
  by eapply release_alive.
Qed.

(** The next step makes no call that [tag_step] looks at. *)
Local Ltac quiet :=
  try apply wp_bind; eapply alive_quiet; [solve_keeps|eassumption|]; intros ? ? ?.

(** ** Requests *)

(** The objects after a call that may answer a request. *)
Definition with_request_of (q : Z) o : objects := if UCS_PTR_IS_PTR q then make (Req q) o else o.

Lemma err_no_request q o : UCS_PTR_IS_ERR q = true → with_request_of q o = o.
Proof.
  intros Hq. unfold with_request_of.
  destruct (ucs_ptr_cases q) as [->|[(_ & _ & ->)|(_ & H2 & _)]]; [|done|congruence].
  by destruct ucs_ptr_null as (_ & -> & _).
Qed.

Lemma posted_alive o c xs (Q : tag_ret c → tag_world → Prop) w (request : tag_ret c → Z) :
  (∀ r, tag_step c r o = with_objects xs o (Some (with_request_of (request r) o))) →
  tag_owns o w → Forall (λ x, x ∈ o) xs →
  (∀ r w', tag_owns (with_request_of (request r) o) w' → Q r w') →
  wp never_misused (call L c) Q w.
Proof.
  intros Hst Ho Hx HQ. eapply alive_call; [done|]. intros r. rewrite Hst, use_ok by done. eauto.
Qed.

(** Waiting for a send, and its end. *)
Lemma wait_sent_alive o wk q c (Q : unit → tag_world → Prop) w :
  tag_owns (make (Req q) o) w → Worker wk ∈ o → (∀ w', tag_owns o w' → Q tt w') →
  wp never_misused (ucx_wait L fuel wk c;; call L (ucp_request_release q)) Q w.
Proof.
  intros Ho Hw HQ. apply wp_bind. eapply ucx_wait_alive; [done|unfold make; multiset_solver|].
  intros w1 Ho1. by eapply release_alive.
Qed.

Lemma flush_ep_alive o wk ep (Q : Z → tag_world → Prop) w :
  tag_owns o w → Ep ep ∈ o → Worker wk ∈ o → (∀ st w', tag_owns o w' → Q st w') →
  wp never_misused (flush_ep L fuel wk ep) Q w.
Proof.
  intros Ho He Hw HQ. apply wp_bind.
  eapply (posted_alive o (ucp_ep_flush_nbx ep _) [Ep ep]) with (request := λ q, q);
    [done|done|by repeat constructor|]. intros q w1 Ho1.
  destruct (ucs_ptr_cases q) as [->|[(Hz & He' & Hp)|(Hz & He' & Hp)]].
  - rewrite Z.eqb_refl. apply wp_ret, HQ. unfold with_request_of in Ho1.
    destruct ucs_ptr_null as (_ & Hp & _). by rewrite Hp in Ho1.
  - rewrite (proj2 (Z.eqb_neq _ _)), He' by done. apply wp_ret, HQ.
    by rewrite err_no_request in Ho1.
  - rewrite (proj2 (Z.eqb_neq _ _)), He' by done. unfold with_request_of in Ho1. rewrite Hp in Ho1.
    apply wp_bind. unfold do_while.
    apply wp_loop with (I := λ _, tag_owns (make (Req q) o)); [done|by eexists|].
    intros [] w2 Ho2. apply wp_bind, wp_bind.
    eapply (alive_use (make (Req q) o) (ucp_worker_progress wk) [Worker wk]); [done|done|..].
    { repeat constructor. unfold make. multiset_solver. }
    intros r w3 Ho3. eapply (alive_use (make (Req q) o) (ucp_request_check_status q) [Req q]); [done|done|..].
    { repeat constructor. unfold make. multiset_solver. }
    intros st w4 Ho4. destruct (st =? UCS_INPROGRESS); apply wp_ret; [done|].
    apply wp_bind. eapply release_alive; [done|]. intros w5 Ho5. by apply wp_ret, HQ.
Qed.

(** ** Client *)

Lemma send_address_alive o wk ep ctx (Q : ptr + Z → tag_world → Prop) w :
  tag_owns o w → Ep ep ∈ o → Worker wk ∈ o → (∀ r w', tag_owns o w' → Q r w') →
  wp never_misused (send_address L fuel wk ep ctx) Q w.
Proof.
  intros Ho He Hw HQ. unfold send_address. quiet. quiet. quiet.
  case_bool_decide; [quiet; by apply wp_ret, HQ|]. quiet. quiet. quiet.
  apply wp_bind. eapply (posted_alive o (ucp_tag_send_nbx ep _ _ _ _) [Ep ep]) with (request := λ q, q);
    [done|eassumption|by repeat constructor|]. intros q w1 Ho1.
  destruct (UCS_PTR_IS_ERR q) eqn:Herr.
  { rewrite err_no_request in Ho1 by done. quiet. quiet. by apply wp_ret, HQ. }
  apply wp_bind. apply wp_conseq with (Q := λ _, tag_owns o).
  { unfold with_request_of in Ho1. apply wp_when; intros Hp; rewrite Hp in Ho1; [|done].
    by eapply wait_sent_alive. }
  intros [] w2 Ho2. quiet. by apply wp_ret, HQ.
Qed.

Lemma probe_client_alive o wk (Q : Z * Z → tag_world → Prop) w :
  tag_owns o w → Worker wk ∈ o → (∀ r w', tag_owns o w' → Q r w') →
  wp never_misused (probe_client L fuel wk) Q w.
Proof.
  intros Ho Hw HQ. apply wp_loop with (I := λ _, tag_owns o); [done|by eexists|].
  intros [] w1 Ho1. apply wp_bind.
  eapply (alive_use o (ucp_tag_probe_nb wk _ _ _)); [done|done|by repeat constructor|].
  intros [m n] w2 Ho2. destruct (negb (m =? 0)); [by apply wp_ret, HQ|]. apply wp_bind.
  eapply (alive_use o (ucp_worker_progress wk)); [done|done|by repeat constructor|].
  intros. by apply wp_ret.
Qed.

Lemma probe_server_alive o wk (Q : Z * Z → tag_world → Prop) w :
  tag_owns o w → Worker wk ∈ o → (∀ r w', tag_owns o w' → Q r w') →
  wp never_misused (probe_server L fuel wk) Q w.
Proof.
  intros Ho Hw HQ. apply wp_loop with (I := λ _, tag_owns o); [done|by eexists|].
  intros [] w1 Ho1. apply wp_bind, wp_bind.
  eapply (alive_use o (ucp_worker_progress wk)); [done|done|by repeat constructor|].
  intros r w2 Ho2.
  eapply (alive_use o (ucp_tag_probe_nb wk _ _ _)); [done|done|by repeat constructor|].
  intros [m n] w3 Ho3. destruct (m =? 0); apply wp_ret; [done|by apply HQ].
Qed.

(** The receive of a message, until its request is released. *)
Lemma received_alive {X} o wk b n dt m cb w (Q : X → tag_world → Prop)
    (failed : Z → TM X) (done_ : TM X) :
  tag_owns o w → Worker wk ∈ o →
  (∀ q w', tag_owns o w' → wp never_misused (failed q) Q w') →
  (∀ w', tag_owns o w' → wp never_misused done_ Q w') →
  wp never_misused
    (request ← call L (ucp_tag_msg_recv_nb wk b n dt m cb);
     if UCS_PTR_IS_ERR request then failed request
     else if negb (UCS_PTR_IS_PTR request) then stop (AssertFail "UCS_PTR_IS_PTR(request)")
     else wait_received L fuel wk request;; done_) Q w.
Proof.
  intros Ho Hw Hf Hd. apply wp_bind.
  eapply (posted_alive o (ucp_tag_msg_recv_nb wk _ _ _ _ _) [Worker wk]) with (request := λ q, q);
    [done|done|by repeat constructor|]. intros q w1 Ho1.
  destruct (UCS_PTR_IS_ERR q) eqn:Herr; [apply Hf; by rewrite err_no_request in Ho1|].
  unfold with_request_of in Ho1. destruct (UCS_PTR_IS_PTR q); cbn [negb].
  - apply wp_bind. by eapply wait_received_alive.
  - apply wp_stop. by exists o.
Qed.

Lemma receive_string_alive o wk msg (Q : Z → tag_world → Prop) w :
  tag_owns o w → Worker wk ∈ o → (∀ r w', tag_owns o w' → Q r w') →
  wp never_misused (receive_string L fuel wk msg) Q w.
Proof.
  intros Ho Hw HQ. unfold receive_string. apply wp_bind.
  eapply probe_client_alive; [done|done|]. intros [m n] w1 Ho1. quiet.
  case_bool_decide; [quiet; by apply wp_ret, HQ|].
  eapply received_alive; [eassumption|done|..].
  - intros q w2 Ho2. quiet. quiet. by apply wp_ret, HQ.
  - intros w2 Ho2. unfold printf. quiet. quiet.
    case_bool_decide; [quiet; by apply wp_ret, HQ|]. quiet. quiet. quiet. quiet.
    by apply wp_ret, HQ.
Qed.

(** An endpoint is created, used and destroyed. *)
Lemma endpoint_alive {X} o wk p w (Q : X → tag_world → Prop) (failed : TM X) (body : Z → TM X) :
  tag_owns o w → Worker wk ∈ o →
  (∀ w', tag_owns o w' → wp never_misused failed Q w') →
  (∀ ep w', tag_owns (make (Ep ep) o) w' →
     wp never_misused (body ep)
       (λ r w'', tag_owns (make (Ep ep) o) w'' ∧ ∀ w3, tag_owns o w3 → Q r w3) w') →
  wp never_misused
    ('(status, ep) ← call L (ucp_ep_create wk p);
     if negb (status =? UCS_OK) then failed
     else ret ← body ep; call L (ucp_ep_destroy ep);; mret ret) Q w.
Proof.
  intros Ho Hw Hf Hb. apply wp_bind. eapply (alive_call o (ucp_ep_create wk p)); [done|]. intros [st ep]. simpl.
  rewrite use_ok by by repeat constructor. eexists. split; [done|]. intros w1 Ho1. simpl in Ho1.
  destruct (st =? UCS_OK); cbn [negb]; [|by apply Hf].
  apply wp_bind. eapply wp_conseq; [by apply Hb|]. intros r w2 [Ho2 HQ].
  apply wp_bind. eapply (alive_drop o (ucp_ep_destroy ep)); [|done|].
  - intros u. by apply drop_ok.
  - intros u w3 Ho3. by apply wp_ret, HQ.
Qed.

Lemma alive_local {X} o ob (body : ptr → TM X) (Q : X → tag_world → Prop) w :
  tag_owns o w →
  (∀ p w', tag_owns o w' → wp never_misused (body p)
     (λ r w'', tag_owns o w'' ∧ ∀ w3, tag_owns o w3 → Q r w3) w') →
  wp never_misused (local ob body) Q w.
Proof.
  intros Ho Hb. apply wp_local_raw. eapply wp_conseq; [by apply Hb|].
  intros r w' [Ho' HQ]. by apply HQ.
Qed.

Lemma run_ucx_client_alive o wk (Q : Z → tag_world → Prop) w :
  tag_owns o w → Worker wk ∈ o → (∀ r w', tag_owns o w' → Q r w') →
  wp never_misused (run_ucx_client L fuel wk) Q w.
Proof.
  intros Ho Hw HQ. eapply alive_local; [done|]. intros ctx w0 Ho0. quiet.
  eapply endpoint_alive; [eassumption|done|..].
  - intros w1 Ho1. quiet. by apply wp_ret; eauto.
  - intros ep w1 Ho1. apply wp_bind. eapply send_address_alive; [done|unfold make; multiset_solver..|].
    intros [msg|r] w2 Ho2; [|by apply wp_ret; eauto].
    eapply receive_string_alive; [done|unfold make; multiset_solver|]. eauto.
Qed.

Lemma receive_address_alive o wk (Q : ptr + Z → tag_world → Prop) w :
  tag_owns o w → Worker wk ∈ o → (∀ r w', tag_owns o w' → Q r w') →
  wp never_misused (receive_address L fuel wk) Q w.
Proof.
  intros Ho Hw HQ. unfold receive_address, keep_address. apply wp_bind.
  eapply probe_server_alive; [done|done|]. intros [m n] w1 Ho1. quiet.
  case_bool_decide; [quiet; by apply wp_ret, HQ|].
  eapply received_alive; [eassumption|done|..].
  - intros q w2 Ho2. quiet. quiet. by apply wp_ret, HQ.
  - intros w2 Ho2. unfold printf. quiet. quiet. quiet. quiet. quiet.
    case_bool_decide; [quiet; quiet; by apply wp_ret, HQ|]. quiet. quiet. by apply wp_ret, HQ.
Qed.

Lemma send_string_alive o wk ep ctx msg (Q : Z → tag_world → Prop) w :
  tag_owns o w → Ep ep ∈ o → Worker wk ∈ o → (∀ r w', tag_owns o w' → Q r w') →
  wp never_misused (send_string L fuel wk ep ctx msg) Q w.
Proof.
  intros Ho He Hw HQ. unfold send_string. quiet.
  case_bool_decide; [quiet; by apply wp_ret, HQ|]. quiet. quiet. quiet.
  apply wp_bind. apply wp_conseq with (Q := λ _, tag_owns o).
  - destruct (_ <? 0); [quiet; by apply wp_ret|]. quiet. quiet. apply wp_bind.
    eapply (posted_alive o (ucp_tag_send_nbx ep _ _ _ _) [Ep ep]) with (request := λ q, q);
      [done|eassumption|by repeat constructor|]. intros q w1 Ho1.
    destruct (UCS_PTR_IS_ERR q) eqn:Herr.
    { rewrite err_no_request in Ho1 by done. quiet. by apply wp_ret. }
    apply wp_bind. apply wp_conseq with (Q := λ _, tag_owns o).
    { unfold with_request_of in Ho1. apply wp_when; intros Hp; rewrite Hp in Ho1; [|done].
      unfold printf. quiet. by eapply wait_sent_alive. }
    intros [] w2 Ho2. apply wp_bind. eapply flush_ep_alive; [done..|]. intros st w3 Ho3.
    unfold printf. quiet. by apply wp_ret.
  - intros r w1 Ho1.
    pose proof (hq_cuda (R := same (λ w : tag_world, tag_owned (trace w)))) as Hc.
    apply wp_bind. eapply alive_quiet; [unfold call0; solve_keeps|exact Ho1|]. intros e w2 Ho2.
    apply wp_bind. eapply alive_quiet; [solve_keeps|exact Ho2|]. intros [] w3 Ho3.
    by apply wp_ret, HQ.
Qed.

Lemma run_ucx_server_alive o wk (Q : Z → tag_world → Prop) w :
  tag_owns o w → Worker wk ∈ o → (∀ r w', tag_owns o w' → Q r w') →
  wp never_misused (run_ucx_server L fuel wk) Q w.
Proof.
  intros Ho Hw HQ. eapply alive_local; [done|]. intros ctx w0 Ho0. apply wp_bind.
  eapply receive_address_alive; [done|done|]. intros [msg|r] w1 Ho1; [|by apply wp_ret; eauto].
  quiet. eapply endpoint_alive; [eassumption|done|..].
  - intros w2 Ho2. quiet. by apply wp_ret; eauto.
  - intros ep w2 Ho2. eapply send_string_alive; [done|unfold make; multiset_solver..|]. eauto.
Qed.

Lemma run_test_alive o name wk (Q : Z → tag_world → Prop) w :
  tag_owns o w → Worker wk ∈ o → (∀ r w', tag_owns o w' → Q r w') →
  wp never_misused (run_test L fuel name wk) Q w.
Proof. destruct name; [apply run_ucx_client_alive|apply run_ucx_server_alive]. Qed.

(** ** Sockets *)

(** The descriptors after a call that answers one. *)
Definition with_fd (fd : Z) o : objects := if 0 <=? fd then make (Fd fd) o else o.

Lemma open_alive o c xs (Q : tag_ret c → tag_world → Prop) w (fd : tag_ret c → Z) :
  (∀ r, tag_step c r o = with_objects xs o (Some (with_fd (fd r) o))) →
  tag_owns o w → Forall (λ x, x ∈ o) xs → (∀ r w', tag_owns (with_fd (fd r) o) w' → Q r w') →
  wp never_misused (call0 L c) Q w.
Proof.
  intros Hst Ho Hx HQ. eapply alive_call0; [done|]. intros r. rewrite Hst, use_ok by done. eauto.
Qed.

Lemma close_alive o fd (Q : Z → tag_world → Prop) w :
  tag_owns (make (Fd fd) o) w → (∀ r w', tag_owns o w' → Q r w') →
  wp never_misused (call0 L (close fd)) Q w.
Proof.
  intros Ho HQ. eapply (alive_call0 _ (close fd)); [done|]. intros r. exists o. split; [|apply HQ].
  by apply drop_ok.
Qed.

(** A failed step of a connection: the socket is closed. *)
Lemma err_close_alive o fd msg (Q : Z → tag_world → Prop) w :
  tag_owns (make (Fd fd) o) w → (∀ w', tag_owns o w' → Q (-1) w') →
  wp never_misused (chkerr msg;; call0 L (close fd);; mret (-1)) Q w.
Proof.
  intros Ho HQ. quiet. apply wp_bind. eapply close_alive; [eassumption|]. intros.
  by apply wp_ret, HQ.
Qed.

Lemma with_fd_fail o : with_fd (-1) o = o.
Proof. done. Qed.

Lemma server_connect_alive o port (Q : Z → tag_world → Prop) w :
  tag_owns o w → (∀ fd w', tag_owns (with_fd fd o) w' → Q fd w') →
  wp never_misused (server_connect L port) Q w.
Proof.
  intros Ho HQ. unfold server_connect. apply wp_bind.
  eapply (open_alive o (socket _ _ _) []) with (fd := λ fd, fd); [done|done|done|].
  intros fd w1 Ho1. unfold with_fd in Ho1. rewrite Z.leb_antisym in Ho1. cbv zeta.
  destruct (fd <? 0); cbn [negb] in Ho1; [quiet; by apply wp_ret, HQ|].
  assert (∀ msg w', tag_owns (make (Fd fd) o) w' →
    wp never_misused (chkerr msg;; call0 L (close fd);; mret (-1)) Q w') as Herr.
  { intros msg w' Ho'. eapply err_close_alive; [done|]. intros. by apply HQ. }
  assert (Forall (λ x, x ∈ make (Fd fd) o) [Fd fd]) as Hin.
  { repeat constructor. unfold make. multiset_solver. }
  apply wp_bind. eapply (alive_use0 _ (setsockopt_reuseaddr fd)); [done|exact Ho1|exact Hin|].
  intros r w2 Ho2. destruct (r <? 0); [by apply Herr|].
  apply wp_bind. eapply (alive_use0 _ (bind fd _)); [done|exact Ho2|exact Hin|].
  intros b w3 Ho3. destruct (b <? 0); [by apply Herr|].
  apply wp_bind. eapply (alive_use0 _ (listen fd 0)); [done|exact Ho3|exact Hin|].
  intros l w4 Ho4. destruct (l <? 0); [by apply Herr|]. unfold printf. quiet.
  apply wp_bind. eapply (open_alive _ (accept fd) [Fd fd]) with (fd := λ fd, fd);
    [done|eassumption|exact Hin|]. intros d w5 Ho5.
  unfold with_fd in Ho5. rewrite Z.leb_antisym in Ho5.
  destruct (d <? 0) eqn:Hd; cbn [negb] in Ho5; [by apply Herr|].
  apply wp_bind. eapply (close_alive (make (Fd d) o)).
  { replace (make (Fd fd) (make (Fd d) o)) with (make (Fd d) (make (Fd fd) o)); [done|].
    unfold make. multiset_solver. }
  intros x w6 Ho6. apply wp_ret, HQ. unfold with_fd. by rewrite Z.leb_antisym, Hd.
Qed.

Lemma client_connect_alive o name port (Q : Z → tag_world → Prop) w :
  tag_owns o w → (∀ fd w', tag_owns (with_fd fd o) w' → Q fd w') →
  wp never_misused (client_connect L name port) Q w.
Proof.
  intros Ho HQ. unfold client_connect. apply wp_bind.
  eapply (open_alive o (socket _ _ _) []) with (fd := λ fd, fd); [done|done|done|].
  intros fd w1 Ho1. unfold with_fd in Ho1. rewrite Z.leb_antisym in Ho1. cbv zeta.
  destruct (fd <? 0) eqn:Hfd; cbn [negb] in Ho1; [quiet; by apply wp_ret, HQ|].
  assert (∀ msg w', tag_owns (make (Fd fd) o) w' →
    wp never_misused (chkerr msg;; call0 L (close fd);; mret (-1)) Q w') as Herr.
  { intros msg w' Ho'. eapply err_close_alive; [done|]. intros. by apply HQ. }
  apply wp_bind. eapply (alive_use0 _ (gethostbyname name) []); [done|exact Ho1|constructor|].
  intros [[ty n [addrs|]]|] w2 Ho2; [|by apply Herr|by apply Herr].
  quiet. apply wp_bind. eapply (alive_use0 _ (connect fd _) [Fd fd]); [done|eassumption|..].
  { repeat constructor. unfold make. multiset_solver. }
  intros r w3 Ho3. destruct (r <? 0); [by apply Herr|].
  apply wp_ret, HQ. unfold with_fd. by rewrite Z.leb_antisym, Hfd.
Qed.

Lemma hello_barrier_alive o fd (Q : Z → tag_world → Prop) w :
  tag_owns o w → Fd fd ∈ o → (∀ r w', tag_owns o w' → Q r w') →
  wp never_misused (hello_barrier L fd) Q w.
Proof.
  intros Ho Hfd HQ. unfold hello_barrier. apply wp_bind.
  eapply (alive_use0 o (send fd _) [Fd fd]); [done|done|by repeat constructor|].
  intros r w1 Ho1. destruct (r <? 0); [by apply wp_ret, HQ|]. apply wp_bind.
  eapply (alive_use0 o (recv_waitall fd _) [Fd fd]); [done|done|by repeat constructor|].
  intros [n bs] w2 Ho2. by apply wp_ret, HQ.
Qed.

(** ** main *)

(** The objects [o], and the socket if something failed. *)
Definition socket_left o w : Prop :=
  tag_owns o w ∨ ∃ fd, 0 ≤ fd ∧ tag_owns (make (Fd fd) o) w ∧ reported w.

Lemma chkerr_retval_reports msg v (Q : unit → tag_world → Prop) o w :
  tag_owns o w → (∀ w', tag_owns o w' → reported w' → Q tt w') →
  wp never_misused (chkerr_retval msg v) Q w.
Proof. intros Ho HQ. apply wp_fprintf, HQ; [done|]. eexists _, _. by left. Qed.

Lemma chkerr_reports msg (Q : unit → tag_world → Prop) o w :
  tag_owns o w → (∀ w', tag_owns o w' → reported w' → Q tt w') →
  wp never_misused (chkerr msg) Q w.
Proof. intros Ho HQ. apply wp_fprintf, HQ; [done|]. eexists _, _. by left. Qed.

(** What the address exchange leaves. *)
Definition connected o (r : Z + Z * label) w : Prop :=
  match r with
  | inl fd => 0 ≤ fd ∧ tag_owns (make (Fd fd) o) w
  | inr _ => socket_left o w
  end.

Lemma socket_lost o fd w : 0 ≤ fd → tag_owns (make (Fd fd) o) w → reported w → socket_left o w.
Proof. right. eauto. Qed.

Lemma with_fd_inv fd o w : tag_owns (with_fd fd o) w →
  (fd <? 0) = true ∧ tag_owns o w ∨ (fd <? 0) = false ∧ 0 ≤ fd ∧ tag_owns (make (Fd fd) o) w.
Proof.
  unfold with_fd. rewrite Z.leb_antisym. destruct (Z.ltb_spec fd 0); cbn [negb]; [by left|by right].
Qed.

Lemma oob_client_alive o name (Q : Z + Z * label → tag_world → Prop) w :
  tag_owns o w → (∀ r w', connected o r w' → Q r w') →
  wp never_misused (oob_client L name) Q w.
Proof.
  intros Ho HQ. unfold oob_client. quiet. quiet. apply wp_bind.
  eapply client_connect_alive; [eassumption|]. intros fd w1 Ho1.
  destruct (with_fd_inv _ _ _ Ho1) as [[-> Ho2]|(-> & Hfd & Ho2)].
  { quiet. apply wp_ret, HQ. by left. }
  assert (Forall (λ x, x ∈ make (Fd fd) o) [Fd fd]) as Hin.
  { repeat constructor. unfold make. multiset_solver. }
  apply wp_bind. eapply (alive_use0 _ (recv_waitall fd 8)); [done|exact Ho2|exact Hin|].
  intros [n bs] w2 Ho3. quiet. destruct (negb (s32 n =? 8)).
  { apply wp_bind. eapply chkerr_retval_reports; [eassumption|]. intros w3 Ho4 Hr.
    apply wp_ret, HQ. by eapply socket_lost. }
  quiet. quiet. quiet. case_bool_decide.
  { apply wp_bind. eapply chkerr_reports; [eassumption|]. intros w3 Ho4 Hr.
    apply wp_ret, HQ. by eapply socket_lost. }
  apply wp_bind. eapply (alive_use0 _ (recv_waitall fd _)); [done|eassumption|exact Hin|].
  intros [n' bs'] w3 Ho4. quiet. destruct (negb (s32 n' =? _)).
  { apply wp_bind. eapply chkerr_retval_reports; [eassumption|]. intros w4 Ho5 Hr.
    apply wp_ret, HQ. by eapply socket_lost. }
  apply wp_ret, HQ. by split.
Qed.

Lemma oob_server_alive o (Q : Z + Z * label → tag_world → Prop) w :
  tag_owns o w → (∀ r w', connected o r w' → Q r w') →
  wp never_misused (oob_server L) Q w.
Proof.
  intros Ho HQ. unfold oob_server. apply wp_bind.
  eapply server_connect_alive; [eassumption|]. intros fd w1 Ho1.
  destruct (with_fd_inv _ _ _ Ho1) as [[-> Ho2]|(-> & Hfd & Ho2)].
  { quiet. apply wp_ret, HQ. by left. }
  assert (Forall (λ x, x ∈ make (Fd fd) o) [Fd fd]) as Hin.
  { repeat constructor. unfold make. multiset_solver. }
  quiet. quiet. apply wp_bind. eapply (alive_use0 _ (send fd _)); [done|eassumption|exact Hin|].
  intros n w2 Ho3. destruct (negb (s32 n =? 8)).
  { apply wp_bind. eapply chkerr_retval_reports; [eassumption|]. intros w3 Ho4 Hr.
    apply wp_ret, HQ. by eapply socket_lost. }
  apply wp_bind. eapply (alive_use0 _ (send fd _)); [done|eassumption|exact Hin|].
  intros n' w3 Ho4. destruct (negb (s32 n' =? _)).
  { apply wp_bind. eapply chkerr_retval_reports; [eassumption|]. intros w4 Ho5 Hr.
    apply wp_ret, HQ. by eapply socket_lost. }
  apply wp_ret, HQ. by split.
Qed.

(** A computation that makes no call keeps what is left. *)
Lemma socket_left_quiet {A} o (m : TM A) (Q : A → tag_world → Prop) w :
  keeps (same (λ w : tag_world, tag_owned (trace w))) m → keeps grows m →
  socket_left o w → (∀ a w', socket_left o w' → Q a w') → wp never_misused m Q w.
Proof.
  intros Hk Hg [Ho|(fd & Hfd & Ho & Hr)] HQ.
  - eapply alive_quiet; [done|exact Ho|]. intros. apply HQ. by left.
  - apply (wp_with_keeps grows); [done|]. eapply alive_quiet; [done|exact Ho|].
    intros a w' Ho' Hw. apply HQ. right. exists fd. repeat split; [done|done|].
    by eapply reported_grows.
Qed.

(** A call that is allowed whether the socket is there or not. *)
Lemma socket_left_call o o1 c (Q : tag_ret c → tag_world → Prop) w :
  (∀ r, tag_step c r o = Some o1) →
  (∀ r fd, tag_step c r (make (Fd fd) o) = Some (make (Fd fd) o1)) →
  socket_left o w → (∀ r w', socket_left o1 w' → Q r w') → wp never_misused (call L c) Q w.
Proof.
  intros Hs1 Hs2 [Ho|(fd & Hfd & Ho & Hr)] HQ.
  - eapply alive_call; [done|]. intros r. exists o1. split; [done|]. intros. apply HQ. by left.
  - apply (wp_with_keeps grows).
    { apply keeps_ext; [typeclasses eauto|intros; apply keeps_tag_handler; typeclasses eauto|].
      intros. apply grows_push. }
    eapply alive_call; [done|]. intros r. eexists. split; [by apply Hs2|]. intros w' Ho' Hw.
    apply HQ. right. exists fd. repeat split; [done|done|]. by eapply reported_grows.
Qed.

Lemma exchange_and_run_alive o name wk (Q : Z → tag_world → Prop) w :
  tag_owns o w → Worker wk ∈ o → (∀ r w', socket_left o w' → Q r w') →
  wp never_misused (exchange_and_run L fuel name wk) Q w.
Proof.
  intros Ho Hw HQ. unfold exchange_and_run. apply wp_bind.
  apply wp_conseq with (Q := connected o).
  { destruct name; [eapply oob_client_alive|eapply oob_server_alive]; eauto. }
  intros r w1 Hr. apply wp_bind. apply wp_conseq with (Q := λ _, socket_left o).
  { destruct r as [fd|[ret l]]; [|by apply wp_ret]. destruct Hr as [Hfd Ho1].
    apply wp_bind. eapply run_test_alive; [done|unfold make; multiset_solver|]. intros ret w2 Ho2.
    apply wp_bind. apply wp_conseq with (Q := λ _, tag_owns (make (Fd fd) o)).
    { destruct (ret =? 0); [|by apply wp_ret].
      eapply hello_barrier_alive; [done|unfold make; multiset_solver|done]. }
    intros ret' w3 Ho3. apply wp_bind. eapply close_alive; [done|]. intros x w4 Ho4.
    apply wp_ret. by left. }
  intros [ret l] w2 Hl. apply wp_bind. destruct l.
  - eapply socket_left_quiet; [solve_keeps|solve_keeps|exact Hl|]. intros [] w3 Hl3.
    by apply wp_ret, HQ.
  - by apply wp_ret, wp_ret, HQ.
Qed.

Lemma with_worker_alive o name wk (Q : Z → tag_world → Prop) w :
  tag_owns o w → Worker wk ∈ o → (∀ r w', socket_left o w' → Q r w') →
  wp never_misused (with_worker L fuel name wk) Q w.
Proof.
  intros Ho Hw HQ. unfold with_worker. apply wp_bind.
  eapply (alive_call o (ucp_worker_get_address wk)); [done|]. intros [st [a bs]]. simpl.
  rewrite use_ok by by repeat constructor. eexists. split; [done|]. intros w1 Ho1. simpl in Ho1.
  destruct (st =? UCS_OK); cbn [negb].
  2:{ quiet. apply wp_ret, HQ. by left. }
  quiet. quiet. unfold printf. quiet. apply wp_bind.
  eapply exchange_and_run_alive; [eassumption|unfold make; multiset_solver|].
  intros r w2 Hl. apply wp_bind.
  eapply (socket_left_call (make (Addr a) o) o (ucp_worker_release_address wk a)); [| |exact Hl|].
  - intros x. simpl. rewrite use_ok by (repeat constructor; unfold make; multiset_solver).
    by apply drop_ok.
  - intros x fd. simpl. rewrite use_ok by (repeat constructor; unfold make; multiset_solver).
    apply drop_ok. unfold make. multiset_solver.
  - intros x w3 Hl3. by apply wp_ret, HQ.
Qed.

Definition only_ctx (ctx : Z) : objects := make (Ctx ctx) ∅.

Lemma only_ctx_free ctx x : x ∈ only_ctx ctx → needs_worker x = false.
Proof.
  unfold only_ctx, make. intros Hx. assert (x = Ctx ctx) as -> by multiset_solver. done.
Qed.

Lemma with_context_alive ctx name (Q : Z → tag_world → Prop) w :
  tag_owns (only_ctx ctx) w → (∀ r w', socket_left (only_ctx ctx) w' → Q r w') →
  wp never_misused (with_context L fuel name ctx) Q w.
Proof.
  intros Ho HQ. unfold with_context. apply wp_bind.
  eapply (alive_call (only_ctx ctx) (ucp_worker_create ctx _ _)); [done|]. intros [st wk]. simpl.
  rewrite use_ok by (repeat constructor; unfold only_ctx, make; multiset_solver).
  eexists. split; [done|]. intros w1 Ho1. simpl in Ho1.
  destruct (st =? UCS_OK); cbn [negb].
  2:{ quiet. apply wp_ret, HQ. by left. }
  apply wp_bind. eapply with_worker_alive; [eassumption|unfold make; multiset_solver|].
  intros r w2 Hl. apply wp_bind.
  eapply (socket_left_call (make (Worker wk) (only_ctx ctx)) (only_ctx ctx) (ucp_worker_destroy wk));
    [| |exact Hl|].
  - intros x. simpl. rewrite none_ok; [by apply drop_ok|]. intros y Hy.
    unfold make in Hy. apply gmultiset_elem_of_disj_union in Hy as [Hy|Hy]; [|by apply (only_ctx_free ctx)].
    by apply gmultiset_elem_of_singleton in Hy as ->.
  - intros x fd. simpl. rewrite none_ok; [apply drop_ok; unfold make; multiset_solver|]. intros y Hy.
    unfold make in Hy. apply gmultiset_elem_of_disj_union in Hy as [Hy|Hy].
    { by apply gmultiset_elem_of_singleton in Hy as ->. }
    apply gmultiset_elem_of_disj_union in Hy as [Hy|Hy]; [|by apply (only_ctx_free ctx)].
    by apply gmultiset_elem_of_singleton in Hy as ->.
  - intros x w3 Hl3. by apply wp_ret, HQ.
Qed.

Lemma no_ctx_left : ∀ x : object, x ∈ (∅ : objects) → needs_ctx x = false.
Proof. intros x Hx. by apply gmultiset_not_elem_of_empty in Hx. Qed.

Lemma hello_main_alive argv (Q : Z → tag_world → Prop) w :
  tag_owns ∅ w → (∀ r w', socket_left ∅ w' → Q r w') →
  wp never_misused (hello_main L fuel argv) Q w.
Proof.
  intros Ho HQ. unfold hello_main. destruct (2 <? length argv)%nat.
  { unfold printf. quiet. apply wp_ret, HQ. by left. }
  apply wp_bind. eapply (alive_call ∅ ucp_config_read); [done|]. intros [st c].
  eexists. split; [done|]. intros w1 Ho1. simpl in Ho1.
  destruct (st =? UCS_OK); cbn [negb].
  2:{ quiet. apply wp_ret, HQ. by left. }
  apply wp_bind. eapply (alive_call _ (ucp_init _ _ _ c)); [done|]. intros [st' ctx]. simpl.
  rewrite use_ok by (repeat constructor; unfold make; multiset_solver).
  eexists. split; [done|]. intros w2 Ho2. simpl in Ho2.
  assert (tag_owns (make (Config c) (if st' =? UCS_OK then only_ctx ctx else ∅)) w2) as Ho3.
  { unfold only_ctx. destruct (st' =? UCS_OK); [|done].
    unfold tag_owns in *. rewrite Ho2. f_equal. unfold make. multiset_solver. }
  apply wp_bind. eapply (alive_use _ (ucp_config_print c _) [Config c]); [done|exact Ho3|..].
  { repeat constructor. unfold make. multiset_solver. }
  intros u w3 Ho4. apply wp_bind. eapply (alive_drop _ (ucp_config_release c)); [|exact Ho4|].
  { intros x. by apply drop_ok. }
  intros x w4 Ho5. destruct (st' =? UCS_OK); cbn [negb].
  2:{ quiet. apply wp_ret, HQ. by left. }
  apply wp_bind. eapply with_context_alive; [done|]. intros r w5 Hl. apply wp_bind.
  eapply (socket_left_call (only_ctx ctx) ∅ (ucp_cleanup ctx)); [| |exact Hl|].
  - intros y. simpl. rewrite none_ok; [by apply drop_ok|]. intros z Hz. unfold only_ctx, make in Hz.
    assert (z = Ctx ctx) as -> by multiset_solver. done.
  - intros y fd. simpl. rewrite none_ok; [apply drop_ok; unfold only_ctx, make; multiset_solver|].
    intros z Hz. unfold only_ctx, make in Hz.
    assert (z = Ctx ctx ∨ z = Fd fd) as [-> | ->] by multiset_solver; done.
  - intros y w6 Hl6. by apply wp_ret, HQ.
Qed.
End life.
