(* ===== verification/TagOutside.v ===== *)
(** * ucp_tag_hello_world: a well-behaved outside

    What the history says about requests and the memory lent to UCX, what the
    documentation of UCX promises about its calls ([polite], [delivers],
    [responsive]), and the rule for one call under these promises. *)

From S2P Require Import Prelude CRuntime CLib Ucx HelloUtil TagApi TagSock TagHello TagOwn.
Open Scope Z_scope.

(** ** What a history says *)

(** An operation whose request was not released: a send with its user data; a
    receive with its buffer, its length and the message. *)
Inductive tag_operation : Type :=
  | OSend (q : Z) (user_data : option ptr)
  | OReceive (q : Z) (buffer : ptr) (len message : Z).

Definition request_of (op : tag_operation) : Z :=
  match op with OSend q _ | OReceive q _ _ _ => q end.

(** The buffer, length and message of a call that receives. *)
Definition receives (c : tag_call) : option (ptr * Z * Z) :=
  match c with
  | ucp_tag_msg_recv_nb _ b n _ m _ => Some (b, n, m)
  | _ => None
  end.

Section history.
Context `{!Ucs}.

Fixpoint in_flight (h : history tag_api) : list tag_operation :=
  match h with
  | [] => []
  | ECall c r :: h' =>
      match c return tag_ret c → list tag_operation with
      | ucp_tag_send_nbx _ _ _ _ p => λ q,
          if UCS_PTR_IS_PTR q then OSend q (tp_user_data p) :: in_flight h' else in_flight h'
      | ucp_tag_msg_recv_nb _ b n _ m _ => λ q,
          if UCS_PTR_IS_PTR q then OReceive q b n m :: in_flight h' else in_flight h'
      | ucp_request_release q => λ _, filter (λ op, request_of op ≠ q) (in_flight h')
      | _ => λ _, in_flight h'
      end r
  | _ :: h' => in_flight h'
  end.
End history.

(** The requests UCX has initialised. *)
Fixpoint inits (h : history tag_api) : list Z :=
  match h with
  | [] => []
  | ECb cb _ :: h' =>
      match cb with Cb_request_init q => q :: inits h' | _ => inits h' end
  | _ :: h' => inits h'
  end.

(** The object [b], which held [d] when nothing was stored in it yet. *)
Definition store_in (b : N) (p : ptr) (bs : list Z) (d : list mbyte) : list mbyte :=
  match p with
  | Loc b' off => if decide (b' = b) then default d (splice off (Some <$> bs) d) else d
  | _ => d
  end.
Fixpoint stored (b : N) (d : list mbyte) (h : history tag_api) : list mbyte :=
  match h with
  | [] => d
  | EStore p bs :: h' => store_in b p bs (stored b d h')
  | _ :: h' => stored b d h'
  end.

(** What the program tells the world: endpoints it created with the address, sends with the
    payload and the memory type, the string it prints, bytes on the socket, and what it
    was told there. *)
Inductive obs : Type :=
  | Connected (address : list mbyte)
  | Sent (payload : list mbyte) (memory_type : option ucs_memory_type_t)
  | Printed (s : list mbyte)
  | OobSent (bs : list mbyte)
  | OobReceived (bs : list Z).

Definition observe `{!Ucs} (e : event tag_api) : option obs :=
  match e with
  | ECall (ucp_ep_create _ p) r =>
      if (r : Z * Z).1 =? UCS_OK then Some (Connected (tep_address_bytes p)) else None
  | ECall (ucp_tag_send_nbx _ _ payload _ p) _ => Some (Sent payload (tp_memory_type p))
  | ECall (send _ bs) _ => Some (OobSent bs)
  | ECall (recv_waitall _ _) r => Some (OobReceived (r : Z * list Z).2)
  | EOut Stdout "%s"%string [ABytes s] => Some (Printed s)
  | _ => None
  end.
Definition report `{!Ucs} (h : history tag_api) : list obs := omap observe h.

Lemma report_cons `{!Ucs} e h :
  report (e :: h) = match observe e with Some o => o :: report h | None => report h end.
Proof. done. Qed.

#[global] Arguments report : simpl never.

(** Events that none of the above looks at. *)
Definition noise (e : event tag_api) : Prop :=
  match e with
  | EOut Stdout "%s"%string [ABytes _] => False
  | EOut _ _ _ | EAlloc _ _ => True
  | ECall pthread_self _ | ECall (Tag_cuda _) _ => True
  | _ => False
  end.

(** [h'] says the same as [h]. *)
Record agrees `{!Ucs} (h h' : history tag_api) : Prop := {
  ag_flight : in_flight h' = in_flight h;
  ag_inits : inits h' = inits h;
  ag_stored : ∀ b d, stored b d h' = stored b d h;
  ag_report : report h' = report h;
}.

#[export] Instance agrees_preorder `{!Ucs} : PreOrder agrees.
Proof.
  split; [by intros h; split|]. intros h1 h2 h3 [] []. split; intros; congruence.
Qed.

Lemma agrees_cons `{!Ucs} e h h' : agrees h h' → (∀ c r, e ≠ ECall c r) → agrees (e :: h) (e :: h').
Proof.
  intros [H1 H2 H3 H4] He. split.
  - by destruct e; [edestruct He|..].
  - destruct e as [| []| | |]; simpl; congruence.
  - intros b d. destruct e; simpl; try apply H3. by rewrite H3.
  - by rewrite !report_cons, H4.
Qed.

Lemma agrees_noise `{!Ucs} e h : noise e → agrees h (e :: h).
Proof.
  destruct e as [[]| | | |s f l]; try done; intros He; split; try done.
  rewrite report_cons. unfold noise in He. simpl.
  repeat (case_match; try done).
Qed.

(** ** The promises *)

(** The history when the actions [xs] were done, as far as it matters. *)
Definition hist_acts (xs : list (act tag_api)) (h : history tag_api) : history tag_api :=
  foldl (λ h x, match x with Callback cb => ECb (A := tag_api) cb tt :: h | Store p bs => EStore p bs :: h end)
    h xs.

Section promises.
Context `{!Ucs}.

(** What may happen in the call [c], at a point with the history [h]. *)
Definition tag_legal (h : history tag_api) (c : tag_call) (x : act tag_api) : Prop :=
  match x with
  | Store p bs => ∃ b k n m,
      p = Loc b k ∧ 0 ≤ k ∧ k + Z.of_nat (length bs) ≤ n ∧
      (receives c = Some (Loc b 0, n, m) ∨
       ∃ q, OReceive q (Loc b 0) n m ∈ in_flight h ∧ c ≠ ucp_request_release q)
  | Callback (Cb_request_init q) => q ∉ inits h
  | Callback (Cb_send q _ ud) => OSend q (Some ud) ∈ in_flight h
  | Callback (Cb_recv q _ _) =>
      (∃ b n m, OReceive q b n m ∈ in_flight h ∧ c ≠ ucp_request_release q) ∨ (receives c ≠ None ∧ q ∈ inits h)
  | Callback (Cb_flush _ _) => True
  end.

(** Actions are legal; a receive does not answer NULL, and a request it answers was
    initialised; a receive that completes in its own call answers the request of the callback. *)
Record polite_tag (L : tag_lib) : Prop := {
  pt_legal h c xs x ys : l_acts L h c = xs ++ x :: ys → tag_legal (hist_acts xs h) c x;
  pt_nonnull h w b n dt m cb : l_ret L h (ucp_tag_msg_recv_nb w b n dt m cb) ≠ 0;
  pt_init h w b n dt m cb : let q := l_ret L h (ucp_tag_msg_recv_nb w b n dt m cb) in
    UCS_PTR_IS_PTR q = true → q ∈ inits h;
  pt_same h h' w b n dt m cb q st len : let c := ucp_tag_msg_recv_nb w b n dt m cb in
    in_flight h = [] → Callback (Cb_recv q st len) ∈ l_acts L h c →
    h `suffix_of` h' → q ∈ inits h' → l_ret L h' c = q ∧ UCS_PTR_IS_PTR q = true;
}.

(** [content m]: the bytes of the message [m]. A probe answers their number, and
    when a receive is complete they are in its buffer, if it has this size. *)
Record delivers_tag (L : tag_lib) (content : Z → list Z) : Prop := {
  dt_probe h w t k r : let a := l_ret L h (ucp_tag_probe_nb w t k r) in
    a.1 ≠ 0 → a.2 = Z.of_nat (length (content a.1));
  dt_bytes h c q st len b n m : Callback (Cb_recv q st len) ∈ l_acts L h c →
    receives c = Some (Loc b 0, n, m) ∨ OReceive q (Loc b 0) n m ∈ in_flight h →
    n = Z.of_nat (length (content m)) →
    stored b (replicate (Z.to_nat n) None) (hist_acts (l_acts L h c) h) = Some <$> content m;
}.

(** [r] is an answer of the call [c], made after its actions. *)
Definition answer_of (L : tag_lib) (c : tag_call) (r : tag_ret c) : Prop :=
  ∃ h h', l_ret L h' c = r ∧ agrees (hist_acts (l_acts L h c) h) h'.

Definition completes_tag (op : tag_operation) (x : act tag_api) : bool :=
  match op, x with
  | OSend q _, Callback (Cb_send q' _ _) => q' =? q
  | OReceive q _ _ _, Callback (Cb_recv q' _ _) => q' =? q
  | _, _ => false
  end.

(** The program will be told when it is complete. *)
Definition reports (op : tag_operation) : Prop :=
  match op with OSend _ None => False | _ => True end.

(** [ρ]: how much polling the outside still needs. It never grows, and a poll
    without result reduces it. *)
Record responsive_tag (L : tag_lib) (ρ : history tag_api → nat) : Prop := {
  rt_mono e h : (ρ (e :: h) ≤ ρ h)%nat;
  rt_probe h w t k r n : l_ret L h (ucp_tag_probe_nb w t k r) = (0, n) →
    (ρ (ECall (A := tag_api) (ucp_tag_probe_nb w t k r) (0%Z, n) :: h) < ρ h)%nat;
  rt_progress h w op l (r : Z) : op ∈ in_flight h → reports op →
    existsb (completes_tag op) (l_acts L h (ucp_worker_progress w)) = true ∨
    (ρ (ECall (A := tag_api) (ucp_worker_progress w) r :: l ++ h) < ρ h)%nat;
  rt_status h q : l_ret L h (ucp_request_check_status q) = UCS_INPROGRESS →
    (ρ (ECall (A := tag_api) (ucp_request_check_status q) UCS_INPROGRESS :: h) < ρ h)%nat;
}.

Lemma rt_suffix L ρ h h' : responsive_tag L ρ → h `suffix_of` h' → (ρ h' ≤ ρ h)%nat.
Proof.
  intros Hr [l ->]. induction l as [|e l IH]; [done|]. simpl.
  pose proof (rt_mono _ _ Hr e (l ++ h)). lia.
Qed.
End promises.

(** ** One call *)

(** Only noise is added to the history. *)
Definition noisy (w w' : tag_world) : Prop :=
  ∃ evs, trace w' = evs ++ trace w ∧ Forall noise evs.

#[export] Instance noisy_preorder : PreOrder noisy.
Proof.
  split; [by intros w; exists []|]. intros w1 w2 w3 (e1 & H1 & F1) (e2 & H2 & F2).
  exists (e2 ++ e1). rewrite H2, H1, app_assoc. split; [done|]. by apply Forall_app.
Qed.

Lemma noisy_push e w : noise e → noisy w (push e w).
Proof. intros He. exists [e]. split; [done|]. by repeat constructor. Qed.

Section rule.
Context `{!Ucs, !Ucp, !Cuda} (L : tag_lib).
Implicit Types (w : tag_world) (E : halt → tag_world → Prop).

Lemma noisy_agrees w w' : noisy w w' → agrees (trace w) (trace w').
Proof.
  intros (evs & -> & Hf). induction Hf as [|e evs He _ IH]; [done|].
  etrans; [exact IH|]. by apply agrees_noise.
Qed.

Lemma noisy_handler cb : keeps noisy (tag_handler L cb).
Proof.
  assert (∀ h n (w : tag_world), noisy w (World (glob w) h n (trace w))) as Hmem.
  { intros. by exists []. }
  assert (MemStable noisy) as Hst by (apply mem_blind_stable; [typeclasses eauto|done]).
  assert (∀ g w, noisy w (set_glob g w)) as Hg by (intros; by exists []).
  assert (∀ c v, keeps noisy (set_completed c v)) as Hc.
  { intros [] v; simpl; [|intros w'; apply Hg].
    apply keeps_update_cell; [done|]. by intros [] ? [= <-]. }
  assert (keeps noisy (self L)) as Hs.
  { unfold self, call0. apply keeps_bind; [typeclasses eauto| |].
    - apply keeps_ext0. intros. by apply noisy_push.
    - intros. apply keeps_ret. typeclasses eauto. }
  assert (∀ f l, f ≠ "%s"%string → keeps noisy (printf (A := tag_api) f l)) as Hp.
  { intros f l Hf. apply keeps_emit. intros w'. apply noisy_push. simpl.
    repeat (case_match; try done). }
  destruct cb; simpl; unfold request_init, send_handler, recv_handler, flush_callback.
  - apply Hc.
  - apply keeps_bind; [typeclasses eauto|apply Hc|]. intros _.
    apply keeps_bind; [typeclasses eauto|apply Hs|]. intros i. by apply Hp.
  - apply keeps_bind; [typeclasses eauto|apply Hc|]. intros _.
    apply keeps_bind; [typeclasses eauto|apply Hs|]. intros i. by apply Hp.
  - apply keeps_ret. typeclasses eauto.
Qed.

(** The history after one action. *)
Lemma run_act_agrees x h w w' :
  run_act (tag_handler L) x w = (Ok tt, w') → agrees h (trace w) →
  agrees (hist_acts [x] h) (trace w').
Proof.
  intros Hr Ha. destruct x as [cb|p bs]; simpl in *.
  - pose proof (noisy_handler cb w) as Hn. unfold mbind, M_bind in Hr.
    destruct (tag_handler L cb w) as [[[]|] w1]; [|done]. simpl in Hn.
    cbv in Hr. simplify_eq. cbn [trace push]. apply agrees_cons; [|done].
    etrans; [exact Ha|]. by apply noisy_agrees.
  - unfold mbind, M_bind in Hr. destruct (write_mem_cases by_lib p (Some <$> bs) w) as [Hw|(b & k & d & d' & _ & _ & Hw)];
      destruct (write_mem by_lib p (Some <$> bs) w) as [[[]|] w1]; try done; simpl in Hw; subst w1;
      cbv in Hr; simplify_eq; by apply agrees_cons.
Qed.

Lemma hist_acts_snoc xs x h : hist_acts (xs ++ [x]) h = hist_acts [x] (hist_acts xs h).
Proof. unfold hist_acts. by rewrite foldl_app. Qed.

(** What is legal depends on what the history says. *)
Lemma legal_agrees h h' c x : agrees h h' → tag_legal h c x → tag_legal h' c x.
Proof.
  intros [Hf Hi _ _]. destruct x as [[]|]; simpl; rewrite ?Hf, ?Hi; done.
Qed.

(** [I] holds after the actions so far, whatever legally happens next. *)
Lemma tag_call_rule E c (I : list (act tag_api) → tag_world → Prop)
    (Q : tag_ret c → tag_world → Prop) w :
  polite_tag L → I [] w →
  (∀ dn x w1, x ∈ l_acts L (trace w) c → tag_legal (trace w1) c x → I dn w1 →
     wp E (run_act (tag_handler L) x) (λ _ w2, I (dn ++ [x]) w2) w1) →
  (∀ w1, I (l_acts L (trace w) c) w1 → trace w `suffix_of` trace w1 →
     agrees (hist_acts (l_acts L (trace w) c) (trace w)) (trace w1) →
     Q (l_ret L (trace w1) c) (push (ECall c (l_ret L (trace w1) c)) w1)) →
  wp E (call L c) Q w.
Proof.
  intros Hp HI Hx HQ. apply wp_ext.
  set (xs := l_acts L (trace w) c) in *.
  apply wp_run_acts with (P := λ ys w1, ∃ done, xs = done ++ ys ∧ I done w1 ∧
    trace w `suffix_of` trace w1 ∧ agrees (hist_acts done (trace w)) (trace w1)).
  - exists []. split_and!; [done|done|done|reflexivity].
  - intros x ys w1 (dn & Hxs & HI1 & Hsf & Ha).
    assert (tag_legal (trace w1) c x) as Hl.
    { eapply legal_agrees; [exact Ha|]. eapply pt_legal; [exact Hp|exact Hxs]. }
    assert (x ∈ xs) as Hin by (rewrite Hxs; apply elem_of_app; right; left).
    specialize (Hx dn x w1 Hin Hl HI1).
    assert (grows w1 (run_act (tag_handler L) x w1).2) as (_ & _ & Hg).
    { apply keeps_run_act; [typeclasses eauto|]. intros. apply keeps_tag_handler. typeclasses eauto. }
    unfold wp in *. destruct (run_act (tag_handler L) x w1) as [[[]|] w2] eqn:Hr; [|done].
    exists (dn ++ [x]). rewrite Hxs, <-app_assoc.
    split_and!; [done|done|by etrans|]. rewrite hist_acts_snoc. by eapply run_act_agrees.
  - intros w1 (dn & Hxs & HI1 & Hsf & Ha). rewrite app_nil_r in Hxs. subst dn. by apply HQ.
Qed.
End rule.
