(* ===== verification/TagRun.v ===== *)
(** * ucp_tag_hello_world: operations on requests

    The state of the program between its calls, while a send is under way and while
    a receive is, and the rules for the calls and the waiting loops in these
    states. *)

From S2P Require Import Prelude CRuntime CLib Ucx HelloUtil TagApi TagSock TagHello TagOwn TagOutside.
Open Scope Z_scope.

Abbreviation tag_heap := (gmap N (obj tag_cell)).

(** The static variables apart from the contexts in the requests. *)
Record addresses : Type := Addresses {
  a_local : list Z;
  a_local_handle : Z;
  a_peer : ptr;
  a_peer_len : Z;
}.
Definition addresses_of (g : tag_glob) : addresses :=
  Addresses (g_local_addr g) (g_local_addr_handle g) (g_peer_addr g) (g_peer_addr_len g).

(** Every request that was initialised has a context; if it is not [busy], its
    completed is 0. *)
Definition contexts (busy : Z → Prop) (w : tag_world) : Prop :=
  (∀ q, q ∈ inits (trace w) → is_Some (g_requests (glob w) !! q)) ∧
  ∀ q x, g_requests (glob w) !! q = Some x → x ≠ 0 → busy q.

(** Nothing was stored yet in an object that does not exist yet. *)
Definition unstored (w : tag_world) : Prop :=
  ∀ b d, (next w ≤ b)%N → stored b d (trace w) = d.

Section states.
Context `{!Ucs}.
Implicit Types (w : tag_world) (h : tag_heap) (a : addresses) (rep : list obs).

(** The operations [ops] are under way; the memory is [h], the static variables are
    [a], and [rep] was told. *)
Record state (ops : list tag_operation) (busy : Z → Prop) h a rep w : Prop := {
  st_wf : wf_mem w;
  st_unstored : unstored w;
  st_heap : heap w = h;
  st_addresses : addresses_of (glob w) = a;
  st_report : report (trace w) = rep;
  st_flight : in_flight (trace w) = ops;
  st_contexts : contexts busy w;
}.

Definition at_rest h a rep w : Prop := state [] (λ _, False) h a rep w.

(** The send with request [q] reports to the variable [cb], which holds [x]. *)
Definition sending q cb x h a rep w : Prop :=
  state [OSend q (Some (Loc cb 0))] (λ _, False) (<[cb := Cell KStack (CCtx (Some x))]> h) a rep w.

(** What a buffer of [n] bytes holds before anything is stored. *)
Definition blank (n : Z) : list mbyte := replicate (Z.to_nat n) None.

(** The receive with request [q] of the message [m] stores into [b]; its completed
    is [x]. *)
Definition receiving q x b k n m h a rep w : Prop :=
  state [OReceive q (Loc b 0) n m] (λ q', q' = q)
    (<[b := Bytes k (stored b (blank n) (trace w))]> h) a rep w ∧
  g_requests (glob w) !! q = Some x ∧ q ∈ inits (trace w).
End states.

(** ** Actions *)

Section acts.
Context `{!Ucs, !Ucp, !Cuda} (L : tag_lib).
Implicit Types (w : tag_world) (h : tag_heap) (E : halt → tag_world → Prop).

(** [w'] is [w] with other contexts and a longer history. *)
Definition only_requests w w' : Prop :=
  heap w' = heap w ∧ next w' = next w ∧ addresses_of (glob w') = addresses_of (glob w) ∧
  g_requests (glob w') = g_requests (glob w) ∧ agrees (trace w) (trace w').

Lemma printed_ok E f l (Q : unit → tag_world → Prop) w :
  noise (EOut (A := tag_api) Stdout f l) →
  (∀ w', only_requests w w' → Q tt w') → wp E (printf f l) Q w.
Proof.
  intros Hn HQ. apply wp_fprintf, HQ. repeat (split; [done|]). by apply agrees_noise.
Qed.

Lemma self_ok E (Q : arg → tag_world → Prop) w :
  (∀ i w', only_requests w w' → Q i w') → wp E (self L) Q w.
Proof.
  intros HQ. unfold self, call0. apply wp_bind, (wp_ext0 L E pthread_self), wp_ret, HQ.
  repeat (split; [done|]). by apply agrees_noise.
Qed.

(** The callbacks: what they assign, and nothing else that matters. *)
Lemma init_act_ok E q (Q : unit → tag_world → Prop) w :
  (∀ w', heap w' = heap w → next w' = next w → addresses_of (glob w') = addresses_of (glob w) →
     g_requests (glob w') = <[q := 0]> (g_requests (glob w)) →
     trace w' = ECb (A := tag_api) (Cb_request_init q) tt :: trace w → Q tt w') →
  wp E (run_act (tag_handler L) (Callback (A := tag_api) (Cb_request_init q))) Q w.
Proof. intros HQ. by apply HQ. Qed.

Lemma flush_act_ok E q st (Q : unit → tag_world → Prop) w :
  Q tt (push (ECb (A := tag_api) (Cb_flush q st) tt) w) →
  wp E (run_act (tag_handler L) (Callback (A := tag_api) (Cb_flush q st))) Q w.
Proof. done. Qed.

Lemma recv_act_ok E q st len (Q : unit → tag_world → Prop) w :
  (∀ w', heap w' = heap w → next w' = next w → addresses_of (glob w') = addresses_of (glob w) →
     g_requests (glob w') = <[q := 1]> (g_requests (glob w)) →
     agrees (trace w) (trace w') → Q tt w') →
  wp E (run_act (tag_handler L) (Callback (A := tag_api) (Cb_recv q st len))) Q w.
Proof.
  intros HQ. cbn [run_act tag_handler]. apply wp_bind. unfold recv_handler.
  apply wp_bind, wp_mod_glob, wp_bind, self_ok. intros i w1 (Hh1&Hn1&Ha1&Hr1&Hg1).
  apply printed_ok; [done|]. intros w2 (Hh2&Hn2&Ha2&Hr2&Hg2). apply wp_emit, HQ; simpl.
  - by rewrite Hh2, Hh1.
  - by rewrite Hn2, Hn1.
  - by rewrite Ha2, Ha1.
  - by rewrite Hr2, Hr1.
  - etrans; [exact Hg1|]. etrans; [exact Hg2|]. by split.
Qed.

Lemma send_act_ok E q st cb k c (Q : unit → tag_world → Prop) w :
  heap w !! cb = Some (Cell k c) →
  (∀ w', heap w' = <[cb := Cell k (CCtx (Some 1))]> (heap w) → next w' = next w →
     addresses_of (glob w') = addresses_of (glob w) →
     g_requests (glob w') = g_requests (glob w) →
     agrees (trace w) (trace w') → Q tt w') →
  wp E (run_act (tag_handler L) (Callback (A := tag_api) (Cb_send q st (Loc cb 0)))) Q w.
Proof.
  intros Hc HQ. cbn [run_act tag_handler]. apply wp_bind. unfold send_handler.
  apply wp_bind. eapply wp_update_cell; [exact Hc|done|].
  apply wp_bind, self_ok. intros i w1 (Hh1&Hn1&Ha1&Hr1&Hg1).
  apply printed_ok; [done|]. intros w2 (Hh2&Hn2&Ha2&Hr2&Hg2). apply wp_emit, HQ; simpl.
  - by rewrite Hh2, Hh1.
  - by rewrite Hn2, Hn1.
  - by rewrite Ha2, Ha1.
  - by rewrite Hr2, Hr1.
  - etrans; [exact Hg1|]. etrans; [exact Hg2|]. by split.
Qed.

Lemma tag_store_ok E b off bs kd d (Q : unit → tag_world → Prop) w :
  heap w !! b = Some (Bytes kd d) → 0 ≤ off → off + Z.of_nat (length bs) ≤ Z.of_nat (length d) →
  (∀ w', heap w' = <[b := Bytes kd (store_in b (Loc b off) bs d)]> (heap w) →
     next w' = next w → glob w' = glob w → trace w' = EStore (Loc b off) bs :: trace w → Q tt w') →
  wp E (run_act (tag_handler L) (Store (Loc b off) bs)) Q w.
Proof.
  intros Hb Ho Hl HQ. cbn [run_act]. apply wp_bind.
  eapply wp_write_mem; [exact Hb|done|apply splice_some; [done|by rewrite length_fmap]|].
  apply wp_emit, HQ; [|done..]. simpl. rewrite decide_True by done.
  rewrite splice_some; [done|done|by rewrite length_fmap].
Qed.

(** Contexts while requests are initialised. *)
Lemma contexts_init busy q w w' :
  contexts busy w → g_requests (glob w') = <[q := 0]> (g_requests (glob w)) →
  trace w' = ECb (A := tag_api) (Cb_request_init q) tt :: trace w → contexts busy w'.
Proof.
  intros [Hi Hz] Hg Ht. split; rewrite Hg; [rewrite Ht; simpl|].
  - intros q' Hq. destruct (decide (q = q')) as [->|]; [by rewrite lookup_insert_eq|].
    rewrite lookup_insert_ne by done. apply Hi. by apply elem_of_cons in Hq as [->|].
  - intros q' x. destruct (decide (q = q')) as [->|].
    + rewrite lookup_insert_eq. by intros [= <-].
    + rewrite lookup_insert_ne by done. apply Hz.
Qed.

Lemma contexts_same busy w w' :
  contexts busy w → g_requests (glob w') = g_requests (glob w) →
  inits (trace w') = inits (trace w) → contexts busy w'.
Proof. unfold contexts. by intros ? -> ->. Qed.

Lemma contexts_set busy (busy' : Z → Prop) q v w w' :
  contexts busy w → (∀ q', busy q' → q' ≠ q → busy' q') → (v ≠ 0 → busy' q) →
  g_requests (glob w') = <[q := v]> (g_requests (glob w)) →
  inits (trace w') = inits (trace w) → contexts busy' w'.
Proof.
  intros [Hi Hz] Hb Hv Hg Ht. split; rewrite Hg, ?Ht.
  - intros q' Hq. destruct (decide (q = q')) as [->|]; [by rewrite lookup_insert_eq|].
    rewrite lookup_insert_ne by done. by apply Hi.
  - intros q' x. destruct (decide (q = q')) as [->|].
    + rewrite lookup_insert_eq. by intros [= <-].
    + rewrite lookup_insert_ne by done. intros Hx Hne. apply Hb; [by eapply Hz|done].
Qed.

(** ** Calls *)

(** The report after a call. *)
Definition reported_call (c : tag_call) (r : tag_ret c) (rep : list obs) : list obs :=
  match observe (ECall (A := tag_api) c r) with Some o => o :: rep | None => rep end.

Lemma state_same ops busy busy' h a rep w w' :
  state ops busy h a rep w → heap w' = heap w → next w' = next w →
  addresses_of (glob w') = addresses_of (glob w) →
  report (trace w') = report (trace w) → in_flight (trace w') = in_flight (trace w) →
  (∀ b d, stored b d (trace w') = stored b d (trace w)) →
  contexts busy' w' → state ops busy' h a rep w'.
Proof.
  intros [] Hh Hn Ha Hr Hf Hs Hc. split; try congruence.
  - intros b Hb. rewrite Hh. rewrite Hn in Hb. auto.
  - intros b d Hb. rewrite Hs. rewrite Hn in Hb. auto.
Qed.

(** What happens whatever is under way. *)
Lemma init_state_ok E ops busy h a rep q w :
  state ops busy h a rep w →
  wp E (run_act (tag_handler L) (Callback (A := tag_api) (Cb_request_init q)))
    (λ _ w', state ops busy h a rep w' ∧ g_requests (glob w') = <[q := 0]> (g_requests (glob w)) ∧
       ∀ b d, stored b d (trace w') = stored b d (trace w)) w.
Proof.
  intros Hr. apply init_act_ok. intros w' Hh Hn Ha Hg Ht. split; [|split; [done|by rewrite Ht]].
  eapply state_same; [exact Hr|done|done|done|by rewrite Ht..|].
  eapply contexts_init; [apply Hr|done|done].
Qed.

Lemma flush_state_ok E ops busy h a rep q st w :
  state ops busy h a rep w →
  wp E (run_act (tag_handler L) (Callback (A := tag_api) (Cb_flush q st)))
    (λ _ w', state ops busy h a rep w' ∧ glob w' = glob w ∧
       ∀ b d, stored b d (trace w') = stored b d (trace w)) w.
Proof.
  intros Hr. apply flush_act_ok. split; [|done]. eapply state_same; [exact Hr|done..|].
  eapply contexts_same; [apply Hr|done..].
Qed.

(** While nothing is under way, only contexts are initialised. *)
Lemma rest_act_ok E h a rep c x w :
  at_rest h a rep w → tag_legal (trace w) c x → receives c = None →
  wp E (run_act (tag_handler L) x) (λ _ w', at_rest h a rep w') w.
Proof.
  intros Hr Hl Hc. pose proof (st_flight _ _ _ _ _ _ Hr) as Hf.
  destruct x as [[q|q st ud|q st len|q st]|p bs]; simpl in Hl.
  - eapply wp_conseq; [by apply init_state_ok|]. by intros [] w' [? _].
  - rewrite Hf in Hl. by apply elem_of_nil in Hl.
  - destruct Hl as [(b & n & m & Hl & _)|[Hl _]]; [|done]. rewrite Hf in Hl. by apply elem_of_nil in Hl.
  - eapply wp_conseq; [by apply flush_state_ok|]. by intros [] w' [? _].
  - destruct Hl as (b & k & n & m & _ & _ & _ & [Hl|(q & Hl & _)]); [congruence|].
    rewrite Hf in Hl. by apply elem_of_nil in Hl.
Qed.

Lemma state_call ops ops' busy h a rep c r w :
  state ops busy h a rep w → in_flight (ECall (A := tag_api) c r :: trace w) = ops' →
  state ops' busy h a (reported_call c r rep) (push (ECall (A := tag_api) c r) w).
Proof.
  intros [] Hf. split; try done.
  unfold reported_call. cbn [trace push]. rewrite report_cons. subst rep. by case_match.
Qed.

Lemma rest_call E h a rep c (Q : tag_ret c → tag_world → Prop) w :
  polite_tag L → receives c = None →
  (∀ r hh, in_flight hh = [] → in_flight (ECall (A := tag_api) c r :: hh) = []) →
  at_rest h a rep w →
  (∀ r hh w', l_ret L hh c = r → trace w `suffix_of` hh → trace w' = ECall c r :: hh →
     at_rest h a (reported_call c r rep) w' → Q r w') →
  wp E (call L c) Q w.
Proof.
  intros Hp Hc Hf Hr HQ.
  eapply (tag_call_rule L E c (λ _, at_rest h a rep)); [done|done|..].
  - intros dn x w1 _ Hl Hr1. by eapply rest_act_ok.
  - intros w1 Hr1 Hs _. eapply HQ; [done|exact Hs|done|]. apply (state_call [] []); [done|]. apply Hf, Hr1.
Qed.

Lemma rest_call0 E h a rep c (Q : tag_ret c → tag_world → Prop) w :
  (∀ r hh, in_flight hh = [] → in_flight (ECall (A := tag_api) c r :: hh) = []) →
  at_rest h a rep w →
  (∀ r w', l_ret L (trace w) c = r → trace w' = ECall c r :: trace w →
     at_rest h a (reported_call c r rep) w' → Q r w') →
  wp E (call0 L c) Q w.
Proof. intros Hf Hr HQ. apply (wp_ext0 L E c), HQ; [done..|]. apply (state_call [] []); [done|]. apply Hf, Hr. Qed.

(** A send. *)
Lemma send_call_ok E h a rep ep buf payload t p cb (Q : Z → tag_world → Prop) w :
  polite_tag L → at_rest h a rep w → tp_user_data p = Some (Loc cb 0) →
  h !! cb = Some (Cell KStack (CCtx (Some 0))) →
  (∀ q w', UCS_PTR_IS_PTR q = false →
     at_rest h a (Sent payload (tp_memory_type p) :: rep) w' → Q q w') →
  (∀ q w', UCS_PTR_IS_PTR q = true →
     sending q cb 0 h a (Sent payload (tp_memory_type p) :: rep) w' → Q q w') →
  wp E (call L (ucp_tag_send_nbx ep buf payload t p)) Q w.
Proof.
  intros Hp Hr Hud Hcb HN HS. set (c := ucp_tag_send_nbx _ _ _ _ _).
  eapply (tag_call_rule L E c (λ _, at_rest h a rep)); [done|done|..].
  - intros dn x w1 _ Hl Hr1. by eapply rest_act_ok.
  - intros w1 Hr1 _ _. set (q := l_ret L (trace w1) c). clearbody q. simpl in q.
    pose proof (st_flight _ _ _ _ _ _ Hr1) as Hf.
    destruct (UCS_PTR_IS_PTR q) eqn:Hq; [apply HS|apply HN]; try done.
    + unfold sending. rewrite insert_id by done.
      apply (state_call _ _ _ _ _ _ c q _ Hr1). simpl. by rewrite Hq, Hud, Hf.
    + apply (state_call _ _ _ _ _ _ c q _ Hr1). simpl. by rewrite Hq.
Qed.

(** ** Waiting for a send *)

(** Actions while a send is under way: its callback, or no change. *)
Lemma send_acts_ok E q cb h a rep c dn x y w :
  receives c = None → tag_legal (trace w) c x →
  sending q cb y h a rep w → (existsb (completes_tag (OSend q None)) dn = true → y ≠ 0) →
  wp E (run_act (tag_handler L) x) (λ _ w', ∃ y', sending q cb y' h a rep w' ∧
    (existsb (completes_tag (OSend q None)) (dn ++ [x]) = true → y' ≠ 0)) w.
Proof.
  intros Hc Hl Hs Hy. pose proof (st_flight _ _ _ _ _ _ Hs) as Hf.
  destruct x as [[q'|q' st ud|q' st len|q' st]|p bs]; simpl in Hl.
  - eapply wp_conseq; [by apply init_state_ok|]. intros [] w' [Hs' _]. exists y. split; [done|].
    rewrite existsb_app. simpl. by rewrite !orb_false_r.
  - rewrite Hf in Hl. apply list_elem_of_singleton in Hl. simplify_eq.
    eapply send_act_ok; [rewrite (st_heap _ _ _ _ _ _ Hs); by rewrite lookup_insert_eq|].
    intros w' Hh Hn Ha Hg Hag. exists 1. split; [|done]. destruct Hs, Hag as [Hag1 Hag2 Hag3 Hag4]. split; try congruence.
    + intros b Hb. rewrite Hh. rewrite Hn in Hb. specialize (st_wf0 b Hb).
      rewrite lookup_insert_ne; [done|]. intros <-. rewrite st_heap0 in st_wf0.
      by rewrite lookup_insert_eq in st_wf0.
    + intros b d Hb. rewrite Hag3. apply st_unstored0. by rewrite Hn in Hb.
    + rewrite Hh, st_heap0. by rewrite insert_insert_eq.
    + by eapply contexts_same.
  - destruct Hl as [(b & n & m & Hl & _)|[Hl _]]; [|done]. rewrite Hf in Hl.
    by apply list_elem_of_singleton in Hl.
  - eapply wp_conseq; [by apply flush_state_ok|]. intros [] w' [Hs' _]. exists y. split; [done|].
    rewrite existsb_app. simpl. by rewrite !orb_false_r.
  - destruct Hl as (b & k & n & m & _ & _ & _ & [Hl|(q' & Hl & _)]); [congruence|].
    rewrite Hf in Hl. by apply list_elem_of_singleton in Hl.
Qed.

Lemma progress_sending E q cb h a rep wk (Q : Z → tag_world → Prop) w :
  polite_tag L → sending q cb 0 h a rep w →
  (∀ r w' y l, sending q cb y h a rep w' →
     trace w' = ECall (A := tag_api) (ucp_worker_progress wk) r :: l ++ trace w →
     (existsb (completes_tag (OSend q None)) (l_acts L (trace w) (ucp_worker_progress wk)) = true →
        y ≠ 0) → Q r w') →
  wp E (call L (ucp_worker_progress wk)) Q w.
Proof.
  intros Hp Hs HQ. pose (c := ucp_worker_progress wk).
  eapply (tag_call_rule L E c (λ dn w1, ∃ y, sending q cb y h a rep w1 ∧
    (existsb (completes_tag (OSend q None)) dn = true → y ≠ 0))); [done|exists 0; by split|..].
  - intros dn x w1 _ Hl (y & Hs1 & Hy).
    by eapply (send_acts_ok _ q cb h a rep c).
  - intros w1 (y & Hs1 & Hy) [l Hsf] _. eapply (HQ _ _ y l); [|cbn [trace push]; by rewrite Hsf|exact Hy].
    apply (state_call _ _ _ _ _ _ c _ _ Hs1). simpl. apply Hs1.
Qed.
End acts.

Section waits.
Context `{!Ucs, !Ucp, !Cuda} (L : tag_lib) (fuel : nat).
Context (Hp : polite_tag L) (ρ : history tag_api → nat) (Hre : responsive_tag L ρ).
Context (Hfuel : (ρ [] + 1 < fuel)%nat).
Implicit Types (w : tag_world) (h : tag_heap) (E : halt → tag_world → Prop).

Lemma work_bounded hh : (ρ hh ≤ ρ [])%nat.
Proof using Hre. eapply rt_suffix; [exact Hre|apply suffix_nil]. Qed.

Lemma work_after l hh : (ρ (l ++ hh) ≤ ρ hh)%nat.
Proof using Hre. eapply rt_suffix; [exact Hre|]. by exists l. Qed.

(** The wait for a send ends when its callback ran. *)
Lemma wait_sending_ok E q cb x h a rep wk (Q : unit → tag_world → Prop) w :
  sending q cb x h a rep w →
  (∀ y w', sending q cb y h a rep w' → Q tt w') →
  wp E (ucx_wait L fuel wk (InMemory (Loc cb 0))) Q w.
Proof using Hp Hre Hfuel.
  intros Hs HQ. pose proof work_bounded as Hb.
  apply wp_loop_total with (I := λ _ w', ∃ y, sending q cb y h a rep w')
    (μ := λ _ w', match heap w' !! cb with Some (Cell _ (CCtx (Some 0))) => S (ρ (trace w')) | _ => O end).
  { by exists x. }
  { pose proof (Hb (trace w)). case_match; [|lia]. repeat (case_match; try lia). }
  intros [] w1 [y Hs1]. pose proof (st_heap _ _ _ _ _ _ Hs1) as Hh1.
  assert (heap w1 !! cb = Some (Cell KStack (CCtx (Some y)))) as Hy by by rewrite Hh1, lookup_insert_eq.
  rewrite Hy. apply wp_bind, wp_bind. cbn [completed]. apply wp_bind. eapply wp_read_cell; [exact Hy|].
  apply wp_ret, wp_ret. destruct (Z.eqb_spec y 0) as [->|Hne].
  2:{ apply wp_ret. by eapply HQ. }
  apply wp_bind, wp_bind. eapply (progress_sending L); [done|exact Hs1|].
  intros r w2 y' l Hs2 Ht Hc. apply wp_ret, wp_ret. split; [by exists y'|].
  rewrite (st_heap _ _ _ _ _ _ Hs2), lookup_insert_eq.
  destruct (decide (y' = 0)) as [->|Hne]; [|destruct y'; lia].
  rewrite Ht. destruct (rt_progress L ρ Hre (trace w1) wk (OSend q (Some (Loc cb 0))) l r) as [He|Hlt].
  - rewrite (st_flight _ _ _ _ _ _ Hs1). by left.
  - done.
  - by destruct (Hc He).
  - lia.
Qed.

(** The request goes back. *)
Lemma release_sent_ok E q cb x h a rep (Q : unit → tag_world → Prop) w :
  sending q cb x h a rep w →
  (∀ y w', at_rest (<[cb := Cell KStack (CCtx (Some y))]> h) a rep w' → Q tt w') →
  wp E (call L (ucp_request_release q)) Q w.
Proof using Hp.
  intros Hs HQ. pose (c := ucp_request_release q).
  eapply (tag_call_rule L E c (λ _ w1, ∃ y, sending q cb y h a rep w1)); [done|by exists x|..].
  - intros dn y w1 _ Hl (z & Hs1).
    eapply wp_conseq; [by eapply (send_acts_ok L _ q cb h a rep c [])|]. intros [] w2 (z' & Hs2 & _).
    by exists z'.
  - intros w1 (y & Hs1) _ _. generalize (l_ret L (trace w1) c). intros []. apply (HQ y).
    apply (state_call _ _ _ _ _ _ c _ _ Hs1). simpl. rewrite (st_flight _ _ _ _ _ _ Hs1).
    rewrite filter_cons_False by (simpl; tauto). done.
Qed.

Lemma wait_sent_ok E q cb h a rep wk (Q : unit → tag_world → Prop) w :
  sending q cb 0 h a rep w →
  (∀ y w', at_rest (<[cb := Cell KStack (CCtx (Some y))]> h) a rep w' → Q tt w') →
  wp E (ucx_wait L fuel wk (InMemory (Loc cb 0));; call L (ucp_request_release q)) Q w.
Proof using Hp Hre Hfuel.
  intros Hs HQ. apply wp_bind. eapply wait_sending_ok; [exact Hs|]. intros y w1 Hs1.
  by eapply release_sent_ok.
Qed.

(** ** Probing and flushing *)

Lemma probe_client_ok E content h a rep wk (Q : Z * Z → tag_world → Prop) w :
  delivers_tag L content → at_rest h a rep w →
  (∀ m w', m ≠ 0 → at_rest h a rep w' → Q (m, Z.of_nat (length (content m))) w') →
  wp E (probe_client L fuel wk) Q w.
Proof using Hp Hre Hfuel.
  intros Hd Hr HQ. pose proof work_bounded as Hb.
  apply wp_loop_total with (I := λ _ w', at_rest h a rep w') (μ := λ _ w', ρ (trace w')); [done| |].
  { pose proof (Hb (trace w)). lia. }
  intros [] w1 Hr1. apply wp_bind.
  eapply (rest_call L E h a rep (ucp_tag_probe_nb wk tag tag_mask 1)); [done|done|done|exact Hr1|].
  intros [m n] hh w2 Hl Hs Ht Hr2. destruct (Z.eqb_spec m 0) as [->|Hm]; cbn [negb].
  - apply wp_bind. eapply (rest_call L E h a rep (ucp_worker_progress wk)); [done|done|done|exact Hr2|].
    intros r hh' w3 _ Hs3 Ht3 Hr3. apply wp_ret. split; [exact Hr3|].
    pose proof (rt_probe L ρ Hre hh wk tag tag_mask 1 n Hl) as R1.
    pose proof (rt_suffix L ρ _ _ Hre Hs) as R2. rewrite Ht3.
    pose proof (rt_mono L ρ Hre (ECall (A := tag_api) (ucp_worker_progress wk) r) hh') as R3.
    pose proof (rt_suffix L ρ _ _ Hre Hs3) as R4. rewrite Ht in R4. lia.
  - apply wp_ret. pose proof (dt_probe L content Hd hh wk tag tag_mask 1) as Hn. simpl in Hn.
    rewrite Hl in Hn. simpl in Hn. rewrite Hn by done. by apply HQ.
Qed.

Lemma probe_server_ok E content h a rep wk (Q : Z * Z → tag_world → Prop) w :
  delivers_tag L content → at_rest h a rep w →
  (∀ m w', m ≠ 0 → at_rest h a rep w' → Q (m, Z.of_nat (length (content m))) w') →
  wp E (probe_server L fuel wk) Q w.
Proof using Hp Hre Hfuel.
  intros Hd Hr HQ. pose proof work_bounded as Hb.
  apply wp_loop_total with (I := λ _ w', at_rest h a rep w') (μ := λ _ w', ρ (trace w')); [done| |].
  { pose proof (Hb (trace w)). lia. }
  intros [] w1 Hr1. apply wp_bind, wp_bind.
  eapply (rest_call L E h a rep (ucp_worker_progress wk)); [done|done|done|exact Hr1|].
  intros r hh w2 _ Hs Ht Hr2.
  eapply (rest_call L E h a rep (ucp_tag_probe_nb wk tag tag_mask 1)); [done|done|done|exact Hr2|].
  intros [m n] hh' w3 Hl Hs3 Ht3 Hr3. destruct (Z.eqb_spec m 0) as [->|Hm]; apply wp_ret.
  - split; [exact Hr3|]. rewrite Ht3.
    pose proof (rt_probe L ρ Hre hh' wk tag tag_mask 1 n Hl) as R1.
    pose proof (rt_suffix L ρ _ _ Hre Hs3) as R2. rewrite Ht in R2.
    pose proof (rt_mono L ρ Hre (ECall (A := tag_api) (ucp_worker_progress wk) r) hh) as R3.
    pose proof (rt_suffix L ρ _ _ Hre Hs) as R4. lia.
  - pose proof (dt_probe L content Hd hh' wk tag tag_mask 1) as Hn. simpl in Hn.
    rewrite Hl in Hn. simpl in Hn. rewrite Hn by done. by apply HQ.
Qed.

Lemma flush_ep_ok E h a rep wk ep (Q : Z → tag_world → Prop) w :
  at_rest h a rep w → (∀ st w', at_rest h a rep w' → Q st w') →
  wp E (flush_ep L fuel wk ep) Q w.
Proof using Hp Hre Hfuel.
  intros Hr HQ. pose proof work_bounded as Hb. unfold flush_ep. apply wp_bind.
  eapply (rest_call L E h a rep (ucp_ep_flush_nbx ep _)); [done|done|done|exact Hr|].
  intros q hh w1 _ _ _ Hr1. destruct (q =? 0); [by apply wp_ret, HQ|].
  destruct (UCS_PTR_IS_ERR q); [by apply wp_ret, HQ|]. apply wp_bind.
  apply wp_loop_total with (I := λ _ w', at_rest h a rep w') (μ := λ _ w', ρ (trace w')); [done| |].
  { pose proof (Hb (trace w1)). lia. }
  intros [] w2 Hr2. apply wp_bind, wp_bind.
  eapply (rest_call L E h a rep (ucp_worker_progress wk)); [done|done|done|exact Hr2|].
  intros r hh2 w3 _ Hs Ht Hr3.
  eapply (rest_call L E h a rep (ucp_request_check_status q)); [done|done|done|exact Hr3|].
  intros st hh3 w4 Hl Hs4 Ht4 Hr4. destruct (Z.eqb_spec st UCS_INPROGRESS) as [->|Hst]; apply wp_ret.
  - split; [exact Hr4|]. rewrite Ht4.
    pose proof (rt_status L ρ Hre hh3 q Hl) as R1.
    pose proof (rt_suffix L ρ _ _ Hre Hs4) as R2. rewrite Ht in R2.
    pose proof (rt_mono L ρ Hre (ECall (A := tag_api) (ucp_worker_progress wk) r) hh2) as R3.
    pose proof (rt_suffix L ρ _ _ Hre Hs) as R4. lia.
  - apply wp_bind. eapply (rest_call L E h a rep (ucp_request_release q)); [done|done| |exact Hr4|].
    { intros x l Hx. simpl. by rewrite Hx. }
    intros x hh5 w5 _ _ _ Hr5. by apply wp_ret, HQ.
Qed.
End waits.
