(* ===== verification/TagReceive.v ===== *)
(** * ucp_tag_hello_world: receiving a message

    From the call that starts a receive to the release of its request: UCX stores
    into the buffer, the callback marks the request, and the program puts the mark
    back before it returns the request. *)

From S2P Require Import Prelude CRuntime CLib Ucx HelloUtil TagApi TagSock TagHello TagOwn TagOutside TagRun.
Open Scope Z_scope.

Lemma store_in_length b p bs d : length (store_in b p bs d) = length d.
Proof.
  unfold store_in. destruct p; try done. destruct (decide _); [|done].
  destruct (splice _ _ _) eqn:Hs; [by eapply splice_length|done].
Qed.

Lemma stored_length b d h : length (stored b d h) = length d.
Proof.
  induction h as [|e h IH]; [done|]. destruct e; simpl; try done. by rewrite store_in_length.
Qed.

Section receive.
Context `{!Ucs, !Ucp, !Cuda} (L : tag_lib).
Implicit Types (w : tag_world) (h : tag_heap) (E : halt → tag_world → Prop).

(** The memory of a receive at a point of the history. *)
Definition filling b k n h w : tag_heap := <[b := Bytes k (stored b (blank n) (trace w))]> h.

Lemma state_busy ops (busy busy' : Z → Prop) h a rep w :
  (∀ q, busy q → busy' q) → state ops busy h a rep w → state ops busy' h a rep w.
Proof. intros Hb []. split; try done. destruct st_contexts as [? ?]. split; eauto. Qed.

Lemma store_state_ok E ops busy b k n h a rep off bs w :
  state ops busy (filling b k n h w) a rep w →
  0 ≤ off → off + Z.of_nat (length bs) ≤ n →
  wp E (run_act (tag_handler L) (Store (Loc b off) bs))
    (λ _ w', state ops busy (filling b k n h w') a rep w' ∧ glob w' = glob w) w.
Proof.
  intros Hs Ho Hl.
  assert (heap w !! b = Some (Bytes k (stored b (blank n) (trace w)))) as Hb.
  { rewrite (st_heap _ _ _ _ _ _ Hs). apply lookup_insert_eq. }
  eapply tag_store_ok; [exact Hb|done| |].
  { rewrite stored_length. unfold blank. rewrite length_replicate. lia. }
  intros w' Hh Hn Hg Ht. split; [|done]. destruct Hs. split.
  - intros b' Hb'. rewrite Hh. rewrite Hn in Hb'. specialize (st_wf _ Hb').
    rewrite lookup_insert_ne; [done|]. intros <-. by rewrite Hb in st_wf.
  - intros b' d Hb'. rewrite Hn in Hb'. rewrite Ht. simpl. rewrite st_unstored by done.
    rewrite decide_False; [done|]. intros <-. specialize (st_wf _ Hb'). by rewrite Hb in st_wf.
  - rewrite Hh, st_heap. unfold filling. rewrite insert_insert_eq, Ht. done.
  - by rewrite Hg.
  - rewrite Ht, report_cons. done.
  - by rewrite Ht.
  - eapply contexts_same; [done|by rewrite Hg|by rewrite Ht].
Qed.

Lemma recv_state_ok E ops (busy : Z → Prop) q st len h a rep w :
  state ops busy h a rep w →
  wp E (run_act (tag_handler L) (Callback (A := tag_api) (Cb_recv q st len)))
    (λ _ w', state ops (λ q', busy q' ∨ q' = q) h a rep w' ∧
       g_requests (glob w') = <[q := 1]> (g_requests (glob w)) ∧
       ∀ b d, stored b d (trace w') = stored b d (trace w)) w.
Proof.
  intros Hs. apply recv_act_ok. intros w' Hh Hn Ha Hg [Hf Hi Hst Hrep]. split; [|done].
  eapply state_same; [exact Hs|done..|].
  eapply contexts_set; [apply Hs| |by right|exact Hg|done]. intros q' Hb _. by left.
Qed.

(** ** The call *)

(** The requests whose callback is among the actions [dn]. *)
Definition called_back (dn : list (act tag_api)) (q : Z) : Prop :=
  ∃ st len, Callback (Cb_recv q st len) ∈ dn.

Lemma called_back_app dn x q : called_back dn q → called_back (dn ++ [x]) q.
Proof. intros (st & len & Hin). exists st, len. apply elem_of_app. by left. Qed.

Lemma starting_act_ok E c b k n m h a rep dn x w :
  receives c = Some (Loc b 0, n, m) → tag_legal (trace w) c x →
  state [] (called_back dn) (filling b k n h w) a rep w →
  wp E (run_act (tag_handler L) x)
    (λ _ w', state [] (called_back (dn ++ [x])) (filling b k n h w') a rep w') w.
Proof.
  intros Hc Hl Hs. pose proof (st_flight _ _ _ _ _ _ Hs) as Hf.
  apply (state_busy _ _ (called_back (dn ++ [x]))) in Hs; [|by apply called_back_app].
  destruct x as [[q|q st ud|q st len|q st]|p bs]; simpl in Hl.
  - eapply wp_conseq; [by apply init_state_ok|]. intros [] w' (Hs' & _ & Hst).
    unfold filling in *. by rewrite Hst.
  - rewrite Hf in Hl. by apply elem_of_nil in Hl.
  - eapply wp_conseq; [by apply recv_state_ok|]. intros [] w' (Hs' & _ & Hst).
    unfold filling in *. rewrite Hst. eapply state_busy; [|exact Hs'].
    intros q' [Hb| ->]; [done|]. exists st, len. apply elem_of_app. right. by left.
  - eapply wp_conseq; [by apply flush_state_ok|]. intros [] w' (Hs' & _ & Hst).
    unfold filling in *. by rewrite Hst.
  - destruct Hl as (b' & off & n' & m' & -> & Ho & Hlen & [Hl|(q & Hl & _)]).
    + rewrite Hc in Hl. simplify_eq. eapply wp_conseq; [by eapply store_state_ok|].
      by intros [] w' [Hs' _].
    + rewrite Hf in Hl. by apply elem_of_nil in Hl.
Qed.

Lemma inits_suffix hh hh' q : hh `suffix_of` hh' → q ∈ inits hh → q ∈ inits hh'.
Proof.
  intros [l ->] Hq. induction l as [|e l IH]; [done|]. simpl.
  destruct e as [| [] | | |]; try done. by right.
Qed.

(** A callback of a receive that is being started is for an initialised request. *)
Lemma starting_called_back c dn x q w w' :
  in_flight (trace w) = [] → grows w w' → tag_legal (trace w) c x →
  (∀ q, called_back dn q → q ∈ inits (trace w)) →
  called_back (dn ++ [x]) q → q ∈ inits (trace w').
Proof.
  intros Hf (_ & _ & Hs) Hl Hi (st & len & Hin). eapply inits_suffix; [exact Hs|].
  apply elem_of_app in Hin as [Hin|Hin]; [apply Hi; by exists st, len|].
  apply list_elem_of_singleton in Hin. subst x. destruct Hl as [(b & n & m & Hl & _)|[_ Hl]]; [|done].
  rewrite Hf in Hl. by apply elem_of_nil in Hl.
Qed.

Lemma keeps_grows_act x : keeps grows (run_act (tag_handler L) x).
Proof. apply keeps_run_act; [typeclasses eauto|]. intros. apply keeps_tag_handler. typeclasses eauto. Qed.

Lemma recv_call_ok E content b k n m h a rep wk dt cb (Q : Z → tag_world → Prop) w :
  polite_tag L → delivers_tag L content →
  at_rest (<[b := Bytes k (blank n)]> h) a rep w → stored b (blank n) (trace w) = blank n →
  n = Z.of_nat (length (content m)) →
  (∀ q d w', answer_of L (ucp_tag_msg_recv_nb wk (Loc b 0) n dt m cb) q →
     UCS_PTR_IS_ERR q = true → at_rest (<[b := Bytes k d]> h) a rep w' → Q q w') →
  (∀ q x w', answer_of L (ucp_tag_msg_recv_nb wk (Loc b 0) n dt m cb) q →
     UCS_PTR_IS_PTR q = true → receiving q x b k n m h a rep w' →
     (x ≠ 0 → stored b (blank n) (trace w') = Some <$> content m) → Q q w') →
  wp E (call L (ucp_tag_msg_recv_nb wk (Loc b 0) n dt m cb)) Q w.
Proof.
  intros Hp Hd Hr Hb Hnm HE HQ. pose (c := ucp_tag_msg_recv_nb wk (Loc b 0) n dt m cb).
  eapply (tag_call_rule L E c (λ dn w1, state [] (called_back dn) (filling b k n h w1) a rep w1 ∧
    ∀ q, called_back dn q → q ∈ inits (trace w1))); [done| |..].
  { split; [|by intros q (st & len & Hin%elem_of_nil)].
    unfold filling. rewrite Hb. eapply state_busy; [|exact Hr]. done. }
  { intros dn x w1 _ Hl [Hs Hi]. apply (wp_with_keeps grows); [apply keeps_grows_act|].
    eapply wp_conseq; [by eapply (starting_act_ok _ c)|]. intros [] w2 Hs2 Hg. split; [done|].
    intros q Hq. eapply starting_called_back; [apply Hs|exact Hg|exact Hl|exact Hi|exact Hq]. }
  intros w1 [Hs Hcb] Hsf Hag. pose proof (st_flight _ _ _ _ _ _ Hr) as Hf.
  pose proof (st_contexts _ _ _ _ _ _ Hs) as [Hi Hz].
  pose proof (pt_nonnull L Hp (trace w1) wk (Loc b 0) n dt m cb) as Hnn.
  pose proof (pt_init L Hp (trace w1) wk (Loc b 0) n dt m cb) as Hin.
  assert (∀ q, called_back (l_acts L (trace w) c) q →
    l_ret L (trace w1) c = q ∧ UCS_PTR_IS_PTR q = true) as Hsame.
  { intros q Hq. pose proof (Hcb q Hq) as Hqi. destruct Hq as (st & len & Hq).
    by eapply (pt_same L Hp); [exact Hf|exact Hq|exact Hsf|]. }
  fold c in Hnn, Hin. cbv zeta in Hin. revert Hnn Hin Hsame.
  remember (l_ret L (trace w1) c) as q eqn:Hqe. symmetry in Hqe. intros Hnn Hin Hsame.
  destruct (ucs_ptr_cases q) as [Hq|[(_ & He & Hq)|(_ & He & Hq)]]; [done|..].
  - eapply HE; [by exists (trace w), (trace w1)|done|]. eapply state_busy; [|apply (state_call _ [] _ _ _ _ c q _ Hs)].
    + intros q' Hq'. destruct (Hsame q' Hq') as [-> Hq'']. congruence.
    + simpl. rewrite Hq. apply Hs.
  - destruct (Hi q (Hin Hq)) as [x Hx]. apply (HQ q x); [by exists (trace w), (trace w1)|done| |].
    + split; [|by split; [|apply Hin]]. eapply state_busy; [|apply (state_call _ _ _ _ _ _ c q _ Hs)].
      * intros q' Hq'. by destruct (Hsame q' Hq').
      * simpl. rewrite Hq. f_equal. apply Hs.
    + intros Hne. simpl. destruct (Hz q x Hx Hne) as (st & len & Hcall).
      destruct Hag as [_ _ Hst _]. rewrite Hst. eapply (dt_bytes L content Hd); [exact Hcall|by left|done].
Qed.

(** ** Waiting *)

Lemma receiving_act_ok E c q b k n m h a rep dn x y w :
  receives c = None → tag_legal (trace w) c x → receiving q y b k n m h a rep w →
  (existsb (completes_tag (OReceive q Null 0 0)) dn = true → y ≠ 0) →
  (y ≠ 0 → called_back dn q) →
  wp E (run_act (tag_handler L) x)
    (λ _ w', ∃ y', receiving q y' b k n m h a rep w' ∧
       (existsb (completes_tag (OReceive q Null 0 0)) (dn ++ [x]) = true → y' ≠ 0) ∧
       (y' ≠ 0 → called_back (dn ++ [x]) q)) w.
Proof.
  intros Hc Hl (Hs & Hy & Hqi) He Hb. pose proof (st_flight _ _ _ _ _ _ Hs) as Hf.
  apply (wp_with_keeps grows); [apply keeps_grows_act|]. rewrite existsb_app. cbn [existsb].
  assert (∀ w', state [OReceive q (Loc b 0) n m] (λ q', q' = q) (filling b k n h w') a rep w' →
    g_requests (glob w') !! q = Some y → grows w w' → receiving q y b k n m h a rep w' ∧
    (y ≠ 0 → called_back (dn ++ [x]) q)) as Hend.
  { intros w' Hs' Hy' (_ & _ & Hsf). split; [|by intros; apply called_back_app, Hb].
    split; [done|]. split; [done|]. by eapply inits_suffix. }
  destruct x as [[q'|q' st ud|q' st len|q' st]|p bs]; simpl in Hl; cbn [completes_tag];
    rewrite ?orb_false_r.
  - eapply wp_conseq; [by apply init_state_ok|]. intros [] w' (Hs' & Hg & Hst) Hgr. exists y.
    destruct (Hend w') as [? ?]; [|rewrite Hg, lookup_insert_ne by (by intros ->); done|done|done].
    unfold filling. by rewrite Hst.
  - rewrite Hf in Hl. by apply list_elem_of_singleton in Hl.
  - destruct Hl as [(b' & n' & m' & Hl & _)|[Hl _]]; [|done]. rewrite Hf in Hl.
    apply list_elem_of_singleton in Hl. simplify_eq.
    eapply wp_conseq; [by apply recv_state_ok|]. intros [] w' (Hs' & Hg & Hst) (_ & _ & Hsf).
    exists 1. split; [|split; [done|]].
    + split; [|split; [by rewrite Hg, lookup_insert_eq|by eapply inits_suffix]].
      rewrite Hst. eapply state_busy; [|exact Hs']. by intros q' [?|?].
    + intros _. exists st, len. apply elem_of_app. right. by left.
  - eapply wp_conseq; [by apply flush_state_ok|]. intros [] w' (Hs' & Hg & Hst) Hgr. exists y.
    destruct (Hend w') as [? ?]; [|by rewrite Hg|done|done]. unfold filling. by rewrite Hst.
  - destruct Hl as (b' & off & n' & m' & -> & Ho & Hlen & [Hl|(q' & Hl & _)]); [congruence|].
    rewrite Hf in Hl. apply list_elem_of_singleton in Hl. simplify_eq.
    eapply wp_conseq; [by eapply store_state_ok|]. intros [] w' [Hs' Hg] Hgr. exists y.
    destruct (Hend w') as [? ?]; [done|by rewrite Hg|done|done].
Qed.

Lemma progress_receiving E content q b k n m h a rep wk (Q : Z → tag_world → Prop) w :
  polite_tag L → delivers_tag L content → n = Z.of_nat (length (content m)) →
  receiving q 0 b k n m h a rep w →
  (∀ r w' y l, receiving q y b k n m h a rep w' →
     trace w' = ECall (A := tag_api) (ucp_worker_progress wk) r :: l ++ trace w →
     (existsb (completes_tag (OReceive q Null 0 0))
        (l_acts L (trace w) (ucp_worker_progress wk)) = true → y ≠ 0) →
     (y ≠ 0 → stored b (blank n) (trace w') = Some <$> content m) → Q r w') →
  wp E (call L (ucp_worker_progress wk)) Q w.
Proof.
  intros Hp Hd Hnm Hs HQ. pose (c := ucp_worker_progress wk).
  eapply (tag_call_rule L E c (λ dn w1, ∃ y, receiving q y b k n m h a rep w1 ∧
    (existsb (completes_tag (OReceive q Null 0 0)) dn = true → y ≠ 0) ∧
    (y ≠ 0 → called_back dn q))); [done|by exists 0|..].
  - intros dn x w1 _ Hl (y & Hs1 & Hy & Hb). by eapply (receiving_act_ok _ c).
  - intros w1 (y & (Hs1 & Hy1 & Hq1) & Hy & Hb) [l Hsf] [_ _ Hst _].
    eapply (HQ _ _ y l); [|cbn [trace push]; by rewrite Hsf|exact Hy|].
    + split; [|done]. apply (state_call _ _ _ _ _ _ c _ _ Hs1). simpl. apply Hs1.
    + intros Hne. simpl. rewrite Hst. destruct (Hb Hne) as (st & len & Hin).
      eapply (dt_bytes L content Hd); [exact Hin| |done]. right.
      destruct Hs as (Hs & _). rewrite (st_flight _ _ _ _ _ _ Hs). by left.
Qed.

(** Nothing happens to the buffer while the request is released. *)
Lemma release_received_ok E q b n m h a rep (Q : unit → tag_world → Prop) w :
  polite_tag L →
  state [OReceive q (Loc b 0) n m] (λ _, False) h a rep w →
  (∀ w', at_rest h a rep w' → Q tt w') →
  wp E (call L (ucp_request_release q)) Q w.
Proof.
  intros Hp Hs HQ. pose (c := ucp_request_release q).
  eapply (tag_call_rule L E c
    (λ _ w1, state [OReceive q (Loc b 0) n m] (λ _, False) h a rep w1)); [done|done|..].
  - intros dn x w1 _ Hl Hs1. pose proof (st_flight _ _ _ _ _ _ Hs1) as Hf.
    destruct x as [[q'|q' st ud|q' st len|q' st]|p bs]; simpl in Hl.
    + eapply wp_conseq; [by apply init_state_ok|]. by intros [] w' [? _].
    + rewrite Hf in Hl. by apply list_elem_of_singleton in Hl.
    + destruct Hl as [(b' & n' & m' & Hl & Hne)|[Hl _]]; [|done]. rewrite Hf in Hl.
      apply list_elem_of_singleton in Hl. by simplify_eq.
    + eapply wp_conseq; [by apply flush_state_ok|]. by intros [] w' [? _].
    + destruct Hl as (b' & off & n' & m' & -> & Ho & Hlen & [Hl|(q' & Hl & Hne)]); [done|].
      rewrite Hf in Hl. apply list_elem_of_singleton in Hl. by simplify_eq.
  - intros w1 Hs1 _ _. generalize (l_ret L (trace w1) c). intros []. apply HQ.
    apply (state_call _ _ _ _ _ _ c _ _ Hs1). simpl. rewrite (st_flight _ _ _ _ _ _ Hs1).
    rewrite filter_cons_False by (simpl; tauto). done.
Qed.

Context (fuel : nat) (Hp : polite_tag L) (ρ : history tag_api → nat) (Hre : responsive_tag L ρ).
Context (Hfuel : (ρ [] + 1 < fuel)%nat).

(** The message is in the buffer, and the request is as UCX gave it out. *)
Lemma wait_received_ok E content q x b k n m h a rep wk (Q : unit → tag_world → Prop) w :
  delivers_tag L content → n = Z.of_nat (length (content m)) → receiving q x b k n m h a rep w →
  (x ≠ 0 → stored b (blank n) (trace w) = Some <$> content m) →
  (∀ w', at_rest (<[b := Bytes k (Some <$> content m)]> h) a rep w' → Q tt w') →
  wp E (wait_received L fuel wk q) Q w.
Proof using Hp Hre Hfuel.
  intros Hd Hnm Hs Hx HQ. pose proof (work_bounded L ρ Hre) as Hb. apply wp_bind.
  apply wp_loop_total with (I := λ _ w', ∃ y, receiving q y b k n m h a rep w' ∧
      (y ≠ 0 → stored b (blank n) (trace w') = Some <$> content m))
    (μ := λ _ w', match g_requests (glob w') !! q with Some 0 => S (ρ (trace w')) | _ => O end).
  { by exists x. }
  { pose proof (Hb (trace w)). repeat (case_match; try lia). }
  intros [] w1 (y & Hs1 & Hy). pose proof Hs1 as (Hst1 & Hg1 & Hi1). rewrite Hg1.
  apply wp_bind, wp_bind. cbn [completed]. unfold glb. apply wp_bind, wp_bind, wp_get_glob, wp_ret.
  eapply wp_the; [exact Hg1|]. apply wp_ret. destruct (Z.eqb_spec y 0) as [->|Hne].
  - apply wp_bind, wp_bind. eapply progress_receiving; [done|done|exact Hnm|exact Hs1|].
    intros r w2 y' l Hs2 Ht Hc Hy2. apply wp_ret, wp_ret. split; [by exists y'|].
    destruct Hs2 as (_ & Hg2 & _). rewrite Hg2.
    destruct (decide (y' = 0)) as [->|Hne]; [|destruct y'; lia].
    rewrite Ht. destruct (rt_progress L ρ Hre (trace w1) wk (OReceive q (Loc b 0) n m) l r) as [He|Hlt].
    + rewrite (st_flight _ _ _ _ _ _ Hst1). by left.
    + done.
    + by destruct (Hc He).
    + lia.
  - apply wp_ret, wp_bind. apply wp_mod_glob.
    eapply release_received_ok with (h := <[b := Bytes k (Some <$> content m)]> h); [done| |exact HQ].
    rewrite <-(Hy Hne). destruct Hst1. split; try done.
    eapply contexts_set; [exact st_contexts| | |done|done]; [|done]. intros q' -> Hq'. by destruct Hq'.
Qed.
End receive.
