(* ===== verification/TagMem.v ===== *)
(** * ucp_tag_hello_world: memory between the calls

    The rules for allocation, access and release while no operation is under way,
    in terms of the state [at_rest]; and the two messages of the program. *)

From S2P Require Import Prelude CRuntime CLib Ucx HelloUtil TagApi TagSock TagHello TagOwn TagOutside.
From S2P Require Import TagRun TagReceive.
Open Scope Z_scope.

(** ** Messages *)

(** What the client sends: the length of its address, and the address. *)
Definition address_message (addr : list Z) : list Z :=
  le_bytes 8 (Z.of_nat (length addr)) ++ addr.

(** What the server makes of a message: the address in it. *)
Definition parse_address (bs : list Z) : option (list Z) :=
  let n := le_val (take 8 bs) in
  if (8 <=? length bs)%nat && (0 <=? n) && (8 + n <=? Z.of_nat (length bs))
  then Some (take (Z.to_nat n) (drop 8 bs)) else None.

(** What the server sends: the length of the string, and the string with its NUL. *)
Definition hello_string : list Z := (λ i, test_char (Z.of_nat i)) <$> seq 0 15.
Definition hello_message : list Z :=
  le_bytes 8 test_string_length ++ hello_string ++ [0].

(** What the client makes of a message: the string in it. *)
Definition parse_text (bs : list Z) : option (list mbyte) :=
  if (24 <=? length bs)%nat then scan 17 (take 16 (drop 8 (Some <$> bs))) else None.

Lemma parse_address_message addr :
  Z.of_nat (length addr) < 2 ^ 64 → parse_address (address_message addr) = Some addr.
Proof.
  intros Hl. unfold parse_address, address_message.
  rewrite take_app_length', drop_app_length' by by rewrite le_bytes_length.
  rewrite length_app, le_bytes_length, le_val_bytes. change (256 ^ Z.of_nat 8) with (2 ^ 64).
  rewrite Z.mod_small by lia. rewrite (proj2 (Nat.leb_le _ _)) by lia.
  rewrite !(proj2 (Z.leb_le _ _)) by lia. simpl. by rewrite Nat2Z.id, firstn_all.
Qed.

Lemma parse_hello_message : parse_text hello_message = Some (Some <$> hello_string).
Proof. vm_compute. reflexivity. Qed.

Section rest.
Context `{!Ucs, !Ucp, !Cuda} (L : tag_lib).
Implicit Types (w : tag_world) (h : tag_heap) (a : addresses) (E : halt → tag_world → Prop).

(** CUDA calls succeed. *)
Definition cuda_works : Prop := ∀ hh op, l_ret L hh (Tag_cuda op) = cudaSuccess.

(** ** State changes *)

Lemma at_rest_heap h h' a rep w :
  at_rest h a rep w → (∀ b, heap w !! b = None → h' !! b = None) →
  at_rest h' a rep (set_heap h' w).
Proof. intros [] Hh. split; try done. intros b Hb. simpl. apply Hh. by apply st_wf. Qed.

Lemma at_rest_insert h a rep b o o' w :
  at_rest h a rep w → h !! b = Some o →
  at_rest (<[b := o']> h) a rep (set_heap (<[b := o']> (heap w)) w).
Proof.
  intros Hr Hb. rewrite (st_heap _ _ _ _ _ _ Hr). eapply at_rest_heap; [exact Hr|].
  intros b'. rewrite (st_heap _ _ _ _ _ _ Hr). intros Hn.
  rewrite lookup_insert_ne; [done|]. intros <-. by eapply option_clash.
Qed.

Lemma at_rest_delete h a rep b w :
  at_rest h a rep w → at_rest (delete b h) a rep (set_heap (delete b (heap w)) w).
Proof.
  intros Hr. rewrite (st_heap _ _ _ _ _ _ Hr). eapply at_rest_heap; [exact Hr|].
  intros b'. rewrite (st_heap _ _ _ _ _ _ Hr). intros Hn. rewrite lookup_delete_None. by right.
Qed.

Lemma state_noise ops busy h a rep e w :
  noise e → state ops busy h a rep w → state ops busy h a rep (push e w).
Proof.
  intros He Hr. destruct (agrees_noise e (trace w) He) as [A1 A2 A3 A4].
  eapply state_same; [exact Hr|done|done|done|exact A4|exact A1|exact A3|].
  eapply contexts_same; [apply Hr|done|exact A2].
Qed.

Lemma at_rest_noise h a rep e w :
  noise e → at_rest h a rep w → at_rest h a rep (push e w).
Proof. apply state_noise. Qed.

Lemma at_rest_lookup h a rep w b : at_rest h a rep w → heap w !! b = h !! b.
Proof. intros Hr. by rewrite (st_heap _ _ _ _ _ _ Hr). Qed.

(** A new object, and the history does not speak of it. *)
Lemma alloc_rest E h a rep o (Q : ptr → tag_world → Prop) w :
  at_rest h a rep w →
  (∀ b w', h !! b = None → at_rest (<[b := o]> h) a rep w' →
     (∀ d, stored b d (trace w') = d) → Q (Loc b 0) w') →
  wp E (alloc o) Q w.
Proof.
  intros Hr HQ. apply wp_alloc; [|apply Hr]. intros b -> _ Hb.
  apply HQ.
  - by rewrite <-(st_heap _ _ _ _ _ _ Hr).
  - destruct Hr. split; try done.
    + intros b' Hb'. simpl in *. rewrite lookup_insert_ne by lia. apply st_wf. lia.
    + intros b' d Hb'. simpl in *. apply st_unstored. lia.
    + simpl. by rewrite st_heap.
  - intros d. simpl. apply (st_unstored _ _ _ _ _ _ Hr). lia.
Qed.

Lemma malloc_obj_rest E h a rep n o (Q : ptr → tag_world → Prop) w :
  at_rest h a rep w →
  (∀ w', at_rest h a rep w' → Q Null w') →
  (∀ b w', h !! b = None → at_rest (<[b := o]> h) a rep w' →
     (∀ d, stored b d (trace w') = d) → Q (Loc b 0) w') →
  wp E (malloc_obj L n o) Q w.
Proof.
  intros Hr HN HQ. unfold malloc_obj. apply wp_bind, wp_ask_alloc.
  destruct (l_alloc L (trace w) n).
  - eapply alloc_rest; [|exact HQ]. by apply at_rest_noise.
  - apply wp_ret, HN. by apply at_rest_noise.
Qed.

Lemma cuda_run_rest E h a rep s op m (Q : unit → tag_world → Prop) w :
  cuda_works → at_rest h a rep w →
  (∀ w', at_rest h a rep w' → wp E m Q w') → wp E (cuda_run L s op m) Q w.
Proof.
  intros Hc Hr HQ. unfold cuda_run. apply wp_bind. unfold CUDA_FUNC. apply wp_bind, wp_ext0.
  cbn [cuda_call tag_hello cuda_res]. rewrite Hc, Z.eqb_refl. apply wp_bind, wp_ret, wp_ret.
  rewrite Z.eqb_refl. apply HQ. by apply at_rest_noise.
Qed.

Lemma malloc_managed_rest E h a rep s n old (Q : ptr → tag_world → Prop) w :
  cuda_works → at_rest h a rep w →
  (∀ b w', h !! b = None → at_rest (<[b := Bytes KManaged (blank n)]> h) a rep w' →
     (∀ d, stored b d (trace w') = d) → Q (Loc b 0) w') →
  wp E (malloc_managed L s n old) Q w.
Proof.
  intros Hc Hr HQ. unfold malloc_managed, cuda_malloc. apply wp_bind. unfold CUDA_FUNC.
  apply wp_bind, wp_ext0. cbn [cuda_call tag_hello cuda_res]. rewrite Hc, Z.eqb_refl.
  apply wp_bind, wp_ret, wp_ret. rewrite Z.eqb_refl. eapply alloc_rest; [|exact HQ].
  by apply at_rest_noise.
Qed.

Lemma write_rest E acc h a rep b off k d d' bs (Q : unit → tag_world → Prop) w :
  at_rest h a rep w → h !! b = Some (Bytes k d) → acc k = true → splice off bs d = Some d' →
  (∀ w', at_rest (<[b := Bytes k d']> h) a rep w' → Q tt w') →
  wp E (write_mem acc (Loc b off) bs) Q w.
Proof.
  intros Hr Hb Hk Hs HQ. eapply wp_write_mem; [|exact Hk|exact Hs|].
  - by rewrite (at_rest_lookup _ _ _ _ _ Hr).
  - apply HQ. by eapply at_rest_insert.
Qed.

Lemma read_rest E acc h a rep b off n k d r (Q : list mbyte → tag_world → Prop) w :
  at_rest h a rep w → h !! b = Some (Bytes k d) → acc k = true → slice off n d = Some r →
  Q r w → wp E (read_mem acc (Loc b off) n) Q w.
Proof.
  intros Hr Hb Hk Hs HQ. eapply wp_read_mem; [|exact Hk|exact Hs|exact HQ].
  by rewrite (at_rest_lookup _ _ _ _ _ Hr).
Qed.

(** A read that does not fit. *)
Lemma read_rest_outside acc h a rep b off n k d (Q : list mbyte → tag_world → Prop) w :
  at_rest h a rep w → h !! b = Some (Bytes k d) → acc k = true → slice off n d = None →
  wp (λ hlt _, hlt = UB "read out of bounds") (read_mem acc (Loc b off) n) Q w.
Proof.
  intros Hr Hb Hk Hs. unfold read_mem. apply wp_bind. eapply wp_lookup_obj.
  - by rewrite (at_rest_lookup _ _ _ _ _ Hr).
  - cbv beta iota. by rewrite Hk, Hs.
Qed.

Lemma free_rest E h a rep b o (Q : unit → tag_world → Prop) w :
  at_rest h a rep w → h !! b = Some o → obj_kind o = KHost →
  (∀ w', at_rest (delete b h) a rep w' → Q tt w') → wp E (free (Loc b 0)) Q w.
Proof.
  intros Hr Hb Hk HQ. eapply wp_free; [|exact Hk|].
  - by rewrite (at_rest_lookup _ _ _ _ _ Hr).
  - apply HQ. by apply at_rest_delete.
Qed.

Lemma local_rest {X} E h a rep o (body : ptr → TM X) (Q : X → tag_world → Prop) w :
  at_rest h a rep w →
  (∀ b w', h !! b = None → at_rest (<[b := o]> h) a rep w' →
     wp E (body (Loc b 0)) (λ r w', Q r (set_heap (delete b (heap w')) w')) w') →
  wp E (local o body) Q w.
Proof.
  intros Hr Hb. apply wp_bind. eapply alloc_rest; [exact Hr|]. intros b w' Hn Hr' _.
  apply wp_bind. eapply wp_conseq; [by apply Hb|]. intros r w'' HQ.
  by apply wp_bind, wp_modify.
Qed.

Lemma glb_rest {X} E (f : tag_glob → X) (Q : X → tag_world → Prop) w :
  Q (f (glob w)) w → wp E (glb f) Q w.
Proof. intros. by apply wp_bind, wp_get_glob, wp_ret. Qed.

Lemma set_glb_rest E h a a' rep f (Q : unit → tag_world → Prop) w :
  at_rest h a rep w → addresses_of (f (glob w)) = a' →
  g_requests (f (glob w)) = g_requests (glob w) →
  (∀ w', at_rest h a' rep w' → Q tt w') → wp E (set_glb f) Q w.
Proof.
  intros [] Ha Hg HQ. apply wp_mod_glob, HQ. split; try done.
  by eapply contexts_same.
Qed.

Lemma printf_rest E h a rep s f l (Q : unit → tag_world → Prop) w :
  noise (EOut (A := tag_api) s f l) → at_rest h a rep w →
  (∀ w', at_rest h a rep w' → Q tt w') → wp E (fprintf s f l) Q w.
Proof. intros Hn Hr HQ. apply wp_fprintf, HQ. by apply at_rest_noise. Qed.

Lemma chkerr_rest E h a rep msg (Q : unit → tag_world → Prop) w :
  at_rest h a rep w → (∀ w', at_rest h a rep w' → Q tt w') → wp E (chkerr msg) Q w.
Proof. intros Hr HQ. by eapply printf_rest. Qed.
End rest.
