(* ===== verification/TagClient.v ===== *)
(** * ucp_tag_hello_world: the client

    What run_ucx_client does with a well-behaved outside: it sends its address as
    [address_message] and prints the string of the message it receives. *)

From S2P Require Import Prelude CRuntime CLib Ucx HelloUtil TagApi TagSock TagHello TagOwn TagOutside.
From S2P Require Import TagRun TagReceive TagMem.
Open Scope Z_scope.

(** ** Filling a buffer *)

Lemma splice_front {X} (p d : list X) :
  (length p ≤ length d)%nat → splice 0 p d = Some (p ++ drop (length p) d).
Proof. intros H. rewrite splice_some by lia. done. Qed.

(** A part of a buffer between two others. *)
Lemma slice_middle {X} (p s r : list X) off n :
  off = Z.of_nat (length p) → n = Z.of_nat (length s) → slice off n (p ++ s ++ r) = Some s.
Proof.
  intros -> ->. rewrite slice_some by (rewrite ?length_app; lia). rewrite !Nat2Z.id.
  by rewrite drop_app_length, take_app_length.
Qed.

Section client.
Context `{!Ucs, !Ucp, !Cuda} (L : tag_lib) (fuel : nat).
Context (Hp : polite_tag L) (ρ : history tag_api → nat) (Hre : responsive_tag L ρ).
Context (Hfuel : (ρ [] + 1 < fuel)%nat).
Implicit Types (w : tag_world) (h : tag_heap) (a : addresses) (E : halt → tag_world → Prop).

(** The variable of the function that the callback of a send marks. *)
Definition ctx_cell (c : option Z) : obj tag_cell := Cell KStack (CCtx c).

Lemma set_ctx_rest E h a rep cb c v (Q : unit → tag_world → Prop) w :
  at_rest h a rep w → h !! cb = Some (ctx_cell c) →
  (∀ w', at_rest (<[cb := ctx_cell (Some v)]> h) a rep w' → Q tt w') →
  wp E (set_completed (InMemory (Loc cb 0)) v) Q w.
Proof.
  intros Hr Hc HQ. cbn [set_completed]. eapply wp_update_cell; [|done|].
  - rewrite (at_rest_lookup _ _ _ _ _ Hr). exact Hc.
  - apply HQ. by eapply at_rest_insert.
Qed.

(** Other objects do not change what the variable is. *)
Lemma ctx_insert_ne h cb b o : h !! cb = Some o → h !! b = None → cb ≠ b.
Proof. intros Hc Hb ->. by eapply option_clash. Qed.

(** The buffer holds the message. *)
Lemma fill_address_ok E h a rep b addr (Q : unit → tag_world → Prop) w :
  at_rest (<[b := Bytes KHost (blank (8 + Z.of_nat (length addr)))]> h) a rep w →
  (∀ w', at_rest (<[b := Bytes KHost (Some <$> address_message addr)]> h) a rep w' → Q tt w') →
  wp E (fill_address (Loc b 0) (8 + Z.of_nat (length addr)) addr (Z.of_nat (length addr))) Q w.
Proof.
  intros Hr HQ. set (len := length addr) in *.
  assert (Z.to_nat (8 + Z.of_nat len) = (8 + len)%nat) as Hn by lia.
  apply wp_bind. eapply (write_rest _ by_cpu); [exact Hr|apply lookup_insert_eq|done|..].
  { apply splice_all. unfold blank. by rewrite !length_replicate. }
  intros w1 Hr1. rewrite insert_insert_eq in Hr1.
  rewrite Hn in Hr1.
  apply wp_bind. eapply (write_rest _ by_cpu); [exact Hr1|apply lookup_insert_eq|done|..].
  { apply splice_front. rewrite length_fmap, le_bytes_length, length_replicate. lia. }
  intros w2 Hr2. rewrite insert_insert_eq, length_fmap, le_bytes_length, drop_replicate in Hr2.
  eapply (write_rest _ by_cpu); [exact Hr2|apply lookup_insert_eq|done|..].
  { apply splice_tail; [by rewrite length_fmap, le_bytes_length|].
    rewrite length_fmap, length_replicate. lia. }
  intros w3 Hr3. rewrite insert_insert_eq in Hr3. apply HQ. unfold address_message.
  by rewrite fmap_app.
Qed.

Lemma send_address_ok E h a rep wk ep cb c (Q : ptr + Z → tag_world → Prop) w :
  at_rest h a rep w → h !! cb = Some (ctx_cell c) →
  Z.of_nat (length (a_local a)) < 2 ^ 62 →
  (∀ c' rep' w', at_rest (<[cb := ctx_cell c']> h) a rep' w' → Q (inr (-1)) w') →
  (∀ b c' w', at_rest (<[cb := ctx_cell c']> h) a
       (Sent (Some <$> address_message (a_local a)) None :: rep) w' → Q (inl (Loc b 0)) w') →
  wp E (send_address L fuel wk ep (Loc cb 0)) Q w.
Proof using Hp Hre Hfuel.
  intros Hr Hc Hlen HE HQ. unfold send_address.
  pose proof (st_addresses _ _ _ _ _ _ Hr) as Ha.
  assert (g_local_addr (glob w) = a_local a) as Hla by by rewrite <-Ha.
  apply wp_bind, glb_rest, wp_bind, glb_rest. unfold g_local_addr_len. rewrite Hla.
  unfold sizeof_msg. rewrite u64_small by lia. cbv zeta.
  assert (<[cb := ctx_cell c]> h = h) as Hsame by by apply insert_id.
  apply wp_bind. unfold malloc. eapply malloc_obj_rest; [exact Hr|..].
  { intros w1 Hr1. rewrite bool_decide_eq_true_2 by done. apply wp_bind.
    eapply chkerr_rest; [exact Hr1|]. intros w2 Hr2. apply wp_ret, (HE c rep). by rewrite Hsame. }
  intros b w1 Hn Hr1 _. rewrite bool_decide_eq_false_2 by done.
  pose proof (ctx_insert_ne _ _ _ _ Hc Hn) as Hne.
  apply wp_bind. eapply fill_address_ok; [exact Hr1|]. intros w2 Hr2.
  set (msg := Some <$> address_message (a_local a)) in *.
  apply wp_bind. eapply set_ctx_rest; [exact Hr2|by rewrite lookup_insert_ne|]. intros w3 Hr3.
  rewrite insert_insert_ne in Hr3 by done.
  set (h1 := <[cb := ctx_cell (Some 0)]> h) in *.
  assert (length msg = (8 + length (a_local a))%nat) as Hml.
  { unfold msg, address_message. rewrite length_fmap, length_app, le_bytes_length. lia. }
  apply wp_bind. eapply (read_rest _ by_lib); [exact Hr3|by apply lookup_insert_eq|done| |].
  { apply slice_all. rewrite Hml. lia. }
  (* what is left when the buffer is freed *)
  assert (∀ y w', at_rest (<[cb := ctx_cell (Some y)]> (<[b := Bytes KHost msg]> h1)) a
            (Sent msg None :: rep) w' →
          wp E (free (Loc b 0)) (λ _, at_rest (<[cb := ctx_cell (Some y)]> h) a (Sent msg None :: rep)) w')
    as Hfree.
  { intros y w' Hr'. eapply free_rest; [exact Hr'|by rewrite lookup_insert_ne, lookup_insert_eq|done|].
    intros w4 Hr4. unfold h1 in Hr4.
    rewrite delete_insert_ne, delete_insert_id, insert_insert_eq in Hr4; [done|..|done].
    by rewrite lookup_insert_ne. }
  assert (<[cb := ctx_cell (Some 0)]> (<[b := Bytes KHost msg]> h1) = <[b := Bytes KHost msg]> h1) as Hid.
  { apply insert_id. unfold h1. rewrite lookup_insert_ne by done. apply lookup_insert_eq. }
  apply wp_bind. eapply send_call_ok; [exact Hp|exact Hr3|done| |..].
  { unfold h1. rewrite lookup_insert_ne by done. apply lookup_insert_eq. }
  - intros q w4 Hq Hr4. rewrite <-Hid in Hr4. cbn [send_param tp_memory_type] in Hr4.
    destruct (UCS_PTR_IS_ERR q).
    + apply wp_bind. eapply printf_rest; [done|exact Hr4|]. intros w5 Hr5.
      apply wp_bind. eapply wp_conseq; [by apply Hfree|]. intros [] w6 Hr6. by eapply wp_ret, HE.
    + rewrite Hq. apply wp_bind, wp_ret, wp_bind. eapply wp_conseq; [by apply Hfree|].
      intros [] w6 Hr6. by eapply wp_ret, HQ.
  - intros q w4 Hq Hs. cbn [send_param tp_memory_type] in Hs.
    rewrite (ucs_ptr_not_err q Hq), Hq. apply wp_bind. cbn [when]. eapply wait_sent_ok; [done..|exact Hs|].
    intros y w5 Hr5. apply wp_bind. eapply wp_conseq; [by apply Hfree|].
    intros [] w6 Hr6. by eapply wp_ret, HQ.
Qed.

(** ** The string *)

(** UCX accepts every receive. *)
Definition accepts : Prop := ∀ wk b n dt m cb q,
  answer_of L (ucp_tag_msg_recv_nb wk b n dt m cb) q → UCS_PTR_IS_ERR q = false.

(** At least [h] is left of the memory. *)
Definition at_rest_above h a w : Prop := ∃ h' rep', h ⊆ h' ∧ at_rest h' a rep' w.

Lemma above_refl h a rep w : at_rest h a rep w → at_rest_above h a w.
Proof. intros Hr. by exists h, rep. Qed.

(** str is printed up to its NUL. *)
Lemma print_received_ok E h a rep b d s (Q : unit → tag_world → Prop) w :
  at_rest h a rep w → h !! b = Some (Bytes KHost d) → scan (S (length d)) d = Some s →
  (∀ w', at_rest h a (Printed s :: rep) w' → Q tt w') →
  wp E (print_received (Loc b 0)) Q w.
Proof.
  intros Hr Hb Hs HQ. unfold print_received, printf. apply wp_bind.
  eapply printf_rest; [done|exact Hr|]. intros w1 Hr1. apply wp_bind.
  eapply (wp_read_string _ None); [rewrite (at_rest_lookup _ _ _ _ _ Hr1); exact Hb|done|exact Hs|].
  apply wp_bind, wp_fprintf. eapply printf_rest; [done| |exact HQ].
  destruct Hr1. split; try done. cbn [trace push]. rewrite report_cons. simpl. by subst rep.
Qed.

(** The bytes of a message that str receives. *)
Lemma text_bytes bs s :
  parse_text bs = Some s →
  slice 8 16 (Some <$> bs) = Some (take 16 (drop 8 (Some <$> bs))) ∧
  length (take 16 (drop 8 (Some <$> bs))) = 16%nat ∧
  scan 17 (take 16 (drop 8 (Some <$> bs))) = Some s.
Proof.
  unfold parse_text. destruct (Nat.leb_spec 24 (length bs)); [|done]. intros Hs. split_and!; [|..|done].
  - apply slice_some; [done|done|]. rewrite length_fmap. lia.
  - rewrite length_take, length_drop, length_fmap. lia.
Qed.

Lemma receive_string_ok E content h a rep wk msg s (Q : Z → tag_world → Prop) w :
  delivers_tag L content → cuda_works L → accepts → (∀ m, parse_text (content m) = Some s) →
  at_rest h a rep w →
  (∀ w', at_rest h a (Printed s :: rep) w' → Q 0 w') →
  (∀ w', at_rest_above h a w' → Q (-1) w') →
  wp E (receive_string L fuel wk msg) Q w.
Proof using Hp Hre Hfuel.
  intros Hd Hcu Hac Htext Hr HQ HE. unfold receive_string. apply wp_bind.
  eapply probe_client_ok; [done|exact Hre|exact Hfuel|exact Hd|exact Hr|]. intros m w1 Hm Hr1.
  destruct (text_bytes _ _ (Htext m)) as (Hsl & Htl & Hscan).
  apply wp_bind. eapply malloc_managed_rest; [exact Hcu|exact Hr1|]. intros b w2 Hn Hr2 Hst.
  rewrite bool_decide_eq_false_2 by done. apply wp_bind.
  eapply recv_call_ok; [exact Hp|exact Hd|exact Hr2|apply Hst|done|..].
  { intros q d w3 Hq He _. by rewrite (Hac _ _ _ _ _ _ _ Hq) in He. }
  intros q x w3 _ Hq Hrv Hx.
  rewrite (ucs_ptr_not_err q Hq), Hq. cbn [negb]. apply wp_bind.
  eapply wait_received_ok; [exact Hp|exact Hre|exact Hfuel|exact Hd|done|exact Hrv|exact Hx|].
  set (bs := Some <$> content m) in *. intros w4 Hr4. apply wp_bind. unfold printf.
  eapply printf_rest; [done|exact Hr4|]. intros w5 Hr5. apply wp_bind. unfold calloc.
  eapply malloc_obj_rest; [exact Hr5|..].
  { intros w6 Hr6. rewrite bool_decide_eq_true_2 by done. apply wp_bind. unfold eprintf.
    eapply printf_rest; [done|exact Hr6|]. intros w7 Hr7. apply wp_ret, HE.
    eexists _, _. split; [|exact Hr7]. by apply insert_subseteq. }
  intros sb w6 Hsn Hr6 _. rewrite bool_decide_eq_false_2 by done.
  assert (b ≠ sb) as Hne by (intros ->; by rewrite lookup_insert_eq in Hsn).
  apply wp_bind. eapply cuda_run_rest; [exact Hcu|exact Hr6|]. intros w7 Hr7.
  unfold cuda_copy. apply wp_bind.
  eapply (read_rest _ by_lib); [exact Hr7|rewrite lookup_insert_ne by done; apply lookup_insert_eq
    |done|exact Hsl|].
  eapply (write_rest _ by_lib); [exact Hr7|apply lookup_insert_eq|done|..].
  { apply splice_all. rewrite Htl. done. }
  intros w8 Hr8. rewrite insert_insert_eq in Hr8. apply wp_bind.
  eapply print_received_ok; [exact Hr8|apply lookup_insert_eq|by rewrite Htl|]. intros w9 Hr9.
  apply wp_bind. eapply free_rest; [exact Hr9|apply lookup_insert_eq|done|]. intros w10 Hr10.
  rewrite delete_insert_id in Hr10 by done. apply wp_bind.
  eapply cuda_run_rest; [exact Hcu|exact Hr10|]. intros w11 Hr11. unfold cuda_release. apply wp_bind.
  eapply wp_lookup_obj.
  { rewrite (at_rest_lookup _ _ _ _ _ Hr11). apply lookup_insert_eq. }
  cbn [obj_kind]. apply wp_modify, wp_ret, HQ.
  rewrite <-(delete_insert_id h b (Bytes KManaged bs)) by done. by apply at_rest_delete.
Qed.

(** ** run_ucx_client *)

(** The endpoint for the address in peer_addr. *)
Lemma ep_create_ok {X} E h a rep mask cs pb peer wk (k : Z * Z → TM X) (Q : X → tag_world → Prop) w :
  at_rest h a rep w → h !! pb = Some (Bytes KHost peer) →
  a_peer a = Loc pb 0 → a_peer_len a = Z.of_nat (length peer) →
  (∀ st ep w', st ≠ UCS_OK → at_rest h a rep w' → wp E (k (st, ep)) Q w') →
  (∀ ep w', at_rest h a (Connected peer :: rep) w' → wp E (k (UCS_OK, ep)) Q w') →
  wp E (params ← ep_params mask cs; r ← call L (ucp_ep_create wk params); k r) Q w.
Proof using Hp.
  intros Hr Hb Hpa Hpl HE HQ. unfold ep_params. apply wp_bind.
  pose proof (st_addresses _ _ _ _ _ _ Hr) as Ha.
  apply wp_bind, glb_rest, wp_bind, glb_rest.
  assert (g_peer_addr (glob w) = Loc pb 0 ∧ g_peer_addr_len (glob w) = Z.of_nat (length peer))
    as [-> ->] by by rewrite <-Hpa, <-Hpl, <-Ha.
  apply wp_bind. eapply (read_rest _ by_lib); [exact Hr|exact Hb|done|by apply slice_all|].
  apply wp_ret, wp_bind.
  eapply (rest_call L E h a rep (ucp_ep_create wk _)); [done|done|done|exact Hr|].
  intros [st ep] hh w' _ _ _ Hr'. unfold reported_call in Hr'. simpl in Hr'.
  destruct (Z.eqb_spec st UCS_OK) as [->|Hne]; [by apply HQ|by apply HE].
Qed.

Lemma ep_destroy_ok E h a rep ep (Q : unit → tag_world → Prop) w :
  at_rest h a rep w → (∀ w', at_rest h a rep w' → Q tt w') →
  wp E (call L (ucp_ep_destroy ep)) Q w.
Proof using Hp.
  intros Hr HQ. eapply (rest_call L E h a rep (ucp_ep_destroy ep)); [done..|exact Hr|].
  intros [] hh w' _ _ _. apply HQ.
Qed.

(** The variable goes. *)
Lemma drop_ctx h a rep cb c w :
  h !! cb = None → at_rest (<[cb := ctx_cell c]> h) a rep w →
  at_rest h a rep (set_heap (delete cb (heap w)) w).
Proof.
  intros Hn Hr. rewrite <-(delete_insert_id h cb (ctx_cell c)) by done. by apply at_rest_delete.
Qed.

Lemma drop_ctx_above h a cb c w :
  h !! cb = None → at_rest_above (<[cb := ctx_cell c]> h) a w →
  at_rest_above h a (set_heap (delete cb (heap w)) w).
Proof.
  intros Hn (h' & rep & Hs & Hr). exists (delete cb h'), rep. split; [|by apply at_rest_delete].
  rewrite <-(delete_insert_id h cb (ctx_cell c)) by done. by apply delete_mono.
Qed.

Lemma run_ucx_client_ok E content h a rep wk pb peer s (Q : Z → tag_world → Prop) w :
  delivers_tag L content → cuda_works L → accepts → (∀ m, parse_text (content m) = Some s) →
  at_rest h a rep w → h !! pb = Some (Bytes KHost peer) →
  a_peer a = Loc pb 0 → a_peer_len a = Z.of_nat (length peer) →
  Z.of_nat (length (a_local a)) < 2 ^ 62 →
  (∀ w', at_rest h a (Printed s :: Sent (Some <$> address_message (a_local a)) None
                      :: Connected peer :: rep) w' → Q 0 w') →
  (∀ w', at_rest_above h a w' → Q (-1) w') →
  wp E (run_ucx_client L fuel wk) Q w.
Proof using Hp Hre Hfuel.
  intros Hd Hcu Hac Htext Hr Hpb Hpa Hpl Hlen HQ HE. eapply local_rest; [exact Hr|].
  intros cb w1 Hn Hr1. pose proof (ctx_insert_ne _ _ _ _ Hpb Hn) as Hne.
  eapply ep_create_ok; [exact Hr1|by rewrite lookup_insert_ne|exact Hpa|exact Hpl|..].
  { intros st ep w2 Hst Hr2. rewrite (proj2 (Z.eqb_neq _ _) Hst). cbn [negb].
    apply wp_bind. eapply chkerr_rest; [exact Hr2|]. intros w3 Hr3. apply wp_ret, HE.
    eapply above_refl, drop_ctx; [done|exact Hr3]. }
  intros ep w2 Hr2. rewrite Z.eqb_refl. cbn [negb]. unfold client_work.
  apply wp_bind, wp_bind.
  eapply send_address_ok; [exact Hr2|apply lookup_insert_eq|exact Hlen|..];
    rewrite ?insert_insert_eq.
  { intros c rep' w3 Hr3. apply wp_ret, wp_bind. rewrite insert_insert_eq in Hr3.
    eapply ep_destroy_ok; [exact Hr3|].
    intros w4 Hr4. apply wp_ret, HE. eapply above_refl, drop_ctx; [done|exact Hr4]. }
  intros b c w3 Hr3. rewrite insert_insert_eq in Hr3.
  eapply receive_string_ok; [exact Hd|exact Hcu|exact Hac|exact Htext|exact Hr3|..].
  - intros w4 Hr4. apply wp_bind. eapply ep_destroy_ok; [exact Hr4|]. intros w5 Hr5.
    apply wp_ret, HQ. by eapply drop_ctx.
  - intros w4 (h' & rep' & Hs & Hr4). apply wp_bind. eapply ep_destroy_ok; [exact Hr4|].
    intros w5 Hr5. eapply wp_ret, HE, drop_ctx_above; [done|]. by exists h', rep'.
Qed.
End client.
