(* ===== verification/TagServer.v ===== *)
(** * ucp_tag_hello_world: the server

    What run_ucx_server does with a well-behaved outside: it connects to the address
    in the message it receives and sends [hello_message]. *)

From S2P Require Import Prelude CRuntime CLib Ucx HelloUtil TagApi TagSock TagHello TagOwn TagOutside.
From S2P Require Import TagRun TagReceive TagMem TagClient.
Open Scope Z_scope.

(** A message whose data_len fits. *)
Lemma parse_address_bytes bs addr :
  parse_address bs = Some addr →
  ∃ n, n = le_val (take 8 bs) ∧ Z.of_nat (length addr) = n ∧
    slice 0 8 (Some <$> bs : list mbyte) = Some (Some <$> take 8 bs) ∧
    slice 8 n (Some <$> bs : list mbyte) = Some (Some <$> addr).
Proof.
  unfold parse_address. intros Hp. eexists. split; [done|].
  destruct (Nat.leb_spec 8 (length bs)); [|done].
  destruct (Z.leb_spec 0 (le_val (take 8 bs))); [|done].
  destruct (Z.leb_spec (8 + le_val (take 8 bs)) (Z.of_nat (length bs))); [|done].
  simpl in Hp. simplify_eq. split_and!.
  - rewrite length_take, length_drop. lia.
  - rewrite slice_some by (rewrite ?length_fmap; lia). rewrite fmap_take. done.
  - rewrite slice_some by (rewrite ?length_fmap; lia). by rewrite fmap_take, fmap_drop.
Qed.

Lemma all_written (bs : list Z) : mapM id (Some <$> bs : list mbyte) = Some bs.
Proof. apply mapM_Some_2. induction bs; by constructor. Qed.

Section server.
Context `{!Ucs, !Ucp, !Cuda} (L : tag_lib) (fuel : nat).
Context (Hp : polite_tag L) (ρ : history tag_api → nat) (Hre : responsive_tag L ρ).
Context (Hfuel : (ρ [] + 1 < fuel)%nat).
Implicit Types (w : tag_world) (h : tag_heap) (a : addresses) (E : halt → tag_world → Prop).

(** peer_addr may be freed. *)
Definition peer_live h a : Prop :=
  a_peer a = Null ∨ ∃ b d, a_peer a = Loc b 0 ∧ h !! b = Some (Bytes KHost d).

(** An attempt that failed. *)
Definition given_up w : Prop := ∃ h a rep, at_rest h a rep w ∧ peer_live h a.

Lemma peer_live_insert h a b o : h !! b = None → peer_live h a → peer_live (<[b := o]> h) a.
Proof.
  intros Hn [?|(pb & d & ? & Hpb)]; [by left|]. right. exists pb, d. split; [done|].
  rewrite lookup_insert_ne; [done|]. intros ->. by eapply option_clash.
Qed.

(** The static variables with another peer_addr. *)
Definition with_peer (p : ptr) (n : Z) a : addresses :=
  Addresses (a_local a) (a_local_handle a) p n.

Lemma set_peer_len_rest E h a rep n (Q : unit → tag_world → Prop) w :
  at_rest h a rep w → (∀ w', at_rest h (with_peer (a_peer a) n a) rep w' → Q tt w') →
  wp E (set_glb (with_peer_addr_len n)) Q w.
Proof.
  intros Hr HQ. eapply set_glb_rest; [exact Hr| |done|exact HQ].
  by rewrite <-(st_addresses _ _ _ _ _ _ Hr).
Qed.

Lemma set_peer_rest E h a rep p (Q : unit → tag_world → Prop) w :
  at_rest h a rep w → (∀ w', at_rest h (with_peer p (a_peer_len a) a) rep w' → Q tt w') →
  wp E (set_glb (with_peer_addr p)) Q w.
Proof.
  intros Hr HQ. eapply set_glb_rest; [exact Hr| |done|exact HQ].
  by rewrite <-(st_addresses _ _ _ _ _ _ Hr).
Qed.

Lemma memcpy_rest E h a rep bd kd d d' bs ks s off n r (Q : unit → tag_world → Prop) w :
  at_rest h a rep w → h !! bs = Some (Bytes ks s) → by_cpu ks = true → slice off n s = Some r →
  h !! bd = Some (Bytes kd d) → by_cpu kd = true → splice 0 r d = Some d' →
  (∀ w', at_rest (<[bd := Bytes kd d']> h) a rep w' → Q tt w') →
  wp E (memcpy (Loc bd 0) (Loc bs off) n) Q w.
Proof.
  intros Hr Hs Hks Hsl Hd Hkd Hsp HQ. apply wp_bind.
  eapply (read_rest _ by_cpu); [exact Hr|exact Hs|exact Hks|exact Hsl|].
  eapply (write_rest _ by_cpu); [exact Hr|exact Hd|exact Hkd|exact Hsp|exact HQ].
Qed.

(** Up to the message in its buffer. *)
Lemma receive_address_start E content h a rep wk (Q : ptr + Z → tag_world → Prop) w :
  delivers_tag L content → accepts L → at_rest h a rep w →
  (∀ w', at_rest h a rep w' → Q (inr (-1)) w') →
  (∀ m b w', at_rest (<[b := Bytes KHost (Some <$> content m)]> h) a rep w' → h !! b = None →
     wp E (keep_address L (Loc b 0)) Q w') →
  wp E (receive_address L fuel wk) Q w.
Proof using Hp Hre Hfuel.
  intros Hd Hac Hr HE HQ. unfold receive_address. apply wp_bind.
  eapply probe_server_ok; [done|exact Hre|exact Hfuel|exact Hd|exact Hr|]. intros m w1 Hm Hr1.
  apply wp_bind. unfold malloc. eapply malloc_obj_rest; [exact Hr1|..].
  { intros w2 Hr2. rewrite bool_decide_eq_true_2 by done. apply wp_bind.
    eapply chkerr_rest; [exact Hr2|]. intros w3 Hr3. by apply wp_ret, HE. }
  intros b w2 Hb Hr2 Hst. rewrite bool_decide_eq_false_2 by done. apply wp_bind.
  eapply recv_call_ok; [exact Hp|exact Hd|exact Hr2|apply Hst|done|..].
  { intros q d w3 Hq He _. by rewrite (Hac _ _ _ _ _ _ _ Hq) in He. }
  intros q x w3 _ Hq Hrv Hx. rewrite (ucs_ptr_not_err q Hq), Hq. cbn [negb]. apply wp_bind.
  eapply wait_received_ok; [exact Hp|exact Hre|exact Hfuel|exact Hd|done|exact Hrv|exact Hx|].
  intros w4 Hr4. apply wp_bind. unfold printf. eapply printf_rest; [done|exact Hr4|].
  intros w5 Hr5. by eapply HQ.
Qed.

(** peer_addr is allocated, for the data_len of the message. *)
Lemma keep_address_start E bs h a rep b (Q : ptr + Z → tag_world → Prop) w :
  at_rest (<[b := Bytes KHost (Some <$> bs)]> h) a rep w → h !! b = None →
  a_peer a = Null → (8 ≤ length bs)%nat →
  (∀ w', at_rest h (with_peer Null (le_val (take 8 bs)) a) rep w' → Q (inr (-1)) w') →
  (∀ pb w', let n := le_val (take 8 bs) in b ≠ pb → h !! pb = None →
     at_rest (<[pb := Bytes KHost (blank n)]> (<[b := Bytes KHost (Some <$> bs)]> h))
       (with_peer (Loc pb 0) n a) rep w' →
     wp E (memcpy (Loc pb 0) (Loc b 8) n;; free (Loc b 0);; mret (inl (Loc b 0))) Q w') →
  wp E (keep_address L (Loc b 0)) Q w.
Proof.
  clear Hp ρ Hre Hfuel.
  intros Hr Hb Hnull H8 HE HQ. unfold keep_address. apply wp_bind. unfold read_data_len.
  set (n := le_val (take 8 bs)) in *. apply wp_bind.
  eapply (read_rest _ by_cpu); [exact Hr|apply lookup_insert_eq|done| |].
  { apply slice_some; [done|done|]. rewrite length_fmap. unfold sizeof_msg. lia. }
  change (Z.to_nat sizeof_msg) with 8%nat. change (drop (Z.to_nat 0) ?l) with l.
  rewrite <-fmap_take.
  apply wp_bind, (wp_the _ _ _ (take 8 bs)); [apply all_written|]. apply wp_ret. fold n.
  apply wp_bind. eapply set_peer_len_rest; [exact Hr|].
  intros w1 Hr1. rewrite Hnull in Hr1. apply wp_bind. eapply malloc_obj_rest; [exact Hr1|..].
  { intros w2 Hr2. apply wp_bind. eapply set_peer_rest; [exact Hr2|]. intros w3 Hr3.
    rewrite bool_decide_eq_true_2 by done. apply wp_bind. unfold eprintf.
    eapply printf_rest; [done|exact Hr3|]. intros w4 Hr4. apply wp_bind.
    eapply free_rest; [exact Hr4|apply lookup_insert_eq|reflexivity|]. intros w5 Hr5.
    rewrite delete_insert_id in Hr5 by done. by eapply wp_ret, HE. }
  intros pb w2 Hpb Hr2 _. apply wp_bind. eapply set_peer_rest; [exact Hr2|]. intros w3 Hr3.
  rewrite bool_decide_eq_false_2 by done.
  assert (b ≠ pb) as Hne by (intros ->; by rewrite lookup_insert_eq in Hpb).
  rewrite lookup_insert_ne in Hpb by done. by eapply HQ.
Qed.

Lemma receive_address_ok E content h a rep wk addr (Q : ptr + Z → tag_world → Prop) w :
  delivers_tag L content → accepts L → (∀ m, parse_address (content m) = Some addr) →
  at_rest h a rep w → a_peer a = Null →
  (∀ b pb w', h !! pb = None → at_rest (<[pb := Bytes KHost (Some <$> addr)]> h)
       (with_peer (Loc pb 0) (Z.of_nat (length addr)) a) rep w' → Q (inl (Loc b 0)) w') →
  (∀ n w', at_rest h (with_peer Null n a) rep w' → Q (inr (-1)) w') →
  wp E (receive_address L fuel wk) Q w.
Proof using Hp Hre Hfuel.
  intros Hd Hac Haddr Hr Hnull HQ HE.
  assert (with_peer Null (a_peer_len a) a = a) as Hsame by by destruct a; simpl in *; subst.
  eapply receive_address_start; [exact Hd|exact Hac|exact Hr|..].
  { intros w1 Hr1. apply (HE (a_peer_len a)). by rewrite Hsame. }
  intros m b w1 Hr1 Hb.
  destruct (parse_address_bytes _ _ (Haddr m)) as (n & Hn & Hlen & Hsl8 & Hsl).
  eapply keep_address_start; [exact Hr1|exact Hb|exact Hnull| |by eauto|].
  { apply slice_inv in Hsl8. rewrite length_fmap in Hsl8. lia. }
  intros pb w2 n' Hne Hpb Hr2. unfold n' in *. rewrite <-Hn in *.
  apply wp_bind. eapply memcpy_rest; [exact Hr2|by rewrite lookup_insert_ne, lookup_insert_eq|done
    |exact Hsl|apply lookup_insert_eq|done|..].
  { apply splice_all. unfold blank. rewrite length_fmap, length_replicate. lia. }
  intros w9 Hr9. apply wp_bind. rewrite insert_insert_eq in Hr9.
  eapply free_rest; [exact Hr9|by rewrite lookup_insert_ne, lookup_insert_eq|done|].
  intros w10 Hr10. rewrite delete_insert_ne, delete_insert_id in Hr10 by done.
  apply wp_ret, (HQ b pb); [done|]. rewrite Hlen. exact Hr10.
Qed.

(** ** The string *)

(** A buffer of zeros in which [k] characters are written. *)
Definition chars_written (n k : nat) : list mbyte := test_chars k ++ replicate (n - k) (Some 0).

Lemma chars_written_length n k : (k ≤ n)%nat → length (chars_written n k) = n.
Proof. intros. unfold chars_written. rewrite length_app, test_chars_length, length_replicate. lia. Qed.

Lemma put_char_rest E h a rep b n k (Q : unit → tag_world → Prop) w :
  at_rest (<[b := Bytes KHost (chars_written n k)]> h) a rep w → (k < n)%nat → Z.of_nat k < 2 ^ 31 - 1 →
  (∀ w', at_rest (<[b := Bytes KHost (chars_written n (S k))]> h) a rep w' → Q tt w') →
  wp E (put_char (Loc b 0) k) Q w.
Proof.
  intros Hr Hk Hi HQ. unfold put_char. apply wp_bind.
  eapply (write_rest _ by_cpu); [exact Hr|apply lookup_insert_eq|done|by apply splice_char|].
  intros w1 Hr1. rewrite insert_insert_eq in Hr1. rewrite (proj2 (Z.eqb_neq _ _)) by lia.
  by apply wp_ret, HQ.
Qed.

(** The string of the size in msg, behind data_len. *)
Lemma hello_generate_ok E h a rep b pre s (Q : Z → tag_world → Prop) w :
  cuda_works L → at_rest (<[b := Bytes KManaged (pre ++ s)]> h) a rep w → h !! b = None →
  Z.of_nat (length s) < 2 ^ 31 → (1 ≤ length s)%nat →
  (∀ w', at_rest (<[b := Bytes KManaged (pre ++ s)]> h) a rep w' → Q (-1) w') →
  (∀ w', at_rest (<[b := Bytes KManaged
              (pre ++ chars_written (length s) (length s - 1))]> h) a rep w' → Q 0 w') →
  wp E (hello_generate_test_string L (Loc b (Z.of_nat (length pre))) (Z.of_nat (length s))) Q w.
Proof.
  intros Hcu Hr Hb Hs Hone HE HQ. unfold hello_generate_test_string. set (n := length s) in *.
  rewrite u64_small by lia. apply wp_bind. unfold calloc. eapply malloc_obj_rest; [exact Hr|..].
  { intros w1 Hr1. rewrite bool_decide_eq_true_2 by done. apply wp_bind.
    eapply chkerr_rest; [exact Hr1|]. intros w2 Hr2. by apply wp_ret, HE. }
  intros tb w1 Htb Hr1 _. rewrite bool_decide_eq_false_2 by done.
  assert (b ≠ tb) as Hne by (intros ->; by rewrite lookup_insert_eq in Htb).
  rewrite Nat2Z.id in Hr1. set (h1 := <[b := Bytes KManaged (pre ++ s)]> h) in *.
  apply wp_bind, wp_c_int; [lia|].
  replace (Z.to_nat (Z.of_nat n - 1)) with (n - 1)%nat by lia.
  apply wp_bind, wp_for_up with
    (I := λ k w', at_rest (<[tb := Bytes KHost (chars_written n k)]> h1) a rep w').
  { unfold chars_written. simpl. by rewrite Nat.sub_0_r. }
  { intros k w2 Hk Hr2. eapply put_char_rest; [exact Hr2|lia|lia|done]. }
  intros w2 Hr2. rewrite Nat.add_0_l in Hr2. pose proof (chars_written_length n (n - 1)) as Hl.
  apply wp_bind. eapply cuda_run_rest; [exact Hcu|exact Hr2|]. intros w3 Hr3. unfold cuda_copy.
  apply wp_bind. eapply (read_rest _ by_lib); [exact Hr3|apply lookup_insert_eq|done| |].
  { apply slice_all. rewrite Hl by lia. done. }
  eapply (write_rest _ by_lib); [exact Hr3|unfold h1; by rewrite lookup_insert_ne, lookup_insert_eq|done|..].
  { apply splice_tail; [done|]. rewrite Hl by lia. done. }
  intros w4 Hr4. apply wp_bind.
  eapply free_rest; [exact Hr4|by rewrite lookup_insert_ne, lookup_insert_eq|done|].
  intros w5 Hr5. apply wp_ret, HQ. unfold h1 in *.
  rewrite delete_insert_ne in Hr5 by done. rewrite delete_insert_id in Hr5 by exact Htb.
  by rewrite insert_insert_eq in Hr5.
Qed.

Lemma set_msg_data_len_ok E h a rep b d d' n (Q : unit → tag_world → Prop) w :
  cuda_works L → at_rest (<[b := Bytes KManaged d]> h) a rep w → h !! b = None →
  splice 0 (Some <$> le_bytes 8 n) d = Some d' →
  (∀ w', at_rest (<[b := Bytes KManaged d']> h) a rep w' → Q tt w') →
  wp E (set_msg_data_len L (Loc b 0) n) Q w.
Proof.
  intros Hcu Hr Hb Hs HQ. eapply local_rest; [exact Hr|]. intros v w1 Hv Hr1.
  assert (b ≠ v) as Hne by (intros ->; by rewrite lookup_insert_eq in Hv).
  eapply cuda_run_rest; [exact Hcu|exact Hr1|]. intros w2 Hr2. unfold cuda_copy. apply wp_bind.
  eapply (read_rest _ by_lib); [exact Hr2|apply lookup_insert_eq|done| |].
  { apply slice_all. by rewrite length_fmap, le_bytes_length. }
  eapply (write_rest _ by_lib); [exact Hr2|by rewrite lookup_insert_ne, lookup_insert_eq|done|exact Hs|].
  intros w3 Hr3. apply HQ.
  assert (delete v (<[b := Bytes KManaged d']> (<[v := Bytes KStack (Some <$> le_bytes 8 n)]>
    (<[b := Bytes KManaged d]> h))) = <[b := Bytes KManaged d']> h) as <-.
  { rewrite delete_insert_ne, delete_insert_id, insert_insert_eq by done. done. }
  by apply at_rest_delete.
Qed.

(** The end of send_string: msg goes. *)
Lemma release_managed_ok E h a rep b d r (Q : Z → tag_world → Prop) w :
  cuda_works L → at_rest (<[b := Bytes KManaged d]> h) a rep w → h !! b = None →
  (∀ w', at_rest h a rep w' → Q r w') →
  wp E (e ← call0 L (Tag_cuda (cudaFree (Loc b 0)));
        when ((e : Z) =? cudaSuccess) (cuda_release (Loc b 0));; mret r) Q w.
Proof.
  intros Hcu Hr Hb HQ. apply wp_bind, (wp_ext0 L E (Tag_cuda _)). rewrite Hcu, Z.eqb_refl.
  cbn [when]. apply (at_rest_noise _ _ _ (ECall (A := tag_api) (Tag_cuda (cudaFree (Loc b 0))) cudaSuccess))
    in Hr; [|done].
  apply wp_bind. unfold cuda_release. apply wp_bind. eapply wp_lookup_obj.
  { rewrite (at_rest_lookup _ _ _ _ _ Hr). apply lookup_insert_eq. }
  cbn [obj_kind]. apply wp_modify, wp_ret, HQ.
  rewrite <-(delete_insert_id h b (Bytes KManaged d)) by done. by apply at_rest_delete.
Qed.

(** The parts of msg. *)
Definition length_bytes : list mbyte := Some <$> le_bytes 8 test_string_length.
Definition zeros : list mbyte := replicate 16 (Some 0).

(** The message that is ready to be sent. *)
Lemma hello_message_bytes :
  length_bytes ++ chars_written 16 15
    = (Some <$> hello_message : list mbyte).
Proof. reflexivity. Qed.

Lemma send_string_ok E h a rep wk ep cb c msg (Q : Z → tag_world → Prop) w :
  cuda_works L → at_rest h a rep w → h !! cb = Some (ctx_cell c) →
  (∀ c' rep' w', at_rest (<[cb := ctx_cell c']> h) a rep' w' → Q (-1) w') →
  (∀ c' w', at_rest (<[cb := ctx_cell c']> h) a
       (Sent (Some <$> hello_message) (Some UCS_MEMORY_TYPE_CUDA) :: rep) w' → Q 0 w') →
  wp E (send_string L fuel wk ep (Loc cb 0) msg) Q w.
Proof using Hp Hre Hfuel.
  intros Hcu Hr Hc HE HQ. unfold send_string.
  change (u64 (sizeof_msg + test_string_length)) with 24. cbv zeta.
  change (u64 (24 - sizeof_msg)) with test_string_length.
  change (s32 test_string_length) with 16.
  assert (<[cb := ctx_cell c]> h = h) as Hsame by by apply insert_id.
  apply wp_bind. eapply malloc_managed_rest; [exact Hcu|exact Hr|]. intros b w1 Hb Hr1 _.
  rewrite bool_decide_eq_false_2 by done. pose proof (ctx_insert_ne _ _ _ _ Hc Hb) as Hne.
  apply wp_bind. eapply cuda_run_rest; [exact Hcu|exact Hr1|]. intros w2 Hr2.
  eapply (write_rest _ by_lib); [exact Hr2|apply lookup_insert_eq|done|by apply splice_all|].
  intros w3 Hr3. rewrite insert_insert_eq in Hr3. apply wp_bind.
  eapply (set_msg_data_len_ok _ h a rep b _ (length_bytes ++ zeros));
    [exact Hcu|exact Hr3|done|reflexivity|].
  intros w4 Hr4. apply wp_bind.
  change (ptr_add (Loc b 0) sizeof_msg) with (Loc b (Z.of_nat (length length_bytes))).
  change 16 with (Z.of_nat (length zeros)).
  eapply hello_generate_ok; [exact Hcu|exact Hr4|exact Hb|done|simpl; lia|..].
  { intros w5 Hr5. rewrite (proj2 (Z.ltb_lt _ _)) by lia. apply wp_bind, wp_bind.
    eapply chkerr_rest; [exact Hr5|]. intros w6 Hr6. apply wp_ret.
    eapply release_managed_ok; [exact Hcu|exact Hr6|done|]. intros w7 Hr7. apply (HE c rep).
    by rewrite Hsame. }
  change (length zeros) with 16%nat. change (16 - 1)%nat with 15%nat.
  rewrite hello_message_bytes. set (d := Some <$> hello_message).
  intros w5 Hr5. change (0 <? 0) with false. cbv iota. apply wp_bind, wp_bind.
  eapply set_ctx_rest; [exact Hr5|by rewrite lookup_insert_ne|].
  intros w6 Hr6. rewrite insert_insert_ne in Hr6 by done.
  assert (∀ c', <[cb := ctx_cell c']> h !! b = None) as Hbn by (intros; by rewrite lookup_insert_ne).
  apply wp_bind. eapply (read_rest _ by_lib); [exact Hr6|apply lookup_insert_eq|done| |].
  { by apply slice_all. }
  (* from flush_ep on *)
  assert (∀ c' w', at_rest (<[b := Bytes KManaged d]> (<[cb := ctx_cell c']> h)) a
            (Sent d (Some UCS_MEMORY_TYPE_CUDA) :: rep) w' →
          wp E (status ← flush_ep L fuel wk ep;
                printf "flush_ep completed with status %d (%s)\n" [AZ status; AZ status];; mret 0)
            (λ r, wp E (e ← call0 L (Tag_cuda (cudaFree (Loc b 0)));
                        when ((e : Z) =? cudaSuccess) (cuda_release (Loc b 0));; mret r) Q) w')
    as Hflush.
  { intros c' w' Hr'. apply wp_bind. eapply flush_ep_ok; [done|exact Hre|exact Hfuel|exact Hr'|].
    intros st w7 Hr7. apply wp_bind. unfold printf. eapply printf_rest; [done|exact Hr7|].
    intros w8 Hr8. apply wp_ret. eapply release_managed_ok; [exact Hcu|exact Hr8|done|].
    intros w9 Hr9. by eapply HQ. }
  apply wp_bind. eapply send_call_ok; [exact Hp|exact Hr6|done| |..].
  { rewrite lookup_insert_ne by done. apply lookup_insert_eq. }
  - intros q w7 Hq Hr7. cbn [send_param tp_memory_type] in Hr7. destruct (UCS_PTR_IS_ERR q).
    + apply wp_bind. unfold eprintf. eapply printf_rest; [done|exact Hr7|]. intros w8 Hr8.
      apply wp_ret. eapply release_managed_ok; [exact Hcu|exact Hr8|done|].
      intros w9 Hr9. by eapply HE.
    + rewrite Hq. apply wp_bind, wp_ret. by eapply Hflush.
  - intros q w7 Hq Hs. cbn [send_param tp_memory_type] in Hs.
    rewrite (ucs_ptr_not_err q Hq), Hq. cbn [when]. apply wp_bind, wp_bind. unfold printf.
    apply wp_fprintf.
    eapply wait_sent_ok; [done|exact Hre|exact Hfuel|by apply state_noise|].
    intros y w8 Hr8. rewrite insert_insert_ne, insert_insert_eq in Hr8 by done. by eapply Hflush.
Qed.

(** ** run_ucx_server *)

Lemma given_up_drop h a rep cb c w :
  h !! cb = None → peer_live h a → at_rest (<[cb := ctx_cell c]> h) a rep w →
  given_up (set_heap (delete cb (heap w)) w).
Proof. intros Hn Hl Hr. exists h, a, rep. split; [by eapply drop_ctx|done]. Qed.

Lemma run_ucx_server_ok E content h a rep wk addr (Q : Z → tag_world → Prop) w :
  delivers_tag L content → cuda_works L → accepts L →
  (∀ m, parse_address (content m) = Some addr) →
  at_rest h a rep w → a_peer a = Null →
  (∀ pb w', h !! pb = None → at_rest (<[pb := Bytes KHost (Some <$> addr)]> h)
       (with_peer (Loc pb 0) (Z.of_nat (length addr)) a)
       (Sent (Some <$> hello_message) (Some UCS_MEMORY_TYPE_CUDA)
          :: Connected (Some <$> addr) :: rep) w' → Q 0 w') →
  (∀ w', given_up w' → Q (-1) w') →
  wp E (run_ucx_server L fuel wk) Q w.
Proof using Hp Hre Hfuel.
  intros Hd Hcu Hac Haddr Hr Hnull HQ HE. eapply local_rest; [exact Hr|].
  intros cb w1 Hn Hr1. apply wp_bind.
  eapply receive_address_ok; [exact Hd|exact Hac|exact Haddr|exact Hr1|exact Hnull|..].
  2:{ intros n w2 Hr2. apply wp_ret, HE.
      eapply (given_up_drop h (with_peer Null n a)); [done|by left|exact Hr2]. }
  intros b pb w2 Hpb Hr2.
  assert (cb ≠ pb) as Hne by (intros ->; by rewrite lookup_insert_eq in Hpb).
  rewrite lookup_insert_ne in Hpb by done. rewrite insert_insert_ne in Hr2 by done.
  set (h2 := <[pb := Bytes KHost (Some <$> addr)]> h) in *.
  set (a2 := with_peer (Loc pb 0) (Z.of_nat (length addr)) a) in *.
  assert (h2 !! cb = None) as Hn2 by by unfold h2; rewrite lookup_insert_ne.
  assert (peer_live h2 a2) as Hlive.
  { right. exists pb, (Some <$> addr). split; [done|]. apply lookup_insert_eq. }
  eapply (ep_create_ok L Hp); [exact Hr2|unfold h2; by rewrite lookup_insert_ne, lookup_insert_eq
    |done|by rewrite length_fmap|..].
  { intros st ep w3 Hst Hr3. rewrite (proj2 (Z.eqb_neq _ _) Hst). cbn [negb].
    apply wp_bind. eapply chkerr_rest; [exact Hr3|]. intros w4 Hr4. apply wp_ret, HE.
    by eapply given_up_drop. }
  intros ep w3 Hr3. rewrite Z.eqb_refl. cbn [negb]. apply wp_bind.
  eapply send_string_ok; [exact Hcu|exact Hr3|apply lookup_insert_eq|..].
  - intros c rep' w4 Hr4. rewrite insert_insert_eq in Hr4. apply wp_bind.
    eapply (ep_destroy_ok L Hp); [exact Hr4|]. intros w5 Hr5. apply wp_ret, HE.
    by eapply given_up_drop.
  - intros c w4 Hr4. rewrite insert_insert_eq in Hr4. apply wp_bind.
    eapply (ep_destroy_ok L Hp); [exact Hr4|]. intros w5 Hr5. apply wp_ret, (HQ pb); [done|].
    by eapply drop_ctx.
Qed.
End server.
