(* ===== verification/TagMain.v ===== *)
(** * ucp_tag_hello_world: main

    What the program does from main on, with a well-behaved outside ([outside]): the
    exchange of the server's address on the socket, the work of the client or of the
    server, the barrier, and the release of everything. *)

From S2P Require Import Prelude CRuntime CLib Ucx HelloUtil TagApi TagSock TagHello TagOwn TagOutside.
From S2P Require Import TagRun TagReceive TagMem TagClient TagServer.
Open Scope Z_scope.

(** ** The outside *)

(** What was received on the socket. *)
Definition received_so_far (rep : list obs) : list Z :=
  concat (omap (λ o, match o with OobReceived bs => Some bs | _ => None end) (reverse rep)).

(** A connected stream socket: a call is not answered 0 unless 0 bytes are asked for,
    and receives see the successive bytes of [stream]. *)
Record connected_socket `{!Ucs} (L : tag_lib) (stream : list Z) : Prop := {
  cs_send hh fd bs : let n := l_ret L hh (send fd bs) in
    -1 ≤ n ≤ Z.of_nat (length bs) ∧ (n = 0 → bs = []);
  cs_recv hh fd len : 0 ≤ len → let r := l_ret L hh (recv_waitall fd len) in
    -1 ≤ r.1 ≤ len ∧ (r.1 = 0 → len = 0) ∧
    length r.2 = Z.to_nat r.1 ∧
    r.2 = take (Z.to_nat r.1) (drop (length (received_so_far (report hh))) stream);
}.

(** gethostbyname finds IPv4 addresses. *)
Definition resolves (L : tag_lib) : Prop := ∀ hh name,
  match l_ret L hh (gethostbyname name) with
  | Some (HostEnt _ n (Some l)) => n = 4 ∧ ∃ addr l', l = addr :: l' ∧ length addr = 4%nat
  | _ => True
  end.

(** The worker's address. *)
Definition local_address `{!Ucs} (L : tag_lib) (local : list Z) : Prop :=
  Z.of_nat (length local) < 2 ^ 31 ∧
  ∀ hh wk, let r := l_ret L hh (ucp_worker_get_address wk) in r.1 = UCS_OK → r.2.2 = local.

(** [content]: the messages that arrive; [stream]: the bytes on the socket; [local]:
    the address of the worker. *)
Record outside `{!Ucs, !Cuda} (L : tag_lib) (content : Z → list Z) (stream local : list Z)
    (ρ : history tag_api → nat) : Prop := {
  o_polite : polite_tag L;
  o_delivers : delivers_tag L content;
  o_responsive : responsive_tag L ρ;
  o_accepts : accepts L;
  o_cuda : cuda_works L;
  o_socket : connected_socket L stream;
  o_resolves : resolves L;
  o_local : local_address L local;
}.

(** ** Sockets *)

(** One call without callbacks, by [rest_call0]. *)
Ltac call0_rest Hr :=
  match goal with
  | |- wp ?E (call0 ?L ?c) _ _ => eapply (rest_call0 L E _ _ _ c); [done|exact Hr|]
  end.

Section main.
Context `{!Ucs, !Ucp, !Cuda} (L : tag_lib).
Context (content : Z → list Z) (stream local : list Z) (ρ : history tag_api → nat).
Context (Ho : outside L content stream local ρ).
Implicit Types (w : tag_world) (h : tag_heap) (a : addresses) (E : halt → tag_world → Prop).

(** A failed step of the two connect functions. *)
Lemma sock_error_ok E h a rep msg fd (Q : Z → tag_world → Prop) w :
  at_rest h a rep w → (∀ w', at_rest h a rep w' → Q (-1) w') →
  wp E (chkerr msg;; call0 L (close fd);; mret (-1)) Q w.
Proof.
  intros Hr HQ. apply wp_bind. eapply chkerr_rest; [exact Hr|]. intros w1 Hr1. apply wp_bind.
  call0_rest Hr1. intros r w2 _ _ Hr2. by apply wp_ret, HQ.
Qed.

Lemma server_connect_ok E h a rep port (Q : Z → tag_world → Prop) w :
  at_rest h a rep w → (∀ fd w', at_rest h a rep w' → Q fd w') →
  wp E (server_connect L port) Q w.
Proof.
  intros Hr HQ. unfold server_connect. apply wp_bind.
  call0_rest Hr. intros lsock w1 _ _ Hr1. destruct (lsock <? 0).
  { apply wp_bind. eapply chkerr_rest; [exact Hr1|]. intros w2 Hr2. by apply wp_ret, HQ. }
  assert (∀ msg w', at_rest h a rep w' →
    wp E (chkerr msg;; call0 L (close lsock);; mret (-1)) Q w') as Herr.
  { intros msg w' Hr'. eapply sock_error_ok; [exact Hr'|]. intros. by apply HQ. }
  apply wp_bind. call0_rest Hr1. intros r w2 _ _ Hr2. destruct (r <? 0); [by apply Herr|].
  apply wp_bind. call0_rest Hr2. intros r' w3 _ _ Hr3. destruct (r' <? 0); [by apply Herr|].
  apply wp_bind. call0_rest Hr3. intros r2 w4 _ _ Hr4. destruct (r2 <? 0); [by apply Herr|].
  apply wp_bind. unfold printf. eapply printf_rest; [done|exact Hr4|]. intros w5 Hr5.
  apply wp_bind. call0_rest Hr5. intros dsock w6 _ _ Hr6. destruct (dsock <? 0); [by apply Herr|].
  apply wp_bind. call0_rest Hr6. intros r3 w7 _ _ Hr7. by apply wp_ret, HQ.
Qed.

Lemma client_connect_ok E h a rep name port (Q : Z → tag_world → Prop) w :
  at_rest h a rep w → (∀ fd w', at_rest h a rep w' → Q fd w') →
  wp E (client_connect L name port) Q w.
Proof using Ho.
  intros Hr HQ. unfold client_connect. apply wp_bind.
  call0_rest Hr. intros fd w1 _ _ Hr1. destruct (fd <? 0).
  { apply wp_bind. eapply chkerr_rest; [exact Hr1|]. intros w2 Hr2. by apply wp_ret, HQ. }
  assert (∀ msg w', at_rest h a rep w' →
    wp E (chkerr msg;; call0 L (close fd);; mret (-1)) Q w') as Herr.
  { intros msg w' Hr'. eapply sock_error_ok; [exact Hr'|]. intros. by apply HQ. }
  apply wp_bind. call0_rest Hr1. intros found w2 Hf _ Hr2.
  pose proof (o_resolves _ _ _ _ _ Ho (trace w1) name) as Hres. rewrite Hf in Hres.
  destruct found as [[ty n [l|]]|]; [|by apply Herr..].
  destruct Hres as (-> & addr & l' & -> & Hlen). apply wp_bind. unfold copy_address. cbn [h_addr_list h_length].
  apply wp_bind, (wp_the _ _ _ (addr :: l')); [done|].
  apply wp_bind, (wp_the _ _ _ addr); [done|].
  apply wp_bind, (wp_the _ _ _ addr); [apply slice_all; by rewrite Hlen|].
  apply (wp_the _ _ _ (Some <$> addr)).
  { apply splice_all. by rewrite length_fmap, Hlen. }
  apply wp_bind. call0_rest Hr2. intros r w3 _ _ Hr3. destruct (r <? 0); [by apply Herr|].
  by apply wp_ret, HQ.
Qed.

(** What is told after receiving [bs]. *)
Lemma received_app rep bs :
  received_so_far (OobReceived bs :: rep) = received_so_far rep ++ bs.
Proof.
  unfold received_so_far. rewrite reverse_cons, omap_app, concat_app. simpl. by rewrite app_nil_r.
Qed.

Lemma s32_count n m : -1 ≤ n ≤ m → m < 2 ^ 31 → s32 n = n.
Proof. intros. apply sgn_small; lia. Qed.

(** recv with MSG_WAITALL: everything, or too little. *)
Lemma recv_ok E h a rep fd s pre post (Q : Z * list Z → tag_world → Prop) w :
  at_rest h a rep w → stream = received_so_far rep ++ s ++ post → pre = Z.of_nat (length s) →
  (∀ n bs w', -1 ≤ n < pre → n ≠ 0 → length bs = Z.to_nat n →
     at_rest h a (OobReceived bs :: rep) w' → Q (n, bs) w') →
  (∀ w', at_rest h a (OobReceived s :: rep) w' → Q (pre, s) w') →
  wp E (call0 L (recv_waitall fd pre)) Q w.
Proof using Ho.
  intros Hr Hs -> HE HQ. call0_rest Hr. intros [n bs] w1 Hret _ Hr1.
  pose proof (cs_recv L stream (o_socket _ _ _ _ _ Ho) (trace w) fd (Z.of_nat (length s))) as Hc.
  rewrite Hret in Hc. simpl in Hc.
  destruct (Hc ltac:(lia)) as (Hn & Hz & Hl & Hbs).
  change (reported_call _ _ rep) with (OobReceived bs :: rep) in Hr1.
  destruct (decide (n = Z.of_nat (length s))) as [->|Hne].
  - rewrite Nat2Z.id, (st_report _ _ _ _ _ _ Hr), Hs, drop_app_length, take_app_length in Hbs. subst bs.
    by apply HQ.
  - apply HE; [lia| |done|exact Hr1]. intros ->. lia.
Qed.

Lemma send_ok E h a rep fd bs (Q : Z → tag_world → Prop) w :
  at_rest h a rep w →
  (∀ n w', -1 ≤ n < Z.of_nat (length bs) → n ≠ 0 → at_rest h a (OobSent bs :: rep) w' → Q n w') →
  (∀ w', at_rest h a (OobSent bs :: rep) w' → Q (Z.of_nat (length bs)) w') →
  wp E (call0 L (send fd bs)) Q w.
Proof using Ho.
  intros Hr HE HQ. call0_rest Hr. intros n w1 Hret _ Hr1.
  pose proof (cs_send L stream (o_socket _ _ _ _ _ Ho) (trace w) fd bs) as Hc.
  rewrite Hret in Hc. simpl in Hc. destruct Hc as (Hn & Hz).
  change (reported_call _ _ rep) with (OobSent bs :: rep) in Hr1.
  destruct (decide (n = Z.of_nat (length bs))) as [->|Hne]; [by apply HQ|].
  apply HE; [lia| |exact Hr1]. intros ->. rewrite (Hz eq_refl) in Hne. done.
Qed.

(** ** The exchange of the address *)

Lemma oob_client_ok E h a rep name peer post (Q : Z + Z * label → tag_world → Prop) w :
  at_rest h a rep w → a_peer a = Null → received_so_far rep = [] →
  stream = le_bytes 8 (Z.of_nat (length peer)) ++ peer ++ post → Z.of_nat (length peer) < 2 ^ 31 →
  (∀ r l h' a' rep' w', r ≠ 0 → at_rest h' a' rep' w' → peer_live h' a' →
     (l = err_addr → a_peer a' = Null) → Q (inr (r, l)) w') →
  (∀ fd pb w', h !! pb = None → at_rest (<[pb := Bytes KHost (Some <$> peer)]> h)
      (with_peer (Loc pb 0) (Z.of_nat (length peer)) a)
      (OobReceived peer :: OobReceived (le_bytes 8 (Z.of_nat (length peer))) :: rep) w' →
    Q (inl fd) w') →
  wp E (oob_client L name) Q w.
Proof using Ho.
  intros Hr Hnull Hnone Hs Hlen HE HQ. unfold oob_client. apply wp_bind, glb_rest.
  set (len := Z.of_nat (length peer)) in *. apply wp_bind. eapply set_peer_len_rest; [exact Hr|].
  intros w1 Hr1. rewrite Hnull in Hr1. apply wp_bind. eapply client_connect_ok; [exact Hr1|].
  intros fd w2 Hr2. destruct (fd <? 0).
  { apply wp_bind. eapply chkerr_rest; [exact Hr2|]. intros w3 Hr3.
    eapply wp_ret, HE; [done|exact Hr3|by left|done]. }
  apply wp_bind.
  eapply (recv_ok _ _ _ _ _ (le_bytes 8 len)); [exact Hr2|by rewrite Hnone|by rewrite le_bytes_length|..].
  { intros n bs w3 Hn Hne Hl Hr3. unfold received_uint64. apply wp_bind, wp_bind.
    eapply wp_the; [apply splice_some; [done|rewrite le_bytes_length; lia]|]. apply wp_ret.
    rewrite (s32_count n 8), (proj2 (Z.eqb_neq n 8)) by lia. cbn [negb]. apply wp_bind.
    unfold chkerr_retval, eprintf. eapply printf_rest; [done|exact Hr3|]. intros w4 Hr4.
    eapply wp_ret, HE; [done|exact Hr4|by left|done]. }
  intros w3 Hr3. unfold received_uint64. apply wp_bind, wp_bind.
  eapply wp_the; [apply splice_all; by rewrite !le_bytes_length|]. apply wp_ret.
  rewrite le_val_bytes. change (256 ^ Z.of_nat 8) with (2 ^ 64). rewrite Z.mod_small by lia.
  change (negb (s32 8 =? 8)) with false. cbv iota. apply wp_bind.
  eapply set_peer_len_rest; [exact Hr3|]. intros w4 Hr4. apply wp_bind. unfold malloc.
  eapply malloc_obj_rest; [exact Hr4|..].
  { intros w5 Hr5. apply wp_bind. eapply set_peer_rest; [exact Hr5|]. intros w6 Hr6.
    rewrite bool_decide_eq_true_2 by done. apply wp_bind. eapply chkerr_rest; [exact Hr6|].
    intros w7 Hr7. eapply wp_ret, HE; [done|exact Hr7|by left|done]. }
  intros pb w5 Hpb Hr5 _. apply wp_bind. eapply set_peer_rest; [exact Hr5|]. intros w6 Hr6.
  rewrite bool_decide_eq_false_2 by done. apply wp_bind.
  eapply (recv_ok _ _ _ _ _ peer); [exact Hr6|by rewrite received_app, Hnone, app_nil_l|done|..].
  { intros n bs w7 Hn Hne Hl Hr7. apply wp_bind.
    eapply (write_rest _ by_cpu); [exact Hr7|apply lookup_insert_eq|done|..].
    { apply splice_some; [done|]. rewrite length_fmap, length_replicate. lia. }
    intros w8 Hr8. rewrite (s32_count n len), (s32_count len len), (proj2 (Z.eqb_neq n len)) by lia.
    cbn [negb]. apply wp_bind. unfold chkerr_retval, eprintf.
    eapply printf_rest; [done|exact Hr8|]. intros w9 Hr9.
    eapply wp_ret, HE; [done|exact Hr9| |done]. right. eexists _, _. split; [done|].
    apply lookup_insert_eq. }
  intros w7 Hr7. apply wp_bind.
  eapply (write_rest _ by_cpu); [exact Hr7|apply lookup_insert_eq|done|..].
  { apply splice_all. rewrite length_fmap, length_replicate. unfold len. by rewrite Nat2Z.id. }
  intros w8 Hr8. rewrite insert_insert_eq in Hr8. rewrite Z.eqb_refl. cbn [negb].
  by eapply wp_ret, HQ.
Qed.

Lemma oob_server_ok E h a rep (Q : Z + Z * label → tag_world → Prop) w :
  at_rest h a rep w → a_local a = local →
  (∀ r rep' w', r ≠ 0 → at_rest h a rep' w' → Q (inr (r, err_peer_addr)) w') →
  (∀ fd w', at_rest h a (OobSent (Some <$> local)
      :: OobSent (Some <$> le_bytes 8 (Z.of_nat (length local))) :: rep) w' → Q (inl fd) w') →
  wp E (oob_server L) Q w.
Proof using Ho.
  intros Hr Hloc HE HQ. unfold oob_server. apply wp_bind. eapply server_connect_ok; [exact Hr|].
  intros fd w1 Hr1. destruct (fd <? 0).
  { apply wp_bind. eapply chkerr_rest; [exact Hr1|]. intros w2 Hr2. by eapply wp_ret, HE. }
  assert (g_local_addr (glob w1) = local) as Hl1.
  { by rewrite <-Hloc, <-(st_addresses _ _ _ _ _ _ Hr1). }
  destruct (o_local _ _ _ _ _ Ho) as [Hlen _].
  apply wp_bind, glb_rest, wp_bind, glb_rest. unfold g_local_addr_len. rewrite Hl1.
  apply wp_bind. eapply send_ok; [exact Hr1|..]; rewrite length_fmap, le_bytes_length.
  { intros n w2 Hn Hne Hr2. rewrite (s32_count n 8), (proj2 (Z.eqb_neq n 8)) by lia. cbn [negb].
    apply wp_bind. unfold chkerr_retval, eprintf. eapply printf_rest; [done|exact Hr2|].
    intros w3 Hr3. by eapply wp_ret, HE. }
  intros w2 Hr2. change (negb (s32 (Z.of_nat 8) =? 8)) with false. cbv iota.
  apply wp_bind. eapply send_ok; [exact Hr2|..]; rewrite length_fmap.
  { intros n w3 Hn Hne Hr3.
    rewrite (s32_count n (Z.of_nat (length local))), (s32_count (Z.of_nat _) (Z.of_nat (length local))),
      (proj2 (Z.eqb_neq n _)) by lia. cbn [negb].
    apply wp_bind. unfold chkerr_retval, eprintf. eapply printf_rest; [done|exact Hr3|].
    intros w4 Hr4. by eapply wp_ret, HE. }
  intros w3 Hr3. rewrite Z.eqb_refl. by eapply wp_ret, HQ.
Qed.

(** ** From the exchange to the end *)

(** The run can go on, and if [r] is 0 then the memory is [h] and [rep] was told. *)
Definition answered (h : tag_heap) rep (r : Z) w : Prop :=
  ∃ h' a rep', at_rest h' a rep' w ∧ (r = 0 → h' = h ∧ rep' = rep).

Lemma answered_failed h rep r h' a rep' w : r ≠ 0 → at_rest h' a rep' w → answered h rep r w.
Proof. intros Hne Hr. by exists h', a, rep'. Qed.

Lemma received_other o rep :
  (∀ bs, o ≠ OobReceived bs) → received_so_far (o :: rep) = received_so_far rep.
Proof.
  intros Ho'. unfold received_so_far. rewrite reverse_cons, omap_app, concat_app.
  destruct o; simpl; rewrite ?app_nil_r; try done. by destruct (Ho' bs).
Qed.

Definition sync_bytes : list mbyte := Some <$> le_bytes 4 0.

Lemma hello_barrier_ok E h a rep fd sync post (Q : Z → tag_world → Prop) w :
  at_rest h a rep w → stream = received_so_far rep ++ sync ++ post → length sync = 4%nat →
  (∀ r rep' w', r ≠ 0 → at_rest h a rep' w' → Q r w') →
  (∀ w', at_rest h a (OobReceived sync :: OobSent sync_bytes :: rep) w' → Q 0 w') →
  wp E (hello_barrier L fd) Q w.
Proof using Ho.
  intros Hr Hs Hl HE HQ. unfold hello_barrier. fold sync_bytes. apply wp_bind.
  assert (∀ w', at_rest h a (OobSent sync_bytes :: rep) w' →
    wp E ('(res, dummy) ← call0 L (recv_waitall fd sizeof_int);
          mret (if res =? sizeof_int then 0 else 1)) Q w') as Hrecv.
  { intros w' Hr'. apply wp_bind.
    eapply (recv_ok _ _ _ _ _ sync); [exact Hr'|by rewrite received_other|by rewrite Hl|..].
    - intros n bs w1 Hn _ _ Hr1. unfold sizeof_int in *. rewrite (proj2 (Z.eqb_neq n 4)) by lia.
      by eapply wp_ret, HE.
    - intros w1 Hr1. by apply wp_ret, HQ. }
  eapply send_ok; [exact Hr|..].
  - intros n w1 Hn Hne Hr1. destruct (Z.ltb_spec n 0); [|by apply Hrecv].
    eapply wp_ret, HE; [|exact Hr1]. rewrite (s32_count n 8); [done|lia|done].
  - intros w1 Hr1. by apply Hrecv.
Qed.

(** err_peer_addr *)
Lemma free_peer_ok E h a rep (Q : unit → tag_world → Prop) w :
  at_rest h a rep w → peer_live h a →
  (∀ h' w', at_rest h' a rep w' →
     (∀ b h0 o, a_peer a = Loc b 0 → h = <[b := o]> h0 → h0 !! b = None → h' = h0) → Q tt w') →
  wp E (peer_addr ← glb g_peer_addr; free peer_addr) Q w.
Proof.
  intros Hr Hl HQ. apply wp_bind, glb_rest.
  assert (g_peer_addr (glob w) = a_peer a) as -> by by rewrite <-(st_addresses _ _ _ _ _ _ Hr).
  destruct Hl as [Hn|(b & d & Hb & Hd)].
  - rewrite Hn. apply wp_ret. eapply HQ; [exact Hr|]. by rewrite Hn.
  - rewrite Hb. eapply free_rest; [exact Hr|exact Hd|done|]. intros w' Hr'.
    eapply HQ; [exact Hr'|]. rewrite Hb. intros b' h0 o [= <-] -> Hn. by rewrite delete_insert_id.
Qed.

Context (fuel : nat) (Hfuel : (ρ [] + 1 < fuel)%nat).

(** The end of exchange_and_run. *)
Definition leave (rl : Z * label) : TM Z :=
  let '(ret, l) := rl in
  match l with
  | err_peer_addr => peer_addr ← glb g_peer_addr; free peer_addr
  | err_addr => mret tt
  end;;
  mret ret.

(** The part of exchange_and_run after the exchange, for a [run] that may fail. *)
Lemma run_and_leave_ok E h fd (run : TM Z) sync post (full : list obs)
    (Q : Z → tag_world → Prop) w :
  length sync = 4%nat →
  (∀ Q', (∀ b o a w', h !! b = None → a_peer a = Loc b 0 →
                at_rest (<[b := Bytes KHost o]> h) a full w' → Q' 0 w') →
         (∀ r w', r ≠ 0 → given_up w' → Q' r w') → wp E run Q' w) →
  stream = received_so_far full ++ sync ++ post →
  (∀ r w', answered h (OobReceived sync :: OobSent sync_bytes :: full) r w' → Q r w') →
  wp E (ret ← run;
        ret ← (if ret =? 0 then hello_barrier L fd else mret ret);
        call0 L (close fd);;
        mret (ret, err_peer_addr))
    (λ rl, wp E (leave rl) Q) w.
Proof using Ho.
  intros Hl Hrun Hs HQ.
  assert (∀ r h' a' rep' w', at_rest h' a' rep' w' → peer_live h' a' →
    (r = 0 → ∃ b o, a_peer a' = Loc b 0 ∧ h' = <[b := o]> h ∧ h !! b = None ∧
       rep' = OobReceived sync :: OobSent sync_bytes :: full) →
    wp E (call0 L (close fd);; mret (r, err_peer_addr))
      (λ rl, wp E (leave rl) Q) w') as Hleave.
  { intros r h' a' rep' w' Hr' Hlive H0'. apply wp_bind. call0_rest Hr'. intros x w1 _ _ Hr1.
    apply wp_ret, wp_bind. eapply free_peer_ok; [exact Hr1|exact Hlive|].
    intros h2 w2 Hr2 Hh2. apply wp_ret, HQ. exists h2, a', rep'. split; [done|]. intros Hz.
    destruct (H0' Hz) as (b & o & Hb & Hh & Hn & Hrep). split; [by eapply Hh2|done]. }
  apply wp_bind, Hrun.
  - intros b o a' w1 Hn Hb Hr1. apply wp_bind. rewrite Z.eqb_refl.
    assert (peer_live (<[b := Bytes KHost o]> h) a') as Hlive.
    { right. exists b, o. split; [done|]. apply lookup_insert_eq. }
    eapply hello_barrier_ok; [exact Hr1|exact Hs|exact Hl|..].
    + intros r rep' w2 Hne Hr2. by eapply Hleave.
    + intros w2 Hr2. eapply Hleave; [exact Hr2|done|]. intros _. by exists b, (Bytes KHost o).
  - intros r w1 Hne (h1 & a1 & rep1 & Hr1 & Hlive). rewrite (proj2 (Z.eqb_neq _ _) Hne).
    apply wp_bind, wp_ret. by eapply Hleave.
Qed.

(** What a client and a server tell when all goes well, the latest first. *)
Definition client_report (peer sync : list Z) (text : list mbyte) : list obs :=
  [OobReceived sync; OobSent sync_bytes;
   Printed text; Sent (Some <$> address_message local) None; Connected (Some <$> peer);
   OobReceived peer; OobReceived (le_bytes 8 (Z.of_nat (length peer)))].
Definition server_report (sync addr : list Z) : list obs :=
  [OobReceived sync; OobSent sync_bytes;
   Sent (Some <$> hello_message) (Some UCS_MEMORY_TYPE_CUDA); Connected (Some <$> addr);
   OobSent (Some <$> local); OobSent (Some <$> le_bytes 8 (Z.of_nat (length local)))].

Lemma exchange_and_run_client_ok E h a name wk peer sync text (Q : Z → tag_world → Prop) w :
  stream = le_bytes 8 (Z.of_nat (length peer)) ++ peer ++ sync → Z.of_nat (length peer) < 2 ^ 31 →
  length sync = 4%nat → (∀ m, parse_text (content m) = Some text) →
  at_rest h a [] w → a_peer a = Null → a_local a = local →
  (∀ r w', answered h (client_report peer sync text) r w' → Q r w') →
  wp E (exchange_and_run L fuel (Some name) wk) Q w.
Proof using Ho Hfuel.
  intros Hs Hlen Hl Htext Hr Hnull Hloc HQ. unfold exchange_and_run. apply wp_bind.
  destruct (o_local _ _ _ _ _ Ho) as [Hll _].
  eapply oob_client_ok; [exact Hr|exact Hnull|done|exact Hs|exact Hlen|..].
  { intros r l h' a' rep' w1 Hne Hr1 Hlive Herr. apply wp_bind, wp_ret, wp_bind.
    destruct l; [|apply wp_ret, wp_ret, HQ; by eapply answered_failed].
    eapply free_peer_ok; [exact Hr1|exact Hlive|]. intros h2 w2 Hr2 _.
    apply wp_ret, HQ. by eapply answered_failed. }
  intros fd pb w1 Hpb Hr1. apply wp_bind.
  set (h1 := <[pb := Bytes KHost (Some <$> peer)]> h) in *.
  set (a1 := with_peer (Loc pb 0) (Z.of_nat (length peer)) a) in *.
  assert (h1 !! pb = Some (Bytes KHost (Some <$> peer))) as Hh1 by apply lookup_insert_eq.
  eapply (run_and_leave_ok E h fd _ sync []); [done| | |exact HQ].
  - intros Q' HQ' HE. cbn [run_test].
    eapply (run_ucx_client_ok L fuel (o_polite _ _ _ _ _ Ho) ρ (o_responsive _ _ _ _ _ Ho) Hfuel);
      [exact (o_delivers _ _ _ _ _ Ho)|exact (o_cuda _ _ _ _ _ Ho)|exact (o_accepts _ _ _ _ _ Ho)
      |exact Htext|exact Hr1|exact Hh1|done|by rewrite length_fmap|simpl; rewrite Hloc; lia|..].
    + intros w2 Hr2. simpl in Hr2. rewrite Hloc in Hr2. by eapply (HQ' pb _ a1).
    + intros w2 (h' & rep' & Hsub & Hr2). apply HE; [done|]. exists h', a1, rep'. split; [done|].
      right. eexists pb, _. split; [done|]. by eapply lookup_weaken.
  - rewrite !received_other, !received_app by done. rewrite app_nil_r, <-app_assoc. exact Hs.
Qed.

Lemma exchange_and_run_server_ok E h a wk addr sync (Q : Z → tag_world → Prop) w :
  stream = sync → length sync = 4%nat → (∀ m, parse_address (content m) = Some addr) →
  at_rest h a [] w → a_peer a = Null → a_local a = local →
  (∀ r w', answered h (server_report sync addr) r w' → Q r w') →
  wp E (exchange_and_run L fuel None wk) Q w.
Proof using Ho Hfuel.
  intros Hs Hl Haddr Hr Hnull Hloc HQ. unfold exchange_and_run. apply wp_bind.
  eapply oob_server_ok; [exact Hr|exact Hloc|..].
  { intros r rep' w1 Hne Hr1. apply wp_bind, wp_ret, wp_bind.
    eapply free_peer_ok; [exact Hr1|by left|]. intros h2 w2 Hr2 _.
    apply wp_ret, HQ. by eapply answered_failed. }
  intros fd w1 Hr1. apply wp_bind.
  eapply (run_and_leave_ok E h fd _ sync []); [done| | |exact HQ].
  - intros Q' HQ' HE. cbn [run_test].
    eapply (run_ucx_server_ok L fuel (o_polite _ _ _ _ _ Ho) ρ (o_responsive _ _ _ _ _ Ho) Hfuel);
      [exact (o_delivers _ _ _ _ _ Ho)|exact (o_cuda _ _ _ _ _ Ho)|exact (o_accepts _ _ _ _ _ Ho)
      |exact Haddr|exact Hr1|done|..].
    + intros pb w2 Hpb Hr2. by eapply (HQ' pb _ (with_peer (Loc pb 0) (Z.of_nat (length addr)) a)).
    + intros w2 Hg. by apply HE.
  - rewrite !received_other by done. by rewrite app_nil_r.
Qed.

(** ** main *)

Section role.
Context (name : option string) (full : list obs).
Context (Hrole : ∀ E h a wk (Q : Z → tag_world → Prop) w,
  at_rest h a [] w → a_peer a = Null → a_local a = local →
  (∀ r w', answered h full r w' → Q r w') → wp E (exchange_and_run L fuel name wk) Q w).

(** A call that only gives something back. *)
Lemma answered_call E h r c (Q : tag_ret c → tag_world → Prop) w :
  receives c = None → (∀ x rep, reported_call c x rep = rep) →
  (∀ x hh, in_flight hh = [] → in_flight (ECall (A := tag_api) c x :: hh) = []) →
  answered h full r w → (∀ x w', answered h full r w' → Q x w') → wp E (call L c) Q w.
Proof using Ho.
  intros Hc Hrep Hf (h' & a & rep & Hr & Hz) HQ.
  eapply (rest_call L E h' a rep c); [apply (o_polite _ _ _ _ _ Ho)|done|done|exact Hr|].
  intros x hh w' _ _ _ Hr'. rewrite Hrep in Hr'. apply HQ. by exists h', a, rep.
Qed.

Lemma with_worker_ok E h a wk (Q : Z → tag_world → Prop) w :
  at_rest h a [] w → a_peer a = Null → (∀ r w', answered h full r w' → Q r w') →
  wp E (with_worker L fuel name wk) Q w.
Proof using Ho Hrole.
  intros Hr Hnull HQ. pose proof (o_polite _ _ _ _ _ Ho) as Hp. unfold with_worker. apply wp_bind.
  eapply (rest_call L E h a [] (ucp_worker_get_address wk)); [done..|exact Hr|].
  intros [st [hd bytes]] hh w1 Hret _ _ Hr1. change (reported_call _ _ []) with (@nil obs) in Hr1.
  destruct (Z.eqb_spec st UCS_OK) as [->|Hne]; cbn [negb].
  2:{ apply wp_bind. eapply chkerr_rest; [exact Hr1|]. intros w2 Hr2.
      apply wp_ret, HQ. by eapply answered_failed. }
  destruct (o_local _ _ _ _ _ Ho) as [_ Hloc]. specialize (Hloc hh wk). rewrite Hret in Hloc.
  specialize (Hloc eq_refl). simpl in Hloc. subst bytes.
  apply wp_bind. eapply (set_glb_rest _ _ _ (Addresses local hd Null (a_peer_len a)));
    [exact Hr1| |done|].
  { pose proof (st_addresses _ _ _ _ _ _ Hr1) as Ha. rewrite <-Hnull, <-Ha. done. }
  intros w2 Hr2. apply wp_bind. unfold self. apply wp_bind. call0_rest Hr2. intros id w3 _ _ Hr3.
  apply wp_ret, wp_bind. unfold printf. eapply printf_rest; [done|exact Hr3|]. intros w4 Hr4.
  apply wp_bind. eapply Hrole; [exact Hr4|done|done|]. intros r w5 Hr5. apply wp_bind.
  eapply (answered_call _ h r (ucp_worker_release_address wk hd)); [done..|exact Hr5|].
  intros x w6 Hr6. by apply wp_ret, HQ.
Qed.

Lemma with_context_ok E h a ctx (Q : Z → tag_world → Prop) w :
  at_rest h a [] w → a_peer a = Null → (∀ r w', answered h full r w' → Q r w') →
  wp E (with_context L fuel name ctx) Q w.
Proof using Ho Hrole.
  intros Hr Hnull HQ. pose proof (o_polite _ _ _ _ _ Ho) as Hp. unfold with_context. apply wp_bind.
  eapply (rest_call L E h a [] (ucp_worker_create ctx _ _)); [done..|exact Hr|].
  intros [st wk] hh w1 _ _ _ Hr1. change (reported_call _ _ []) with (@nil obs) in Hr1.
  destruct (Z.eqb_spec st UCS_OK) as [->|Hne]; cbn [negb].
  2:{ apply wp_bind. eapply chkerr_rest; [exact Hr1|]. intros w2 Hr2.
      apply wp_ret, HQ. by eapply answered_failed. }
  apply wp_bind. eapply with_worker_ok; [exact Hr1|done|]. intros r w2 Hr2. apply wp_bind.
  eapply (answered_call _ h r (ucp_worker_destroy wk)); [done..|exact Hr2|].
  intros x w3 Hr3. by apply wp_ret, HQ.
Qed.

Lemma at_rest_start : at_rest ∅ (addresses_of tag_init_glob) [] tag_init_world.
Proof.
  split; try done. split; [|done]. intros q Hq. by apply elem_of_nil in Hq.
Qed.

Lemma hello_main_ok E argv (Q : Z → tag_world → Prop) :
  (length argv ≤ 2)%nat → name = (if (length argv =? 2)%nat then argv !! 1%nat else None) →
  (∀ r w', answered ∅ full r w' → Q r w') →
  wp E (hello_main L fuel argv) Q tag_init_world.
Proof using Ho Hrole.
  intros Hargs Hname HQ. pose proof (o_polite _ _ _ _ _ Ho) as Hp. unfold hello_main.
  rewrite <-Hname. cbv zeta. rewrite (proj2 (Nat.ltb_ge _ _)) by done. cbv iota.
  apply wp_bind. eapply (rest_call L E ∅ _ [] ucp_config_read); [done..|apply at_rest_start|].
  intros [st config] hh w1 _ _ _ Hr1. change (reported_call _ _ []) with (@nil obs) in Hr1.
  destruct (Z.eqb_spec st UCS_OK) as [->|Hne]; cbn [negb].
  2:{ apply wp_bind. eapply chkerr_rest; [exact Hr1|]. intros w2 Hr2.
      apply wp_ret, HQ. by eapply answered_failed. }
  apply wp_bind. eapply (rest_call L E ∅ _ [] (ucp_init _ _ _ config)); [done..|exact Hr1|].
  intros [st ctx] hh' w2 _ _ _ Hr2. change (reported_call _ _ []) with (@nil obs) in Hr2.
  apply wp_bind. eapply (rest_call L E ∅ _ [] (ucp_config_print config _)); [done..|exact Hr2|].
  intros u hh2 w3 _ _ _ Hr3. change (reported_call _ _ []) with (@nil obs) in Hr3.
  apply wp_bind. eapply (rest_call L E ∅ _ [] (ucp_config_release config)); [done..|exact Hr3|].
  intros u' hh3 w4 _ _ _ Hr4. change (reported_call _ _ []) with (@nil obs) in Hr4.
  destruct (Z.eqb_spec st UCS_OK) as [->|Hne]; cbn [negb].
  2:{ apply wp_bind. eapply chkerr_rest; [exact Hr4|]. intros w5 Hr5.
      apply wp_ret, HQ. by eapply answered_failed. }
  apply wp_bind. eapply with_context_ok; [exact Hr4|done|]. intros r w5 Hr5. apply wp_bind.
  eapply (answered_call _ ∅ r (ucp_cleanup ctx)); [done..|exact Hr5|].
  intros x w6 Hr6. by apply wp_ret, HQ.
Qed.
End role.
End main.
