(* ===== verification/Tag.v ===== *)
(** * Properties of ucp_tag_hello_world

    The theorems about whole runs of the client and the server, about the objects
    they own, and about their error paths. [demo_tag] is a concrete outside for the
    witnesses: sends and receives complete in the next progress call. *)

From S2P Require Import Prelude CRuntime CLib Ucx HelloUtil Ownership TagApi TagSock TagHello TagOwn TagLife.
From S2P Require Import TagOutside TagRun TagReceive TagMem TagClient TagServer TagMain.
From stdpp Require Import gmultiset.
Import Ucx.Reference.
Open Scope Z_scope.

(** ** A concrete outside *)

(** CUDA is there. *)
Definition tag_cuda : Cuda := {|
  HAVE_CUDA := true;
  cudaSuccess := 0;
  mem_type_num t := if decide (t = UCS_MEMORY_TYPE_CUDA) then 1 else 0;
|}.
#[local] Existing Instance tag_cuda.

Section demo.
Context (content stream local : list Z).

(** The requests: of a flush, of a send, of a receive. *)
Definition demo_tag_ret (h : history tag_api) (c : tag_call) : tag_ret c :=
  match c return tag_ret c with
  | gethostbyname _ => Some (HostEnt AF_INET 4 (Some [[127; 0; 0; 1]]))
  | recv_waitall _ len =>
      let rest := drop (length (received_so_far (report h))) stream in
      if (0 <=? len) && (len <=? Z.of_nat (length rest)) then (len, take (Z.to_nat len) rest)
      else (-1, [])
  | send _ bs => Z.of_nat (length bs)
  | ucp_config_read => (0, 10)
  | ucp_init _ _ _ _ => (0, 11)
  | ucp_worker_create _ _ _ => (0, 12)
  | ucp_worker_get_address _ => (0, (13, local))
  | ucp_ep_create _ _ => (0, 14)
  | ucp_tag_probe_nb _ _ _ _ => (1, Z.of_nat (length content))
  | ucp_ep_flush_nbx _ _ => 15
  | ucp_tag_send_nbx _ _ _ _ _ => 16
  | ucp_tag_msg_recv_nb _ _ _ _ _ _ => if decide (17 ∈ inits h) then 17 else 2 ^ 64 - 1
  | ucp_config_print _ _ | ucp_config_release _ | ucp_cleanup _ | ucp_worker_destroy _
  | ucp_worker_release_address _ _ | ucp_ep_destroy _ | ucp_request_release _ => tt
  | _ => 0
  end.

Definition tag_completion (op : tag_operation) : list (act tag_api) :=
  match op with
  | OSend q (Some ud) => [Callback (A := tag_api) (Cb_send q 0 ud)]
  | OSend q None => []
  | OReceive q p n _ =>
      match p with
      | Loc b 0 => if n =? Z.of_nat (length content) then [Store (Loc b 0) content] else []
      | _ => []
      end ++ [Callback (A := tag_api) (Cb_recv q 0 n)]
  end.

Definition demo_tag_acts (h : history tag_api) (c : tag_call) : list (act tag_api) :=
  match c with
  | ucp_tag_msg_recv_nb _ _ _ _ _ _ =>
      if decide (17 ∈ inits h) then [] else [Callback (A := tag_api) (Cb_request_init 17)]
  | ucp_worker_progress _ => in_flight h ≫= tag_completion
  | _ => []
  end.

Definition demo_tag : tag_lib := {|
  l_acts := demo_tag_acts;
  l_ret := demo_tag_ret;
  l_alloc := λ _ _, true;
|}.

Lemma flight_acts xs h : in_flight (hist_acts xs h) = in_flight h.
Proof.
  induction xs as [|x xs IH] using rev_ind; [done|]. rewrite hist_acts_snoc, <-IH.
  by destruct x.
Qed.

Lemma completion_cases op x :
  x ∈ tag_completion op →
  (∃ q ud, x = Callback (A := tag_api) (Cb_send q 0 ud) ∧ op = OSend q (Some ud)) ∨
  (∃ q n b m, x = Callback (A := tag_api) (Cb_recv q 0 n) ∧ op = OReceive q b n m) ∨
  (∃ b q m, x = Store (Loc b 0) content ∧
     op = OReceive q (Loc b 0) (Z.of_nat (length content)) m).
Proof.
  destruct op as [q [ud|]|q p n m]; simpl; intros Hx.
  - apply list_elem_of_singleton in Hx as ->. left. by exists q, ud.
  - by apply elem_of_nil in Hx.
  - right. apply elem_of_app in Hx as [Hx|Hx].
    + right. destruct p as [|b [|k|k]| |]; try by apply elem_of_nil in Hx.
      destruct (Z.eqb_spec n (Z.of_nat (length content))) as [->|]; [|by apply elem_of_nil in Hx].
      apply list_elem_of_singleton in Hx as ->. by exists b, q, m.
    + left. apply list_elem_of_singleton in Hx as ->. by exists q, n, p, m.
Qed.

Lemma demo_tag_polite : polite_tag demo_tag.
Proof.
  split.
  - intros h c xs x ys Hx. assert (x ∈ demo_tag_acts h c) as Hin.
    { change (l_acts demo_tag h c) with (demo_tag_acts h c) in Hx. rewrite Hx.
      apply elem_of_app. right. by left. }
    destruct c; simpl in Hin; try by apply elem_of_nil in Hin.
    + apply list_elem_of_bind in Hin as (op & Hin & Hop).
      apply completion_cases in Hin as [(q & ud & -> & ->)|[(q & n & b & m & -> & ->)|(b & q & m & -> & ->)]];
        simpl; rewrite flight_acts.
      * done.
      * left. by exists b, n, m.
      * exists b, 0, (Z.of_nat (length content)), m. split_and!; [done|lia|lia|]. right. by exists q.
    + destruct (decide (17 ∈ inits h)) as [|Hn]; [by apply elem_of_nil in Hin|].
      apply list_elem_of_singleton in Hin as ->. simpl.
      assert (xs = []) as ->; [|done]. simpl in Hx. rewrite decide_False in Hx by done.
      destruct xs as [|? [|]]; [done|..]; simplify_list_eq.
  - intros h w b n dt m cb. simpl. by destruct (decide _).
  - intros h w b n dt m cb. simpl. by destruct (decide _).
  - intros h h' w b n dt m cb q st len c Hf Hin. unfold c in Hin. simpl in Hin.
    destruct (decide _); [by apply elem_of_nil in Hin|]. by apply list_elem_of_singleton in Hin.
Qed.

(** Every store is the whole message. *)
Lemma stored_content b d xs h :
  length d = length content →
  Forall (λ x, ∀ p bs, x = Store p bs → bs = content ∧ ∃ b', p = Loc b' 0) xs →
  Store (Loc b 0) content ∈ xs → stored b d (hist_acts xs h) = Some <$> content.
Proof.
  intros Hd. induction xs as [|x xs IH] using rev_ind; intros Hf Hin; [by apply elem_of_nil in Hin|].
  apply Forall_app in Hf as [Hf Hx]. rewrite hist_acts_snoc.
  assert (∀ d', length d' = length d → store_in b (Loc b 0) content d' = Some <$> content) as Hst.
  { intros d' Hl. simpl. rewrite decide_True by done. rewrite splice_all; [done|].
    by rewrite length_fmap, Hl. }
  apply elem_of_app in Hin as [Hin|Hin].
  - specialize (IH Hf Hin). destruct x as [cb|p bs]; simpl; rewrite IH; [done|].
    rewrite List.Forall_forall in Hx. destruct (Hx (Store p bs) (or_introl eq_refl) p bs eq_refl) as (-> & b' & ->).
    destruct (decide (b' = b)) as [->|Hne]; [|simpl; by rewrite decide_False].
    rewrite Hst; [done|]. by rewrite length_fmap.
  - apply list_elem_of_singleton in Hin as <-. simpl hist_acts at 1. cbn [stored foldl].
    apply Hst, stored_length.
Qed.

Lemma demo_tag_delivers : delivers_tag demo_tag (λ _, content).
Proof.
  split; [done|]. intros h c q st len b n m Hcb Hrec Hn. subst n.
  destruct c; simpl in Hcb; try by apply elem_of_nil in Hcb.
  - destruct Hrec as [Hrec|Hrec]; [done|].
    change (l_acts demo_tag h _) with (in_flight h ≫= tag_completion). apply stored_content.
    + rewrite length_replicate. lia.
    + apply List.Forall_forall. intros x Hx p bs ->. apply list_elem_of_In in Hx.
      apply list_elem_of_bind in Hx as (op & Hx & _).
      apply completion_cases in Hx as [(?&?&?&?)|[(?&?&?&?&?&?)|(b'&?&?&?&?)]]; simplify_eq.
      split; [done|]. by exists b'.
    + apply list_elem_of_bind. eexists. split; [|exact Hrec]. simpl. rewrite Z.eqb_refl. left.
  - destruct (decide _); [by apply elem_of_nil in Hcb|]. by apply list_elem_of_singleton in Hcb.
Qed.

Lemma demo_tag_responsive : responsive_tag demo_tag (λ _, 0%nat).
Proof.
  split; [done|done| |done]. intros h w op l r Hop Hrep. left.
  change (l_acts demo_tag h _) with (in_flight h ≫= tag_completion).
  apply existsb_exists. destruct op as [q [ud|]|q p n m]; [| |].
  - exists (Callback (A := tag_api) (Cb_send q 0 ud)). split; [|simpl; by rewrite Z.eqb_refl].
    apply list_elem_of_In, list_elem_of_bind. eexists. split; [|exact Hop]. left.
  - done.
  - exists (Callback (A := tag_api) (Cb_recv q 0 n)). split; [|simpl; by rewrite Z.eqb_refl].
    apply list_elem_of_In, list_elem_of_bind. eexists. split; [|exact Hop].
    apply elem_of_app. right. by left.
Qed.

Lemma demo_tag_accepts : accepts demo_tag.
Proof.
  intros w b n dt m cb q (h & h' & Hret & [_ Hi _ _]). simpl in Hret.
  assert (17 ∈ inits h') as Hin.
  { rewrite Hi. simpl. destruct (decide (17 ∈ inits h)); [done|]. by left. }
  rewrite decide_True in Hret by done. by subst q.
Qed.

Lemma demo_tag_socket : connected_socket demo_tag stream.
Proof.
  split.
  - intros hh fd bs. simpl. split; [lia|]. by destruct bs.
  - intros hh fd len Hlen. simpl. set (rest := drop _ stream).
    destruct (Z.leb_spec 0 len), (Z.leb_spec len (Z.of_nat (length rest))); simpl;
      split_and!; try lia; try done.
    rewrite length_take. lia.
Qed.

Lemma demo_tag_outside :
  Z.of_nat (length local) < 2 ^ 31 →
  outside demo_tag (λ _, content) stream local (λ _, 0%nat).
Proof.
  intros Hl. split.
  - apply demo_tag_polite.
  - apply demo_tag_delivers.
  - apply demo_tag_responsive.
  - apply demo_tag_accepts.
  - intros hh op. reflexivity.
  - apply demo_tag_socket.
  - intros hh name. simpl. split; [done|]. by exists [127; 0; 0; 1], [].
  - split; [done|]. intros hh wk. done.
Qed.
End demo.

(** ** Runs *)

Section runs.
Context `{!Ucs, !Ucp, !Cuda}.

(** C22: the client, with a well-behaved outside: main returns; and if it returns 0,
    then no memory is left, and what it told is: it received the server's address
    on the socket, connected to it, sent its own address with its length, printed
    the string of the message it received, and passed the barrier. *)
Theorem hello_client L fuel content stream local ρ prog name peer sync text :
  outside L content stream local ρ → (ρ [] + 1 < fuel)%nat →
  stream = le_bytes 8 (Z.of_nat (length peer)) ++ peer ++ sync →
  Z.of_nat (length peer) < 2 ^ 31 → length sync = 4%nat →
  (∀ m, parse_text (content m) = Some text) →
  ∃ r w', hello_main L fuel [prog; name] tag_init_world = (Ok r, w') ∧
    (r = 0 → heap w' = ∅ ∧ report (trace w') = client_report local peer sync text).
Proof.
  intros Ho Hf Hs Hl Hsync Ht. apply wp_returns.
  eapply (hello_main_ok L content stream local ρ Ho fuel (Some name)); [|simpl; lia|done|].
  - intros. by eapply (exchange_and_run_client_ok L content stream local ρ Ho fuel Hf).
  - intros r w (h & a & rep & Hr & Hz) Hr0. destruct (Hz Hr0) as [-> <-].
    by split; [apply (st_heap _ _ _ _ _ _ Hr)|apply (st_report _ _ _ _ _ _ Hr)].
Qed.

(** C23: the server, with a well-behaved outside: main returns; and if it returns 0,
    then no memory is left, and it has sent its address on the socket, connected to
    the address in the message it received, sent the test string with its length
    from CUDA memory, and passed the barrier. *)
Theorem hello_server L fuel content stream local ρ prog addr :
  outside L content stream local ρ → (ρ [] + 1 < fuel)%nat → length stream = 4%nat →
  (∀ m, parse_address (content m) = Some addr) →
  ∃ r w', hello_main L fuel [prog] tag_init_world = (Ok r, w') ∧
    (r = 0 → heap w' = ∅ ∧ report (trace w') = server_report local stream addr).
Proof.
  intros Ho Hf Hl Ha. apply wp_returns.
  eapply (hello_main_ok L content stream local ρ Ho fuel None); [|simpl; lia|done|].
  - intros. by eapply (exchange_and_run_server_ok L content stream local ρ Ho fuel Hf).
  - intros r w (h & a & rep & Hr & Hz) Hr0. destruct (Hz Hr0) as [-> <-].
    by split; [apply (st_heap _ _ _ _ _ _ Hr)|apply (st_report _ _ _ _ _ _ Hr)].
Qed.

(** What a report says was sent: the bytes on the socket, and the messages. *)
Definition oob_sent (rep : list obs) : list mbyte :=
  concat (omap (λ o, match o with OobSent bs => Some bs | _ => None end) (reverse rep)).
Definition messages_sent (rep : list obs) : list (list mbyte) :=
  omap (λ o, match o with Sent p _ => Some p | _ => None end) (reverse rep).

(** C21: the two ends fit: if each receives what the other sends, on the socket and
    as messages, both return; and if both return 0 the client connected to the
    server's address and printed the test string, the server connected to the
    client's address, and each did send what the other received. *)
Theorem hello_pair Lc Ls fuel content_c content_s stream_c stream_s local_c local_s ρc ρs prog name :
  outside Lc content_c stream_c local_c ρc → (ρc [] + 1 < fuel)%nat →
  outside Ls content_s stream_s local_s ρs → (ρs [] + 1 < fuel)%nat →
  stream_c = le_bytes 8 (Z.of_nat (length local_s)) ++ local_s ++ le_bytes 4 0 →
  stream_s = le_bytes 4 0 →
  (∀ m, content_c m = hello_message) → (∀ m, content_s m = address_message local_c) →
  ∃ rc wc rs ws,
    hello_main Lc fuel [prog; name] tag_init_world = (Ok rc, wc) ∧
    hello_main Ls fuel [prog] tag_init_world = (Ok rs, ws) ∧
    (rc = 0 → rs = 0 →
     Connected (Some <$> local_s) ∈ report (trace wc) ∧
     Printed (Some <$> hello_string) ∈ report (trace wc) ∧
     Connected (Some <$> local_c) ∈ report (trace ws) ∧
     oob_sent (report (trace ws)) = Some <$> stream_c ∧
     oob_sent (report (trace wc)) = Some <$> stream_s ∧
     messages_sent (report (trace ws)) = [Some <$> hello_message] ∧
     messages_sent (report (trace wc)) = [Some <$> address_message local_c]).
Proof.
  intros Hoc Hfc Hos Hfs -> -> Hc Hs.
  destruct (o_local _ _ _ _ _ Hoc) as [Hlc _]. destruct (o_local _ _ _ _ _ Hos) as [Hls _].
  destruct (wp_returns _ _ _ (hello_main_ok Lc content_c _ local_c ρc Hoc fuel (Some name)
    (client_report local_c local_s (le_bytes 4 0) (Some <$> hello_string))
    ltac:(intros; eapply (exchange_and_run_client_ok Lc content_c _ local_c ρc Hoc fuel Hfc); eauto;
          intros m; by rewrite Hc, parse_hello_message)
    _ [prog; name] _ ltac:(simpl; lia) eq_refl (λ r w Hq, Hq)))
    as (rc & wc & Hrc & hc & ac & repc & Hstc & Hzc).
  destruct (wp_returns _ _ _ (hello_main_ok Ls content_s _ local_s ρs Hos fuel None
    (server_report local_s (le_bytes 4 0) local_c)
    ltac:(intros; eapply (exchange_and_run_server_ok Ls content_s _ local_s ρs Hos fuel Hfs); eauto;
          intros m; rewrite Hs; apply parse_address_message; lia)
    _ [prog] _ ltac:(simpl; lia) eq_refl (λ r w Hq, Hq)))
    as (rs & ws & Hrs & hs & as_ & reps & Hsts & Hzs).
  exists rc, wc, rs, ws. split_and!; [done..|]. intros Hc0 Hs0.
  rewrite (st_report _ _ _ _ _ _ Hstc), (st_report _ _ _ _ _ _ Hsts).
  destruct (Hzc Hc0) as [_ ->]. destruct (Hzs Hs0) as [_ ->].
  split_and!; try (unfold client_report, server_report; rewrite !elem_of_cons; tauto); try done.
  change (oob_sent (server_report local_s (le_bytes 4 0) local_c)) with
    ((Some <$> le_bytes 8 (Z.of_nat (length local_s))) ++ (Some <$> local_s) ++ sync_bytes ++ [] : list mbyte).
  by rewrite app_nil_r, !fmap_app.
Qed.

(** C24: for every behaviour of the outside, every run, also one that stops, uses
    descriptors and UCX objects only while they are alive, destroys each at most
    once and nothing that something else depends on; and when main returns, all are
    gone, except that the socket is still open when the address exchange failed,
    which was reported. *)
Theorem hello_objects L fuel argv :
  wp never_misused (hello_main L fuel argv)
    (λ _ w, tag_owns ∅ w ∨ ∃ fd, 0 ≤ fd ∧ tag_owns {[+ Fd fd +]} w ∧ reported w) tag_init_world.
Proof.
  eapply hello_main_alive; [done|]. intros r w [Hw|(fd & Hfd & Hw & Hrep)]; [by left|].
  right. exists fd. split_and!; [done| |done]. unfold make in Hw. by rewrite (right_id_L ∅ (⊎)) in Hw.
Qed.
End runs.

(** ** Errors *)

Section errors.
Context `{!Ucs, !Ucp, !Cuda} (L : tag_lib) (fuel : nat) (content : Z → list Z).
Context (ρ : history tag_api → nat).
Implicit Types (w : tag_world) (h : tag_heap) (a : addresses).

(** UCX rejects every receive. *)
Definition rejects : Prop := ∀ wk b n dt m cb q,
  answer_of L (ucp_tag_msg_recv_nb wk b n dt m cb) q → UCS_PTR_IS_ERR q = true.

(** C34: when ucp_tag_msg_recv_nb fails, the client does not report an error and go
    on: it gives the memory it got from cudaMallocManaged to free, which is
    undefined. *)
Theorem receive_error_frees_cuda_memory wk msg h a rep w :
  polite_tag L → delivers_tag L content → responsive_tag L ρ → (ρ [] + 1 < fuel)%nat →
  cuda_works L → rejects → at_rest h a rep w →
  ∃ w', receive_string L fuel wk msg w
        = (Halt (UB "free of memory that malloc did not return"), w').
Proof.
  intros Hp Hd Hre Hf Hcu Hrej Hr. apply wp_halts. unfold receive_string. apply wp_bind.
  eapply probe_client_ok; [done|exact Hre|exact Hf|exact Hd|exact Hr|]. intros m w1 Hm Hr1.
  apply wp_bind. eapply malloc_managed_rest; [exact Hcu|exact Hr1|]. intros b w2 Hn Hr2 Hst.
  rewrite bool_decide_eq_false_2 by done. apply wp_bind.
  eapply recv_call_ok; [exact Hp|exact Hd|exact Hr2|apply Hst|done|..].
  - intros q d w3 _ He Hr3. rewrite He. apply wp_bind. unfold eprintf.
    eapply printf_rest; [done|exact Hr3|]. intros w4 Hr4. apply wp_bind. unfold free.
    apply wp_bind. eapply wp_lookup_obj.
    + rewrite (at_rest_lookup _ _ _ _ _ Hr4). apply lookup_insert_eq.
    + done.
  - intros q x w3 Hans Hq _ _. apply Hrej in Hans.
    rewrite (ucs_ptr_not_err q Hq) in Hans. done.
Qed.

(** C35: the server trusts data_len: a message that does not hold as many bytes as
    its first eight announce (or is shorter than these) is read beyond its end,
    unless memory runs out before. *)
Theorem server_trusts_length wk h a rep w :
  polite_tag L → delivers_tag L content → responsive_tag L ρ → (ρ [] + 1 < fuel)%nat →
  accepts L → (∀ m, Forall is_byte (content m)) → (∀ m, parse_address (content m) = None) →
  at_rest h a rep w → a_peer a = Null →
  wp (λ hlt _, hlt = UB "read out of bounds") (receive_address L fuel wk)
     (λ r _, r = inr (-1)) w.
Proof.
  intros Hp Hd Hre Hf Hac Hbytes Hnone Hr Hnull.
  eapply (receive_address_start L fuel Hp ρ Hre Hf); [exact Hd|exact Hac|exact Hr|done|].
  intros m b w1 Hr1 Hb. specialize (Hnone m). specialize (Hbytes m). unfold parse_address in Hnone.
  destruct (decide (8 ≤ length (content m))%nat) as [H8|H8].
  2:{ apply wp_bind, wp_bind. eapply read_rest_outside; [exact Hr1|apply lookup_insert_eq|done|].
      apply slice_none. rewrite length_fmap. unfold sizeof_msg. lia. }
  eapply keep_address_start; [exact Hr1|exact Hb|exact Hnull|exact H8|done|].
  intros pb w2 n Hne Hpb Hr2. fold n in Hnone.
  assert (0 ≤ n) as Hn by by apply le_val_range, Forall_take.
  rewrite (proj2 (Nat.leb_le _ _)), (proj2 (Z.leb_le _ _)) in Hnone by done. simpl in Hnone.
  destruct (Z.leb_spec (8 + n) (Z.of_nat (length (content m)))) as [|Hbig]; [done|].
  apply wp_bind, wp_bind. eapply read_rest_outside; [exact Hr2
    |by rewrite lookup_insert_ne, lookup_insert_eq|done|].
  apply slice_none. rewrite length_fmap. lia.
Qed.

(** The server is found and accepts the connection; then nothing comes any more. *)
Record lost_connection : Prop := {
  lc_socket hh d t p : 0 ≤ l_ret L hh (socket d t p);
  lc_name hh name : ∃ addr l, length addr = 4%nat ∧
    l_ret L hh (gethostbyname name) = Some (HostEnt AF_INET 4 (Some (addr :: l)));
  lc_connect hh fd addr : 0 ≤ l_ret L hh (connect fd addr);
  lc_recv hh fd len : l_ret L hh (recv_waitall fd len) = (0, []);
}.

(** When the server is gone before it sent its address, recv answers 0, and
    this becomes the answer of the program: the client does nothing and returns 0,
    as if the test had succeeded. *)
Theorem lost_connection_unnoticed name wk h a rep w :
  lost_connection → at_rest h a rep w → a_peer a = Null →
  ∃ w', exchange_and_run L fuel (Some name) wk w = (Ok 0, w') ∧
    heap w' = h ∧ report (trace w') = OobReceived [] :: rep.
Proof.
  intros [Hs Hn Hc Hrv] Hr Hnull. apply wp_answers. unfold exchange_and_run, oob_client.
  apply wp_bind, wp_bind, glb_rest, wp_bind. eapply set_peer_len_rest; [exact Hr|].
  intros w1 Hr1. apply wp_bind. unfold client_connect. apply wp_bind.
  call0_rest Hr1. intros fd w2 Hfd _ Hr2.
  assert (0 ≤ fd) as Hfd0 by (rewrite <-Hfd; apply Hs). rewrite (proj2 (Z.ltb_ge _ _)) by done.
  apply wp_bind. call0_rest Hr2. intros found w3 Hf _ Hr3.
  destruct (Hn (trace w2) name) as (addr & l & Hlen & Hname). rewrite Hname in Hf. subst found.
  apply wp_bind. unfold copy_address. cbn [h_addr_list h_length].
  apply wp_bind, (wp_the _ _ _ (addr :: l)); [done|].
  apply wp_bind, (wp_the _ _ _ addr); [done|].
  apply wp_bind, (wp_the _ _ _ addr); [apply slice_all; by rewrite Hlen|].
  apply (wp_the _ _ _ (Some <$> addr)); [apply splice_all; by rewrite length_fmap, Hlen|].
  apply wp_bind. call0_rest Hr3. intros r w4 Hret _ Hr4.
  rewrite (proj2 (Z.ltb_ge r 0)) by (rewrite <-Hret; apply Hc). apply wp_ret.
  rewrite (proj2 (Z.ltb_ge fd 0)) by done. apply wp_bind. call0_rest Hr4.
  intros nb w5 Hnb _ Hr5. rewrite Hrv in Hnb. subst nb.
  apply wp_bind, wp_bind. eapply wp_the; [reflexivity|]. apply wp_ret.
  change (negb (s32 0 =? 8)) with true. cbv iota. apply wp_bind. unfold chkerr_retval, eprintf.
  eapply printf_rest; [done|exact Hr5|]. intros w6 Hr6. apply wp_ret, wp_bind, wp_ret, wp_bind.
  apply wp_ret, wp_ret. split; [done|].
  split; [apply (st_heap _ _ _ _ _ _ Hr6)|apply (st_report _ _ _ _ _ _ Hr6)].
Qed.
End errors.

(** ** Witnesses *)

Definition demo_stream : list Z := le_bytes 8 3 ++ [7; 8; 9] ++ le_bytes 4 0.
Definition demo_client : tag_lib := demo_tag hello_message demo_stream [1; 2].
Definition demo_server : tag_lib := demo_tag (address_message [1; 2]) (le_bytes 4 0) [7; 8; 9].

Lemma hello_client_witness :
  fst (hello_main demo_client 2 ["hello"%string; "host"%string] tag_init_world) = Ok 0 ∧
  ∃ r w', hello_main demo_client 2 ["hello"%string; "host"%string] tag_init_world = (Ok r, w') ∧
    (r = 0 → heap w' = ∅ ∧
       report (trace w') = client_report [1; 2] [7; 8; 9] (le_bytes 4 0) (Some <$> hello_string)).
Proof.
  split; [vm_compute; reflexivity|].
  apply (hello_client demo_client 2 (λ _, hello_message) demo_stream [1; 2] (λ _, 0%nat)); [by apply demo_tag_outside|simpl; lia|reflexivity|simpl; lia|done
    |intros m; apply parse_hello_message].
Defined.

Lemma hello_server_witness :
  fst (hello_main demo_server 2 ["hello"%string] tag_init_world) = Ok 0 ∧
  ∃ r w', hello_main demo_server 2 ["hello"%string] tag_init_world = (Ok r, w') ∧
    (r = 0 → heap w' = ∅ ∧ report (trace w') = server_report [7; 8; 9] (le_bytes 4 0) [1; 2]).
Proof.
  split; [vm_compute; reflexivity|].
  apply (hello_server demo_server 2 (λ _, address_message [1; 2]) (le_bytes 4 0) [7; 8; 9]
    (λ _, 0%nat)); [by apply demo_tag_outside|simpl; lia|done|reflexivity].
Defined.

Lemma hello_pair_witness :
  fst (hello_main demo_client 2 ["hello"%string; "host"%string] tag_init_world) = Ok 0 ∧
  fst (hello_main demo_server 2 ["hello"%string] tag_init_world) = Ok 0 ∧
  ∃ rc wc rs ws,
    hello_main demo_client 2 ["hello"%string; "host"%string] tag_init_world = (Ok rc, wc) ∧
    hello_main demo_server 2 ["hello"%string] tag_init_world = (Ok rs, ws) ∧
    (rc = 0 → rs = 0 →
     Connected (Some <$> [7; 8; 9]) ∈ report (trace wc) ∧
     Printed (Some <$> hello_string) ∈ report (trace wc) ∧
     Connected (Some <$> [1; 2]) ∈ report (trace ws) ∧
     oob_sent (report (trace ws)) = Some <$> demo_stream ∧
     oob_sent (report (trace wc)) = Some <$> le_bytes 4 0 ∧
     messages_sent (report (trace ws)) = [Some <$> hello_message] ∧
     messages_sent (report (trace wc)) = [Some <$> address_message [1; 2]]).
Proof.
  split; [vm_compute; reflexivity|]. split; [vm_compute; reflexivity|].
  apply (hello_pair demo_client demo_server 2 (λ _, hello_message) (λ _, address_message [1; 2])
    demo_stream (le_bytes 4 0) [1; 2] [7; 8; 9] (λ _, 0%nat) (λ _, 0%nat));
    [by apply demo_tag_outside|simpl; lia|by apply demo_tag_outside|simpl; lia|done..].
Defined.

(** UCX rejects receives. *)
Definition demo_rejecting : tag_lib := {|
  l_acts := demo_tag_acts hello_message;
  l_ret h c := match c return tag_ret c with
    | ucp_tag_msg_recv_nb _ _ _ _ _ _ => 2 ^ 64 - 1
    | c => demo_tag_ret hello_message [] [] h c
    end;
  l_alloc _ _ := true;
|}.

Lemma demo_rejecting_ok :
  polite_tag demo_rejecting ∧ delivers_tag demo_rejecting (λ _, hello_message) ∧
  responsive_tag demo_rejecting (λ _, 0%nat).
Proof.
  pose proof (demo_tag_polite hello_message [] []) as [P1 P2 P3 P4].
  pose proof (demo_tag_delivers hello_message [] []) as [D1 D2].
  pose proof (demo_tag_responsive hello_message [] []) as [R1 R2 R3 R4].
  split_and!; split; try done.
  intros h h' w b n dt m cb q st len c Hf Hin. unfold c in Hin. simpl in Hin.
  destruct (decide _); [by apply elem_of_nil in Hin|]. by apply list_elem_of_singleton in Hin.
Qed.

Lemma receive_error_frees_cuda_memory_witness :
  ∃ w', receive_string demo_rejecting 2 12 Null tag_init_world
        = (Halt (UB "free of memory that malloc did not return"), w').
Proof.
  destruct demo_rejecting_ok as (Hp & Hd & Hre).
  apply (receive_error_frees_cuda_memory demo_rejecting 2 (λ _, hello_message) (λ _, 0%nat) 12 Null ∅
    (addresses_of tag_init_glob) [] tag_init_world Hp Hd Hre).
  - lia.
  - intros hh op. reflexivity.
  - intros wk b n dt m cb q (h & h' & <- & _). reflexivity.
  - apply at_rest_start.
Defined.

(** A message of nine bytes that announces 100. *)
Definition demo_short : list Z := le_bytes 8 100 ++ [1].

Lemma server_trusts_length_witness :
  fst (receive_address (demo_tag demo_short [] []) 2 12 tag_init_world) = Halt (UB "read out of bounds") ∧
  wp (λ hlt _, hlt = UB "read out of bounds")
    (receive_address (demo_tag demo_short [] []) 2 12) (λ r _, r = inr (-1)) tag_init_world.
Proof.
  split; [vm_compute; reflexivity|].
  apply (server_trusts_length (demo_tag demo_short [] []) 2 (λ _, demo_short) (λ _, 0%nat) 12 ∅
    (addresses_of tag_init_glob) [] tag_init_world).
  - apply demo_tag_polite.
  - apply demo_tag_delivers.
  - apply demo_tag_responsive.
  - simpl. lia.
  - apply demo_tag_accepts.
  - intros _. apply Forall_app. split; [apply le_bytes_bytes|].
    constructor; [unfold is_byte; lia|constructor].
  - reflexivity.
  - apply at_rest_start.
  - reflexivity.
Defined.

Definition demo_lost : tag_lib := {|
  l_acts _ _ := [];
  l_ret h c := match c return tag_ret c with
    | recv_waitall _ _ => (0, [])
    | c => demo_tag_ret [] [] [1; 2] h c
    end;
  l_alloc _ _ := true;
|}.

Lemma lost_connection_unnoticed_witness :
  ∃ w', exchange_and_run demo_lost 2 (Some "host"%string) 12 tag_init_world = (Ok 0, w') ∧
    heap w' = ∅ ∧ report (trace w') = [OobReceived []].
Proof.
  apply (lost_connection_unnoticed demo_lost 2 "host" 12 ∅ (addresses_of tag_init_glob) []
    tag_init_world); [|apply at_rest_start|done].
  split; try done. intros hh name. by exists [127; 0; 0; 1], [].
Defined.
