(* ===== verification/UctApi.v ===== *)
(** * uct_hello_world: data types and external interface

    uct_hello_world.c: its types and static variables, the functions of UCT, UCS,
    CUDA and the socket layer it calls, and the callbacks it registers. *)

From S2P Require Import Prelude CRuntime CLib Ucx HelloUtil OobSocket.
Open Scope Z_scope.

(** ** Data *)

Inductive func_am_t : Type := FUNC_AM_SHORT | FUNC_AM_BCOPY | FUNC_AM_ZCOPY.

#[export] Instance func_am_t_eq_dec : EqDecision func_am_t.
Proof. solve_decision. Defined.

Record cmd_args_t : Type := CmdArgs {
  server_name : option string;
  uct_server_port : Z;          (* uint16_t *)
  uct_ai_family : Z;            (* sa_family_t *)
  func_am_type : func_am_t;
  dev_name : option string;
  tl_name : option string;
  test_strlen : Z;              (* long *)
}.

(** The members of uct_iface_attr_t and uct_md_attr_t that are read. *)
Record iface_attr_t : Type := IfaceAttr {
  if_flags : Z;                 (* cap.flags *)
  max_short : Z;                (* cap.am.max_short, ... *)
  max_bcopy : Z;
  max_zcopy : Z;
  device_addr_len : Z;
  iface_addr_len : Z;
  ep_addr_len : Z;
}.
Record md_attr_t : Type := MdAttr { md_flags : Z; reg_mem_types : Z }.

(** iface_info_t without the worker; a handle that is NULL is 0. *)
Record iface_info_t : Type := IfaceInfo {
  ii_attr : iface_attr_t;
  ii_iface : Z;
  ii_md_attr : md_attr_t;
  ii_md : Z;
}.

(** uct_tl_resource_desc_t *)
Record tl_resource : Type := TlResource { tl_res_name : string; tl_res_dev : string }.

(** desc_holder: a recv_desc_t that the program allocated or that belongs to UCT
    (with the bytes behind it), or the mark of a completed send. *)
Inductive holder : Type :=
  | NoDesc
  | Marked                      (* (void * )0xDEADBEEF *)
  | OwnDesc (rdesc : ptr)
  | UctDesc (desc : Z) (data : list mbyte).

(** Variables whose address is handed out: cmd_args.func_am_type, an
    am_bcopy_args_t, a zcopy_comp_t ([None]: not assigned). *)
Inductive uct_cell : Type :=
  | CFunc (f : func_am_t)
  | CBcopy (data : ptr) (len : Z)
  | CComp (count status md : Z) (memh : option Z).

(** The static variables. *)
Record uct_glob : Type := UctGlob {
  u_test_mem_type : ucs_memory_type_t;
  u_desc_holder : holder;
}.
Definition uct_init_glob : uct_glob := UctGlob UCS_MEMORY_TYPE_HOST NoDesc.
Definition with_desc_holder d g := UctGlob (u_test_mem_type g) d.
Definition with_test_mem_type t g := UctGlob t (u_desc_holder g).

(** sizeof(recv_desc_t): an int. *)
Definition sizeof_recv_desc : Z := 4.
Definition sizeof_header : Z := 8.

(** Constants of the headers of UCT and UCS. *)
Class Uct : Type := {
  UCT_MD_FLAG_NEED_MEMH : Z;
  UCT_MEM_HANDLE_NULL : Z;
  UCT_CB_PARAM_FLAG_DESC : Z;
  UCT_IFACE_FLAG_AM_SHORT : Z;
  UCT_IFACE_FLAG_AM_BCOPY : Z;
  UCT_IFACE_FLAG_AM_ZCOPY : Z;
  UCT_IFACE_FLAG_CONNECT_TO_IFACE : Z;
  UCT_IFACE_FLAG_CONNECT_TO_EP : Z;
  THREAD_MODE_SINGLE : Z;                (* UCS_THREAD_MODE_SINGLE *)
}.

(** ** External functions *)

(** What UCT reads at a pointer it is given: nothing at NULL. *)
Abbreviation contents := (option (list mbyte)).

(** A [payload] is what UCT reads at the buffer of a message. *)

Inductive uct_call : Type :=
  | Uct_cuda (op : cuda_op)
  | Uct_sock (op : sock_op)
  | sock_send (fd : Z) (bs : list mbyte)
  | sock_recv (fd len : Z)
  | ucs_async_context_create
  | ucs_async_context_destroy (async : Z)
  | uct_worker_create (async thread_mode : Z)
  | uct_worker_destroy (worker : Z)
  | uct_worker_progress (worker : Z)
  | uct_query_components
  | uct_release_component_list (components : Z)
  | uct_component_query_count (component : Z)
  | uct_component_query_resources (component count : Z)
  | uct_config_release (config : Z)
  | uct_md_config_read (component : Z)
  | uct_md_open (component : Z) (md_name : string) (config : Z)
  | uct_md_query (md : Z)
  | uct_md_query_tl_resources (md : Z)
  | uct_release_tl_resource_list (resources : Z)
  | uct_md_close (md : Z)
  | uct_md_iface_config_read (md : Z) (tl_name : string)
  | uct_iface_open (md worker : Z) (tl_name dev_name : string) (rx_headroom config : Z)
  | uct_iface_progress_enable (iface : Z)
  | uct_iface_query (iface : Z)
  | uct_iface_close (iface : Z)
  | uct_iface_set_am_handler (iface id : Z) (arg : ptr)
  | uct_iface_get_device_address (iface : Z)
  | uct_iface_get_address (iface : Z)
  | uct_iface_is_reachable (iface : Z) (dev iface_addr : contents)
  | uct_ep_create (iface : Z) (addresses : option (contents * contents))
  | uct_ep_get_address (ep : Z)
  | uct_ep_connect_to_ep (ep : Z) (dev ep_addr : contents)
  | uct_ep_destroy (ep : Z)
  | uct_ep_am_short (ep id header : Z) (payload : list mbyte)
  | uct_ep_am_bcopy (ep id : Z) (arg : ptr)
  | uct_ep_am_zcopy (ep id : Z) (buffer : ptr) (payload : list mbyte) (memh : option Z) (comp : ptr)
  | uct_md_mem_reg (md : Z) (buffer : ptr) (length : Z)
  | uct_md_mem_dereg (md memh : Z)
  | uct_iface_release_desc (desc : Z).

(** A status with what was written through an out parameter: a handle; a list, by
    its address and its elements; an address, by its bytes. *)
Definition uct_ret (c : uct_call) : Type :=
  match c with
  | Uct_sock op => sock_ret op
  | sock_recv _ _ => Z * list Z
  | ucs_async_context_create | uct_worker_create _ _ | uct_md_config_read _
  | uct_md_open _ _ _ | uct_md_iface_config_read _ _ | uct_iface_open _ _ _ _ _ _
  | uct_ep_create _ _ | uct_md_mem_reg _ _ _ | uct_component_query_count _ => Z * Z
  | uct_query_components => Z * (Z * list Z)
  | uct_component_query_resources _ _ => Z * list string
  | uct_md_query _ => Z * md_attr_t
  | uct_md_query_tl_resources _ => Z * (Z * list tl_resource)
  | uct_iface_query _ => Z * iface_attr_t
  | uct_iface_get_device_address _ | uct_iface_get_address _ | uct_ep_get_address _ =>
      Z * list Z
  | ucs_async_context_destroy _ | uct_worker_destroy _ | uct_release_component_list _
  | uct_config_release _ | uct_release_tl_resource_list _ | uct_md_close _
  | uct_iface_progress_enable _ | uct_iface_close _ | uct_ep_destroy _
  | uct_iface_release_desc _ => unit
  | _ => Z
  end.

(** ** Callbacks *)

(** The data of an active message: the bytes, and the descriptor they are part of
    if the flags say so. *)
Record uct_data : Type := UctData { ud_desc : Z; ud_bytes : list Z }.

(** [Cb_pack]: UCT has room for [room] bytes at dest. [Cb_completion]: UCT counts
    one more operation of the completion as done, with [status]. *)
Inductive uct_cbk : Type :=
  | Cb_am (arg : ptr) (data : uct_data) (length flags : Z)
  | Cb_pack (room : Z) (arg : ptr)
  | Cb_completion (self : ptr) (status : Z).

(** What a callback answers: a status, or a length with the bytes at dest. *)
Inductive uct_cbr : Type :=
  | Answer (status : Z)
  | Packed (len : Z) (bs : list mbyte)
  | Done.

Canonical Structure uct_api : api := {|
  a_glob := uct_glob;
  a_cell := uct_cell;
  a_call := uct_call;
  a_ret := uct_ret;
  a_cbk := uct_cbk;
  a_cbr := uct_cbr;
|}.

#[export] Instance uct_hello : HelloApi uct_api := {|
  test_mem_type := u_test_mem_type : a_glob uct_api → _;
  cuda_call := Uct_cuda : _ → a_call uct_api;
  cuda_res op r := r;
|}.

(** The calls on the connected socket are socket calls too. *)
#[export] Program Instance uct_oob : OobApi uct_api := {|
  oob_call := Uct_sock : _ → a_call uct_api;
  oob_res op r := r;
  oob_view c := match c return uct_ret c → option sock_event with
    | Uct_sock op => λ r, Some (SockEvent op r)
    | sock_send fd bs => λ r, Some (SockEvent (send_ fd (Z.of_nat (length bs))) r)
    | sock_recv fd len => λ r, Some (SockEvent (recv_waitall fd len) r.1)
    | _ => λ _, None
    end;
|}.
Next Obligation. done. Qed.

(** An assignment keeps what a variable is. Only do_am_zcopy has a zcopy_comp_t. *)
#[export] Instance uct_typed : Typed uct_api := {|
  compat := λ c c' : uct_cell,
    match c, c' with
    | CFunc f, CFunc f' => f = f'
    | CBcopy p n, CBcopy p' n' => p = p' ∧ n = n'
    | CComp _ _ md h, CComp _ _ md' h' => md = md' ∧ h = h'
    | _, _ => False
    end;
  ordinary := λ c : uct_cell, match c with CComp _ _ _ _ => False | _ => True end;
|}.

Abbreviation uct_world := (world uct_api).
Abbreviation uct_lib := (lib uct_api).
Abbreviation UM := (M (world uct_api)).

Definition uct_init_world : uct_world := World uct_init_glob ∅ 0%N [].
