(* ===== verification/UctSend.v ===== *)
(** * uct_hello_world.c: active messages

    The three ways to send an active message with their callbacks, the handler of
    the receiver, and the dispatch [uct_handler] from UCT to them. [fuel] bounds
    the loops that wait for UCT. *)

From S2P Require Import Prelude CRuntime CLib Ucx HelloUtil OobSocket UctApi.
Open Scope Z_scope.

Definition func_am_t_str (f : func_am_t) : string :=
  match f with
  | FUNC_AM_SHORT => "uct_ep_am_short"
  | FUNC_AM_BCOPY => "uct_ep_am_bcopy"
  | FUNC_AM_ZCOPY => "uct_ep_am_zcopy"
  end.

Definition func_am_max_size (f : func_am_t) (attr : iface_attr_t) : Z :=
  match f with
  | FUNC_AM_SHORT => max_short attr
  | FUNC_AM_BCOPY => max_bcopy attr
  | FUNC_AM_ZCOPY => max_zcopy attr
  end.

Section send.
Context `{!Ucs, !Cuda, !Uct} (L : uct_lib) (fuel : nat).

Definition ucall0 (c : uct_call) : UM (uct_ret c) := ext0 L c.
Definition uglb {X} (f : uct_glob → X) : UM X := g ← get_glob; mret (f g).
Definition set_uglb (f : uct_glob → uct_glob) : UM unit := mod_glob f.

(** The int argument wraps a long; calloc clears the last byte. *)
Definition uct_generate_test_string (str : ptr) (size : Z) : UM Z :=
  tmp_str ← calloc L (u64 size);
  if bool_decide (tmp_str = Null) then chkerr "allocate memory\n";; mret (-1)
  else
    last ← c_int (size - 1);
    for_up 0 (Z.to_nat last) (put_char tmp_str);;
    mem_type_memcpy L str tmp_str (u64 size);;
    free tmp_str;;
    mret 0.

(** ** Callbacks *)

(** [remote_str]: what printf reads for it. *)
Definition print_strings (label local_str : string) (remote_str : UM (list mbyte)) (length : Z)
  : UM unit :=
  printf "\n\n----- UCT TEST SUCCESS ----\n\n" [];;
  s ← (if negb (length =? 0) then s ← remote_str; mret (ABytes s) else mret (AStr "<none>"));
  printf "[%s] %s sent %s (%lu bytes)" [AStr label; AStr local_str; s; AZ length];;
  printf "\n\n---------------------------\n" [].

(** The string at the start of the bytes [d]. *)
Definition string_in (d : list mbyte) : UM (list mbyte) :=
  the "read out of bounds" (scan (S (length d)) d).

(** the func_am_t at arg *)
Definition read_func (arg : ptr) : UM func_am_t :=
  c ← read_cell arg;
  match c with CFunc f => mret f | _ => stop (UB "wrong type") end.

(** What is told about the descriptor goes to desc_holder. *)
Definition hello_world (arg : ptr) (data : uct_data) (length flags : Z) : UM Z :=
  func_am_type ← read_func arg;
  let bytes := Some <$> ud_bytes data in
  print_strings "callback" (func_am_t_str func_am_type) (string_in bytes) length;;
  if has_flag flags UCT_CB_PARAM_FLAG_DESC then
    set_uglb (with_desc_holder (UctDesc (ud_desc data) bytes));;
    mret UCS_INPROGRESS
  else
    rdesc ← malloc L (u64 (sizeof_recv_desc + length));
    if bool_decide (rdesc = Null) then chkerr "allocate memory\n";; mret UCS_ERR_NO_MEMORY
    else
      write_mem by_cpu rdesc (Some <$> le_bytes 4 0);;
      d ← the "read out of bounds" (slice 0 length bytes);
      write_mem by_cpu (ptr_add rdesc sizeof_recv_desc) d;;
      set_uglb (with_desc_holder (OwnDesc rdesc));;
      mret UCS_OK.

(** dest is memory of UCT. *)
Definition am_bcopy_data_pack_cb (room : Z) (arg : ptr) : UM (Z * list mbyte) :=
  local (Bytes KHost (replicate (Z.to_nat room) None)) (λ dest,
    c ← read_cell arg;
    match c with
    | CBcopy data len =>
        mem_type_memcpy L dest data len;;
        bs ← read_mem by_lib dest len;
        mret (len, bs)
    | _ => stop (UB "wrong type")
    end).

(** UCT counts the operation, and calls the function when none is left. *)
Definition zcopy_completion_cb (self : ptr) : UM unit :=
  c ← read_cell self;
  match c with
  | CComp count status md memh =>
      if (count =? 0) && (status =? UCS_OK) then
        memh ← the "uninitialised memh" memh;
        when (negb (memh =? UCT_MEM_HANDLE_NULL)) (ucall0 (uct_md_mem_dereg md memh);; mret tt);;
        set_uglb (with_desc_holder Marked)
      else stop (AssertFail "(comp->uct_comp.count == 0) && (self->status == UCS_OK)")
  | _ => stop (UB "wrong type")
  end.
Definition count_down (status : Z) (c : uct_cell) : option uct_cell :=
  match c with
  | CComp count st md memh =>
      Some (CComp (count - 1) (if st =? UCS_OK then status else st) md memh)
  | _ => None
  end.
Definition completion (self : ptr) (status : Z) : UM unit :=
  update_cell "wrong type" self (count_down status);;
  c ← read_cell self;
  match c with
  | CComp count _ _ _ => when (count =? 0) (zcopy_completion_cb self)
  | _ => stop (UB "wrong type")
  end.

Definition uct_handler (cb : uct_cbk) : UM uct_cbr :=
  match cb with
  | Cb_am arg data length flags => st ← hello_world arg data length flags; mret (Answer st)
  | Cb_pack room arg => '(len, bs) ← am_bcopy_data_pack_cb room arg; mret (Packed len bs)
  | Cb_completion self status => completion self status;; mret Done
  end.

(** A call during which callbacks may run. *)
Definition ucall (c : uct_call) : UM (uct_ret c) := ext L uct_handler c.

(** ** Sending *)

(** am_short_args_t: the header, and the payload with its length. *)
Definition am_short_params_pack (buf : ptr) (len : Z) : UM (Z * (ptr * Z)) :=
  bs ← read_mem by_cpu buf sizeof_header;
  vs ← the "uninitialised header" (mapM id bs);
  let header := le_val vs in
  if sizeof_header <? len then mret (header, (ptr_add buf sizeof_header, len - sizeof_header))
  else mret (header, (Null, 0)).

Definition do_am_short (worker ep id test_strlen : Z) (buf : ptr) : UM Z :=
  '(header, (payload, len)) ← am_short_params_pack buf test_strlen;
  do_while fuel
    (bs ← (if len =? 0 then mret [] else read_mem by_lib payload len);
     status ← ucall (uct_ep_am_short ep id header bs);
     ucall (uct_worker_progress worker);;
     mret status)
    (λ status, status =? UCS_ERR_NO_RESOURCE).

Definition do_am_bcopy (worker ep id test_strlen : Z) (buf : ptr) : UM Z :=
  local (Cell KStack (CBcopy buf test_strlen)) (λ args,
    len ← do_while fuel
      (len ← ucall (uct_ep_am_bcopy ep id args);
       ucall (uct_worker_progress worker);;
       mret (len : Z))
      (λ len, len =? UCS_ERR_NO_RESOURCE);
    mret (if 0 <=? len then UCS_OK else len)).

(** Registration of the buffer, where the memory domain needs it: the status, and
    memh if it was assigned. *)
Definition register_buffer (if_info : iface_info_t) (buf : ptr) (test_strlen : Z)
  : UM (Z * option Z) :=
  if has_flag (md_flags (ii_md_attr if_info)) UCT_MD_FLAG_NEED_MEMH then
    '(status, memh) ← ucall0 (uct_md_mem_reg (ii_md if_info) buf test_strlen);
    mret (status, if status =? UCS_OK then Some memh else None)
  else mret (UCS_OK, Some UCT_MEM_HANDLE_NULL).

(** while (!desc_holder) *)
Definition wait_holder (worker : Z) : UM unit :=
  while fuel
    (d ← uglb u_desc_holder; mret (match d with NoDesc => true | _ => false end))
    (ucall (uct_worker_progress worker);; mret tt).

Definition do_am_zcopy (if_info : iface_info_t) (worker ep id test_strlen : Z) (buf : ptr)
  : UM Z :=
  '(status, memh) ← register_buffer if_info buf test_strlen;
  local (Cell KStack (CComp 1 UCS_OK (ii_md if_info) memh)) (λ comp,
    if negb (status =? UCS_OK) then mret status
    else
      status ← do_while fuel
        (bs ← read_mem by_lib buf test_strlen;
         status ← ucall (uct_ep_am_zcopy ep id buf bs memh comp);
         ucall (uct_worker_progress worker);;
         mret (status : Z))
        (λ status, status =? UCS_ERR_NO_RESOURCE);
      if status =? UCS_INPROGRESS then wait_holder worker;; mret UCS_OK
      else mret status).
End send.
