(* ===== verification/UctLookup.v ===== *)
(** * uct_hello_world.c: the transport

    init_iface and dev_tl_lookup. The loops over components, memory domains and
    transports are functions of their own: they answer the result the lookup ends
    with ([inl]), or iface_p->iface, with which it goes on ([inr]). *)

From S2P Require Import Prelude CRuntime CLib Ucx HelloUtil OobSocket UctApi UctSend.
Open Scope Z_scope.

(** UCS_BIT(test_mem_type) *)
Definition UCS_BIT (n : Z) : Z := Z.shiftl 1 n.

Definition no_attr : iface_attr_t := IfaceAttr 0 0 0 0 0 0 0.
Definition no_md_attr : md_attr_t := MdAttr 0 0.
(** iface_info_t where nothing of it will be used. *)
Definition no_info : iface_info_t := IfaceInfo no_attr 0 no_md_attr 0.

Section lookup.
Context `{!Ucs, !Cuda, !Uct} (L : uct_lib) (fuel : nat).

(** The requested active messages are supported. *)
Definition supported (f : func_am_t) (attr : iface_attr_t) : UM bool :=
  g ← get_glob;
  match f with
  | FUNC_AM_SHORT =>
      if has_flag (if_flags attr) UCT_IFACE_FLAG_AM_SHORT then
        if bool_decide (u_test_mem_type g = UCS_MEMORY_TYPE_CUDA) then
          eprintf "AM short protocol doesn't support CUDA memory" [];; mret false
        else mret true
      else mret false
  | FUNC_AM_BCOPY => mret (has_flag (if_flags attr) UCT_IFACE_FLAG_AM_BCOPY)
  | FUNC_AM_ZCOPY => mret (has_flag (if_flags attr) UCT_IFACE_FLAG_AM_ZCOPY)
  end.

(** The status, iface_p->iface and iface_p->iface_attr. *)
Definition init_iface (tl : tl_resource) (f : func_am_t) (md worker iface : Z)
  : UM (Z * (Z * iface_attr_t)) :=
  '(status, config) ← ucall0 L (uct_md_iface_config_read md (tl_res_name tl));
  if negb (status =? UCS_OK) then
    chkerr "setup iface_config";; mret (UCS_ERR_UNSUPPORTED, (iface, no_attr))
  else if negb (iface =? 0) then stop (AssertFail "iface_p->iface == NULL")
  else
    '(status, opened) ← ucall L (uct_iface_open md worker (tl_res_name tl) (tl_res_dev tl)
                                   sizeof_recv_desc config);
    ucall0 L (uct_config_release config);;
    if negb (status =? UCS_OK) then
      chkerr "open temporary interface";; mret (UCS_ERR_UNSUPPORTED, (iface, no_attr))
    else
      ucall0 L (uct_iface_progress_enable opened);;
      '(status, attr) ← ucall0 L (uct_iface_query opened);
      ok ← (if negb (status =? UCS_OK) then chkerr "query iface";; mret false
            else supported f attr);
      if (ok : bool) then mret (UCS_OK, (opened, attr))
      else
        ucall0 L (uct_iface_close opened);;
        mret (UCS_ERR_UNSUPPORTED, (0, no_attr)).

(** The transport has the names of the command line (strcmp does not take NULL). *)
Definition is_requested (args : cmd_args_t) (tl : tl_resource) : UM bool :=
  dev ← the "null dev_name" (dev_name args);
  if bool_decide (dev = tl_res_dev tl) then
    name ← the "null tl_name" (tl_name args);
    mret (bool_decide (name = tl_res_name tl))
  else mret false.

(** for (tl_index = 0; ...): the attributes if a transport was found, and
    iface_p->iface. *)
Fixpoint select_tl (args : cmd_args_t) (md_name : string) (md_attr : md_attr_t)
    (md worker iface : Z) (tls : list tl_resource) : UM (option iface_attr_t * Z) :=
  match tls with
  | [] => mret (None, iface)
  | tl :: tls' =>
      requested ← is_requested args tl;
      if (requested : bool) then
        g ← get_glob;
        if bool_decide (func_am_type args = FUNC_AM_ZCOPY) &&
           negb (has_flag (reg_mem_types md_attr) (UCS_BIT (mem_type_num (u_test_mem_type g))))
        then
          eprintf "Unsupported memory type %s by %s/%s on %s MD\n"
            [AZ (mem_type_num (u_test_mem_type g)); AStr (tl_res_name tl); AStr (tl_res_dev tl);
             AStr md_name];;
          mret (None, iface)
        else
          '(status, (iface, attr)) ← init_iface tl (func_am_type args) md worker iface;
          if negb (status =? UCS_OK) then mret (None, iface)
          else
            printf "Using %s/%s\n" [AStr (tl_res_name tl); AStr (tl_res_dev tl)];;
            mret (Some attr, iface)
      else select_tl args md_name md_attr md worker iface tls'
  end.

(** One memory domain. *)
Definition lookup_md (args : cmd_args_t) (worker component : Z) (md_name : string) (iface : Z)
  : UM ((Z * iface_info_t) + Z) :=
  '(status, md_config) ← ucall0 L (uct_md_config_read component);
  if negb (status =? UCS_OK) then chkerr "read MD config";; mret (inl (status, no_info))
  else
    '(status, md) ← ucall0 L (uct_md_open component md_name md_config);
    ucall0 L (uct_config_release md_config);;
    if negb (status =? UCS_OK) then chkerr "open memory domains";; mret (inl (status, no_info))
    else
      '(status, md_attr) ← ucall0 L (uct_md_query md);
      if negb (status =? UCS_OK) then
        chkerr "query iface";; ucall0 L (uct_md_close md);; mret (inl (status, no_info))
      else
        '(status, (resources, tls)) ← ucall0 L (uct_md_query_tl_resources md);
        if negb (status =? UCS_OK) then
          chkerr "query transport resources";;
          ucall0 L (uct_md_close md);; mret (inl (status, no_info))
        else
          '(found, iface) ← select_tl args md_name md_attr md worker iface tls;
          ucall0 L (uct_release_tl_resource_list resources);;
          match found with
          | Some attr => mret (inl (UCS_OK, IfaceInfo attr iface md_attr md))
          | None => ucall0 L (uct_md_close md);; mret (inr iface)
          end.

(** for (md_index = 0; ...), [n] rounds over the names that were filled in. *)
Fixpoint lookup_mds (args : cmd_args_t) (worker component : Z) (n : nat) (names : list string)
    (iface : Z) : UM ((Z * iface_info_t) + Z) :=
  match n, names with
  | O, _ => mret (inr iface)
  | S _, [] => stop (UB "uninitialised md_resources")
  | S n', md_name :: names' =>
      r ← lookup_md args worker component md_name iface;
      match r with
      | inl x => mret (inl x)
      | inr iface => lookup_mds args worker component n' names' iface
      end
  end.

Definition lookup_component (args : cmd_args_t) (worker component : Z)
  : UM ((Z * iface_info_t) + Z) :=
  '(status, count) ← ucall0 L (uct_component_query_count component);
  if negb (status =? UCS_OK) then
    chkerr "query component attributes";; mret (inl (status, no_info))
  else
    '(status, names) ← ucall0 L (uct_component_query_resources component count);
    if negb (status =? UCS_OK) then
      chkerr "query for memory domain resources";; mret (inl (status, no_info))
    else lookup_mds args worker component (Z.to_nat count) names 0.

(** for (cmpt_index = 0; ...) *)
Fixpoint lookup_components (args : cmd_args_t) (worker : Z) (components : list Z)
  : UM (option (Z * iface_info_t)) :=
  match components with
  | [] => mret None
  | c :: cs =>
      r ← lookup_component args worker c;
      match r with inl x => mret (Some x) | inr _ => lookup_components args worker cs end
  end.

Definition dev_tl_lookup (args : cmd_args_t) (worker : Z) : UM (Z * iface_info_t) :=
  '(status, (list, components)) ← ucall0 L uct_query_components;
  if negb (status =? UCS_OK) then chkerr "query for components";; mret (status, no_info)
  else
    r ← lookup_components args worker components;
    x ← match r with
        | Some x => mret x
        | None =>
            eprintf "No supported (dev/tl) found (%s/%s)\n"
              [AStr (default "(null)" (dev_name args)); AStr (default "(null)" (tl_name args))];;
            mret (UCS_ERR_UNSUPPORTED, no_info)
        end;
    ucall0 L (uct_release_component_list list);;
    mret x.
End lookup.
