(* ===== verification/UctOptions.v ===== *)
(** * uct_hello_world.c: the command line

    print_err_usage and parse_cmd; the answers of getopt are handled one by one
    ([uct_parse_opt]). *)

From S2P Require Import Prelude CRuntime CLib Ucx HelloUtil OobSocket UctApi UctSend.
From Stdlib Require Import Ascii.
Open Scope Z_scope.

Definition AF_INET : Z := 2.
Definition AF_INET6 : Z := 10.

(** Assignments to members of cmd_args_t. *)
Definition with_server_name s a := CmdArgs (Some s) (uct_server_port a) (uct_ai_family a)
  (func_am_type a) (dev_name a) (tl_name a) (test_strlen a).
Definition with_port p a := CmdArgs (server_name a) p (uct_ai_family a)
  (func_am_type a) (dev_name a) (tl_name a) (test_strlen a).
Definition with_family f a := CmdArgs (server_name a) (uct_server_port a) f
  (func_am_type a) (dev_name a) (tl_name a) (test_strlen a).
Definition with_func f a := CmdArgs (server_name a) (uct_server_port a) (uct_ai_family a)
  f (dev_name a) (tl_name a) (test_strlen a).
Definition with_dev s a := CmdArgs (server_name a) (uct_server_port a) (uct_ai_family a)
  (func_am_type a) (Some s) (tl_name a) (test_strlen a).
Definition with_tl s a := CmdArgs (server_name a) (uct_server_port a) (uct_ai_family a)
  (func_am_type a) (dev_name a) (Some s) (test_strlen a).
Definition with_strlen n a := CmdArgs (server_name a) (uct_server_port a) (uct_ai_family a)
  (func_am_type a) (dev_name a) (tl_name a) n.

Definition default_args : cmd_args_t := CmdArgs None 13337 AF_INET FUNC_AM_SHORT None None 16.

Definition uct_optstring : string := "6ibzd:t:n:p:s:m:h".

Section options.
Context `{!Ucs, !Cuda}.

Definition print_err_usage : UM Z :=
  let func_template := "  -%c      Select " +:+ String "034" ("%s" +:+ String "034" " function to send the message%s\n") in
  let func c f note := eprintf func_template [AStr c; AStr (func_am_t_str f); AStr note] in
  eprintf "Usage: uct_hello_world [parameters]\n" [];;
  eprintf "UCT hello world client/server example utility\n" [];;
  eprintf "\nParameters are:\n" [];;
  func "i" FUNC_AM_SHORT " (default)";;
  func "b" FUNC_AM_BCOPY "";;
  func "z" FUNC_AM_ZCOPY "";;
  eprintf "  -d        Select device name\n" [];;
  eprintf "  -t        Select transport layer\n" [];;
  eprintf "  -n <name> Set node name or IP address of the server (required for client and should be ignored for server)\n" [];;
  print_common_help;;
  eprintf "\nExample:\n" [];;
  eprintf "  Server: uct_hello_world -d eth0 -t tcp\n" [];;
  eprintf "  Client: uct_hello_world -d eth0 -t tcp -n localhost\n" [];;
  mret UCS_ERR_UNSUPPORTED.

(** One round of the loop: [inr ret] leaves the function with [ret]. *)
Definition uct_parse_opt (o : ascii * string) (args : cmd_args_t) : UM (cmd_args_t + Z) :=
  let '(c, optarg) := o in
  let continue_ args := mret (inl args) : UM (cmd_args_t + Z) in
  if char_eqb c "i" then continue_ (with_func FUNC_AM_SHORT args)
  else if char_eqb c "b" then continue_ (with_func FUNC_AM_BCOPY args)
  else if char_eqb c "z" then continue_ (with_func FUNC_AM_ZCOPY args)
  else if char_eqb c "d" then continue_ (with_dev optarg args)
  else if char_eqb c "t" then continue_ (with_tl optarg args)
  else if char_eqb c "n" then continue_ (with_server_name optarg args)
  else if char_eqb c "6" then continue_ (with_family AF_INET6 args)
  else if char_eqb c "p" then
    let args := with_port (u16 (atoi optarg)) args in
    if uct_server_port args <=? 0 then
      eprintf "Wrong server port number %d\n" [AZ (uct_server_port args)];;
      mret (inr UCS_ERR_UNSUPPORTED)
    else continue_ args
  else if char_eqb c "s" then
    let args := with_strlen (atol optarg) args in
    if test_strlen args <? 0 then
      eprintf "Wrong string size %ld\n" [AZ (test_strlen args)];;
      mret (inr UCS_ERR_UNSUPPORTED)
    else continue_ args
  else if char_eqb c "m" then
    ty ← parse_mem_type optarg;
    set_uglb (with_test_mem_type ty);;
    if bool_decide (ty = UCS_MEMORY_TYPE_LAST) then mret (inr UCS_ERR_UNSUPPORTED)
    else continue_ args
  else ret ← print_err_usage; mret (inr ret).

Fixpoint uct_parse_opts (os : list (ascii * string)) (args : cmd_args_t) : UM (cmd_args_t + Z) :=
  match os with
  | [] => mret (inl args)
  | o :: os' =>
      r ← uct_parse_opt o args;
      match r with inl args' => uct_parse_opts os' args' | inr ret => mret (inr ret) end
  end.

(** The warnings about operands. *)
Fixpoint warn_operands (xs : list string) : UM unit :=
  match xs with
  | [] => mret tt
  | x :: xs' => eprintf "WARNING: Non-option argument %s\n" [AStr x];; warn_operands xs'
  end.

(** [argv] without the program name. The arguments, or a result that is not
    UCS_OK. *)
Definition uct_parse_cmd (argv : list string) : UM (cmd_args_t + Z) :=
  r ← uct_parse_opts (getopt uct_optstring argv) default_args;
  match r with
  | inr ret => mret (inr ret)
  | inl args =>
      printf "INFO: UCT_HELLO_WORLD AM function = %s server = %s port = %d\n"
        [AStr (func_am_t_str (func_am_type args)); AStr (default "(null)" (server_name args));
         AZ (uct_server_port args)];;
      warn_operands (operands uct_optstring argv);;
      match dev_name args, tl_name args with
      | None, _ =>
          eprintf "WARNING: device is not set\n" [];;
          ret ← print_err_usage; mret (inr ret)
      | Some _, None =>
          eprintf "WARNING: transport layer is not set\n" [];;
          ret ← print_err_usage; mret (inr ret)
      | Some _, Some _ => mret (inl args)
      end
  end.
End options.
