(* ===== verification/UctMain.v ===== *)
(** * uct_hello_world.c: sendrecv and main

    The gotos of main lead to its cleanup labels, from which control falls through
    to the next label: [uct_label] has the labels that are reached from more than
    one scope, with the variables the code behind them needs, and [cleanup] is that
    code. The labels after them each end one scope and are written there. *)

From S2P Require Import Prelude CRuntime CLib Ucx HelloUtil OobSocket UctApi UctSend UctLookup.
From S2P Require Import UctOptions.
Open Scope Z_scope.

(** An address exchanged: the result of sendrecv, and what it stored at rbuf. *)
Record received : Type := Received { rv_ret : Z; rv_buf : ptr }.

(** The pointer variables of main that its cleanup frees. *)
Record addresses : Type := Addresses {
  own_dev : ptr; own_iface : ptr; peer_dev : ptr; peer_iface : ptr; own_ep : ptr; peer_ep : ptr;
}.
Definition with_peer_dev p a :=
  Addresses (own_dev a) (own_iface a) p (peer_iface a) (own_ep a) (peer_ep a).
Definition with_peer_iface p a :=
  Addresses (own_dev a) (own_iface a) (peer_dev a) p (own_ep a) (peer_ep a).
Definition with_own_ep p a :=
  Addresses (own_dev a) (own_iface a) (peer_dev a) (peer_iface a) p (peer_ep a).
Definition with_peer_ep p a :=
  Addresses (own_dev a) (own_iface a) (peer_dev a) (peer_iface a) (own_ep a) p.

Inductive uct_label : Type :=
  | out_free_ep (ep : Z)
  | out_free_ep_addrs
  | out_close_oob_sock
  | out_free_if_addrs.

(** The end of a part of main by a goto: status, the variables, the label. *)
Abbreviation exit_to := (Z * addresses * uct_label)%type.

(** SIZE_MAX / 2 *)
Definition SIZE_MAX_2 : Z := 2 ^ 63 - 1.

Section main.
Context `{!Ucs, !Cuda, !Uct} (L : uct_lib) (fuel : nat).

(** ** Exchange over the socket *)

(** A size_t that is 0, after recv stored [bs] in it. *)
Definition stored_size (bs : list Z) : UM Z :=
  bs' ← the "write out of bounds" (splice 0 bs (le_bytes 8 0)); mret (le_val bs').

(** What recv stored at *rbuf, and its result as an int. *)
Definition recv_into (sock : Z) (rbuf : ptr) (rlen : Z) : UM Z :=
  '(n, bs) ← ucall0 L (sock_recv sock rlen);
  write_mem by_cpu rbuf (Some <$> bs);;
  mret (s32 n).

Definition sendrecv (sock : Z) (sbuf : ptr) (slen : Z) : UM received :=
  n ← ucall0 L (sock_send sock (Some <$> le_bytes 8 slen));
  if negb (s32 n =? 8) then
    eprintf "failed to send buffer length\n" [];; mret (Received (-1) Null)
  else
    bs ← read_mem by_lib sbuf slen;
    n ← ucall0 L (sock_send sock bs);
    let ret := s32 n in
    if negb (ret =? s32 slen) then
      eprintf "failed to send buffer, return value %d\n" [AZ ret];; mret (Received (-1) Null)
    else
      '(n, bs) ← ucall0 L (sock_recv sock 8);
      rlen ← stored_size bs;
      let ret := s32 n in
      if negb (ret =? 8) || (SIZE_MAX_2 <? rlen) then
        eprintf "failed to receive device address length, return value %d\n" [AZ ret];;
        mret (Received (-1) Null)
      else
        rbuf ← calloc L rlen;
        if bool_decide (rbuf = Null) then
          eprintf "failed to allocate receive buffer\n" [];; mret (Received (-1) Null)
        else
          ret ← recv_into sock rbuf rlen;
          if negb (ret =? s32 rlen) then
            eprintf "failed to receive device address, return value %d\n" [AZ ret];;
            mret (Received (-1) rbuf)
          else mret (Received 0 rbuf).

(** What is at a pointer that is handed to UCT. *)
Definition contents_at (p : ptr) : UM contents :=
  match p with
  | Null => mret None
  | Loc b off =>
      o ← lookup_obj "read of a dead object" b;
      match o with
      | Bytes _ d => mret (Some (drop (Z.to_nat off) d))
      | _ => stop (UB "bytes of a typed object")
      end
  | _ => stop (UB "read through an invalid pointer")
  end.

(** A call that stores an address. *)
Definition get_address (call : UM (Z * list Z)) (store : ptr) : UM Z :=
  '(status, bs) ← call;
  write_mem by_cpu store (Some <$> bs);;
  mret status.

Definition progress_worker (worker : Z) : UM unit := ucall L (uct_worker_progress worker);; mret tt.

(** barrier(oob_sock, progress_worker, if_info.worker) *)
Definition wait_peer (worker oob_sock : Z) : UM Z :=
  barrier L fuel oob_sock (progress_worker worker).

(** if (device_addr_len > 0) ... *)
Definition exchange_device (if_info : iface_info_t) (oob_sock status : Z) (a : addresses)
  : UM (exit_to + Z * addresses) :=
  let len := device_addr_len (ii_attr if_info) in
  if 0 <? len then
    status ← get_address (ucall L (uct_iface_get_device_address (ii_iface if_info))) (own_dev a);
    if negb (status =? UCS_OK) then
      chkerr "get device address";; mret (inl (status, a, out_free_if_addrs))
    else
      r ← sendrecv oob_sock (own_dev a) len;
      let a := with_peer_dev (rv_buf r) a in
      if negb (rv_ret r =? 0) then
        chkerr "device exchange";; mret (inl (UCS_ERR_NO_MESSAGE, a, out_close_oob_sock))
      else mret (inr (status, a))
  else mret (inr (status, a)).

(** if (iface_addr_len > 0) ... *)
Definition exchange_iface (if_info : iface_info_t) (oob_sock status : Z) (a : addresses)
  : UM (exit_to + Z * addresses) :=
  let len := iface_addr_len (ii_attr if_info) in
  if 0 <? len then
    status ← get_address (ucall L (uct_iface_get_address (ii_iface if_info))) (own_iface a);
    if negb (status =? UCS_OK) then
      chkerr "get interface address";; mret (inl (status, a, out_close_oob_sock))
    else
      r ← sendrecv oob_sock (own_iface a) len;
      let a := with_peer_iface (rv_buf r) a in
      if negb (rv_ret r =? 0) then
        chkerr "ifaces exchange";; mret (inl (rv_ret r, a, out_close_oob_sock))
      else mret (inr (rv_ret r, a))
  else mret (inr (status, a)).

(** ** The endpoint *)

(** UCT_IFACE_FLAG_CONNECT_TO_EP *)
Definition connect_to_ep (if_info : iface_info_t) (worker oob_sock : Z) (a : addresses)
  : UM (exit_to + Z * addresses * Z) :=
  let len := ep_addr_len (ii_attr if_info) in
  own_ep ← calloc L len;
  let a := with_own_ep own_ep a in
  if bool_decide (own_ep = Null) then
    chkerr "allocate memory for ep addrs";; mret (inl (UCS_ERR_NO_MEMORY, a, out_close_oob_sock))
  else
    '(status, ep) ← ucall L (uct_ep_create (ii_iface if_info) None);
    if negb (status =? UCS_OK) then
      chkerr "create endpoint";; mret (inl (status, a, out_free_ep_addrs))
    else
      status ← get_address (ucall L (uct_ep_get_address ep)) own_ep;
      if negb (status =? UCS_OK) then
        chkerr "get endpoint address";; mret (inl (status, a, out_free_ep ep))
      else
        r ← sendrecv oob_sock own_ep len;
        let a := with_peer_ep (rv_buf r) a in
        if negb (rv_ret r =? 0) then
          chkerr "EPs exchange";; mret (inl (rv_ret r, a, out_free_ep ep))
        else
          dev ← contents_at (peer_dev a);
          ep_addr ← contents_at (peer_ep a);
          status ← ucall L (uct_ep_connect_to_ep ep dev ep_addr);
          b ← wait_peer worker oob_sock;
          if negb (b =? 0) then mret (inl (UCS_ERR_IO_ERROR, a, out_free_ep ep))
          else mret (inr ((status : Z), a, ep)).

(** UCT_IFACE_FLAG_CONNECT_TO_IFACE *)
Definition connect_to_iface (if_info : iface_info_t) (a : addresses)
  : UM (exit_to + Z * addresses * Z) :=
  dev ← contents_at (peer_dev a);
  iface_addr ← contents_at (peer_iface a);
  '(status, ep) ← ucall L (uct_ep_create (ii_iface if_info) (Some (dev, iface_addr)));
  if negb (status =? UCS_OK) then
    chkerr "create endpoint";; mret (inl (status, a, out_free_ep_addrs))
  else mret (inr ((status : Z), a, ep)).

Definition create_ep (if_info : iface_info_t) (worker oob_sock : Z) (a : addresses)
  : UM (exit_to + Z * addresses * Z) :=
  let flags := if_flags (ii_attr if_info) in
  if has_flag flags UCT_IFACE_FLAG_CONNECT_TO_EP then connect_to_ep if_info worker oob_sock a
  else if has_flag flags UCT_IFACE_FLAG_CONNECT_TO_IFACE then connect_to_iface if_info a
  else mret (inl (UCS_ERR_UNSUPPORTED, a, out_free_ep_addrs)).

(** ** The message *)

(** Send active message to remote endpoint. *)
Definition do_am (args : cmd_args_t) (if_info : iface_info_t) (worker ep id : Z) (str : ptr)
  : UM Z :=
  match func_am_type args with
  | FUNC_AM_SHORT => do_am_short L fuel worker ep id (test_strlen args) str
  | FUNC_AM_BCOPY => do_am_bcopy L fuel worker ep id (test_strlen args) str
  | FUNC_AM_ZCOPY => do_am_zcopy L fuel if_info worker ep id (test_strlen args) str
  end.

(** The branch of the client: status, and whether the label is reached by a goto. *)
Definition uct_client (args : cmd_args_t) (if_info : iface_info_t) (worker ep id : Z)
  : UM (Z * bool) :=
  str ← mem_type_malloc L (u64 (test_strlen args));
  if bool_decide (str = Null) then
    chkerr "allocate memory";; mret (UCS_ERR_NO_MEMORY, true)
  else
    res ← uct_generate_test_string L str (s32 (test_strlen args));
    if res <? 0 then chkerr "generate test string";; mret (UCS_ERR_NO_MEMORY, true)
    else
      status ← do_am args if_info worker ep id str;
      mem_type_free L str;;
      if negb (status =? UCS_OK) then chkerr "send active msg";; mret (status, true)
      else mret (status, false).

(** rdesc = desc_holder, and its end. *)
Definition print_received (args : cmd_args_t) : UM unit :=
  let show remote :=
    print_strings "main" (func_am_t_str (func_am_type args)) remote (u64 (test_strlen args)) in
  d ← uglb u_desc_holder;
  match d with
  | UctDesc desc data =>
      show (string_in data);;
      ucall L (uct_iface_release_desc desc);;
      mret tt
  | OwnDesc rdesc =>
      show (read_string None (ptr_add rdesc sizeof_recv_desc));;
      bs ← read_mem by_cpu rdesc sizeof_recv_desc;
      vs ← the "uninitialised is_uct_desc" (mapM id bs);
      if le_val vs =? 0 then free rdesc
      else stop (UB "release of a descriptor that is not of UCT")
  | _ => stop (UB "read through an invalid pointer")
  end.

Definition uct_server (args : cmd_args_t) (worker : Z) : UM unit :=
  wait_holder L fuel worker;;
  print_received args.

(** From the length check to out_free_ep; [status] is what it was before. *)
Definition run_am (args : cmd_args_t) (if_info : iface_info_t) (worker ep id oob_sock status : Z)
  : UM Z :=
  let max := func_am_max_size (func_am_type args) (ii_attr if_info) in
  if max <? u64 (test_strlen args) then
    eprintf "Test string is too long: %ld, max supported: %lu\n" [AZ (test_strlen args); AZ max];;
    mret UCS_ERR_UNSUPPORTED
  else
    '(status, jump) ←
      match server_name args with
      | Some _ => uct_client args if_info worker ep id
      | None => uct_server args worker;; mret (status, false)
      end;
    if (jump : bool) then mret status
    else
      b ← wait_peer worker oob_sock;
      mret (if negb (b =? 0) then UCS_ERR_IO_ERROR else status).

(** ** main *)

(** From connect_common to the labels. *)
Definition with_socket (args : cmd_args_t) (if_info : iface_info_t) (worker id oob_sock status : Z)
    (a : addresses) : UM exit_to :=
  if oob_sock <? 0 then
    chkerr "OOB connect";; mret (UCS_ERR_IO_ERROR, a, out_close_oob_sock)
  else
    r ← exchange_device if_info oob_sock status a;
    match r with
    | inl x => mret x
    | inr (status, a) =>
        r ← exchange_iface if_info oob_sock status a;
        match r with
        | inl x => mret x
        | inr (_, a) =>
            dev ← contents_at (peer_dev a);
            iface_addr ← contents_at (peer_iface a);
            status ← ucall L (uct_iface_is_reachable (ii_iface if_info) dev iface_addr);
            if (status : Z) =? 0 then
              chkerr "reach the peer";; mret (status, a, out_close_oob_sock)
            else
              r ← create_ep if_info worker oob_sock a;
              match r with
              | inl x => mret x
              | inr (status, a, ep) =>
                  status ← run_am args if_info worker ep id oob_sock status;
                  mret (status, a, out_free_ep ep)
              end
        end
    end.

Definition cleanup (oob_sock : Z) (a : addresses) (l : uct_label) : UM unit :=
  match l with
  | out_free_ep ep => ucall L (uct_ep_destroy ep);; mret tt
  | _ => mret tt
  end;;
  match l with
  | out_free_ep _ | out_free_ep_addrs => free (own_ep a);; free (peer_ep a)
  | _ => mret tt
  end;;
  match l with
  | out_free_if_addrs => mret tt
  | _ => ucall0 L (Uct_sock (close_ oob_sock));; mret tt
  end;;
  free (own_iface a);;
  free (peer_iface a);;
  free (own_dev a);;
  free (peer_dev a).

(** From uct_iface_set_am_handler to out_destroy_iface; [arg] is the address of
    cmd_args.func_am_type. *)
Definition with_iface (args : cmd_args_t) (if_info : iface_info_t) (worker : Z) (arg : ptr) : UM Z :=
  let id := 0 in
  status ← ucall L (uct_iface_set_am_handler (ii_iface if_info) id arg);
  if negb ((status : Z) =? UCS_OK) then chkerr "set callback";; mret (status : Z)
  else
    own_dev ← calloc L (device_addr_len (ii_attr if_info));
    if bool_decide (own_dev = Null) then chkerr "allocate memory for dev addr";; mret (status : Z)
    else
      own_iface ← calloc L (iface_addr_len (ii_attr if_info));
      if bool_decide (own_iface = Null) then
        chkerr "allocate memory for if addr";; free own_dev;; mret (status : Z)
      else
        oob_sock ← connect_common L (server_name args) (uct_server_port args) (uct_ai_family args);
        '(status, a, l) ← with_socket args if_info worker id oob_sock status
                            (Addresses own_dev own_iface Null Null Null Null);
        cleanup oob_sock a l;;
        mret (status : Z).

(** From dev_tl_lookup to out_destroy_worker. *)
Definition with_uct_worker (args : cmd_args_t) (worker : Z) (arg : ptr) : UM Z :=
  '(status, if_info) ← dev_tl_lookup L args worker;
  if negb (status =? UCS_OK) then
    chkerr "find supported device and transport";; mret status
  else
    status ← with_iface args if_info worker arg;
    ucall L (uct_iface_close (ii_iface if_info));;
    ucall L (uct_md_close (ii_md if_info));;
    mret status.

(** From ucs_async_context_create to out, for UCS_THREAD_MODE_SINGLE. *)
Definition with_args (args : cmd_args_t) (arg : ptr) : UM Z :=
  '(status, async) ← ucall0 L ucs_async_context_create;
  if negb (status =? UCS_OK) then chkerr "init async context";; mret status
  else
    '(status, worker) ← ucall0 L (uct_worker_create async THREAD_MODE_SINGLE);
    status ←
      (if negb (status =? UCS_OK) then chkerr "create worker";; mret status
       else
         status ← with_uct_worker args worker arg;
         ucall L (uct_worker_destroy worker);;
         mret status);
    ucall0 L (ucs_async_context_destroy async);;
    mret status.

(** [argv] without the program name. *)
Definition uct_main (argv : list string) : UM Z :=
  r ← uct_parse_cmd argv;
  status ← match r with
           | inr _ => mret UCS_ERR_INVALID_PARAM
           | inl args => local (Cell KStack (CFunc (func_am_type args))) (with_args args)
           end;
  mret (if status =? UCS_ERR_UNSUPPORTED then UCS_OK else status).
End main.
