(* ===== verification/UctSteady.v ===== *)
(** * uct_hello_world: states between two steps

    Most calls of the program are no messages and take nothing from the socket:
    they are [silent]. [steady] is a state up to such calls: the static variables,
    the memory, the bytes that passed through a socket, and a [View], that is an
    observation of the history that silent calls and most output do not change.
    The lemmas say how the elementary operations move from one such state to the
    next. *)

From S2P Require Import Prelude CRuntime CLib Ucx HelloUtil OobSocket UctApi UctSend UctLookup.
From S2P Require Import UctOptions UctMain.
Open Scope Z_scope.

(** ** Observations *)

Definition string_format : string := "[%s] %s sent %s (%lu bytes)".

(** Calls other than messages, progress, registrations and descriptors. *)
Definition silent (c : uct_call) : bool :=
  match c with
  | uct_ep_am_short _ _ _ _ | uct_ep_am_bcopy _ _ _ | uct_ep_am_zcopy _ _ _ _ _ _
  | uct_worker_progress _ | uct_md_mem_reg _ _ _ | uct_md_mem_dereg _ _
  | uct_iface_release_desc _ => false
  | _ => true
  end.

Class View {X} (V : history uct_api → X) : Prop := {
  view_call h c r : silent c = true → V (ECall c r :: h) = V h;
  view_alloc h n ok : V (EAlloc n ok :: h) = V h;
  view_out h s f l : f ≠ string_format → V (EOut s f l :: h) = V h;
}.

#[export] Instance view_none : View (λ _ : history uct_api, tt).
Proof. done. Qed.

(** What was sent on a socket, and how much was received. *)
Fixpoint outgoing (fd : Z) (h : history uct_api) : list mbyte :=
  match h with
  | [] => []
  | ECall (sock_send fd' bs) _ :: h' =>
      if fd' =? fd then outgoing fd h' ++ bs else outgoing fd h'
  | _ :: h' => outgoing fd h'
  end.
Fixpoint incoming (fd : Z) (h : history uct_api) : nat :=
  match h with
  | [] => 0%nat
  | ECall (sock_recv fd' _) r :: h' =>
      if fd' =? fd then (incoming fd h' + length (snd (r : Z * list Z)))%nat else incoming fd h'
  | _ :: h' => incoming fd h'
  end.
Definition wire (fd : Z) (h : history uct_api) : list mbyte * nat := (outgoing fd h, incoming fd h).

(** The calls that [wire] observes. *)
Definition wired (c : uct_call) : bool :=
  match c with sock_send _ _ | sock_recv _ _ => true | _ => false end.

Lemma wire_call fd h (c : uct_call) r :
  wired c = false → wire fd (ECall (A := uct_api) c r :: h) = wire fd h.
Proof. by destruct c. Qed.

(** ** States *)

Section steady.
Context {X} (V : history uct_api → X) (fd : Z).

Record steady (g : uct_glob) (h : gmap N (obj uct_cell)) (x : X) (o : list mbyte * nat)
    (w : uct_world) : Prop := {
  st_glob : glob w = g;
  st_heap : heap w = h;
  st_wf : wf_mem w;
  st_view : V (trace w) = x;
  st_wire : wire fd (trace w) = o;
}.

Context `{!View V} `{!Ucs, !Cuda, !Uct} (L : uct_lib).
Implicit Types (w : uct_world) (g : uct_glob) (h : gmap N (obj uct_cell)) (x : X).
Implicit Types (o : list mbyte * nat).
Local Abbreviation no_halt := (λ (_ : halt) (_ : uct_world), False).

(** The parts of a state determine what can be looked up in it. *)
Lemma steady_lookup g h x o w b v : steady g h x o w → h !! b = v → heap w !! b = v.
Proof. by intros [_ -> _ _ _]. Qed.

Lemma steady_ext0 c g h x o (Q : uct_ret c → uct_world → Prop) w :
  silent c = true → wired c = false → steady g h x o w →
  (∀ w', steady g h x o w' → Q (l_ret L (trace w) c) w') → wp no_halt (ucall0 L c) Q w.
Proof.
  intros Hs Hw [Hg Hh Hwf Hv Ho] HQ. apply (wp_ext0 L no_halt c), HQ. split; [done..| |].
  - simpl. by rewrite view_call.
  - simpl. by rewrite wire_call.
Qed.

Lemma steady_call c g h x o (Q : uct_ret c → uct_world → Prop) w :
  l_acts L (trace w) c = [] → silent c = true → wired c = false → steady g h x o w →
  (∀ w', steady g h x o w' → Q (l_ret L (trace w) c) w') → wp no_halt (ucall L c) Q w.
Proof.
  intros Ha Hs Hw Hst HQ. unfold ucall, ext. apply wp_bind, wp_gets. cbv beta. rewrite Ha.
  apply wp_bind, wp_ret. by eapply steady_ext0.
Qed.

Lemma steady_sys op g h x o (Q : sock_ret op → uct_world → Prop) w :
  steady g h x o w →
  (∀ w', steady g h x o w' → Q (l_ret L (trace w) (Uct_sock op)) w') → wp no_halt (sys L op) Q w.
Proof.
  intros Hst HQ. unfold sys. apply wp_bind. eapply (steady_ext0 (Uct_sock op)); [done|done|exact Hst|].
  intros w' Hw'. by apply wp_ret, HQ.
Qed.

Lemma steady_out s f l g h x o w :
  f ≠ string_format → steady g h x o w → steady g h x o (push (EOut s f l) w).
Proof. intros Hf [Hg Hh Hwf Hv Ho]. split; [done..| |done]. simpl. by rewrite view_out. Qed.

Lemma steady_say s f l g h x o (Q : unit → uct_world → Prop) w :
  f ≠ string_format → steady g h x o w → (∀ w', steady g h x o w' → Q tt w') →
  wp no_halt (fprintf s f l) Q w.
Proof. intros Hf Hst HQ. by apply wp_fprintf, HQ, steady_out. Qed.

Lemma steady_alloc n b v g h x o w :
  b = next w → steady g h x o w →
  steady g (<[b := v]> h) x o (World (glob w) (<[b := v]> (heap w)) (N.succ b) (EAlloc n true :: trace w)).
Proof.
  intros -> [Hg Hh Hwf Hv Ho]. split; simpl; [done|by rewrite Hh| |by rewrite view_alloc|done].
  intros b' Hb'. simpl in *. rewrite lookup_insert_ne by lia. apply Hwf. lia.
Qed.

Lemma steady_malloc n v g h x o (Q : ptr → uct_world → Prop) w :
  (∀ tr z, l_alloc L tr z = true) → steady g h x o w →
  (∀ b w', h !! b = None → steady g (<[b := v]> h) x o w' → Q (Loc b 0) w') →
  wp no_halt (malloc_obj L n v) Q w.
Proof.
  intros Hal Hst HQ. apply wp_malloc_obj; [apply Hst|by rewrite Hal|]. intros b _ Hb Hn.
  apply HQ; [|by apply steady_alloc]. by rewrite <-(st_heap _ _ _ _ _ Hst).
Qed.

Lemma steady_heap g h h' x o w :
  (∀ b, (next w ≤ b)%N → h' !! b = None) → steady g h x o w → steady g h' x o (set_heap h' w).
Proof. intros Hwf [Hg Hh _ Hv Ho]. by split. Qed.

Lemma steady_insert b v v' g h x o w :
  h !! b = Some v → steady g h x o w → steady g (<[b := v']> h) x o (set_heap (<[b := v']> (heap w)) w).
Proof.
  intros Hb Hst. pose proof (st_heap _ _ _ _ _ Hst) as Hh. pose proof (st_wf _ _ _ _ _ Hst) as Hwf.
  rewrite Hh. apply (steady_heap g h); [|done]. intros b' Hb'. apply Hwf in Hb'. rewrite Hh in Hb'.
  rewrite lookup_insert_ne; [done|]. intros ->. exact (option_clash _ _ Hb' Hb).
Qed.

Lemma steady_delete b g h x o w :
  steady g h x o w → steady g (delete b h) x o (set_heap (delete b (heap w)) w).
Proof.
  intros Hst. pose proof (st_heap _ _ _ _ _ Hst) as Hh. pose proof (st_wf _ _ _ _ _ Hst) as Hwf.
  rewrite Hh. apply (steady_heap g h); [|done]. intros b' Hb'. apply Hwf in Hb'. rewrite Hh in Hb'.
  rewrite lookup_delete_None. by right.
Qed.

Lemma steady_free b d g h x o (Q : unit → uct_world → Prop) w :
  h !! b = Some (Bytes KHost d) → steady g h x o w →
  (∀ w', steady g (delete b h) x o w' → Q tt w') → wp no_halt (free (Loc b 0)) Q w.
Proof.
  intros Hb Hst HQ. eapply wp_free; [by eapply steady_lookup|done|]. by apply HQ, steady_delete.
Qed.

Lemma steady_write acc b off bs k d d' g h x o (Q : unit → uct_world → Prop) w :
  h !! b = Some (Bytes k d) → acc k = true → splice off bs d = Some d' → steady g h x o w →
  (∀ w', steady g (<[b := Bytes k d']> h) x o w' → Q tt w') →
  wp no_halt (write_mem acc (Loc b off) bs) Q w.
Proof.
  intros Hb Hk Hs Hst HQ. eapply wp_write_mem; [by eapply steady_lookup|done|done|].
  by eapply HQ, steady_insert.
Qed.

(** A local variable. *)
Lemma steady_local {B} v (body : ptr → UM B) g h x o (Q : B → uct_world → Prop) w :
  steady g h x o w →
  (∀ b w', b = next w → h !! b = None → steady g (<[b := v]> h) x o w' →
     wp no_halt (body (Loc b 0)) (λ r w', Q r (set_heap (delete b (heap w')) w')) w') →
  wp no_halt (local v body) Q w.
Proof.
  intros Hst HQ. apply wp_local; [apply Hst|]. intros b Hb Hn.
  apply HQ; [done|by rewrite <-(st_heap _ _ _ _ _ Hst)|]. destruct Hst as [Hg Hh Hwf Hv Ho].
  split; simpl; [done|by rewrite Hh| |done|done]. intros b' Hb'. simpl in *.
  rewrite lookup_insert_ne by lia. apply Hwf. lia.
Qed.
End steady.
