(* ===== verification/UctOwn.v ===== *)
(** * uct_hello_world: ownership of external objects

    What each call of the program does to the UCT objects that are alive
    ([uct_step]): an object is not used after its end, and does not end before the
    objects that were made from it; a component is used while a list that holds it is
    alive. [flying] says which memory domain the completion of an operation may use. The
    sockets are the subject of [descriptors]
    (OobSocket.v). Then the frame conditions of the functions that touch neither. *)

From S2P Require Import Prelude CRuntime CLib Ucx HelloUtil OobSocket Ownership UctApi UctSend.
From S2P Require Import UctLookup UctOptions UctMain.
From stdpp Require Import gmultiset.
Open Scope Z_scope.

(** ** Calls *)

(** What must be gone before an interface, a memory domain or a worker, and the
    context for asynchronous events. *)
Definition needs_iface (x : object) : bool := match x with Ep _ => true | _ => false end.
Definition needs_md (x : object) : bool := match x with Iface _ => true | _ => needs_iface x end.
Definition needs_async (x : object) : bool := match x with Worker _ => true | _ => needs_md x end.

Section step.
Context `{!Ucs}.

(** [None] is misuse. Registrations of memory and the descriptors of messages are
    not among the objects. *)
Definition uct_step (c : uct_call) : uct_ret c → objects → option objects :=
  let ok (st : Z) := st =? UCS_OK in
  match c return uct_ret c → objects → option objects with
  | Uct_cuda _ | sock_send _ _ => λ _ o, Some o
  | Uct_sock _ => λ _ o, Some o
  | sock_recv _ _ => λ _ o, Some o
  | uct_component_query_count c => λ _ o, with_some (lists_component c) o (Some o)
  | uct_component_query_resources c _ => λ _ o, with_some (lists_component c) o (Some o)
  | uct_iface_release_desc _ => λ _ o, Some o
  | ucs_async_context_create => λ r o, make_if (ok r.1) (Async r.2) o
  | ucs_async_context_destroy a => λ _ o, none_left needs_async o (drop_object (Async a) o)
  | uct_worker_create a _ => λ r o, with_objects [Async a] o (make_if (ok r.1) (Worker r.2) o)
  | uct_worker_destroy w => λ _ o, none_left needs_md o (drop_object (Worker w) o)
  | uct_worker_progress w => λ _ o, with_objects [Worker w] o (Some o)
  | uct_query_components => λ r o, make_if (ok r.1) (Components r.2.1 r.2.2) o
  | uct_release_component_list l => λ _ o, drop_first (is_list l) o
  | uct_md_config_read c => λ r o,
      with_some (lists_component c) o (make_if (ok r.1) (Config r.2) o)
  | uct_config_release c => λ _ o, drop_object (Config c) o
  | uct_md_open c _ config => λ r o, with_some (lists_component c) o
      (with_objects [Config config] o (make_if (ok r.1) (Md r.2) o))
  | uct_md_query m => λ _ o, with_objects [Md m] o (Some o)
  | uct_md_query_tl_resources m => λ r o,
      with_objects [Md m] o (make_if (ok r.1) (TlList r.2.1) o)
  | uct_release_tl_resource_list l => λ _ o, drop_object (TlList l) o
  | uct_md_close m => λ _ o, none_left needs_md o (drop_object (Md m) o)
  | uct_md_iface_config_read m _ => λ r o,
      with_objects [Md m] o (make_if (ok r.1) (Config r.2) o)
  | uct_iface_open m w _ _ _ c => λ r o,
      with_objects [Md m; Worker w; Config c] o (make_if (ok r.1) (Iface r.2) o)
  | uct_iface_close i => λ _ o, none_left needs_iface o (drop_object (Iface i) o)
  | uct_iface_progress_enable i => λ _ o, with_objects [Iface i] o (Some o)
  | uct_iface_query i => λ _ o, with_objects [Iface i] o (Some o)
  | uct_iface_set_am_handler i _ _ | uct_iface_is_reachable i _ _ => λ _ o,
      with_objects [Iface i] o (Some o)
  | uct_iface_get_device_address i => λ _ o, with_objects [Iface i] o (Some o)
  | uct_iface_get_address i => λ _ o, with_objects [Iface i] o (Some o)
  | uct_ep_create i _ => λ r o, with_objects [Iface i] o (make_if (ok r.1) (Ep r.2) o)
  | uct_ep_destroy e => λ _ o, drop_object (Ep e) o
  | uct_ep_get_address e => λ _ o, with_objects [Ep e] o (Some o)
  | uct_ep_connect_to_ep e _ _ | uct_ep_am_short e _ _ _ | uct_ep_am_bcopy e _ _
  | uct_ep_am_zcopy e _ _ _ _ _ => λ _ o, with_objects [Ep e] o (Some o)
  | uct_md_mem_reg m _ _ => λ _ o, with_objects [Md m] o (Some o)
  | uct_md_mem_dereg m _ => λ _ o, with_objects [Md m] o (Some o)
  end.

(** What is alive after a history. *)
Fixpoint uct_owned (h : history uct_api) : option objects :=
  match h with
  | [] => Some ∅
  | ECall c r :: h' => uct_owned h' ≫= uct_step c r
  | _ :: h' => uct_owned h'
  end.

(** The sockets: the open descriptors, if none was misused ([OobSocket.oob_step]);
    or the last call closed a negative number while nothing was open, which the
    program does when it cannot connect. *)
Inductive sockets : Type :=
  | Open (s : oob_state)
  | ClosedNegative
  | Misused.

Definition sockets_step (e : sock_event) (k : sockets) : sockets :=
  match k with
  | Open s =>
      match oob_step e s, e with
      | Some s', _ => Open s'
      | None, SockEvent (close_ fd) _ =>
          match s with
          | OobState [] 0 => if fd <? 0 then ClosedNegative else Misused
          | _ => Misused
          end
      | None, _ => Misused
      end
  | _ => Misused
  end.

(** The sockets after a history, and whether uct_iface_get_device_address failed. *)
Definition observe (c : uct_call) : uct_ret c → sockets * bool → sockets * bool :=
  match c return uct_ret c → sockets * bool → sockets * bool with
  | uct_iface_get_device_address _ => λ r k, (k.1, k.2 || negb (r.1 =? UCS_OK))
  | c => λ r k,
      match oob_view (A := uct_api) c r with Some e => (sockets_step e k.1, k.2) | None => k end
  end.
Fixpoint observed (h : history uct_api) : sockets * bool :=
  match h with
  | [] => (Open (OobState [] 0), false)
  | ECall c r :: h' => observe c r (observed h')
  | _ :: h' => observed h'
  end.

(** No object was misused and [o] is alive; no descriptor was misused, and the
    sockets are [k]. *)
Record alive (o : objects) (k : sockets * bool) (w : uct_world) : Prop := {
  al_objects : uct_owned (trace w) = Some o;
  al_sockets : observed (trace w) = k;
  al_proper : k.1 ≠ Misused;
}.
End step.

(** ** Preserved relations *)

(** [UctLocal R]: [R] also ignores assignments to the static variables. *)
Class UctLocal (R : uct_world → uct_world → Prop) : Prop := {
  ul_hello :: HelloQuiet R;
  ul_glob w g : R w (set_glob g w);
}.
#[export] Hint Extern 1 (UctLocal _) => typeclasses eauto : keeps.

(** [UctQuiet R]: moreover [R] ignores the end of a registration. *)
Class UctQuiet (R : uct_world → uct_world → Prop) : Prop := {
  uq_local :: UctLocal R;
  uq_dereg w md memh r : R w (push (ECall (A := uct_api) (uct_md_mem_dereg md memh) r) w);
}.
#[export] Hint Extern 1 (UctQuiet _) => typeclasses eauto : keeps.

Section uct_keeps.
Context `{!Ucs, !Cuda, !Uct} (L : uct_lib) (R : uct_world → uct_world → Prop) `{!UctLocal R}.

Lemma keeps_set_uglb f : keeps R (set_uglb f).
Proof. intros w. apply ul_glob. Qed.
Lemma keeps_uglb {X} (f : uct_glob → X) : keeps R (uglb f).
Proof. unfold uglb. solve_keeps. Qed.
Hint Resolve keeps_set_uglb keeps_uglb : keeps.
Lemma keeps_uct_chkerr m : keeps R (chkerr m : UM unit).
Proof. unfold chkerr. solve_keeps. Qed.
Lemma keeps_uct_calloc n : keeps R (calloc L n).
Proof. unfold calloc. solve_keeps. Qed.
Hint Resolve keeps_uct_chkerr keeps_uct_calloc : keeps.
Lemma keeps_uct_generate p n : keeps R (uct_generate_test_string L p n).
Proof.
  pose proof (keeps_c_int R). unfold uct_generate_test_string, put_char. solve_keeps.
Qed.
Lemma keeps_print_strings l s m n : keeps R m → keeps R (print_strings l s m n).
Proof. intros. unfold print_strings, printf. solve_keeps. Qed.
Lemma keeps_string_in d : keeps R (string_in d).
Proof. unfold string_in. solve_keeps. Qed.
Hint Resolve keeps_print_strings keeps_string_in : keeps.
Lemma keeps_read_func p : keeps R (read_func p).
Proof. unfold read_func. solve_keeps. Qed.
Hint Resolve keeps_read_func : keeps.

Lemma keeps_hello_world arg data len flags : keeps R (hello_world L arg data len flags).
Proof. unfold hello_world, malloc. solve_keeps. Qed.
Lemma keeps_pack room arg : keeps R (am_bcopy_data_pack_cb L room arg).
Proof. unfold am_bcopy_data_pack_cb. solve_keeps. Qed.

(** Every callback but the completion of an operation. *)
Lemma keeps_other_callback cb :
  (∀ self st, cb ≠ Cb_completion self st) → keeps R (uct_handler L cb).
Proof.
  pose proof keeps_hello_world. pose proof keeps_pack. intros Hcb.
  destruct cb; simpl; try solve_keeps. by destruct (Hcb self status).
Qed.

Lemma keeps_count_down why p status : keeps R (update_cell why p (count_down status)).
Proof. apply keeps_update_cell; [typeclasses eauto|]. by intros [] ? [= <-]. Qed.

Lemma keeps_am_short_params p n : keeps R (am_short_params_pack p n).
Proof. unfold am_short_params_pack. solve_keeps. Qed.
Lemma keeps_supported f attr : keeps R (supported f attr).
Proof. unfold supported. solve_keeps. Qed.
Lemma keeps_is_requested args tl : keeps R (is_requested args tl).
Proof. unfold is_requested. solve_keeps. Qed.
Lemma keeps_stored_size bs : keeps R (stored_size bs).
Proof. unfold stored_size. solve_keeps. Qed.
Lemma keeps_contents_at p : keeps R (contents_at p).
Proof. unfold contents_at. solve_keeps. Qed.
Lemma keeps_print_err_usage : keeps R print_err_usage.
Proof. unfold print_err_usage. solve_keeps. Qed.
Hint Resolve keeps_print_err_usage : keeps.
Lemma keeps_uct_parse_opt o args : keeps R (uct_parse_opt o args).
Proof. unfold uct_parse_opt. solve_keeps. Qed.
Lemma keeps_uct_parse_cmd argv : keeps R (uct_parse_cmd argv).
Proof.
  pose proof keeps_uct_parse_opt. unfold uct_parse_cmd, printf.
  apply keeps_bind; [typeclasses eauto|..].
  - generalize (getopt uct_optstring argv) default_args. intros os.
    induction os as [|o os IH]; intros args; simpl; solve_keeps.
  - intros [args|ret]; [|solve_keeps].
    assert (∀ xs, keeps R (warn_operands xs)).
    { intros xs. induction xs as [|x xs IH]; simpl; solve_keeps. }
    solve_keeps.
Qed.
End uct_keeps.

#[export] Hint Resolve keeps_set_uglb keeps_uglb keeps_uct_chkerr keeps_uct_calloc
  keeps_uct_generate keeps_print_strings keeps_string_in keeps_count_down
  keeps_am_short_params keeps_supported keeps_is_requested keeps_stored_size
  keeps_contents_at keeps_uct_parse_cmd : keeps.

Section completion_keeps.
Context `{!Ucs, !Cuda, !Uct} (L : uct_lib) (R : uct_world → uct_world → Prop) `{!UctQuiet R}.

Lemma keeps_zcopy_completion self : keeps R (zcopy_completion_cb L self).
Proof. pose proof uq_dereg. unfold zcopy_completion_cb, ucall0. solve_keeps. Qed.
Hint Resolve keeps_zcopy_completion : keeps.
Lemma keeps_completion self status : keeps R (completion L self status).
Proof. unfold completion. solve_keeps. Qed.
Lemma keeps_uct_handler cb : keeps R (uct_handler L cb).
Proof.
  pose proof keeps_completion.
  destruct cb; try (by apply keeps_other_callback; [typeclasses eauto|]). simpl. solve_keeps.
Qed.
End completion_keeps.

#[export] Hint Resolve keeps_uct_handler : keeps.

Lemma all_uct_local {I} (R : I → uct_world → uct_world → Prop) :
  (∀ i, Interactive (R i)) → (∀ i, UctLocal (R i)) → UctLocal (λ w w', ∀ i, R i w w').
Proof.
  intros HI HR. split; [split|].
  - apply (@inter_quiet _ _ _ (all_interactive R HI)).
  - intros w op r i. apply hq_cuda.
  - intros w g i. apply ul_glob.
Qed.

(** ** Operations in flight

    A zcopy_comp_t names the memory domain of its registration: [flying m w] says
    that the only one is at the block, and with the domain, of [m]. *)
Definition flying (m : option (N * Z)) (w : uct_world) : Prop :=
  ∀ b k n st md h, heap w !! b = Some (Cell k (CComp n st md h)) → m = Some (b, md).

Definition flies m (w w' : uct_world) : Prop := flying m w → flying m w'.

Lemma flying_part m w w' :
  (∀ b o, heap w' !! b = Some o → heap w !! b = Some o) → flying m w → flying m w'.
Proof. intros Hh Hw b k n st md h Hb. by eapply Hw, Hh. Qed.

Lemma flying_insert m w w' b o :
  heap w' = <[b := o]> (heap w) → ordinary_obj o → flying m w → flying m w'.
Proof.
  intros Hh Ho Hw b' k n st md h. rewrite Hh. intros Hb.
  apply lookup_insert_Some in Hb as [[-> ->]|[_ Hb]]; [done|by eapply Hw].
Qed.

#[export] Instance flies_interactive m : Interactive (flies m).
Proof.
  split; [split; [split|..]|..]; try (intros; exact (λ H, H)).
  - split; [by intros ? ?|]. intros w1 w2 w3 H1 H2 H. by apply H2, H1.
  - intros o Ho w Hw. by eapply (flying_insert m w).
  - intros acc p bs w.
    destruct (write_mem_cases acc p bs w) as [->|(b & k & d & d' & _ & _ & ->)]; [by intros Hw|].
    intros Hw. by eapply (flying_insert m w).
  - intros w b k c c' Hb Hcc Hw b' k' n st md h. simpl. intros Hb'.
    apply lookup_insert_Some in Hb' as [[-> [= -> ->]]|[_ Hb']]; [|by eapply Hw].
    destruct c as [| |n' st' md' h']; try done. destruct Hcc as [<- <-]. by eapply Hw.
  - intros w b o _ _ Hw. eapply flying_part; [|exact Hw]. intros b' o'. simpl.
    intros Hb'. by apply lookup_delete_Some in Hb' as [_ ?].
  - intros w o w' Ho Hw' Hw. eapply flying_part; [|apply Hw'; by eapply (flying_insert m w)].
    simpl. intros b o' Hb. by apply lookup_delete_Some in Hb as [_ ?].
Qed.

#[export] Instance flies_local m : UctLocal (flies m).
Proof. split; [split; [typeclasses eauto|]|]; intros; exact (λ H, H). Qed.

(** The two observations of [alive] are not affected by what is not a call, nor by
    the calls inside a callback other than a completion. *)
Definition both `{!Ucs} (w : uct_world) := (uct_owned (trace w), observed (trace w)).

#[export] Instance both_interactive `{!Ucs} : Interactive (same both).
Proof. apply (same_trace_interactive (λ h, (uct_owned h, observed h))). by intros []. Qed.

#[export] Instance both_local `{!Ucs} : UctLocal (same both).
Proof.
  split; [split|]; [typeclasses eauto|..]; intros; unfold same, both; simpl; try done;
    by destruct (uct_owned (trace w)).
Qed.

(** Nothing happens to the objects. *)
Definition calm_step `{!Ucs} (m : option (N * Z)) (w w' : uct_world) : Prop :=
  ∀ i : bool, (if i then flies m else same both) w w'.

#[export] Instance calm_interactive `{!Ucs} m : Interactive (calm_step m).
Proof. apply all_interactive. intros []; typeclasses eauto. Qed.

#[export] Instance calm_local `{!Ucs} m : UctLocal (calm_step m).
Proof.
  apply (all_uct_local (λ i : bool, if i then flies m else same both));
    intros []; typeclasses eauto.
Qed.

#[export] Instance owned_interactive `{!Ucs} : Interactive (same (λ w : uct_world, uct_owned (trace w))).
Proof. apply same_trace_interactive. by intros []. Qed.

#[export] Instance grows_uct : UctQuiet grows.
Proof.
  split; [split; [typeclasses eauto|]|]; intros; [apply grows_set_glob|apply grows_push].
Qed.
