(* ===== verification/UctLife.v ===== *)
(** * uct_hello_world: the life of its objects

    For every behaviour of the outside: each function uses objects that are alive
    and leaves what it found. [held] is the state between two steps: what is alive, and
    the operation in flight, whose completion UCT may run inside any call. *)

From S2P Require Import Prelude CRuntime CLib Ucx HelloUtil OobSocket Ownership UctApi UctSend.
From S2P Require Import UctLookup UctOptions UctMain UctOwn.
From stdpp Require Import gmultiset.
Open Scope Z_scope.

Section life.
Context `{!Ucs, !Cuda, !Uct} (L : uct_lib) (fuel : nat).
Implicit Types (w : uct_world) (o : objects) (k : sockets * bool) (s : oob_state).

(** Wherever the run stops, nothing was misused before. *)
Definition unmisused : halt → uct_world → Prop := λ _ w, ∃ o k, alive o k w.

(** [o] and the sockets [k] are alive, and so is the memory domain of the operation in
    flight, if there is one. *)
Record held (m : option (N * Z)) o k w : Prop := {
  hd_alive : alive o k w;
  hd_flying : flying m w;
  hd_md : ∀ b md, m = Some (b, md) → Md md ∈ o;
}.

(** No operation is in flight. *)
Local Abbreviation at_rest := (held None).

Lemma held_unmisused m o k h w : held m o k w → unmisused h w.
Proof. intros []. by exists o, k. Qed.

Lemma calm {A} m o k (p : UM A) (Q : A → uct_world → Prop) w :
  held m o k w → keeps (calm_step m) p → (∀ a w', held m o k w' → Q a w') →
  wp unmisused p Q w.
Proof.
  intros [[Ho Hs Hp] Hf Hm] Hk HQ. specialize (Hk w).
  assert (∀ w', calm_step m w w' → held m o k w') as Hheld.
  { intros w' Hc. pose proof (Hc false) as Hb. unfold same, both in Hb. simplify_eq.
    split; [split; congruence|by apply (Hc true)|done]. }
  unfold wp. destruct (p w) as [[a|h] w']; simpl in Hk; [by apply HQ, Hheld|].
  by eapply held_unmisused, Hheld.
Qed.

(** One call. *)
Lemma alive_ucall0 m o k c (Q : uct_ret c → uct_world → Prop) w :
  held m o k w →
  (∀ r, ∃ o' k', uct_step c r o = Some o' ∧ observe c r k = k' ∧ k'.1 ≠ Misused ∧
     (∀ b md, m = Some (b, md) → Md md ∈ o') ∧ ∀ w', held m o' k' w' → Q r w') →
  wp unmisused (ucall0 L c) Q w.
Proof.
  intros [[Ho Hs Hp] Hf Hm] Hc. apply wp_ext0.
  destruct (Hc (l_ret L (trace w) c)) as (o' & k' & Hst & Hob & Hp' & Hm' & HQ).
  apply HQ. split; [|exact Hf|done]. split; [|by simpl; rewrite Hs|done]. simpl. by rewrite Ho.
Qed.

(** What a callback reads at an argument is in the memory. *)
Lemma wp_read_any (E : halt → uct_world → Prop) p (Q : uct_cell → uct_world → Prop) w :
  (∀ h, E h w) → (∀ b kind c, heap w !! b = Some (Cell kind c) → Q c w) → wp E (read_cell p) Q w.
Proof.
  intros HE HQ. destruct p as [|b [| |]| |]; try apply HE.
  apply wp_bind, wp_bind, wp_gets. cbv beta.
  destruct (heap w !! b) as [[kind d|kind c]|] eqn:Hb; [apply HE| |apply HE].
  apply wp_ret, wp_ret. by eapply HQ.
Qed.

(** The end of an operation: its memory domain is alive. *)
Lemma completion_held m o k self status w :
  held m o k w → wp unmisused (completion L self status) (λ _, held m o k) w.
Proof.
  intros Hw. apply wp_bind. eapply calm; [exact Hw|solve_keeps|]. intros _ w1 Hw1.
  apply wp_bind, wp_read_any; [intros; by eapply held_unmisused|]. intros b1 kd1 [| |n st1 md1 h1] Hb1.
  1,2: by eapply wp_stop, held_unmisused.
  apply wp_when; intros _; [|done]. apply wp_bind, wp_read_any.
  { intros. by eapply held_unmisused. }
  intros b kd c Hb. destruct c as [| |n' st md h].
  1,2: by eapply wp_stop, held_unmisused.
  destruct (_ && _); [|by eapply wp_stop, held_unmisused].
  destruct h as [h|]; [|by eapply wp_bind, wp_stop, held_unmisused]. apply wp_bind, wp_ret, wp_bind.
  assert (Md md ∈ o) as Hmd by (eapply (hd_md _ _ _ _ Hw1), (hd_flying _ _ _ _ Hw1), Hb).
  apply wp_conseq with (Q := λ _, held m o k).
  - apply wp_when; intros _; [|done]. apply wp_bind, (alive_ucall0 m o k); [done|].
    intros r. exists o, k. split_and!; [|done|apply Hw1|apply Hw1|intros; by apply wp_ret].
    simpl. apply use_ok. by constructor.
  - intros _ w2 Hw2. by eapply calm; [exact Hw2|solve_keeps|].
Qed.

Lemma acts_held m o k xs w :
  held m o k w → wp unmisused (run_acts (uct_handler L) xs) (λ _, held m o k) w.
Proof.
  revert w. induction xs as [|x xs IH]; intros w Hw; simpl; [done|].
  apply wp_bind, wp_conseq with (Q := λ _, held m o k); [|by intros _; apply IH].
  assert ((∃ self st, x = Callback (Cb_completion self st)) ∨
    keeps (calm_step m) (run_act (uct_handler L) x)) as [(self & st & ->)|Hk].
  { destruct x as [cb|p bs].
    - destruct cb; [right|right|left; by do 2 eexists].
      all: apply keeps_bind; [typeclasses eauto|by apply keeps_other_callback; [typeclasses eauto|]|].
      all: intros; apply keeps_emit; intros; apply inter_cb.
    - right. apply keeps_bind; [typeclasses eauto|apply ms_write_mem|].
      intros. apply keeps_emit. intros. apply inter_store. }
  - apply wp_bind, wp_bind. eapply wp_conseq; [by apply completion_held|]. intros r w1 Hw1.
    apply wp_ret. eapply calm; [exact Hw1| |done]. apply keeps_emit. intros. apply inter_cb.
  - by eapply calm.
Qed.

Lemma alive_ucall m o k c (Q : uct_ret c → uct_world → Prop) w :
  held m o k w →
  (∀ r, ∃ o' k', uct_step c r o = Some o' ∧ observe c r k = k' ∧ k'.1 ≠ Misused ∧
     (∀ b md, m = Some (b, md) → Md md ∈ o') ∧ ∀ w', held m o' k' w' → Q r w') →
  wp unmisused (ucall L c) Q w.
Proof.
  intros Ha Hc. unfold ucall, ext. apply wp_bind, wp_gets, wp_bind.
  eapply wp_conseq; [by apply acts_held|]. intros [] w' Ha'. by eapply alive_ucall0.
Qed.

(** A call that only uses objects. *)
Lemma use0 m o k c xs (Q : uct_ret c → uct_world → Prop) w :
  (∀ r, uct_step c r o = with_objects xs o (Some o)) → (∀ r, observe c r k = k) →
  held m o k w → Forall (λ x, x ∈ o) xs → (∀ r w', held m o k w' → Q r w') →
  wp unmisused (ucall0 L c) Q w.
Proof.
  intros Hst Hob Ha Hx HQ. eapply alive_ucall0; [done|]. intros r. exists o, k.
  split_and!; [by rewrite Hst, use_ok|done|apply Ha|apply Ha|by auto].
Qed.
Lemma use_ m o k c xs (Q : uct_ret c → uct_world → Prop) w :
  (∀ r, uct_step c r o = with_objects xs o (Some o)) → (∀ r, observe c r k = k) →
  held m o k w → Forall (λ x, x ∈ o) xs → (∀ r w', held m o k w' → Q r w') →
  wp unmisused (ucall L c) Q w.
Proof.
  intros Hst Hob Ha Hx HQ. eapply alive_ucall; [done|]. intros r. exists o, k.
  split_and!; [by rewrite Hst, use_ok|done|apply Ha|apply Ha|by auto].
Qed.

(** A call that makes an object if it succeeds. *)
Definition also (b : bool) (x : object) o : objects := if b then make x o else o.

Lemma also_make b x y o : also b x (make y o) = make y (also b x o).
Proof. destruct b; simpl; [|done]. unfold make. multiset_solver. Qed.

Lemma make0 o k c xs (x : uct_ret c → object) (ok : uct_ret c → bool)
    (Q : uct_ret c → uct_world → Prop) w :
  (∀ r, uct_step c r o = with_objects xs o (make_if (ok r) (x r) o)) → (∀ r, observe c r k = k) →
  at_rest o k w → Forall (λ y, y ∈ o) xs → (∀ r w', at_rest (also (ok r) (x r) o) k w' → Q r w') →
  wp unmisused (ucall0 L c) Q w.
Proof.
  intros Hst Hob Ha Hx HQ. eapply alive_ucall0; [done|]. intros r. eexists _, k.
  split_and!; [by rewrite Hst, use_ok|done|apply Ha|done|by auto].
Qed.
Lemma make_ o k c xs (x : uct_ret c → object) (ok : uct_ret c → bool)
    (Q : uct_ret c → uct_world → Prop) w :
  (∀ r, uct_step c r o = with_objects xs o (make_if (ok r) (x r) o)) → (∀ r, observe c r k = k) →
  at_rest o k w → Forall (λ y, y ∈ o) xs → (∀ r w', at_rest (also (ok r) (x r) o) k w' → Q r w') →
  wp unmisused (ucall L c) Q w.
Proof.
  intros Hst Hob Ha Hx HQ. eapply alive_ucall; [done|]. intros r. eexists _, k.
  split_and!; [by rewrite Hst, use_ok|done|apply Ha|done|by auto].
Qed.

(** A call that ends an object. *)
Lemma drop0 o k c x (Q : uct_ret c → uct_world → Prop) w :
  (∀ r, uct_step c r (make x o) = Some o) → (∀ r, observe c r k = k) →
  at_rest (make x o) k w → (∀ r w', at_rest o k w' → Q r w') → wp unmisused (ucall0 L c) Q w.
Proof.
  intros Hst Hob Ha HQ. eapply alive_ucall0; [done|]. intros r. exists o, k.
  split_and!; [apply Hst|done|apply Ha|done|by auto].
Qed.
Lemma drop_ o k c x (Q : uct_ret c → uct_world → Prop) w :
  (∀ r, uct_step c r (make x o) = Some o) → (∀ r, observe c r k = k) →
  at_rest (make x o) k w → (∀ r w', at_rest o k w' → Q r w') → wp unmisused (ucall L c) Q w.
Proof.
  intros Hst Hob Ha HQ. eapply alive_ucall; [done|]. intros r. exists o, k.
  split_and!; [apply Hst|done|apply Ha|done|by auto].
Qed.
End life.

Abbreviation at_rest := (held None).

(** The next step makes no call that is observed. *)
Ltac calm :=
  lazymatch goal with |- wp _ (mbind _ _) _ _ => apply wp_bind | _ => idtac end;
  eapply calm; [eassumption|solve_keeps|]; intros ? ? ?.
(** Membership in the objects that are alive. *)
Ltac owned := repeat constructor; unfold also, make in *; multiset_solver.

Lemma unsupported_not_ok `{!Ucs} : (UCS_ERR_UNSUPPORTED =? UCS_OK) = false.
Proof.
  apply Z.eqb_neq. pose proof ucs_errors_neg as He. rewrite List.Forall_forall in He.
  assert (UCS_ERR_UNSUPPORTED < 0) by (apply He; simpl; tauto). rewrite ucs_ok_zero. lia.
Qed.

(** ** The transport *)

Section lookup.
Context `{!Ucs, !Cuda, !Uct} (L : uct_lib) (k : sockets * bool) (wk : Z).
Implicit Types (w : uct_world) (o : objects).

(** What init_iface and dev_tl_lookup leave. *)
Definition with_iface_if (status iface : Z) o : objects := also (status =? UCS_OK) (Iface iface) o.

Lemma init_iface_alive o tl f md iface (Q : Z * (Z * iface_attr_t) → uct_world → Prop) w :
  at_rest o k w → Md md ∈ o → Worker wk ∈ o → (∀ x, x ∈ o → needs_iface x = false) →
  (∀ st i attr w', at_rest (with_iface_if st i o) k w' → Q (st, (i, attr)) w') →
  wp unmisused (init_iface L tl f md wk iface) Q w.
Proof.
  intros Ha Hm Hw Hn HQ. unfold with_iface_if in HQ. unfold init_iface. apply wp_bind.
  eapply (make0 L o k (uct_md_iface_config_read md _) [Md md]) with
    (x := λ r, Config r.2) (ok := λ r, r.1 =? UCS_OK); [done|done|done|owned|].
  intros [st config] w1 Ha1. simpl in Ha1. destruct (st =? UCS_OK); cbn [negb also] in *.
  2: { calm. apply wp_ret, HQ. by rewrite unsupported_not_ok. }
  destruct (iface =? 0); cbn [negb]; [|apply wp_stop; by eapply held_unmisused].
  apply wp_bind. eapply (make_ L (make (Config config) o) k
    (uct_iface_open md wk _ _ _ config) [Md md; Worker wk; Config config]) with
    (x := λ r, Iface r.2) (ok := λ r, r.1 =? UCS_OK); [done|done|done|owned|].
  intros [st2 opened] w2 Ha2. simpl in Ha2. apply wp_bind.
  eapply (drop0 L (also (st2 =? UCS_OK) (Iface opened) o) k (uct_config_release config)
    (Config config)); [by intros; apply drop_ok|done| |].
  { by rewrite <-also_make. }
  intros _ w3 Ha3. destruct (st2 =? UCS_OK); cbn [negb also] in *.
  2: { calm. apply wp_ret, HQ. by rewrite unsupported_not_ok. }
  apply wp_bind. eapply (use0 L _ _ k (uct_iface_progress_enable opened) [Iface opened]);
    [done|done|done|owned|]. intros _ w4 Ha4.
  apply wp_bind. eapply (use0 L _ _ k (uct_iface_query opened) [Iface opened]);
    [done|done|done|owned|]. intros [st3 attr] w5 Ha5.
  apply wp_bind. apply wp_conseq with (Q := λ _, at_rest (make (Iface opened) o) k).
  { destruct (st3 =? UCS_OK); cbn [negb]; [by calm|]. calm. by apply wp_ret. }
  intros [] w6 Ha6; [apply wp_ret, HQ; by rewrite Z.eqb_refl|].
  apply wp_bind. eapply (drop0 L o k (uct_iface_close opened) (Iface opened)); [|done|done|].
  { intros r. simpl. rewrite none_made by done. by apply drop_ok. }
  intros _ w7 Ha7. apply wp_ret, HQ. by rewrite unsupported_not_ok.
Qed.

Lemma select_tl_alive o args name attr md iface tls (Q : option iface_attr_t * Z → uct_world → Prop) w :
  at_rest o k w → Md md ∈ o → Worker wk ∈ o → (∀ x, x ∈ o → needs_iface x = false) →
  (∀ r w', at_rest (also (bool_decide (is_Some r.1)) (Iface r.2) o) k w' → Q r w') →
  wp unmisused (select_tl L args name attr md wk iface tls) Q w.
Proof.
  intros Ha Hm Hw Hn HQ. revert w Ha.
  induction tls as [|tl tls IH]; intros w Ha; simpl; [by apply wp_ret, HQ|].
  calm. case_match; [|by apply IH]. calm. destruct (_ && _).
  { calm. by apply wp_ret, HQ. }
  apply wp_bind. eapply init_iface_alive; [eassumption|done|done|done|].
  intros st i at' w1 Ha1. unfold with_iface_if in Ha1.
  destruct (st =? UCS_OK); cbn [negb] in *; [|by apply wp_ret, HQ].
  unfold printf. calm. by apply wp_ret, HQ.
Qed.

(** What a part of the lookup leaves: a result with UCS_OK comes with an interface
    on a memory domain. *)
Definition found_in (r : Z * iface_info_t) o : objects :=
  if r.1 =? UCS_OK then make (Iface (ii_iface r.2)) (make (Md (ii_md r.2)) o) else o.
Definition found_or (r : (Z * iface_info_t) + Z) o : objects :=
  match r with inl r => found_in r o | inr _ => o end.

Lemma found_failed st info o : (st =? UCS_OK) = false → found_in (st, info) o = o.
Proof. unfold found_in. simpl. by intros ->. Qed.

Lemma found_make r x o : found_in r (make x o) = make x (found_in r o).
Proof. unfold found_in. destruct (_ =? _); [|done]. unfold make. multiset_solver. Qed.

Lemma md_close_alive o md (Q : unit → uct_world → Prop) w :
  at_rest (make (Md md) o) k w → (∀ x, x ∈ o → needs_md x = false) →
  (∀ w', at_rest o k w' → Q tt w') → wp unmisused (ucall0 L (uct_md_close md)) Q w.
Proof.
  intros Ha Hn HQ. eapply (drop0 L o k (uct_md_close md) (Md md)); [|done|done|by intros []].
  intros r. simpl. rewrite none_made by done. by apply drop_ok.
Qed.

(** A list with the component is alive. *)
Definition listed c o : Prop := ∃ x, x ∈ o ∧ lists_component c x = true.

Lemma listed_ok c o r : listed c o → with_some (lists_component c) o r = r.
Proof. intros (x & Hx & Hc). by eapply some_ok. Qed.

Lemma listed_make c x o : listed c o → listed c (make x o).
Proof. intros (y & Hy & Hc). exists y. split; [unfold make; multiset_solver|done]. Qed.

Lemma lookup_md_alive o args c name iface (Q : (Z * iface_info_t) + Z → uct_world → Prop) w :
  at_rest o k w → Worker wk ∈ o → listed c o → (∀ x, x ∈ o → needs_md x = false) →
  (∀ r w', at_rest (found_or r o) k w' → Q r w') →
  wp unmisused (lookup_md L args wk c name iface) Q w.
Proof.
  intros Ha Hw Hc Hn HQ. unfold lookup_md. apply wp_bind.
  eapply (make0 L o k (uct_md_config_read c) []) with
    (x := λ r, Config r.2) (ok := λ r, r.1 =? UCS_OK); [by intros; apply listed_ok|done|done|done|].
  intros [st config] w1 Ha1. simpl in Ha1. destruct (st =? UCS_OK) eqn:Hst; cbn [negb also] in *.
  2: { calm. apply wp_ret, HQ. simpl. by rewrite found_failed. }
  apply wp_bind. eapply (make0 L (make (Config config) o) k (uct_md_open c name config) [Config config])
    with (x := λ r, Md r.2) (ok := λ r, r.1 =? UCS_OK);
    [by intros; apply listed_ok, listed_make|done|done|owned|].
  intros [st2 md] w2 Ha2. simpl in Ha2. apply wp_bind.
  eapply (drop0 L (also (st2 =? UCS_OK) (Md md) o) k (uct_config_release config)
    (Config config)); [by intros; apply drop_ok|done| |].
  { by rewrite <-also_make. }
  intros _ w3 Ha3. destruct (st2 =? UCS_OK) eqn:Hst2; cbn [negb also] in *.
  2: { calm. apply wp_ret, HQ. simpl. by rewrite found_failed. }
  apply wp_bind. eapply (use0 L _ _ k (uct_md_query md) [Md md]); [done|done|done|owned|].
  intros [st3 attr] w4 Ha4. destruct (st3 =? UCS_OK) eqn:Hst3; cbn [negb].
  2: { calm. apply wp_bind. eapply md_close_alive; [eassumption|done|]. intros.
       apply wp_ret, HQ. simpl. by rewrite found_failed. }
  apply wp_bind. eapply (make0 L (make (Md md) o) k (uct_md_query_tl_resources md) [Md md])
    with (x := λ r, TlList r.2.1) (ok := λ r, r.1 =? UCS_OK); [done|done|done|owned|].
  intros [st4 [rs tls]] w5 Ha5. simpl in Ha5. destruct (st4 =? UCS_OK) eqn:Hst4; cbn [negb also] in *.
  2: { calm. apply wp_bind. eapply md_close_alive; [eassumption|done|]. intros.
       apply wp_ret, HQ. simpl. by rewrite found_failed. }
  apply wp_bind. eapply select_tl_alive; [done|owned|owned|..].
  { apply free_made, free_made; [done..|]. intros x Hx. specialize (Hn x Hx). by destruct x. }
  intros [found i] w6 Ha6. simpl in Ha6. apply wp_bind.
  eapply (drop0 L (also (bool_decide (is_Some found)) (Iface i) (make (Md md) o)) k
    (uct_release_tl_resource_list rs) (TlList rs)); [by intros; apply drop_ok|done| |].
  { by rewrite <-also_make. }
  intros _ w7 Ha7. destruct found as [at'|]; simpl in Ha7.
  - apply wp_ret, HQ. unfold found_or, found_in. simpl. by rewrite Z.eqb_refl.
  - apply wp_bind. eapply md_close_alive; [done|done|]. intros. by apply wp_ret, HQ.
Qed.

Lemma lookup_mds_alive o args c n names iface (Q : (Z * iface_info_t) + Z → uct_world → Prop) w :
  at_rest o k w → Worker wk ∈ o → listed c o → (∀ x, x ∈ o → needs_md x = false) →
  (∀ r w', at_rest (found_or r o) k w' → Q r w') →
  wp unmisused (lookup_mds L args wk c n names iface) Q w.
Proof.
  intros Ha Hw Hc Hn HQ. revert names iface w Ha.
  induction n as [|n IH]; intros [|name names] iface w Ha; simpl.
  1,2: by apply wp_ret, HQ.
  { by eapply wp_stop, held_unmisused. }
  apply wp_bind. eapply lookup_md_alive; [done|done|done|done|].
  intros [r|i] w' Ha'; [by apply wp_ret, HQ|by apply IH].
Qed.

Lemma lookup_component_alive o args c (Q : (Z * iface_info_t) + Z → uct_world → Prop) w :
  at_rest o k w → Worker wk ∈ o → listed c o → (∀ x, x ∈ o → needs_md x = false) →
  (∀ r w', at_rest (found_or r o) k w' → Q r w') →
  wp unmisused (lookup_component L args wk c) Q w.
Proof.
  intros Ha Hw Hc Hn HQ. apply wp_bind.
  eapply (use0 L _ o k (uct_component_query_count c) []); [by intros; apply listed_ok|done|done|done|].
  intros [st n] w1 Ha1. destruct (st =? UCS_OK) eqn:Hst; cbn [negb].
  2: { calm. apply wp_ret, HQ. simpl. by rewrite found_failed. }
  apply wp_bind. eapply (use0 L _ o k (uct_component_query_resources c n) []);
    [by intros; apply listed_ok|done|done|done|].
  intros [st2 names] w2 Ha2. destruct (st2 =? UCS_OK) eqn:Hst2; cbn [negb].
  2: { calm. apply wp_ret, HQ. simpl. by rewrite found_failed. }
  by eapply lookup_mds_alive.
Qed.

Lemma lookup_components_alive o args cs (Q : option (Z * iface_info_t) → uct_world → Prop) w :
  at_rest o k w → Worker wk ∈ o → Forall (λ c, listed c o) cs →
  (∀ x, x ∈ o → needs_md x = false) →
  (∀ r w', at_rest (from_option (λ r, found_in r o) o r) k w' → Q r w') →
  wp unmisused (lookup_components L args wk cs) Q w.
Proof.
  intros Ha Hw Hcs Hn HQ. revert w Ha.
  induction Hcs as [|c cs Hc Hcs IH]; intros w Ha; simpl.
  { by apply wp_ret, HQ. }
  apply wp_bind. eapply lookup_component_alive; [done|done|done|done|].
  intros [r|i] w' Ha'; [by apply wp_ret, HQ|by apply IH].
Qed.

Lemma found_free p r o :
  p (Iface (ii_iface r.2)) = false → p (Md (ii_md r.2)) = false →
  (∀ x, x ∈ o → p x = false) → ∀ x, x ∈ found_in r o → p x = false.
Proof.
  intros Hi Hm Ho. unfold found_in. destruct (_ =? _); [|done]. by apply free_made, free_made.
Qed.

Lemma dev_tl_lookup_alive o args (Q : Z * iface_info_t → uct_world → Prop) w :
  at_rest o k w → Worker wk ∈ o → (∀ x, x ∈ o → needs_md x = false) →
  (∀ l x, x ∈ o → is_list l x = false) →
  (∀ r w', at_rest (found_in r o) k w' → Q r w') →
  wp unmisused (dev_tl_lookup L args wk) Q w.
Proof.
  intros Ha Hw Hn Hl HQ. apply wp_bind.
  eapply (make0 L o k uct_query_components []) with
    (x := λ r, Components r.2.1 r.2.2) (ok := λ r, r.1 =? UCS_OK); [done|done|done|done|].
  intros [st [l cs]] w1 Ha1. simpl in Ha1. destruct (st =? UCS_OK) eqn:Hst; cbn [negb also] in *.
  2: { calm. apply wp_ret, HQ. by rewrite found_failed. }
  apply wp_bind. eapply lookup_components_alive; [done|owned|..].
  { apply List.Forall_forall. intros c Hc. exists (Components l cs).
    split; [unfold make; multiset_solver|]. apply bool_decide_eq_true, list_elem_of_In, Hc. }
  { by apply free_made. }
  intros r w2 Ha2. apply wp_bind.
  apply wp_conseq with (Q := λ x, at_rest (found_in x (make (Components l cs) o)) k).
  { destruct r as [r|]; [by apply wp_ret|]. calm. apply wp_ret.
    by rewrite found_failed by apply unsupported_not_ok. }
  intros x w3 Ha3. apply wp_bind.
  eapply (drop0 L (found_in x o) k (uct_release_component_list l) (Components l cs)); [|done| |].
  { intros r'. apply (drop_first_ok _ (Components l cs)); [done|apply Z.eqb_refl|].
    apply found_free; auto. }
  { by rewrite <-found_make. }
  intros _ w4 Ha4. by apply wp_ret, HQ.
Qed.
End lookup.
