(* ===== verification/UctLifeMain.v ===== *)
(** * uct_hello_world: the life of its objects, from the socket to main *)

From S2P Require Import Prelude CRuntime CLib Ucx HelloUtil OobSocket Ownership UctApi UctSend.
From S2P Require Import UctLookup UctOptions UctMain UctOwn UctLife.
From stdpp Require Import gmultiset.
Open Scope Z_scope.

(** ** Sockets *)

Lemma observed_descriptors `{!Ucs} h :
  match (observed h).1 with Open s => descriptors h = Some s | _ => descriptors h = None end.
Proof.
  induction h as [|e h IH]; [done|]. destruct e as [c r| | | |]; try exact IH.
  cbn [observed descriptors].
  assert ((observe c r (observed h)).1 =
    match oob_view (A := uct_api) c r with
    | Some e => sockets_step e (observed h).1 | None => (observed h).1 end) as -> by by destruct c.
  destruct (oob_view c r) as [e|].
  - destruct (observed h).1 as [s| |]; rewrite IH; [|done..].
    unfold mbind, option_bind, sockets_step.
    destruct (oob_step e s) as [s'|]; [done|]. destruct e as [[] ?]; try done.
    destruct s as [[] []]; try done. by destruct (_ <? 0).
  - by destruct (observed h).1; rewrite IH.
Qed.

Lemma observed_open `{!Ucs} h s d : observed h = (Open s, d) → descriptors h = Some s.
Proof. intros Hh. pose proof (observed_descriptors h) as Hd. by rewrite Hh in Hd. Qed.

Lemma open_observed `{!Ucs} h s : descriptors h = Some s → (observed h).1 = Open s.
Proof.
  intros Hh. pose proof (observed_descriptors h) as Hd.
  destruct (observed h).1; rewrite Hh in Hd; by simplify_eq.
Qed.

(** What socket calls do not change. *)
Definition but_sockets `{!Ucs} (w : uct_world) := (uct_owned (trace w), (observed (trace w)).2).

#[export] Instance but_sockets_interactive `{!Ucs} : Interactive (same but_sockets).
Proof. apply (same_trace_interactive (λ h, (uct_owned h, (observed h).2))). by intros []. Qed.

Definition but_sockets_step `{!Ucs} (w w' : uct_world) : Prop :=
  ∀ i : bool, (if i then flies None else same but_sockets) w w'.

#[export] Instance but_sockets_step_interactive `{!Ucs} : Interactive but_sockets_step.
Proof.
  apply (all_interactive (λ i : bool, if i then flies None else same but_sockets)).
  intros []; typeclasses eauto.
Qed.

Section sockets.
Context `{!Ucs, !Cuda, !Uct} (L : uct_lib) (fuel : nat).
Implicit Types (w : uct_world) (o : objects) (s : oob_state).

Lemma connect_common_alive o s d server port af (Q : Z → uct_world → Prop) w :
  at_rest o (Open s, d) w → (∀ r w', at_rest o (Open (open_fd r s), d) w' → Q r w') →
  wp (unmisused) (connect_common L server port af) Q w.
Proof.
  intros [[Ho Hs Hp] Hf Hm] HQ.
  assert (∀ w' s', but_sockets_step w w' → opens_exactly s' w' → at_rest o (Open s', d) w') as Hal.
  { intros w' s' Hstep Hs'. pose proof (Hstep false) as Hsame. unfold same, but_sockets in Hsame.
    simplify_eq. apply open_observed in Hs'.
    split; [split; [congruence| |done]|by apply (Hstep true)|done].
    destruct (observed (trace w')) as [k' d']. simpl in *. rewrite Hs in *. by simplify_eq. }
  apply wp_with_keeps_E with (R := but_sockets_step).
  { apply keeps_connect_common; [apply inter_quiet|]. intros w' op r [].
    - intros Hw'. exact Hw'.
    - unfold same, but_sockets. simpl. by destruct (uct_owned (trace w')). }
  eapply wp_mono; [eapply connect_common_ok with
    (Q := λ r w', opens_exactly (open_fd r s) w'); [by eapply observed_open|done]|..].
  - intros r w' Hs' Hsame. by apply HQ, Hal.
  - intros h w' [_ Hs'] Hsame. by eapply held_unmisused, Hal.
Qed.

(** A use of the open descriptor. *)
Lemma fd_call o s d c fd (Q : uct_ret c → uct_world → Prop) w :
  (∀ r, uct_step c r o = Some o) →
  (∀ r, observe c r (Open s, d) = (match (if decide (fd ∈ open_fds s) then Some s else None) with
     Some s' => Open s' | None => Misused end, d)) →
  fd ∈ open_fds s → at_rest o (Open s, d) w → (∀ r w', at_rest o (Open s, d) w' → Q r w') →
  wp unmisused (ucall0 L c) Q w.
Proof.
  intros Hst Hob Hfd Ha HQ. eapply alive_ucall0; [done|]. intros r. exists o, (Open s, d).
  split_and!; [apply Hst|by rewrite Hob, decide_True|done|done|auto].
Qed.

Lemma progress_alive o k wk (Q : unit → uct_world → Prop) w :
  at_rest o k w → Worker wk ∈ o → (∀ w', at_rest o k w' → Q tt w') →
  wp unmisused (progress_worker L wk) Q w.
Proof.
  intros Ha Hw HQ. apply wp_bind.
  eapply (use_ L _ o k (uct_worker_progress wk) [Worker wk]); [done|done|done|owned|].
  intros. by apply wp_ret, HQ.
Qed.

Lemma sendrecv_alive o s d fd sbuf slen (Q : received → uct_world → Prop) w :
  at_rest o (Open s, d) w → fd ∈ open_fds s → (∀ r w', at_rest o (Open s, d) w' → Q r w') →
  wp unmisused (sendrecv L fd sbuf slen) Q w.
Proof.
  intros Ha Hfd HQ. unfold sendrecv, recv_into. apply wp_bind.
  eapply (fd_call o s d (sock_send fd _) fd); [done|done|done|done|]. intros n w1 Ha1.
  destruct (negb (s32 n =? 8)); [calm; by apply wp_ret, HQ|]. calm.
  apply wp_bind. eapply (fd_call o s d (sock_send fd _) fd); [done|done|done|eassumption|].
  intros n2 w2 Ha2. cbv zeta. destruct (negb (_ =? _)); [calm; by apply wp_ret, HQ|].
  apply wp_bind. eapply (fd_call o s d (sock_recv fd 8) fd); [done|done|done|eassumption|].
  intros [n3 bs] w3 Ha3. calm. destruct (_ || _); [calm; by apply wp_ret, HQ|]. calm.
  case_bool_decide; [calm; by apply wp_ret, HQ|].
  apply wp_bind, wp_bind. eapply (fd_call o s d (sock_recv fd _) fd); [done|done|done|eassumption|].
  intros [n4 bs4] w4 Ha4. calm. apply wp_ret.
  destruct (negb _); [calm; by apply wp_ret, HQ|]. by apply wp_ret, HQ.
Qed.

Lemma wait_peer_alive o s d wk fd (Q : Z → uct_world → Prop) w :
  at_rest o (Open s, d) w → fd ∈ open_fds s → Worker wk ∈ o →
  (∀ r w', at_rest o (Open s, d) w' → Q r w') →
  wp unmisused (wait_peer L fuel wk fd) Q w.
Proof.
  intros Ha Hfd Hw HQ. unfold wait_peer, barrier, sys. apply wp_bind, wp_bind.
  eapply (fd_call o s d (Uct_sock (send_ fd _)) fd); [done|done|done|done|]. intros n w1 Ha1.
  apply wp_ret. cbn [oob_res uct_oob]. destruct (_ <? 0); [by apply wp_ret, HQ|].
  apply wp_bind. unfold do_while. apply wp_loop with (I := λ _, at_rest o (Open s, d));
    [done|intros; by eapply held_unmisused|]. intros [] w2 Ha2. apply wp_bind, wp_bind, wp_bind.
  eapply (fd_call o s d (Uct_sock (poll_in fd 1)) fd); [done|done|done|done|]. intros x w3 Ha3.
  apply wp_ret, wp_bind. eapply progress_alive; [done|done|]. intros w4 Ha4. apply wp_ret.
  destruct (negb _); apply wp_ret; [done|]. apply wp_bind, wp_bind.
  eapply (fd_call o s d (Uct_sock (recv_waitall fd _)) fd); [done|done|done|done|].
  intros y w5 Ha5. by apply wp_ret, wp_ret, HQ.
Qed.
End sockets.

(** ** The message *)

Section message.
Context `{!Ucs, !Cuda, !Uct} (L : uct_lib) (fuel : nat) (wk ep : Z).
Implicit Types (w : uct_world) (o : objects) (k : sockets * bool).

(** A local variable, of an operation in flight or not. *)
Lemma local_held {X} m o k ob (body : ptr → UM X) (Q : X → uct_world → Prop) w :
  at_rest o k w →
  flying m (World (glob w) (<[next w := ob]> (heap w)) (N.succ (next w)) (trace w)) →
  (∀ b md, m = Some (b, md) → b = next w ∧ Md md ∈ o) →
  (∀ p w', held m o k w' → wp unmisused (body p)
     (λ r w'', held m o k w'' ∧ ∀ w3, at_rest o k w3 → Q r w3) w') →
  wp unmisused (local ob body) Q w.
Proof.
  intros [Ha _ _] Hin Hm Hb. apply wp_local_raw. eapply wp_conseq.
  - apply Hb. split; [by destruct Ha|done|]. intros b md Hmd. by apply (Hm b md).
  - intros r w' [[Ha' Hf _] HQ]. apply HQ. split; [by destruct Ha'| |done].
    intros b kd n st md h. simpl. intros Hc. apply lookup_delete_Some in Hc as [Hne Hc].
    destruct (Hm b md) as [-> _]; [by eapply Hf|done].
Qed.

Lemma uct_alive_local {X} o k ob (body : ptr → UM X) (Q : X → uct_world → Prop) w :
  ordinary_obj ob → at_rest o k w →
  (∀ p w', at_rest o k w' → wp unmisused (body p)
     (λ r w'', at_rest o k w'' ∧ ∀ w3, at_rest o k w3 → Q r w3) w') →
  wp unmisused (local ob body) Q w.
Proof.
  intros Ho Hw. apply local_held; [done| |done]. eapply (flying_insert None w); [done..|apply Hw].
Qed.

(** The loops that offer a message until UCT takes it, and a round of them. *)
Lemma offer_alive {X} m o k (b : UM X) again (Q : X → uct_world → Prop) w :
  held m o k w → (∀ w1, held m o k w1 → wp unmisused b (λ _, held m o k) w1) →
  (∀ x w', held m o k w' → Q x w') → wp unmisused (do_while fuel b again) Q w.
Proof.
  intros Ha Hb HQ. apply wp_loop with (I := λ _, held m o k); [done|intros; by eapply held_unmisused|].
  intros [] w1 Ha1. apply wp_bind. eapply wp_conseq; [by apply Hb|]. intros x w2 Ha2.
  by destruct (again x); apply wp_ret; [|apply HQ].
Qed.
Lemma round_alive {X} m o k c (answer : uct_ret c → X) w :
  (∀ r, uct_step c r o = with_objects [Ep ep] o (Some o)) → (∀ r, observe c r k = k) →
  held m o k w → Ep ep ∈ o → Worker wk ∈ o →
  wp unmisused (r ← ucall L c; ucall L (uct_worker_progress wk);; mret (answer r))
     (λ _, held m o k) w.
Proof.
  intros Hst Hob Ha He Hw. apply wp_bind. eapply (use_ L _ o k c [Ep ep]); [done|done|done|owned|].
  intros r w1 Ha1. apply wp_bind.
  eapply (use_ L _ o k (uct_worker_progress wk) [Worker wk]); [done|done|done|owned|].
  intros _ w2 Ha2. by apply wp_ret.
Qed.

Lemma wait_holder_alive m o k (Q : unit → uct_world → Prop) w :
  held m o k w → Worker wk ∈ o → (∀ w', held m o k w' → Q tt w') →
  wp unmisused (wait_holder L fuel wk) Q w.
Proof.
  intros Ha Hw HQ. apply wp_while with (I := held m o k); [done|intros; by eapply held_unmisused|].
  intros w1 Ha1. calm. apply wp_ret. case_match; [|by apply HQ..].
  apply wp_bind. eapply (use_ L _ o k (uct_worker_progress wk) [Worker wk]); [done|done|done|owned|].
  intros. by apply wp_ret.
Qed.

Lemma do_am_short_alive o k id len buf (Q : Z → uct_world → Prop) w :
  at_rest o k w → Ep ep ∈ o → Worker wk ∈ o → (∀ r w', at_rest o k w' → Q r w') →
  wp unmisused (do_am_short L fuel wk ep id len buf) Q w.
Proof.
  intros Ha He Hw HQ. unfold do_am_short. calm. case_match; case_match; subst.
  eapply offer_alive; [eassumption| |exact HQ]. intros w1 Ha1. calm.
  by eapply (round_alive _ o k (uct_ep_am_short ep _ _ _) (λ r, r)).
Qed.

Lemma do_am_bcopy_alive o k id len buf (Q : Z → uct_world → Prop) w :
  at_rest o k w → Ep ep ∈ o → Worker wk ∈ o → (∀ r w', at_rest o k w' → Q r w') →
  wp unmisused (do_am_bcopy L fuel wk ep id len buf) Q w.
Proof.
  intros Ha He Hw HQ. eapply uct_alive_local; [done|done|]. intros p w1 Ha1. apply wp_bind.
  eapply offer_alive; [done| |intros; by apply wp_ret; eauto]. intros w2 Ha2.
  by eapply (round_alive _ o k (uct_ep_am_bcopy ep _ _) (λ r, r)).
Qed.

Lemma do_am_zcopy_alive o k info id len buf (Q : Z → uct_world → Prop) w :
  at_rest o k w → Ep ep ∈ o → Worker wk ∈ o → Md (ii_md info) ∈ o →
  (∀ r w', at_rest o k w' → Q r w') →
  wp unmisused (do_am_zcopy L fuel info wk ep id len buf) Q w.
Proof.
  intros Ha He Hw Hm HQ. unfold do_am_zcopy. apply wp_bind.
  apply wp_conseq with (Q := λ _, at_rest o k).
  { unfold register_buffer. destruct (has_flag _ _); [|by apply wp_ret]. apply wp_bind.
    eapply (use0 L _ o k (uct_md_mem_reg _ _ _) [Md (ii_md info)]); [done|done|done|owned|].
    intros [st h] w1 Ha1. by apply wp_ret. }
  intros [st memh] w1 Ha1. eapply (local_held (Some (next w1, ii_md info))); [done|..].
  { intros b kd n st' md h. simpl. intros Hb. apply lookup_insert_Some in Hb as [[<- [= _ _ _ <- _]]|[_ Hb]]; [done|].
    by destruct Ha1 as [_ Hf _]; apply Hf in Hb. }
  { by intros b md [= <- <-]. }
  intros p w2 Ha2. destruct (negb _); [by apply wp_ret; eauto|]. apply wp_bind.
  eapply offer_alive; [done| |].
  { intros w3 Ha3. calm. by eapply (round_alive _ o k (uct_ep_am_zcopy ep _ _ _ _ _) (λ r, r)). }
  intros r w3 Ha3. destruct (_ =? _); [|by apply wp_ret; eauto]. apply wp_bind.
  eapply wait_holder_alive; [done|done|]. intros w4 Ha4. by apply wp_ret; eauto.
Qed.

Lemma uct_client_alive o k args info id (Q : Z * bool → uct_world → Prop) w :
  at_rest o k w → Ep ep ∈ o → Worker wk ∈ o → Md (ii_md info) ∈ o →
  (∀ r w', at_rest o k w' → Q r w') →
  wp unmisused (uct_client L fuel args info wk ep id) Q w.
Proof.
  intros Ha He Hw Hm HQ. unfold uct_client. calm.
  case_bool_decide; [calm; by apply wp_ret, HQ|]. calm.
  destruct (_ <? 0); [calm; by apply wp_ret, HQ|]. apply wp_bind.
  assert (∀ st w9, at_rest o k w9 → wp unmisused (mem_type_free L a;;
    (if negb (st =? UCS_OK) then chkerr "send active msg";; mret (st, true)
     else mret (st, false))) Q w9) as Hend.
  { intros st w9 Ha9. calm. destruct (negb _); [calm|]; by apply wp_ret, HQ. }
  unfold do_am. destruct (func_am_type args);
    [eapply do_am_short_alive|eapply do_am_bcopy_alive|eapply do_am_zcopy_alive]; eauto.
Qed.

Lemma uct_server_alive o k args (Q : unit → uct_world → Prop) w :
  at_rest o k w → Worker wk ∈ o → (∀ w', at_rest o k w' → Q tt w') →
  wp unmisused (uct_server L fuel args wk) Q w.
Proof.
  intros Ha Hw HQ. unfold uct_server, print_received. apply wp_bind.
  eapply wait_holder_alive; [done|done|]. intros w1 Ha1. calm. case_match.
  1,2: apply wp_stop; by eapply held_unmisused.
  - calm. calm. calm. case_match; [|apply wp_stop; by eapply held_unmisused].
    eapply calm; [eassumption|solve_keeps|]. intros []. apply HQ.
  - calm. apply wp_bind.
    eapply (use_ L _ o k (uct_iface_release_desc _) []); [done|done|eassumption|done|].
    intros. by apply wp_ret, HQ.
Qed.

Lemma run_am_alive o s d args info id fd st (Q : Z → uct_world → Prop) w :
  at_rest o (Open s, d) w → Ep ep ∈ o → Worker wk ∈ o → Md (ii_md info) ∈ o → fd ∈ open_fds s →
  (∀ r w', at_rest o (Open s, d) w' → Q r w') →
  wp unmisused (run_am L fuel args info wk ep id fd st) Q w.
Proof.
  intros Ha He Hw Hm Hfd HQ. unfold run_am. destruct (_ <? _); [calm; by apply wp_ret, HQ|].
  apply wp_bind. apply wp_conseq with (Q := λ _, at_rest o (Open s, d)).
  { destruct (server_name args); [by eapply uct_client_alive|]. apply wp_bind.
    eapply uct_server_alive; [done|done|]. intros. by apply wp_ret. }
  intros [st' []] w1 Ha1; [by apply wp_ret, HQ|]. apply wp_bind.
  eapply wait_peer_alive; [done|done|done|]. intros. by apply wp_ret, HQ.
Qed.
End message.

(** ** main *)

Section main.
Context `{!Ucs, !Cuda, !Uct} (L : uct_lib) (fuel : nat) (args : cmd_args_t) (info : iface_info_t)
  (wk : Z).
Implicit Types (w : uct_world) (o : objects) (s : oob_state).

(** What is alive at a label, and whether the device address is missing there. *)
Definition label_objects (l : uct_label) o : objects :=
  match l with out_free_ep ep => make (Ep ep) o | _ => o end.
Definition label_failed (l : uct_label) : bool :=
  match l with out_free_if_addrs => true | _ => false end.
(** The world at a label. *)
Definition at_label (x : exit_to) o s w : Prop :=
  at_rest (label_objects x.2 o) (Open s, label_failed x.2) w.

(** An address is asked for and stored. *)
Lemma get_address_alive o k call p (Q : Z → uct_world → Prop) w (P : Z → uct_world → Prop) :
  at_rest o k w →
  (∀ w', at_rest o k w' → wp unmisused call (λ r w'', ∃ o' k', at_rest o' k' w'' ∧
     ∀ w3, at_rest o' k' w3 → Q r.1 w3) w') →
  wp unmisused (get_address call p) Q w.
Proof.
  intros Ha Hc. apply wp_bind. eapply wp_conseq; [by apply Hc|].
  intros [st bs] w1 (o' & k' & Ha1 & HQ). calm. by apply wp_ret, HQ.
Qed.

Lemma exchange_device_alive o s fd st a (Q : exit_to + Z * addresses → uct_world → Prop) w :
  at_rest o (Open s, false) w → Iface (ii_iface info) ∈ o → fd ∈ open_fds s →
  (∀ x w', at_label x o s w' → Q (inl x) w') →
  (∀ r w', at_rest o (Open s, false) w' → Q (inr r) w') →
  wp unmisused (exchange_device L info fd st a) Q w.
Proof.
  intros Ha Hi Hfd HL HR. unfold exchange_device. destruct (_ <? _); [|by apply wp_ret, HR].
  apply wp_bind, wp_bind. eapply (alive_ucall L _ o _ (uct_iface_get_device_address _)); [done|].
  intros [st2 bs]. eexists o, (Open s, negb (st2 =? UCS_OK)).
  split_and!; [by apply use_ok; owned|done|done|done|]. intros w1 Ha1. calm. apply wp_ret.
  destruct (st2 =? UCS_OK); cbn [negb] in *; [|calm; by apply wp_ret, HL].
  apply wp_bind. eapply sendrecv_alive; [eassumption|done|]. intros r w3 Ha3.
  destruct (negb _); [calm; by apply wp_ret, HL|by apply wp_ret, HR].
Qed.

Lemma exchange_iface_alive o s fd st a (Q : exit_to + Z * addresses → uct_world → Prop) w :
  at_rest o (Open s, false) w → Iface (ii_iface info) ∈ o → fd ∈ open_fds s →
  (∀ x w', at_label x o s w' → Q (inl x) w') →
  (∀ r w', at_rest o (Open s, false) w' → Q (inr r) w') →
  wp unmisused (exchange_iface L info fd st a) Q w.
Proof.
  intros Ha Hi Hfd HL HR. unfold exchange_iface. destruct (_ <? _); [|by apply wp_ret, HR].
  apply wp_bind, wp_bind.
  eapply (use_ L _ o _ (uct_iface_get_address _) [Iface _]); [done|done|done|owned|].
  intros [st2 bs] w1 Ha1. calm. apply wp_ret.
  destruct (negb _); [calm; by apply wp_ret, HL|].
  apply wp_bind. eapply sendrecv_alive; [eassumption|done|]. intros r w3 Ha3.
  destruct (negb _); [calm; by apply wp_ret, HL|by apply wp_ret, HR].
Qed.

Lemma create_ep_alive o s fd a (Q : exit_to + Z * addresses * Z → uct_world → Prop) w :
  at_rest o (Open s, false) w → Iface (ii_iface info) ∈ o → Worker wk ∈ o → fd ∈ open_fds s →
  (∀ x w', at_label x o s w' → Q (inl x) w') →
  (∀ r ep w', at_rest (make (Ep ep) o) (Open s, false) w' → Q (inr (r, ep)) w') →
  wp unmisused (create_ep L fuel info wk fd a) Q w.
Proof.
  intros Ha Hi Hw Hfd HL HR. unfold create_ep, connect_to_ep, connect_to_iface.
  destruct (has_flag _ _); [|destruct (has_flag _ _); [|by apply wp_ret, HL]].
  - calm. case_bool_decide; [calm; by apply wp_ret, HL|]. apply wp_bind.
    eapply (make_ L o _ (uct_ep_create _ None) [Iface (ii_iface info)]) with
      (x := λ r, Ep r.2) (ok := λ r, r.1 =? UCS_OK); [done|done|eassumption|owned|].
    intros [st ep] w2 Ha2. simpl in Ha2.
    destruct (st =? UCS_OK); cbn [negb also] in *; [|calm; by apply wp_ret, HL].
    apply wp_bind, wp_bind.
    eapply (use_ L _ _ _ (uct_ep_get_address ep) [Ep ep]); [done|done|done|owned|].
    intros [st2 bs] w3 Ha3. calm. apply wp_ret.
    destruct (negb _); [calm; by apply wp_ret, HL|]. apply wp_bind.
    eapply sendrecv_alive; [eassumption|done|]. intros r w5 Ha5.
    destruct (negb _); [calm; by apply wp_ret, HL|]. calm. calm. apply wp_bind.
    eapply (use_ L _ _ _ (uct_ep_connect_to_ep ep _ _) [Ep ep]); [done|done|eassumption|owned|].
    intros st3 w6 Ha6. apply wp_bind. eapply wait_peer_alive; [done|done|owned|].
    intros b w7 Ha7. by destruct (negb _); apply wp_ret; [apply HL|apply HR].
  - calm. calm. apply wp_bind.
    eapply (make_ L o _ (uct_ep_create _ _) [Iface (ii_iface info)]) with
      (x := λ r, Ep r.2) (ok := λ r, r.1 =? UCS_OK); [done|done|eassumption|owned|].
    intros [st ep] w2 Ha2. simpl in Ha2.
    destruct (st =? UCS_OK); cbn [negb also] in *; [by apply wp_ret, HR|calm; by apply wp_ret, HL].
Qed.

Lemma with_socket_alive o s id fd st a (Q : exit_to → uct_world → Prop) w :
  at_rest o (Open s, false) w → Iface (ii_iface info) ∈ o → Md (ii_md info) ∈ o → Worker wk ∈ o →
  (0 ≤ fd → fd ∈ open_fds s) →
  (∀ x w', at_label x o s w' → (fd < 0 → label_failed x.2 = false) → Q x w') →
  wp unmisused (with_socket L fuel args info wk id fd st a) Q w.
Proof.
  intros Ha Hi Hm Hw Hfd HQ. unfold with_socket.
  destruct (Z.ltb_spec fd 0) as [Hn|Hn]; [calm; by apply wp_ret, HQ|].
  specialize (Hfd Hn). apply wp_bind. eapply exchange_device_alive; [done..| |].
  { intros x w8 Hx. apply wp_ret, HQ; [done|lia]. }
  intros [st1 a1] w1 Ha1. apply wp_bind. eapply exchange_iface_alive; [done..| |].
  { intros x w8 Hx. apply wp_ret, HQ; [done|lia]. }
  intros [st2 a2] w2 Ha2. calm. calm. apply wp_bind.
  eapply (use_ L _ o _ (uct_iface_is_reachable _ _ _) [Iface _]); [done|done|eassumption|owned|].
  intros st3 w3 Ha3. destruct (_ =? 0); [calm; by apply wp_ret, HQ|].
  apply wp_bind. eapply create_ep_alive; [eassumption|done..| |].
  { intros x w9 Hx. apply wp_ret, HQ; [done|lia]. }
  intros [st4 a4] ep w4 Ha4. apply wp_bind.
  eapply (run_am_alive L fuel wk ep); [eassumption|owned|owned|owned|done|].
  intros r w5 Ha5. by apply wp_ret, HQ.
Qed.

(** How the sockets are left. *)
Definition final_sockets (k : sockets * bool) : Prop :=
  k.1 = Open (OobState [] 0) ∨ k.1 = ClosedNegative ∨
  ∃ fd, k = (Open (OobState [fd] 0), true).

Lemma close_sock_alive o fd (Q : Z → uct_world → Prop) w :
  at_rest o (Open (open_fd fd (OobState [] 0)), false) w →
  (∀ r k w', at_rest o k w' → final_sockets k → Q r w') →
  wp unmisused (ucall0 L (Uct_sock (close_ fd))) Q w.
Proof.
  intros Ha HQ. eapply (alive_ucall0 L _ _ _ (Uct_sock (close_ fd))); [done|]. intros r.
  unfold open_fd. destruct (fd <? 0) eqn:Hfd.
  - exists o, (ClosedNegative, false). split_and!; [done|by simpl; rewrite Hfd|done|done|].
    intros w' Ha'. eapply HQ; [done|]. right. by left.
  - exists o, (Open (OobState [] 0), false). split_and!; [done| |done|done|].
    + simpl. by rewrite decide_True.
    + intros w' Ha'. eapply HQ; [done|]. by left.
Qed.

Lemma cleanup_alive o x fd a (Q : unit → uct_world → Prop) w :
  at_label x o (open_fd fd (OobState [] 0)) w → (fd < 0 → label_failed x.2 = false) →
  (∀ k w', at_rest o k w' → final_sockets k → Q tt w') →
  wp unmisused (cleanup L fd a x.2) Q w.
Proof.
  intros Ha Hn HQ. destruct x as [y l]. unfold at_label, cleanup in *. simpl in Ha, Hn |- *. apply wp_bind.
  apply wp_conseq with (Q := λ _, at_rest o (Open (open_fd fd (OobState [] 0)), label_failed l)).
  { destruct l as [ep| | |]; [|by apply wp_ret..]. apply wp_bind.
    eapply (drop_ L o _ (uct_ep_destroy ep) (Ep ep)); [by intros; apply drop_ok|done|done|].
    intros. by apply wp_ret. }
  intros [] w1 Ha1. apply wp_bind.
  apply wp_conseq with (Q := λ _, at_rest o (Open (open_fd fd (OobState [] 0)), label_failed l)).
  { destruct l; try by apply wp_ret. all: calm; eapply calm; [eassumption|solve_keeps|done]. }
  intros [] w2 Ha2. apply wp_bind.
  apply wp_conseq with (Q := λ _ w', ∃ k, at_rest o k w' ∧ final_sockets k).
  { destruct l; simpl in Ha2.
    1-3: apply wp_bind; eapply close_sock_alive; [done|]; intros; apply wp_ret; eauto.
    apply wp_ret. eexists. split; [done|]. unfold open_fd. simpl in Hn.
    destruct (Z.ltb_spec fd 0); [by specialize (Hn ltac:(lia))|]. right. right. by exists fd. }
  intros [] w3 (k & Ha3 & Hk). calm. calm. calm.
  eapply calm; [eassumption|solve_keeps|]. intros [] w9 Ha9. by eapply HQ.
Qed.

Lemma with_iface_alive o arg (Q : Z → uct_world → Prop) w :
  at_rest o (Open (OobState [] 0), false) w →
  Iface (ii_iface info) ∈ o → Md (ii_md info) ∈ o → Worker wk ∈ o →
  (∀ r k w', at_rest o k w' → final_sockets k → Q r w') →
  wp unmisused (with_iface L fuel args info wk arg) Q w.
Proof.
  intros Ha Hi Hm Hw HQ. unfold with_iface.
  assert (final_sockets (Open (OobState [] 0), false)) as Hfinal by by left.
  apply wp_bind. eapply (use_ L _ o _ (uct_iface_set_am_handler _ _ _) [Iface _]);
    [done|done|done|owned|]. intros st w1 Ha1.
  destruct (negb _); [calm; apply wp_ret; by eapply HQ|]. calm.
  case_bool_decide; [calm; apply wp_ret; by eapply HQ|]. calm.
  case_bool_decide; [calm; calm; apply wp_ret; by eapply HQ|].
  apply wp_bind. eapply connect_common_alive; [eassumption|]. intros fd w4 Ha4.
  apply wp_bind. eapply with_socket_alive; [done..| |].
  { intros Hfd. unfold open_fd. rewrite (proj2 (Z.ltb_ge _ _)) by done. left. }
  intros [[st2 adr] l] w5 Ha5 Hl. apply wp_bind.
  eapply (cleanup_alive o (st2, adr, l)); [done|done|]. intros k w6 Ha6 Hk. apply wp_ret. by eapply HQ.
Qed.
End main.

Section whole.
Context `{!Ucs, !Cuda, !Uct} (L : uct_lib) (fuel : nat).

Lemma with_uct_worker_alive o args wk arg (Q : Z → uct_world → Prop) w :
  at_rest o (Open (OobState [] 0), false) w → Worker wk ∈ o →
  (∀ x, x ∈ o → needs_md x = false) → (∀ l x, x ∈ o → is_list l x = false) →
  (∀ r k w', at_rest o k w' → final_sockets k → Q r w') →
  wp unmisused (with_uct_worker L fuel args wk arg) Q w.
Proof.
  intros Ha Hw Hn Hl HQ. unfold with_uct_worker. apply wp_bind.
  eapply dev_tl_lookup_alive; [done|done|done|done|]. intros [st info] w1 Ha1.
  unfold found_in in Ha1. simpl in Ha1. destruct (st =? UCS_OK); cbn [negb].
  2: { calm. apply wp_ret. eapply HQ; [done|]. by left. }
  apply wp_bind. eapply with_iface_alive; [done|owned|owned|owned|]. intros r k w2 Ha2 Hk.
  apply wp_bind. eapply (drop_ L _ k (uct_iface_close _) (Iface (ii_iface info)));
    [|done|done|].
  { intros u. simpl. rewrite none_made; [by apply drop_ok|done|].
    apply free_made; [done|]. intros y Hy. specialize (Hn y Hy). by destruct y. }
  intros _ w3 Ha3. apply wp_bind.
  eapply (drop_ L o k (uct_md_close _) (Md (ii_md info))); [|done|done|].
  { intros u. simpl. rewrite none_made by done. by apply drop_ok. }
  intros _ w4 Ha4. apply wp_ret. by eapply HQ.
Qed.

Lemma with_args_alive args arg (Q : Z → uct_world → Prop) w :
  at_rest ∅ (Open (OobState [] 0), false) w →
  (∀ r k w', at_rest ∅ k w' → final_sockets k → Q r w') →
  wp unmisused (with_args L fuel args arg) Q w.
Proof.
  intros Ha HQ. unfold with_args.
  assert (final_sockets (Open (OobState [] 0), false)) as Hfinal by by left.
  apply wp_bind. eapply (make0 L ∅ _ ucs_async_context_create []) with
    (x := λ r, Async r.2) (ok := λ r, r.1 =? UCS_OK); [done|done|done|done|].
  intros [st async] w1 Ha1. simpl in Ha1.
  destruct (st =? UCS_OK); cbn [negb also] in *; [|calm; apply wp_ret; by eapply HQ].
  apply wp_bind. eapply (make0 L _ _ (uct_worker_create async _) [Async async]) with
    (x := λ r, Worker r.2) (ok := λ r, r.1 =? UCS_OK); [done|done|done|owned|].
  intros [st2 wk] w2 Ha2. simpl in Ha2. apply wp_bind.
  apply wp_conseq with (Q := λ _ w', ∃ k, at_rest (make (Async async) ∅) k w' ∧ final_sockets k).
  { destruct (st2 =? UCS_OK); cbn [negb also] in *; [|calm; apply wp_ret; eauto].
    assert (∀ x, x ∈ make (Async async) (∅ : objects) → needs_md x = false) as Hn.
    { apply free_made; [done|]. multiset_solver. }
    apply wp_bind. eapply with_uct_worker_alive; [done|owned|..].
    { by apply free_made. }
    { intros l. apply free_made, free_made; [done..|]. multiset_solver. }
    intros r k w3 Ha3 Hk. apply wp_bind.
    eapply (drop_ L _ k (uct_worker_destroy wk) (Worker wk)); [|done|done|].
    { intros u. simpl. rewrite none_made by done. by apply drop_ok. }
    intros _ w4 Ha4. apply wp_ret. eauto. }
  intros r w3 (k & Ha3 & Hk). apply wp_bind.
  eapply (drop0 L ∅ k (ucs_async_context_destroy async) (Async async)); [|done|done|].
  { intros u. simpl. rewrite none_made; [by apply drop_ok|done|multiset_solver]. }
  intros _ w4 Ha4. apply wp_ret. by eapply HQ.
Qed.

Lemma uct_main_alive argv (Q : Z → uct_world → Prop) w :
  at_rest ∅ (Open (OobState [] 0), false) w →
  (∀ r k w', at_rest ∅ k w' → final_sockets k → Q r w') →
  wp unmisused (uct_main L fuel argv) Q w.
Proof.
  intros Ha HQ. unfold uct_main. calm. apply wp_bind.
  assert (final_sockets (Open (OobState [] 0), false)) as Hfinal by by left.
  apply wp_conseq with (Q := λ _ w', ∃ k, at_rest ∅ k w' ∧ final_sockets k).
  { case_match; [|apply wp_ret; eauto]. apply wp_local_raw. eapply with_args_alive.
    - destruct H2 as [[] Hf _]. split; [done| |done]. by eapply (flying_insert None).
    - intros r k w9 [[] Hf _] Hk. exists k. split; [|done]. split; [done| |done].
      eapply flying_part; [|exact Hf]. simpl. intros b ob Hb.
      by apply lookup_delete_Some in Hb as [_ ?]. }
  intros r w3 (k & Ha3 & Hk). apply wp_ret. by eapply HQ.
Qed.
End whole.
