(* ===== verification/UctFind.v ===== *)
(** * uct_hello_world: dev_tl_lookup against a reference

    [inventory] is what a machine offers; [pick] is the specification of the search:
    the first memory domain, in the order of the components, whose first transport
    with the two names can be used. dev_tl_lookup computes it ([dev_tl_lookup_ok]),
    if UCT answers from an inventory. *)

From S2P Require Import Prelude CRuntime CLib Ucx HelloUtil OobSocket UctApi UctSend UctLookup.
From S2P Require Import UctOptions UctMain UctLife UctSteady.
Open Scope Z_scope.

(** ** The reference *)

(** Components, their memory domains by name, and per memory domain its attributes,
    its transports, and the interface each of them gives when it is opened. *)
Record inventory : Type := Inventory {
  in_components : list Z;
  in_mds : Z → list string;
  in_md : Z → string → Z;
  in_md_attr : Z → md_attr_t;
  in_tls : Z → list tl_resource;
  in_iface : Z → tl_resource → option (Z * iface_attr_t);
}.

Section reference.
Context `{!Ucs, !Cuda, !Uct} (I : inventory) (func : func_am_t) (mem : ucs_memory_type_t).

(** The interface has the active message, for this type of memory. *)
Definition am_supported (attr : iface_attr_t) : bool :=
  match func with
  | FUNC_AM_SHORT =>
      has_flag (if_flags attr) UCT_IFACE_FLAG_AM_SHORT && bool_decide (mem ≠ UCS_MEMORY_TYPE_CUDA)
  | FUNC_AM_BCOPY => has_flag (if_flags attr) UCT_IFACE_FLAG_AM_BCOPY
  | FUNC_AM_ZCOPY => has_flag (if_flags attr) UCT_IFACE_FLAG_AM_ZCOPY
  end.

(** A memory domain registers this type of memory, where that is needed. *)
Definition registers (attr : md_attr_t) : bool :=
  bool_decide (func ≠ FUNC_AM_ZCOPY) || has_flag (reg_mem_types attr) (UCS_BIT (mem_type_num mem)).

Lemma cannot_register attr :
  bool_decide (func = FUNC_AM_ZCOPY) && negb (has_flag (reg_mem_types attr) (UCS_BIT (mem_type_num mem)))
  = negb (registers attr).
Proof. unfold registers. by destruct func, (has_flag _ _). Qed.

(** What a transport of a memory domain gives. *)
Definition open_tl (md : Z) (tl : tl_resource) : option iface_info_t :=
  if registers (in_md_attr I md) then
    '(iface, attr) ← in_iface I md tl;
    if am_supported attr then Some (IfaceInfo attr iface (in_md_attr I md) md) else None
  else None.

Lemma open_tl_md md tl info :
  open_tl md tl = Some info → ii_md_attr info = in_md_attr I md ∧ ii_md info = md.
Proof.
  unfold open_tl. destruct (registers _); [|done].
  destruct (in_iface I md tl) as [[i attr]|]; simpl; [|done].
  destruct (am_supported attr); [|done]. by intros [= <-].
Qed.

Definition has_names (dev name : string) (tl : tl_resource) : bool :=
  bool_decide (dev = tl_res_dev tl) && bool_decide (name = tl_res_name tl).

Definition pick_in (dev name : string) (md : Z) : option iface_info_t :=
  List.find (has_names dev name) (in_tls I md) ≫= open_tl md.

(** All memory domains, in the order of the search. *)
Definition all_mds : list Z := c ← in_components I; in_md I c <$> in_mds I c.

Definition pick (dev name : string) : option iface_info_t :=
  head (omap (pick_in dev name) all_mds).
End reference.

(** ** UCT answers from an inventory *)

(** Every query succeeds, and no callback runs before an interface is open. *)
Record catalogued `{!Ucs} (I : inventory) (L : uct_lib) : Prop := {
  cat_components h : ∃ l, l_ret L h uct_query_components = (UCS_OK, (l, in_components I));
  cat_count h c : l_ret L h (uct_component_query_count c) = (UCS_OK, Z.of_nat (length (in_mds I c)));
  cat_mds h c n : l_ret L h (uct_component_query_resources c n) = (UCS_OK, in_mds I c);
  cat_md_config h c : (l_ret L h (uct_md_config_read c)).1 = UCS_OK;
  cat_md h c name config : l_ret L h (uct_md_open c name config) = (UCS_OK, in_md I c name);
  cat_md_attr h md : l_ret L h (uct_md_query md) = (UCS_OK, in_md_attr I md);
  cat_tls h md : ∃ l, l_ret L h (uct_md_query_tl_resources md) = (UCS_OK, (l, in_tls I md));
  cat_config h md name : (l_ret L h (uct_md_iface_config_read md name)).1 = UCS_OK;
  cat_quiet h md wk name dev room config : l_acts L h (uct_iface_open md wk name dev room config) = [];
  cat_iface h md wk tl room config :
    let r := l_ret L h (uct_iface_open md wk (tl_res_name tl) (tl_res_dev tl) room config) in
    match in_iface I md tl with Some (i, _) => r = (UCS_OK, i) | None => r.1 ≠ UCS_OK end;
  cat_attr h md tl i attr :
    in_iface I md tl = Some (i, attr) → l_ret L h (uct_iface_query i) = (UCS_OK, attr);
}.

Lemma unsupported_is_error `{!Ucs} : negb (UCS_ERR_UNSUPPORTED =? UCS_OK) = true.
Proof. by rewrite unsupported_not_ok. Qed.

Section find.
Context `{!Ucs, !Cuda, !Uct} (L : uct_lib) (I : inventory) (HI : catalogued I L).
Context (args : cmd_args_t) (wk : Z) (dev name : string).
Context {X} (V : history uct_api → X) `{!View V} (fd : Z).
Context (g : uct_glob) (h : gmap N (obj uct_cell)) (x : X) (o : list mbyte * nat).
Context (Hdev : dev_name args = Some dev) (Hname : tl_name args = Some name).
Local Abbreviation func := (func_am_type args).
Local Abbreviation mem := (u_test_mem_type g).
Implicit Types (w : uct_world).

(** Only the history has changed. *)
Local Abbreviation untouched := (steady V fd g h x o).
Local Abbreviation no_halt := (λ (_ : halt) (_ : uct_world), False).

Lemma untouched_glob w : untouched w → glob w = g.
Proof. apply st_glob. Qed.

Lemma say_ok s f l (Q : unit → uct_world → Prop) w :
  f ≠ string_format → untouched w → (∀ w', untouched w' → Q tt w') → wp no_halt (fprintf s f l) Q w.
Proof. apply steady_say; typeclasses eauto. Qed.

Lemma ask c (Q : uct_ret c → uct_world → Prop) w :
  silent c = true → wired c = false →
  untouched w → (∀ w', untouched w' → Q (l_ret L (trace w) c) w') → wp no_halt (ucall0 L c) Q w.
Proof. apply (steady_ext0 V fd L c). Qed.

Local Ltac ask :=
  lazymatch goal with
  | |- wp _ (ucall0 _ ?c) _ _ => eapply (ask c)
  | |- wp _ (ext0 _ ?c) _ _ => eapply (ask c)
  end; [reflexivity|reflexivity|eassumption|].

(** A query that succeeds: the status is not looked at again. *)
Lemma ok_status st : st = UCS_OK → negb (st =? UCS_OK) = false.
Proof. intros ->. by rewrite Z.eqb_refl. Qed.

Lemma supported_ok attr (Q : bool → uct_world → Prop) w :
  untouched w → (∀ w', untouched w' → Q (am_supported func mem attr) w') →
  wp no_halt (supported func attr) Q w.
Proof.
  intros Hw HQ. unfold supported, am_supported in *. apply wp_bind, wp_get_glob.
  rewrite (untouched_glob w Hw).
  destruct func; [|by apply wp_ret, HQ..].
  destruct (has_flag _ _); simpl in HQ; [|by apply wp_ret, HQ].
  case_bool_decide as Hc; case_bool_decide as Hc'; try done; [by apply wp_ret, HQ|].
  apply wp_bind. eapply say_ok; [done|eassumption|]. intros. by apply wp_ret, HQ.
Qed.

Lemma init_iface_ok tl md (Q : Z * (Z * iface_attr_t) → uct_world → Prop) w :
  untouched w →
  (∀ w', untouched w' → Q (match (r ← in_iface I md tl; if am_supported func mem r.2 then Some r else None) with
     | Some r => (UCS_OK, r) | None => (UCS_ERR_UNSUPPORTED, (0, no_attr)) end) w') →
  wp no_halt (init_iface L tl func md wk 0) Q w.
Proof.
  intros Hw HQ. unfold init_iface. apply wp_bind. ask. intros w1 Hw1.
  pose proof (cat_config I L HI (trace w) md (tl_res_name tl)) as Hc.
  destruct (l_ret L (trace w) _) as [st config]. simpl in Hc. rewrite ok_status by done. simpl.
  apply wp_bind. unfold ucall, ext. apply wp_bind, wp_gets. rewrite (cat_quiet I L HI).
  apply wp_bind, wp_ret. ask. intros w2 Hw2.
  pose proof (cat_iface I L HI (trace w1) md wk tl sizeof_recv_desc config) as Ho. cbv zeta in Ho.
  destruct (in_iface I md tl) as [[i attr]|] eqn:Hi.
  - rewrite Ho. apply wp_bind. ask. intros w3 Hw3. rewrite ok_status by done.
    apply wp_bind. ask. intros w4 Hw4. apply wp_bind.
    ask. intros w5 Hw5. rewrite (cat_attr I L HI _ _ _ _ _ Hi).
    rewrite ok_status by done. apply wp_bind. eapply supported_ok; [done|]. intros w6 Hw6.
    simpl in HQ. destruct (am_supported func mem attr); [by apply wp_ret, HQ|].
    apply wp_bind. ask. intros w7 Hw7. by apply wp_ret, HQ.
  - destruct (l_ret L (trace w1) _) as [st2 i2]. simpl in Ho. apply wp_bind.
    ask. intros w3 Hw3. rewrite (proj2 (Z.eqb_neq _ _) Ho). simpl.
    apply wp_bind. eapply say_ok; [done|eassumption|]. intros w4 Hw4. by apply wp_ret, HQ.
Qed.

Lemma is_requested_ok tl (Q : bool → uct_world → Prop) w :
  Q (has_names dev name tl) w → wp no_halt (is_requested args tl) Q w.
Proof.
  intros HQ. unfold is_requested, has_names in *. apply wp_bind. rewrite Hdev. apply wp_ret.
  case_bool_decide; [|by apply wp_ret]. apply wp_bind. rewrite Hname. by apply wp_ret, wp_ret.
Qed.

(** The transports of one memory domain. *)
Lemma select_tl_ok mdname md tls (Q : option iface_attr_t * Z → uct_world → Prop) w :
  untouched w →
  (∀ w', untouched w' →
     Q (match List.find (has_names dev name) tls ≫= open_tl I func mem md with
        | Some r => (Some (ii_attr r), ii_iface r) | None => (None, 0) end) w') →
  wp no_halt (select_tl L args mdname (in_md_attr I md) md wk 0 tls) Q w.
Proof.
  intros Hw HQ. revert w Hw. induction tls as [|tl tls IH]; intros w Hw; simpl.
  { apply wp_ret. by apply (HQ w Hw). }
  simpl in HQ. apply wp_bind, is_requested_ok.
  destruct (has_names dev name tl); [|by apply IH].
  apply wp_bind, wp_get_glob. rewrite (untouched_glob w Hw).
  rewrite (cannot_register func mem). destruct (registers func mem _) eqn:Hreg; cbn [negb].
  - apply wp_bind. eapply init_iface_ok; [done|]. intros w1 Hw1.
    unfold open_tl in HQ. rewrite Hreg in HQ.
    destruct (in_iface I md tl) as [[i attr]|] eqn:Hi; simpl in HQ |- *.
    + destruct (am_supported func mem attr) eqn:Hs; simpl.
      * rewrite ok_status by done. apply wp_bind. eapply say_ok; [done|eassumption|]. intros w2 Hw2.
        apply wp_ret. specialize (HQ w2 Hw2). rewrite Hi in HQ. simpl in HQ. by rewrite Hs in HQ.
      * rewrite unsupported_is_error. apply wp_ret. specialize (HQ w1 Hw1).
        rewrite Hi in HQ. simpl in HQ. by rewrite Hs in HQ.
    + rewrite unsupported_is_error. apply wp_ret. specialize (HQ w1 Hw1). by rewrite Hi in HQ.
  - apply wp_bind. eapply say_ok; [done|eassumption|]. intros w1 Hw1. apply wp_ret.
    specialize (HQ w1 Hw1). unfold open_tl in HQ. by rewrite Hreg in HQ.
Qed.

Lemma lookup_md_ok c mdname (Q : (Z * iface_info_t) + Z → uct_world → Prop) w :
  untouched w →
  (∀ w', untouched w' →
     Q (match pick_in I func mem dev name (in_md I c mdname) with
        | Some info => inl (UCS_OK, info) | None => inr 0 end) w') →
  wp no_halt (lookup_md L args wk c mdname 0) Q w.
Proof.
  intros Hw HQ. unfold lookup_md. apply wp_bind. ask. intros w1 Hw1.
  pose proof (cat_md_config I L HI (trace w) c) as Hc.
  destruct (l_ret L (trace w) _) as [st config]. simpl in Hc. rewrite ok_status by done.
  apply wp_bind. ask. intros w2 Hw2. rewrite (cat_md I L HI). apply wp_bind. ask. intros w3 Hw3.
  rewrite ok_status by done. apply wp_bind. ask. intros w4 Hw4. rewrite (cat_md_attr I L HI).
  rewrite ok_status by done. apply wp_bind. ask. intros w5 Hw5.
  destruct (cat_tls I L HI (trace w4) (in_md I c mdname)) as [l ->]. rewrite ok_status by done.
  apply wp_bind. eapply select_tl_ok; [done|]. intros w6 Hw6. unfold pick_in in HQ.
  destruct (_ ≫= _) as [[attr iface mattr md]|] eqn:Hp; apply wp_bind; ask; intros w7 Hw7.
  - apply wp_ret. specialize (HQ w7 Hw7).
    assert (mattr = in_md_attr I (in_md I c mdname) ∧ md = in_md I c mdname) as [-> ->]; [|done].
    destruct (List.find _ _); simplify_eq/=. by apply open_tl_md in Hp.
  - apply wp_bind. ask. intros w8 Hw8. by apply wp_ret, HQ.
Qed.

Lemma lookup_mds_ok c names (Q : (Z * iface_info_t) + Z → uct_world → Prop) w :
  untouched w →
  (∀ w', untouched w' →
     Q (match head (omap (pick_in I func mem dev name) (in_md I c <$> names)) with
        | Some info => inl (UCS_OK, info) | None => inr 0 end) w') →
  wp no_halt (lookup_mds L args wk c (length names) names 0) Q w.
Proof.
  intros Hw HQ. revert w Hw. induction names as [|n names IH]; intros w Hw; simpl.
  { by apply wp_ret, HQ. }
  simpl in HQ. apply wp_bind. eapply lookup_md_ok; [done|]. intros w1 Hw1.
  destruct (pick_in _ _ _ _ _ _) as [info|]; [by apply wp_ret, HQ|by apply IH].
Qed.

Lemma lookup_component_ok c (Q : (Z * iface_info_t) + Z → uct_world → Prop) w :
  untouched w →
  (∀ w', untouched w' →
     Q (match head (omap (pick_in I func mem dev name) (in_md I c <$> in_mds I c)) with
        | Some info => inl (UCS_OK, info) | None => inr 0 end) w') →
  wp no_halt (lookup_component L args wk c) Q w.
Proof.
  intros Hw HQ. unfold lookup_component. apply wp_bind. ask. intros w1 Hw1.
  rewrite (cat_count I L HI), ok_status by done. apply wp_bind. ask. intros w2 Hw2.
  rewrite (cat_mds I L HI), ok_status, Nat2Z.id by done. by eapply lookup_mds_ok.
Qed.

Lemma lookup_components_ok cs (Q : option (Z * iface_info_t) → uct_world → Prop) w :
  untouched w →
  (∀ w', untouched w' →
     Q (pair UCS_OK <$> head (omap (pick_in I func mem dev name)
          (c ← cs; in_md I c <$> in_mds I c))) w') →
  wp no_halt (lookup_components L args wk cs) Q w.
Proof.
  intros Hw HQ. revert w Hw. induction cs as [|c cs IH]; intros w Hw; simpl.
  { by apply wp_ret, HQ. }
  simpl in HQ. rewrite omap_app in HQ. apply wp_bind. eapply lookup_component_ok; [done|].
  intros w1 Hw1. destruct (omap _ (in_md I c <$> in_mds I c)) as [|info l]; [by apply IH|].
  by apply wp_ret, HQ.
Qed.

Lemma dev_tl_lookup_ok (Q : Z * iface_info_t → uct_world → Prop) w :
  untouched w →
  (∀ w', untouched w' →
     Q (match pick I func mem dev name with
        | Some info => (UCS_OK, info) | None => (UCS_ERR_UNSUPPORTED, no_info) end) w') →
  wp no_halt (dev_tl_lookup L args wk) Q w.
Proof.
  intros Hw HQ. unfold dev_tl_lookup. apply wp_bind. ask. intros w1 Hw1.
  destruct (cat_components I L HI (trace w)) as [l ->]. rewrite ok_status by done.
  apply wp_bind. eapply lookup_components_ok; [done|]. intros w2 Hw2. unfold pick, all_mds in HQ.
  apply wp_bind. destruct (head _) as [info|]; simpl.
  - apply wp_ret, wp_bind. ask. intros w3 Hw3. by apply wp_ret, HQ.
  - apply wp_bind. eapply say_ok; [done|eassumption|]. intros w3 Hw3. apply wp_ret, wp_bind. ask.
    intros w4 Hw4. by apply wp_ret, HQ.
Qed.
End find.
