(* ===== verification/UctWire.v ===== *)
(** * uct_hello_world: what passes between the program and UCT

    Observations of the history: the messages UCT took, the operation under way,
    how often UCT refused a message, the registrations of memory. Then what UCT
    promises a sender ([takes_messages]), the test string, and the header of a short
    message with its round trip. *)

From S2P Require Import Prelude CRuntime CLib Ucx HelloUtil OobSocket UctApi UctSend UctLookup.
From S2P Require Import UctOptions UctMain UctOwn.
Open Scope Z_scope.

(** ** Observations *)

Section observations.
Context `{!Ucs}.
Implicit Types (h : history uct_api).

(** The bytes the last pack callback gave. *)
Fixpoint packed h : list mbyte :=
  match h with
  | [] => []
  | ECb (Cb_pack _ _) (Packed _ bs) :: _ => bs
  | _ :: h' => packed h'
  end.

(** The message a call handed over, if its result says that UCT took it. *)
Definition message (c : uct_call) : uct_ret c → list mbyte → option (list mbyte) :=
  match c return uct_ret c → list mbyte → option (list mbyte) with
  | uct_ep_am_short _ _ header payload => λ st _,
      if st =? UCS_OK then Some ((Some <$> le_bytes 8 header) ++ payload) else None
  | uct_ep_am_bcopy _ _ _ => λ len bs, if 0 <=? len then Some bs else None
  | uct_ep_am_zcopy _ _ _ payload _ _ => λ st _,
      if (st =? UCS_OK) || (st =? UCS_INPROGRESS) then Some payload else None
  | _ => λ _ _, None
  end.

(** The messages UCT took, newest first. *)
Fixpoint sent h : list (list mbyte) :=
  match h with
  | [] => []
  | ECall c r :: h' =>
      match message c r (packed h') with Some m => m :: sent h' | None => sent h' end
  | _ :: h' => sent h'
  end.

(** The completion of the operation under way. *)
Fixpoint pending h : option ptr :=
  match h with
  | [] => None
  | ECall (uct_ep_am_zcopy _ _ _ _ _ comp) st :: h' =>
      if st =? UCS_INPROGRESS then Some comp else pending h'
  | ECb (Cb_completion _ _) _ :: _ => None
  | _ :: h' => pending h'
  end.

(** How often UCT had no resources for a message. *)
Definition refusal (c : uct_call) : uct_ret c → nat :=
  match c return uct_ret c → nat with
  | uct_ep_am_short _ _ _ _ => λ st, if st =? UCS_ERR_NO_RESOURCE then 1%nat else 0%nat
  | uct_ep_am_bcopy _ _ _ => λ len, if len =? UCS_ERR_NO_RESOURCE then 1%nat else 0%nat
  | uct_ep_am_zcopy _ _ _ _ _ _ => λ st, if st =? UCS_ERR_NO_RESOURCE then 1%nat else 0%nat
  | _ => λ _, 0%nat
  end.
Fixpoint refused h : nat :=
  match h with
  | [] => 0%nat
  | ECall c r :: h' => (refusal c r + refused h')%nat
  | _ :: h' => refused h'
  end.

(** How often the program called for progress. *)
Fixpoint progressed h : nat :=
  match h with
  | [] => 0%nat
  | ECall (uct_worker_progress _) _ :: h' => S (progressed h')
  | _ :: h' => progressed h'
  end.

(** Registrations of memory that were not undone. *)
Fixpoint registered h : Z :=
  match h with
  | [] => 0
  | ECall (uct_md_mem_reg _ _ _) r :: h' =>
      if (r : Z * Z).1 =? UCS_OK then registered h' + 1 else registered h'
  | ECall (uct_md_mem_dereg _ _) _ :: h' => registered h' - 1
  | _ :: h' => registered h'
  end.
End observations.

(** ** The outside of a sender

    UCT runs the pack callback once in a call that takes a message, with room for
    [room] bytes; it runs the completion of the operation under way inside a call
    for progress, after [n] such calls at the latest; it refuses at most [n]
    messages. No message arrives. *)

Record takes_messages `{!Ucs, !Uct} (L : uct_lib) (room : Z) (n : nat) : Prop := {
  tm_short h ep id header payload : l_acts L h (uct_ep_am_short ep id header payload) = [];
  tm_zcopy h ep id buf payload memh comp :
    l_acts L h (uct_ep_am_zcopy ep id buf payload memh comp) = [];
  tm_bcopy h ep id arg :
    let c := uct_ep_am_bcopy ep id arg in
    (l_acts L h c = [] ∧ l_ret L h c < 0) ∨
    ∃ r, room ≤ r ∧ l_acts L h c = [Callback (Cb_pack r arg)] ∧
      ∀ h' len bs, h `suffix_of` h' → 0 ≤ len →
        l_ret L (ECb (Cb_pack r arg) (Packed len bs) :: h') c = len;
  tm_progress h wk :
    l_acts L h (uct_worker_progress wk) =
      match pending h with
      | Some comp =>
          if (progressed h <? n)%nat then [] else [Callback (Cb_completion comp UCS_OK)]
      | None => []
      end;
  tm_refused h (c : uct_call) : (n ≤ refused h)%nat → refusal c (l_ret L h c) = 0%nat;
  tm_registers h md buf len :
    let r := l_ret L h (uct_md_mem_reg md buf len) in r.1 = UCS_OK → r.2 ≠ UCT_MEM_HANDLE_NULL;
}.

(** ** The test string *)

(** The test string of a given size: letters, then a NUL. *)
Definition uct_string (n : nat) : list mbyte := half_filled (Some 0) n (n - 1).

Lemma uct_string_length n : length (uct_string n) = n.
Proof.
  unfold uct_string, half_filled. rewrite length_app, test_chars_length, length_replicate. lia.
Qed.

(** Its bytes are bytes. *)
Lemma uct_string_bytes n :
  ∃ bs, uct_string n = Some <$> bs ∧ Forall is_byte bs ∧ length bs = n.
Proof.
  exists (((λ i, test_char (Z.of_nat i)) <$> seq 0 (n - 1)) ++ replicate (n - (n - 1)) 0).
  split_and!.
  - unfold uct_string, half_filled, test_chars.
    by rewrite fmap_app, fmap_replicate, <-list_fmap_compose.
  - apply Forall_app. split.
    + apply Forall_fmap, Forall_true. intros i. unfold compose, is_byte.
      pose proof (test_char_upper (Z.of_nat i)). lia.
    + apply Forall_replicate. by unfold is_byte.
  - rewrite length_app, length_fmap, length_seq, length_replicate. lia.
Qed.

Section generate.
Context `{!Ucs, !Cuda, !Uct} (L : uct_lib).
Implicit Types (w : uct_world).

Lemma uct_generate_ok E t b d n (Q : Z → uct_world → Prop) w :
  mem_usable L t → u_test_mem_type (glob w) = t → wf_mem w → (∀ h k, l_alloc L h k = true) →
  heap w !! b = Some (Bytes (kind_of t) d) → length d = n → Z.of_nat n < 2 ^ 31 →
  (∀ w', heap_only w (<[b := Bytes (kind_of t) (uct_string n)]> (heap w)) w' → Q 0 w') →
  wp E (uct_generate_test_string L (Loc b 0) (Z.of_nat n)) Q w.
Proof.
  intros Hm Ht Hwf Hal Hb Hd Hmax HQ. unfold uct_generate_test_string, calloc.
  rewrite u64_small by lia. apply wp_bind, wp_malloc_ok; [apply Hal|done|].
  intros b1 w1 -> Hfr [Hh1 Hg1]. rewrite bool_decide_eq_false_2 by done.
  assert (next w ≠ b) as Hne by congruence. rewrite Nat2Z.id in Hh1.
  apply wp_bind, wp_c_int; [lia|]. replace (Z.to_nat (Z.of_nat n - 1)) with (n - 1)%nat by lia.
  apply wp_bind, wp_for_up with
    (I := λ k w', heap_only w (<[next w := Bytes KHost (half_filled (Some 0) n k)]> (heap w)) w').
  { split; [|done]. unfold half_filled. simpl. by rewrite Nat.sub_0_r. }
  { intros k w2 Hk [Hh2 Hg2]. apply put_char_ok with (x := Some 0) (n := n).
    - by rewrite Hh2, lookup_insert_eq.
    - lia.
    - lia.
    - intros w3 [Hh3 Hg3]. split; [|by rewrite Hg3]. by rewrite Hh3, Hh2, insert_insert_eq. }
  intros w2 [Hh2 Hg2]. simpl in Hh2. fold (uct_string n) in Hh2.
  apply wp_bind. eapply mem_type_memcpy_ok; [done|by rewrite Hg2|..].
  - by rewrite Hh2, lookup_insert_eq.
  - by rewrite Hh2, lookup_insert_ne.
  - intros ->. done.
  - apply slice_all. by rewrite uct_string_length.
  - apply splice_all. by rewrite uct_string_length.
  - intros w3 [Hh3 Hg3]. apply wp_bind. eapply wp_free.
    + rewrite Hh3, Hh2, lookup_insert_ne by done. by rewrite lookup_insert_eq.
    + done.
    + apply wp_ret. apply HQ. split; simpl; [|by rewrite Hg3, Hg2].
      rewrite Hh3, Hh2, insert_insert_ne by done.
      by rewrite delete_insert_id by (by rewrite lookup_insert_ne).
Qed.
End generate.

(** ** Short messages *)

(** What UCT is given for a message of [len] bytes at the start of a block. *)
Definition short_payload (b : N) (len : Z) : ptr * Z :=
  if sizeof_header <? len then (Loc b sizeof_header, len - sizeof_header) else (Null, 0).

Lemma am_short_params_ok E b k bs (Q : Z * (ptr * Z) → uct_world → Prop) w :
  heap w !! b = Some (Bytes k (Some <$> bs)) → by_cpu k = true → (8 ≤ length bs)%nat →
  Q (le_val (take 8 bs), short_payload b (Z.of_nat (length bs))) w →
  wp E (am_short_params_pack (Loc b 0) (Z.of_nat (length bs))) Q w.
Proof.
  intros Hb Hk Hn HQ. unfold am_short_params_pack. apply wp_bind.
  eapply wp_read_mem; [done|done| |].
  { apply slice_some; rewrite ?length_fmap; unfold sizeof_header; lia. }
  apply wp_bind, wp_the with (a := take 8 bs).
  { change (take _ (drop _ (Some <$> bs))) with (take 8 (Some <$> bs)).
    rewrite <-fmap_take. apply mapM_Some_2, Forall2_fmap_l, Forall_Forall2_diag.
    by apply Forall_true. }
  unfold short_payload in HQ. by destruct (_ <? _); apply wp_ret.
Qed.

(** The header and the payload together are the message. *)
Lemma short_wire bs :
  Forall is_byte bs → (8 ≤ length bs)%nat →
  (Some <$> le_bytes 8 (le_val (take 8 bs))) ++ (Some <$> drop 8 bs) = Some <$> bs.
Proof.
  intros Hbs Hn. assert (length (take 8 bs) = 8%nat) as Hl by (rewrite length_take; lia).
  rewrite <-Hl at 1. rewrite le_bytes_val by by apply Forall_take.
  by rewrite <-fmap_app, take_drop.
Qed.
