(* ===== verification/UctClient.v ===== *)
(** * uct_hello_world: the sender

    What do_am_short, do_am_bcopy, do_am_zcopy and the client's branch of main do,
    if UCT keeps to [takes_messages]: they return, the message UCT took is the test
    string, and memory is as it was. *)

From S2P Require Import Prelude CRuntime CLib Ucx HelloUtil OobSocket UctApi UctSend UctLookup.
From S2P Require Import UctOptions UctMain UctOwn UctWire.
Open Scope Z_scope.

(** Messages taken, the operation under way, registrations. *)
Definition traffic `{!Ucs} (h : history uct_api) := (sent h, pending h, registered h).

#[export] Instance traffic_interactive `{!Ucs} :
  Quiet (same (λ w : uct_world, (traffic (trace w), refused (trace w)))).
Proof.
  split; [apply mem_blind_stable; [typeclasses eauto|by intros]|by intros|by intros].
Qed.

#[export] Instance traffic_quiet `{!Ucs} :
  HelloQuiet (same (λ w : uct_world, (traffic (trace w), refused (trace w)))).
Proof. split; [typeclasses eauto|]. by intros. Qed.

Lemma keeps_pack_hello `{!Ucs, !Cuda, !Uct} (L : uct_lib) R `{!HelloQuiet R} room arg :
  keeps R (am_bcopy_data_pack_cb L room arg).
Proof. unfold am_bcopy_data_pack_cb. solve_keeps. Qed.

(** The state between two calls. *)
Record between `{!Ucs} (g : uct_glob) (h : gmap N (obj uct_cell))
    (x : list (list mbyte) * option ptr * Z) (w : uct_world) : Prop := {
  bt_glob : glob w = g;
  bt_heap : heap w = h;
  bt_wf : wf_mem w;
  bt_traffic : traffic (trace w) = x;
}.

(** The messages after one more was offered. *)
Definition took `{!Ucs} (st : Z) (msg : list mbyte) (m : list (list mbyte)) : list (list mbyte) :=
  if st =? UCS_OK then msg :: m else m.

Section sender.
Context `{!Ucs, !Cuda, !Uct} (L : uct_lib) (fuel n : nat) (room : Z).
Context (HL : takes_messages L room n) (Hfuel : (S n < fuel)%nat).
Context (wk ep id : Z).
Implicit Types (w : uct_world) (g : uct_glob) (h : gmap N (obj uct_cell)).
Local Abbreviation no_halt := (λ (_ : halt) (_ : uct_world), False).

(** A call during which UCT does nothing. *)
Lemma ucall_idle c (Q : uct_ret c → uct_world → Prop) w :
  l_acts L (trace w) c = [] →
  Q (l_ret L (trace w) c) (push (ECall (A := uct_api) c (l_ret L (trace w) c)) w) →
  wp no_halt (ucall L c) Q w.
Proof.
  intros Ha HQ. unfold ucall, ext. apply wp_bind, wp_gets. rewrite Ha.
  by apply wp_bind, wp_ret, wp_ext0.
Qed.

(** A call for progress while no operation is under way. *)
Lemma uct_progress_idle g h m reg (Q : Z → uct_world → Prop) w :
  between g h (m, None, reg) w →
  (∀ r w', between g h (m, None, reg) w' → refused (trace w') = refused (trace w) → Q r w') →
  wp no_halt (ucall L (uct_worker_progress wk)) Q w.
Proof.
  intros [Hg Hh Hwf Ht] HQ. apply (ucall_idle (uct_worker_progress wk)).
  - rewrite (tm_progress L room n HL).
    by assert (pending (trace w) = None) as -> by (unfold traffic in Ht; congruence).
  - apply HQ; [|done]. by split.
Qed.

(** The loops that offer a message: a round that UCT refuses is followed by another. *)
Lemma offer_ok (I : uct_world → Prop) (b : UM Z) (Q : Z → uct_world → Prop) w :
  I w →
  (∀ w1, I w1 → wp no_halt b (λ st w2,
     if st =? UCS_ERR_NO_RESOURCE
     then I w2 ∧ (refused (trace w1) < n)%nat ∧ refused (trace w2) = S (refused (trace w1))
     else Q st w2) w1) →
  wp no_halt (do_while fuel b (λ st, st =? UCS_ERR_NO_RESOURCE)) Q w.
Proof.
  intros HI Hb. unfold do_while.
  apply wp_loop_total with (I := λ _, I) (μ := λ _ w, (n - refused (trace w))%nat); [done|lia|].
  intros [] w1 HI1. apply wp_bind. eapply wp_conseq; [by apply Hb|]. intros st w2.
  cbv beta. destruct (st =? UCS_ERR_NO_RESOURCE); intros H2; apply wp_ret; [|done].
  destruct H2 as (? & ? & ->). split; [done|lia].
Qed.

Lemma no_resource_not_ok : UCS_ERR_NO_RESOURCE < 0.
Proof using.
  clear HL Hfuel.
  pose proof ucs_errors_neg as He. rewrite List.Forall_forall in He. apply He. simpl. tauto.
Qed.

Lemma took_refused st msg m : st = UCS_ERR_NO_RESOURCE → took st msg m = m.
Proof using.
  clear HL Hfuel.
  intros ->. unfold took. rewrite (proj2 (Z.eqb_neq _ _)); [done|].
  pose proof no_resource_not_ok. rewrite ucs_ok_zero. lia.
Qed.

Lemma refusal_bound c w : refusal c (l_ret L (trace w) c) ≠ 0%nat → (refused (trace w) < n)%nat.
Proof using HL.
  clear Hfuel. intros Hr. destruct (decide (n ≤ refused (trace w))%nat) as [Hn|]; [|lia].
  by apply (tm_refused L room n HL) with (c := c) in Hn.
Qed.

Lemma do_am_short_ok g h m reg b k bs (Q : Z → uct_world → Prop) w :
  between g h (m, None, reg) w → h !! b = Some (Bytes k (Some <$> bs)) → by_cpu k = true →
  Forall is_byte bs → (8 ≤ length bs)%nat →
  (∀ st w', between g h (took st (Some <$> bs) m, None, reg) w' → Q st w') →
  wp no_halt (do_am_short L fuel wk ep id (Z.of_nat (length bs)) (Loc b 0)) Q w.
Proof.
  intros Hw Hb Hk Hbs Hn HQ. unfold do_am_short. apply wp_bind.
  eapply am_short_params_ok; [by rewrite (bt_heap _ _ _ _ Hw)|done|done|].
  destruct (short_payload b (Z.of_nat (length bs))) as [payload len] eqn:Hp.
  apply offer_ok with (I := between g h (m, None, reg)); [done|].
  clear w Hw. intros w1 Hw1. apply wp_bind, wp_conseq with
    (Q := λ pl w', pl = (Some <$> drop 8 bs : list mbyte) ∧ w' = w1).
  { unfold short_payload, sizeof_header in Hp. destruct (Z.ltb_spec 8 (Z.of_nat (length bs))).
    - simplify_eq. rewrite (proj2 (Z.eqb_neq _ _)) by lia.
      eapply wp_read_mem; [by rewrite (bt_heap _ _ _ _ Hw1)|done| |].
      + apply slice_some; rewrite ?length_fmap; lia.
      + split; [|done]. change (Z.to_nat 8) with 8%nat. rewrite fmap_drop.
        by rewrite take_ge by (rewrite length_drop, length_fmap; lia).
    - simplify_eq. simpl. apply wp_ret. split; [|done]. by rewrite drop_ge by lia. }
  intros pl w2 [-> ->]. apply wp_bind.
  apply (ucall_idle (uct_ep_am_short ep id _ _)); [apply (tm_short L room n HL)|].
  pose (c := uct_ep_am_short ep id (le_val (take 8 bs)) (Some <$> drop 8 bs)).
  pose proof (refusal_bound c w1) as Href. fold c. set (st := l_ret L (trace w1) c) in *.
  assert (between g h (took st (Some <$> bs) m, None, reg) (push (ECall (A := uct_api) c st) w1)) as Hw2.
  { destruct Hw1 as [Hg Hh Hwf Ht]. split; [done|done|done|]. unfold traffic in *.
    unfold c. cbn [trace push sent message pending registered]. rewrite short_wire by done. unfold took. destruct (st =? UCS_OK); congruence. }
  apply wp_bind. eapply uct_progress_idle; [exact Hw2|]. intros r w3 Hw3 Hr3. apply wp_ret.
  simpl in Hr3, Href. destruct (Z.eqb_spec st UCS_ERR_NO_RESOURCE) as [Hst|Hst]; [|by apply HQ].
  rewrite took_refused in Hw3 by done. split_and!; [done|by apply Href|].
  by rewrite Hr3.
Qed.

(** A step of a library function: it does not touch the traffic. *)
Lemma calm_step {A} (m : UM A) g h h' x (Q : A → uct_world → Prop) w (P : A → uct_world → Prop) :
  between g h x w → keeps grows m → keeps (same (λ w : uct_world, (traffic (trace w), refused (trace w)))) m →
  wp no_halt m (λ a w', P a w' ∧ glob w' = g ∧ heap w' = h') w →
  (∀ a w', P a w' → between g h' x w' → trace w `suffix_of` trace w' →
     refused (trace w') = refused (trace w) → Q a w') →
  wp no_halt m Q w.
Proof.
  intros [Hg Hh Hwf Ht] Hk1 Hk2 Hm HQ.
  eapply wp_with_keeps; [exact Hk1|]. eapply wp_with_keeps; [exact Hk2|].
  eapply wp_conseq; [exact Hm|]. intros a w' (HP & Hg' & Hh') Hs Hgr.
  pose proof (f_equal fst Hs) as Ht'. pose proof (f_equal snd Hs) as Hr'. cbn [fst snd] in Ht', Hr'.
  apply HQ; [done| |apply Hgr|done].
  split; [done|done|by eapply grows_wf|by rewrite Ht'].
Qed.

(** The bytes at a block that may be read for this type of memory. *)
Definition readable (t : ucs_memory_type_t) (k : mkind) : Prop :=
  t = UCS_MEMORY_TYPE_HOST → by_cpu k = true.

Lemma pack_ok t r g h x b k d c (Q : Z * list mbyte → uct_world → Prop) w :
  mem_usable L t → u_test_mem_type g = t → readable t k →
  between g h x w → h !! b = Some (Bytes k d) →
  h !! c = Some (Cell KStack (CBcopy (Loc b 0) (Z.of_nat (length d)))) →
  Z.of_nat (length d) ≤ r →
  (∀ w', between g h x w' → trace w `suffix_of` trace w' → refused (trace w') = refused (trace w) →
     Q (Z.of_nat (length d), d) w') →
  wp no_halt (am_bcopy_data_pack_cb L r (Loc c 0)) Q w.
Proof.
  intros Ht Hg Hk Hw Hb Hc Hr HQ.
  eapply (calm_step _ g h h x) with (P := λ a _, a = (Z.of_nat (length d), d));
    [exact Hw|apply keeps_pack; typeclasses eauto|apply keeps_pack_hello; typeclasses eauto| |].
  2: { intros a w' ->. apply HQ. }
  destruct Hw as [Hg' Hh Hwf _]. unfold am_bcopy_data_pack_cb.
  apply wp_local; [done|]. intros b' -> Hfr. rewrite Hh in Hfr.
  assert (next w ≠ b) as Hnb by (intros <-; exact (option_clash _ _ Hfr Hb)).
  assert (next w ≠ c) as Hnc by (intros <-; exact (option_clash _ _ Hfr Hc)).
  apply wp_bind. eapply wp_read_cell; [simpl; by rewrite lookup_insert_ne, Hh|]. cbv beta iota.
  set (dest := replicate (Z.to_nat r) None).
  assert (length d ≤ length dest)%nat as Hl by (unfold dest; rewrite length_replicate; lia).
  apply wp_bind. eapply mem_type_memcpy_ok with (r := d) (dd' := d ++ drop (length d) dest);
    [exact Ht|by simpl; rewrite Hg'| | | | | |].
  - simpl. by rewrite lookup_insert_ne, Hh.
  - simpl. by rewrite lookup_insert_eq.
  - intros Hhost. split; [by apply Hk|done].
  - by apply slice_all.
  - rewrite splice_some by lia. done.
  - intros w1 [Hh1 Hg1]. simpl in Hh1, Hg1. apply wp_bind.
    eapply wp_read_mem; [by rewrite Hh1, lookup_insert_eq|done| |].
    { apply slice_some; rewrite ?length_app; lia. }
    change (drop (Z.to_nat 0) ?l) with l. rewrite Nat2Z.id, take_app_length.
    apply wp_ret. split_and!; [done|by simpl; rewrite Hg1, Hg'|]. simpl.
    rewrite Hh1, insert_insert_eq, Hh. by rewrite delete_insert_id.
Qed.

(** One call of uct_ep_am_bcopy. *)
Lemma bcopy_call_ok t g h m reg b k d c (Q : Z → uct_world → Prop) w :
  mem_usable L t → u_test_mem_type g = t → readable t k →
  between g h (m, None, reg) w → h !! b = Some (Bytes k d) →
  h !! c = Some (Cell KStack (CBcopy (Loc b 0) (Z.of_nat (length d)))) →
  Z.of_nat (length d) ≤ room →
  (∀ len w', between g h (if 0 <=? len then d :: m else m, None, reg) w' →
     (len = UCS_ERR_NO_RESOURCE → (refused (trace w) < n)%nat ∧
        refused (trace w') = S (refused (trace w))) → Q len w') →
  wp no_halt (ucall L (uct_ep_am_bcopy ep id (Loc c 0))) Q w.
Proof.
  intros Ht Hg Hk Hw Hb Hc Hr HQ. pose (call := uct_ep_am_bcopy ep id (Loc c 0)).
  assert (∀ w1 len, between g h (m, None, reg) w1 → refused (trace w1) = refused (trace w) →
    len = l_ret L (trace w1) call → (0 ≤ len → packed (trace w1) = d) →
    Q len (push (ECall (A := uct_api) call len) w1)) as Hret.
  { intros w1 len [Hg1 Hh1 Hwf1 Ht1] Hr1 Hlen Hp. apply HQ.
    - split; [done|done|done|]. unfold traffic in *. unfold call.
      cbn [trace push sent message pending registered].
      destruct (Z.leb_spec 0 len); [rewrite Hp by done|]; congruence.
    - intros Hlen'. pose proof (refusal_bound call w1) as Href. rewrite <-Hlen, Hr1 in Href.
      assert (refusal call len = 1%nat) as Hrc by (simpl; by rewrite Hlen', Z.eqb_refl).
      split; [apply Href; by rewrite Hrc|]. cbn [trace push refused]. by rewrite Hrc, Hr1. }
  unfold ucall, ext. apply wp_bind, wp_gets. cbv beta.
  destruct (tm_bcopy L room n HL (trace w) ep id (Loc c 0)) as [[-> Hneg]|(r & Hroom & -> & Hans)].
  - apply wp_bind, wp_ret, wp_ext0, Hret; [done|done|done|]. intros Hpos. destruct (Zle_not_lt _ _ Hpos Hneg).
  - apply wp_bind. simpl. apply wp_bind, wp_bind, wp_bind.
    eapply pack_ok; [exact Ht|done|done|exact Hw|done|done|lia|]. intros w1 Hw1 Hs1 Hr1.
    apply wp_ret. apply wp_emit. apply wp_ret. apply (wp_ext0 L no_halt call).
    pose (w2 := push (ECb (A := uct_api) (Cb_pack r (Loc c 0)) (Packed (Z.of_nat (length d)) d)) w1).
    fold w2. fold call in Hans. assert (l_ret L (trace w2) call = Z.of_nat (length d)) as Hlen.
    { apply Hans; [done|lia]. }
    apply Hret; [|done|done|done]. destruct Hw1. by split.
Qed.

Lemma do_am_bcopy_ok t g h m reg b k d (Q : Z → uct_world → Prop) w :
  mem_usable L t → u_test_mem_type g = t → readable t k →
  between g h (m, None, reg) w → h !! b = Some (Bytes k d) → Z.of_nat (length d) ≤ room →
  (∀ st w', between g h (took st d m, None, reg) w' → Q st w') →
  wp no_halt (do_am_bcopy L fuel wk ep id (Z.of_nat (length d)) (Loc b 0)) Q w.
Proof.
  intros Ht Hg Hk Hw Hb Hr HQ. unfold do_am_bcopy. pose proof (bt_wf _ _ _ _ Hw) as Hwf.
  apply wp_local; [done|]. intros c -> Hfr. pose proof (bt_heap _ _ _ _ Hw) as Hh. rewrite Hh in Hfr.
  set (h1 := <[next w := Cell KStack (CBcopy (Loc b 0) (Z.of_nat (length d)))]> h).
  assert (next w ≠ b) as Hnb by (intros <-; exact (option_clash _ _ Hfr Hb)).
  assert (h1 !! b = Some (Bytes k d)) as Hb1 by (unfold h1; by rewrite lookup_insert_ne).
  assert (h1 !! next w = Some (Cell KStack (CBcopy (Loc b 0) (Z.of_nat (length d))))) as Hc1
    by (unfold h1; by rewrite lookup_insert_eq).
  apply wp_bind. apply offer_ok with (I := between g h1 (m, None, reg)).
  { destruct Hw as [Hg0 _ _ Ht0]. split; [done|by rewrite Hh|by apply wf_mem_alloc|done]. }
  intros w1 Hw1. apply wp_bind. eapply bcopy_call_ok; [exact Ht|done|done|exact Hw1|done|done|done|].
  intros len w2 Hw2 Href. apply wp_bind. eapply uct_progress_idle; [exact Hw2|].
  intros r w3 Hw3 Hr3. apply wp_ret. destruct (Z.eqb_spec len UCS_ERR_NO_RESOURCE) as [->|Hlen].
  { destruct Href as [? Href]; [done|]. rewrite Hr3, Href. split_and!; [|done|done].
    rewrite (proj2 (Z.leb_gt _ _)) in Hw3; [done|]. apply no_resource_not_ok. }
  apply wp_ret, HQ. destruct Hw3 as [Hg3 Hh3 Hwf3 Ht3]. split; [done| | |].
  - simpl. rewrite Hh3. unfold h1. by rewrite delete_insert_id.
  - intros b' Hb'. simpl in *. rewrite lookup_delete_None. right. by apply Hwf3.
  - simpl. rewrite Ht3. unfold took. destruct (Z.leb_spec 0 len) as [Hpos|Hneg].
    + by rewrite Z.eqb_refl.
    + rewrite (proj2 (Z.eqb_neq _ _)); [done|]. rewrite ucs_ok_zero. lia.
Qed.
End sender.
