(* ===== verification/UctZcopy.v ===== *)
(** * uct_hello_world: zero-copy messages, and the client's branch of main

    do_am_zcopy with the completion that UCT runs later: the operation under way,
    the variable comp, and the registration of the buffer. Then the three ways to
    send together ([do_am_ok]) and the whole branch ([uct_client_ok]). *)

From S2P Require Import Prelude CRuntime CLib Ucx HelloUtil OobSocket UctApi UctSend UctLookup.
From S2P Require Import UctOptions UctMain UctOwn UctWire UctClient.
Open Scope Z_scope.

(** The registrations a memory handle stands for. *)
Definition handle_count `{!Uct} (memh : option Z) : Z :=
  match memh with Some h => if h =? UCT_MEM_HANDLE_NULL then 0 else 1 | None => 0 end.

(** The memory domain wants a registration. *)
Definition needs_memh `{!Uct} (info : iface_info_t) : bool :=
  has_flag (md_flags (ii_md_attr info)) UCT_MD_FLAG_NEED_MEMH.

(** UCT can answer that a zero-copy message is under way. *)
Definition started `{!Ucs} (L : uct_lib) (ep id : Z) : Prop :=
  ∃ h buf bs memh comp, l_ret L h (uct_ep_am_zcopy ep id buf bs memh comp) = UCS_INPROGRESS.

Section zcopy.
Context `{!Ucs, !Cuda, !Uct} (L : uct_lib) (fuel n : nat) (room : Z).
Context (HL : takes_messages L room n) (Hfuel : (S n < fuel)%nat).
Context (wk ep id : Z) (md : Z) (memh : Z) (c : N).
Context (g : uct_glob) (h : gmap N (obj uct_cell)) (reg : Z) (sent_ : list (list mbyte)).
Context (Hnone : u_desc_holder g = NoDesc).
Implicit Types (w : uct_world).
Local Abbreviation no_halt := (λ (_ : halt) (_ : uct_world), False).

(** comp with [k] operations left. *)
Definition comp_is (k : Z) : gmap N (obj uct_cell) :=
  <[c := Cell KStack (CComp k UCS_OK md (Some memh))]> h.

(** The message is under way; and it is done. *)
Definition under_way w : Prop :=
  between g (comp_is 1) (sent_, Some (Loc c 0), reg + handle_count (Some memh)) w.
Definition done_with w : Prop :=
  between (with_desc_holder Marked g) (comp_is 0) (sent_, None, reg) w.

(** The callback that ends the operation. *)
Lemma completion_done w (Q : unit → uct_world → Prop) :
  under_way w → (∀ w', done_with w' → Q tt w') →
  wp no_halt (run_acts (uct_handler L) [Callback (A := uct_api) (Cb_completion (Loc c 0) UCS_OK)]) Q w.
Proof.
  intros [Hg Hh Hwf Ht] HQ. simpl. apply wp_bind, wp_bind, wp_bind. unfold completion.
  apply wp_bind. eapply wp_update_cell with (c' := CComp 0 UCS_OK md (Some memh)).
  { rewrite Hh. unfold comp_is. by rewrite lookup_insert_eq. }
  { simpl. by rewrite Z.eqb_refl. }
  set (w1 := set_heap _ w).
  assert (heap w1 = comp_is 0) as Hh1.
  { unfold w1. simpl. rewrite Hh. unfold comp_is. by rewrite insert_insert_eq. }
  assert (heap w1 !! c = Some (Cell KStack (CComp 0 UCS_OK md (Some memh)))) as Hc1.
  { rewrite Hh1. unfold comp_is. by rewrite lookup_insert_eq. }
  apply wp_bind. eapply wp_read_cell; [exact Hc1|]. cbv beta iota. rewrite Z.eqb_refl.
  unfold when at 1. unfold zcopy_completion_cb. apply wp_bind. eapply wp_read_cell; [exact Hc1|].
  cbv beta iota. rewrite !Z.eqb_refl. apply wp_bind, wp_ret, wp_bind.
  assert (grows w w1) as Hgr.
  { eapply grows_insert. rewrite Hh. unfold comp_is. apply lookup_insert_eq. }
  assert (∀ w2, glob w2 = g → heap w2 = comp_is 0 → wf_mem w2 →
    sent (trace w2) = sent_ → registered (trace w2) = reg →
    wp no_halt (set_uglb (with_desc_holder Marked))
      (λ _ w3, wp no_halt (mret Done)
        (λ r w', wp no_halt (emit (ECb (A := uct_api) (Cb_completion (Loc c 0) UCS_OK) r))
           (λ _ w'0, wp no_halt (mret tt) Q w'0) w') w3) w2) as Hend.
  { intros w2 Hg2 Hh2 Hwf2 Hs2 Hr2. apply wp_mod_glob. apply wp_ret. apply wp_emit.
    apply wp_ret, HQ. split; simpl; [by rewrite Hg2|done|done|]. unfold traffic. simpl. congruence. }
  unfold traffic in Ht. injection Ht as Hs Hp Hr. simpl in Hr. destruct (memh =? UCT_MEM_HANDLE_NULL); simpl.
  - apply wp_ret, Hend; [done|done|exact (grows_wf _ _ Hgr Hwf)|done|simpl; lia].
  - apply wp_bind. apply (wp_ext0 L no_halt (uct_md_mem_dereg md memh)). apply wp_ret, Hend;
      [done|done|exact (grows_wf _ _ Hgr Hwf)|done|simpl; lia].
Qed.

(** A call for progress while the operation is under way: it is done, or [n] such
    calls have not been reached. *)
Lemma progress_under_way w (Q : Z → uct_world → Prop) :
  under_way w →
  (∀ r w', done_with w' → Q r w') →
  (∀ r w', under_way w' → (progressed (trace w) < n)%nat →
     progressed (trace w') = S (progressed (trace w)) → refused (trace w') = refused (trace w) → Q r w') →
  wp no_halt (ucall L (uct_worker_progress wk)) Q w.
Proof.
  intros Hw HD HU. unfold ucall, ext. apply wp_bind, wp_gets. cbv beta.
  rewrite (tm_progress L room n HL).
  assert (pending (trace w) = Some (Loc c 0)) as ->.
  { pose proof (bt_traffic _ _ _ _ Hw) as Ht. unfold traffic in Ht. congruence. }
  destruct (Nat.ltb_spec (progressed (trace w)) n) as [Hn|Hn].
  - apply wp_bind, wp_ret. apply (wp_ext0 L no_halt (uct_worker_progress wk)). apply HU; [|done..].
    destruct Hw. by split.
  - apply wp_bind. eapply completion_done; [done|]. intros w1 Hw1.
    apply (wp_ext0 L no_halt (uct_worker_progress wk)). apply HD. destruct Hw1. by split.
Qed.

(** The loop that waits for the completion. *)
Lemma wait_holder_ok w (Q : unit → uct_world → Prop) :
  under_way w ∨ done_with w → (∀ w', done_with w' → Q tt w') →
  wp no_halt (wait_holder L fuel wk) Q w.
Proof.
  intros Hw HQ. unfold wait_holder.
  apply wp_while_total with (I := λ w, under_way w ∨ done_with w)
    (μ := λ w, if pending (trace w) is Some _ then S (n - progressed (trace w))%nat else 0%nat);
    [done|case_match; lia|].
  intros w1 Hw1. unfold uglb. apply wp_bind, wp_bind, wp_get_glob, wp_ret, wp_ret.
  destruct Hw1 as [Hw1|Hw1].
  - rewrite (bt_glob _ _ _ _ Hw1), Hnone.
    assert (pending (trace w1) = Some (Loc c 0)) as ->.
    { pose proof (bt_traffic _ _ _ _ Hw1) as Ht. unfold traffic in Ht. congruence. }
    apply wp_bind. eapply progress_under_way; [done|..].
    + intros r w2 Hw2. apply wp_ret. split; [by right|].
      assert (pending (trace w2) = None) as ->; [|lia].
      pose proof (bt_traffic _ _ _ _ Hw2) as Ht. unfold traffic in Ht. congruence.
    + intros r w2 Hw2 Hn Hp _. apply wp_ret. split; [by left|].
      assert (pending (trace w2) = Some (Loc c 0)) as ->; [|lia].
      pose proof (bt_traffic _ _ _ _ Hw2) as Ht. unfold traffic in Ht. congruence.
  - rewrite (bt_glob _ _ _ _ Hw1). simpl. by apply HQ.
Qed.
End zcopy.

Section do_zcopy.
Context `{!Ucs, !Cuda, !Uct} (L : uct_lib) (fuel n : nat) (room : Z).
Context (HL : takes_messages L room n) (Hfuel : (S n < fuel)%nat) (wk ep id : Z).
Implicit Types (w : uct_world) (g : uct_glob) (h : gmap N (obj uct_cell)).
Local Abbreviation no_halt := (λ (_ : halt) (_ : uct_world), False).

Lemma register_buffer_ok g h m reg info buf len (Q : Z * option Z → uct_world → Prop) w :
  between g h (m, None, reg) w →
  (∀ st memh w', between g h (m, None, reg + handle_count memh) w' →
     (st = UCS_OK → is_Some memh ∧ (needs_memh info = true → handle_count memh = 1)) →
     Q (st, memh) w') →
  wp no_halt (register_buffer L info buf len) Q w.
Proof.
  intros [Hg Hh Hwf Ht] HQ. unfold register_buffer. fold (needs_memh info).
  destruct (needs_memh info).
  - apply wp_bind. pose (c := uct_md_mem_reg (ii_md info) buf len).
    apply (wp_ext0 L no_halt c). pose proof (tm_registers L room n HL (trace w) (ii_md info) buf len) as Hr.
    fold c in Hr. cbv zeta in Hr. set (r := l_ret L (trace w) c) in *. destruct r as [st memh] eqn:Er.
    cbn [fst snd] in Hr. apply wp_ret, HQ.
    + split; [done|done|done|]. unfold traffic in *. cbn [trace push sent message pending registered c fst].
      injection Ht as <- <- <-. destruct (Z.eqb_spec st UCS_OK) as [Hst|Hst]; unfold handle_count.
      * by rewrite (proj2 (Z.eqb_neq _ _) (Hr Hst)).
      * by rewrite Z.add_0_r.
    + intros ->. rewrite Z.eqb_refl. split; [by eexists|]. intros _. unfold handle_count.
      by rewrite (proj2 (Z.eqb_neq _ _) (Hr eq_refl)).
  - apply wp_ret, HQ; [|by split; [eexists|]]. unfold handle_count. rewrite Z.eqb_refl, Z.add_0_r. by split.
Qed.

(** One round of the loop that offers the message. *)
Lemma zcopy_round_ok g h m reg md memh b k d c (Q : Z → uct_world → Prop) w :
  let h1 := comp_is md memh c h 1 in
  u_desc_holder g = NoDesc →
  between g h1 (m, None, reg + handle_count (Some memh)) w → h1 !! b = Some (Bytes k d) →
  (∀ st w', st ≠ UCS_INPROGRESS →
     between g h1 (took st d m, None, reg + handle_count (Some memh)) w' →
     (st = UCS_ERR_NO_RESOURCE → (refused (trace w) < n)%nat ∧
        refused (trace w') = S (refused (trace w))) → Q st w') →
  (∀ w', started L ep id →
     under_way md memh c g h reg (d :: m) w' ∨ done_with md memh c g h reg (d :: m) w' →
     Q UCS_INPROGRESS w') →
  wp no_halt
    (bs ← read_mem by_lib (Loc b 0) (Z.of_nat (length d));
     status ← ucall L (uct_ep_am_zcopy ep id (Loc b 0) bs (Some memh) (Loc c 0));
     ucall L (uct_worker_progress wk);;
     mret (status : Z)) Q w.
Proof.
  intros h1 Hnone Hw Hb HQ HP. apply wp_bind.
  eapply wp_read_mem; [by rewrite (bt_heap _ _ _ _ Hw)|done|by apply slice_all|].
  apply wp_bind. pose (call := uct_ep_am_zcopy ep id (Loc b 0) d (Some memh) (Loc c 0)).
  apply (ucall_idle L call); [apply (tm_zcopy L room n HL)|].
  pose proof (refusal_bound L n room HL call w) as Href.
  assert (l_ret L (trace w) call = UCS_INPROGRESS → started L ep id) as Hstart
    by (intros Heq; eexists _, _, _, _, _; exact Heq).
  set (st := l_ret L (trace w) call) in *.
  destruct Hw as [Hg Hh Hwf Ht]. unfold traffic in Ht. injection Ht as Hs Hp Hr.
  set (w1 := push _ w). apply wp_bind. destruct (decide (st = UCS_INPROGRESS)) as [Hst|Hst].
  - assert (under_way md memh c g h reg (d :: m) w1) as Hw1.
    { split; [done|done|done|]. unfold traffic, w1, call. cbn [trace push sent message pending registered].
      rewrite Hst, Z.eqb_refl, orb_true_r. by rewrite Hs, Hr. }
    eapply progress_under_way; [done|done|done|..].
    + intros r w2 Hw2. apply wp_ret. rewrite Hst. apply HP; [by apply Hstart|by right].
    + intros r w2 Hw2 _ _ _. apply wp_ret. rewrite Hst. apply HP; [by apply Hstart|by left].
  - assert (between g h1 (took st d m, None, reg + handle_count (Some memh)) w1) as Hw1.
    { split; [done|done|done|]. unfold traffic, w1, call. cbn [trace push sent message pending registered].
      rewrite (proj2 (Z.eqb_neq _ _) Hst), orb_false_r, Hs, Hp, Hr. unfold took.
      by destruct (st =? UCS_OK). }
    eapply uct_progress_idle; [done|exact Hw1|]. intros r w2 Hw2 Hr2. apply wp_ret, HQ; [done|done|].
    intros Hnr. assert (refusal call st = 1%nat) as Hrc by (simpl; by rewrite Hnr, Z.eqb_refl).
    split; [apply Href; by rewrite Hrc|]. rewrite Hr2. unfold w1. cbn [trace push refused]. by rewrite Hrc.
Qed.

Lemma inprogress_facts : UCS_INPROGRESS ≠ UCS_ERR_NO_RESOURCE ∧ UCS_INPROGRESS ≠ UCS_OK.
Proof.
  pose proof ucs_inprogress_pos. pose proof (no_resource_not_ok).
  split; [lia|apply ucs_inprogress_not_ok].
Qed.

(** What do_am_zcopy leaves: the operation was completed by the callback, which undid
    the registration and set desc_holder; or there was none to complete, and the
    registration stays. *)
Lemma do_am_zcopy_ok g h m reg info b k d (Q : Z → uct_world → Prop) w :
  u_desc_holder g = NoDesc →
  between g h (m, None, reg) w → h !! b = Some (Bytes k d) →
  (∀ w', started L ep id → between (with_desc_holder Marked g) h (d :: m, None, reg) w' →
     Q UCS_OK w') →
  (∀ st memh w', (st = UCS_OK → needs_memh info = true → handle_count memh = 1) →
     between g h (took st d m, None, reg + handle_count memh) w' → Q st w') →
  wp no_halt (do_am_zcopy L fuel info wk ep id (Z.of_nat (length d)) (Loc b 0)) Q w.
Proof.
  intros Hnone Hw Hb HD HQ. unfold do_am_zcopy. apply wp_bind.
  eapply register_buffer_ok; [exact Hw|]. clear w Hw. intros st memh w Hw Hmemh.
  pose proof (bt_wf _ _ _ _ Hw) as Hwf. pose proof (bt_heap _ _ _ _ Hw) as Hh.
  apply wp_local; [done|]. intros c Hc Hfr. rewrite Hh in Hfr.
  assert (c ≠ b) as Hcb by (intros ->; exact (option_clash _ _ Hfr Hb)).
  set (w0 := World _ _ _ _).
  assert (∀ g' k' memh' x w', between g' (<[c := Cell KStack (CComp k' UCS_OK (ii_md info) memh')]> h) x w' →
    between g' h x (set_heap (delete c (heap w')) w')) as Hend.
  { intros g' k' memh' x w' [Hg' Hh' Hwf' Ht']. split; [done| | |done].
    - simpl. rewrite Hh'. by apply delete_insert_id.
    - intros b' Hb'. simpl in *. rewrite lookup_delete_None. right. by apply Hwf'. }
  assert (between g (<[c := Cell KStack (CComp 1 UCS_OK (ii_md info) memh)]> h)
    (m, None, reg + handle_count memh) w0) as Hw0.
  { destruct Hw as [Hg _ _ Ht]. unfold w0. rewrite Hc.
    split; [done|by rewrite Hh|by apply wf_mem_alloc|done]. }
  clearbody w0. destruct (Z.eqb_spec st UCS_OK) as [Hst|Hst]; cbn [negb].
  2: { apply wp_ret. apply (HQ st memh); [done|]. unfold took. rewrite (proj2 (Z.eqb_neq _ _) Hst).
       by eapply Hend. }
  destruct (Hmemh Hst) as [[mh ->] Hcount]. clear Hmemh.
  assert (comp_is (ii_md info) mh c h 1 !! b = Some (Bytes k d)) as Hb0
    by (unfold comp_is; by rewrite lookup_insert_ne).
  destruct inprogress_facts as [Hnr Hnok]. apply wp_bind.
  eapply (offer_ok fuel n Hfuel) with
    (I := between g (comp_is (ii_md info) mh c h 1) (m, None, reg + handle_count (Some mh)));
    [exact Hw0|].
  intros w1 Hw1. eapply (zcopy_round_ok g h m reg (ii_md info) mh b k d c); [done|done|done|..].
  - intros st' w2 Hst' Hw2 Href. destruct (Z.eqb_spec st' UCS_ERR_NO_RESOURCE) as [Hr|Hr].
    + rewrite took_refused in Hw2 by done. destruct (Href Hr). by split_and!.
    + rewrite (proj2 (Z.eqb_neq _ _) Hst'). apply wp_ret, (HQ st' (Some mh)); [done|]. by eapply Hend.
  - intros w2 Hstart Hw2. rewrite (proj2 (Z.eqb_neq _ _) Hnr), Z.eqb_refl. apply wp_bind.
    eapply wait_holder_ok; [done|done|done|exact Hw2|]. intros w3 Hw3.
    apply wp_ret, HD; [done|]. by eapply Hend.
Qed.
End do_zcopy.

(** ** The client's branch *)

Section client.
Context `{!Ucs, !Cuda, !Uct} (L : uct_lib) (fuel n : nat) (room : Z).
Context (HL : takes_messages L room n) (Hfuel : (S n < fuel)%nat) (wk ep id : Z).
Context (args : cmd_args_t) (info : iface_info_t) (t : ucs_memory_type_t) (len : nat).
Context (Ht : mem_usable L t) (Hlen : test_strlen args = Z.of_nat len).
Context (Hroom : func_am_type args = FUNC_AM_BCOPY → Z.of_nat len ≤ room).
Context (Hshort : func_am_type args = FUNC_AM_SHORT → t ≠ UCS_MEMORY_TYPE_CUDA ∧ (8 ≤ len)%nat).
Implicit Types (w : uct_world) (g : uct_glob) (h : gmap N (obj uct_cell)).
Local Abbreviation no_halt := (λ (_ : halt) (_ : uct_world), False).

(** What a sender leaves when it has returned [st]: the static variables and the
    registrations. A zero-copy message that was under way has ended, with the
    registration undone and desc_holder set; one that was not has left its
    registration. *)
Definition settled (st : Z) (g g' : uct_glob) (reg reg' : Z) : Prop :=
  (g' = with_desc_holder Marked g ∧ reg' = reg ∧ st = UCS_OK ∧
     func_am_type args = FUNC_AM_ZCOPY ∧ started L ep id) ∨
  (g' = g ∧ reg' = reg ∧
     (func_am_type args = FUNC_AM_ZCOPY → st = UCS_OK → needs_memh info = false)) ∨
  (g' = g ∧ reg' = reg + 1 ∧ func_am_type args = FUNC_AM_ZCOPY).

Lemma do_am_ok g h m reg b (Q : Z → uct_world → Prop) w :
  u_desc_holder g = NoDesc → u_test_mem_type g = t →
  between g h (m, None, reg) w → h !! b = Some (Bytes (kind_of t) (uct_string len)) →
  (∀ st g' reg' w', settled st g g' reg reg' →
     between g' h (took st (uct_string len) m, None, reg') w' → Q st w') →
  wp no_halt (do_am L fuel args info wk ep id (Loc b 0)) Q w.
Proof.
  intros Hnone Hg Hw Hb HQ. unfold do_am. rewrite Hlen. destruct (func_am_type args) eqn:Hf.
  - destruct (Hshort eq_refl) as [Hcuda Hn]. destruct (uct_string_bytes len) as (bs & Heq & Hbs & Hl).
    rewrite Heq in Hb, HQ. rewrite <-Hl in *.
    eapply (do_am_short_ok L fuel n room HL Hfuel); [exact Hw|exact Hb|by destruct t|done|done|].
    intros st w' Hw'. eapply HQ; [|exact Hw']. right. left. by rewrite Hf.
  - rewrite <-(uct_string_length len) at 1.
    eapply (do_am_bcopy_ok L fuel n room HL Hfuel); [exact Ht|exact Hg| |exact Hw|exact Hb| |].
    + intros Hhost. by rewrite Hhost.
    + rewrite uct_string_length. by apply Hroom.
    + intros st w' Hw'. eapply HQ; [|exact Hw']. right. left. by rewrite Hf.
  - rewrite <-(uct_string_length len) at 1.
    eapply (do_am_zcopy_ok L fuel n room HL Hfuel); [done|exact Hw|exact Hb|..].
    + intros w' Hst Hw'. eapply HQ; [by left|]. unfold took. by rewrite Z.eqb_refl.
    + intros st memh w' Hcount Hw'. eapply HQ; [|exact Hw']. right.
      destruct (decide (handle_count memh = 1)) as [->|Hne]; [by right|]. left.
      split_and!; [done| |].
      * unfold handle_count in *. destruct memh as [mh|]; [destruct (_ =? _)|]; lia.
      * intros _ Hst. destruct (needs_memh info); [|done]. by destruct Hne; apply Hcount.
Qed.

Lemma keeps_uct_generate_hello R `{!HelloQuiet R} p z : keeps R (uct_generate_test_string L p z).
Proof.
  pose proof (keeps_c_int R). unfold uct_generate_test_string, calloc, chkerr, put_char.
  solve_keeps.
Qed.

Lemma no_memory_not_ok : UCS_ERR_NO_MEMORY ≠ UCS_OK.
Proof using.
  clear HL Hfuel Ht Hlen Hroom Hshort. pose proof ucs_errors_neg as He.
  rewrite List.Forall_forall in He. assert (UCS_ERR_NO_MEMORY < 0) by (apply He; simpl; tauto).
  rewrite ucs_ok_zero. lia.
Qed.

(** What the branch answers: a status, and whether the label is reached by a goto. *)
Definition answers (st : Z) : Z * bool := (st, negb (st =? UCS_OK)).

(** A step that may change the memory. *)
Lemma memory_step {A} (m : UM A) g h x (P : A → gmap N (obj uct_cell) → Prop)
    (Q : A → uct_world → Prop) w :
  between g h x w → keeps grows m →
  keeps (same (λ w : uct_world, (traffic (trace w), refused (trace w)))) m →
  wp no_halt m (λ a w', P a (heap w') ∧ glob w' = glob w) w →
  (∀ a h' w', P a h' → between g h' x w' → Q a w') → wp no_halt m Q w.
Proof using.
  clear HL Hfuel Ht Hlen Hroom Hshort.
  intros [Hg Hh Hwf Htr] Hk1 Hk2 Hm HQ.
  eapply wp_with_keeps; [exact Hk1|]. eapply wp_with_keeps; [exact Hk2|].
  eapply wp_conseq; [exact Hm|]. intros a w' (HP & Hg') Hs Hgr.
  pose proof (f_equal fst Hs) as Ht'. cbn [fst] in Ht'. apply (HQ a (heap w')); [done|].
  split; [by rewrite Hg'|done|by eapply grows_wf|by rewrite Ht'].
Qed.

Lemma uct_client_ok g h m reg (Q : Z * bool → uct_world → Prop) w :
  (∀ tr z, l_alloc L tr z = true) → Z.of_nat len < 2 ^ 31 →
  u_desc_holder g = NoDesc → u_test_mem_type g = t → between g h (m, None, reg) w →
  (∀ st g' reg' w', settled st g g' reg reg' →
     between g' h (took st (uct_string len) m, None, reg') w' → Q (answers st) w') →
  wp no_halt (uct_client L fuel args info wk ep id) Q w.
Proof.
  intros Hal Hmax Hnone Hg Hw HQ. unfold uct_client. rewrite Hlen, u64_small by lia.
  unfold s32. rewrite (sgn_small 32 (Z.of_nat len)) by lia. apply wp_bind.
  eapply (memory_step _ g h (m, None, reg)) with
    (P := λ p h', (p = Null ∧ h' = h) ∨
       ∃ b, p = Loc b 0 ∧ h !! b = None ∧ h' = <[b := Bytes (kind_of t) (replicate len None)]> h);
    [exact Hw|apply keeps_mem_type_malloc; typeclasses eauto..| |].
  { destruct Hw as [Hgw Hhw Hwf _]. eapply mem_type_malloc_ok; [exact Ht|by rewrite Hgw|done|..].
    - intros w' [Hh' Hg'] _. split; [|done]. left. by rewrite Hh'.
    - intros b w' _ Hb [Hh' Hg']. split; [|done]. right. exists b. rewrite Nat2Z.id in Hh'.
      by rewrite Hh', <-Hhw. }
  clear w Hw. intros p h1 w [[-> ->]|(b & -> & Hb & ->)] Hw.
  { rewrite bool_decide_eq_true_2 by done. apply wp_bind, wp_fprintf, wp_ret.
    replace (UCS_ERR_NO_MEMORY, true) with (answers UCS_ERR_NO_MEMORY).
    2: { unfold answers. by rewrite (proj2 (Z.eqb_neq _ _) no_memory_not_ok). }
    eapply (HQ _ g reg).
    { right. left. split_and!; [done..|]. intros _ Hc. by destruct no_memory_not_ok. } unfold took.
    rewrite (proj2 (Z.eqb_neq _ _) no_memory_not_ok). destruct Hw. by split. }
  rewrite bool_decide_eq_false_2 by done. apply wp_bind.
  eapply (memory_step _ g _ (m, None, reg)) with
    (P := λ r h', r = 0 ∧ h' = <[b := Bytes (kind_of t) (uct_string len)]> h);
    [exact Hw|apply keeps_uct_generate_hello; typeclasses eauto..| |].
  { destruct Hw as [Hgw Hhw Hwf _]. eapply uct_generate_ok; [exact Ht|by rewrite Hgw|done|exact Hal|..].
    - rewrite Hhw. by rewrite lookup_insert_eq.
    - by rewrite length_replicate.
    - done.
    - intros w' [Hh' Hg']. split; [|done]. split; [done|]. rewrite Hh', Hhw. apply insert_insert_eq. }
  clear w Hw. intros r h1 w [-> ->] Hw. change (0 <? 0) with false. cbv iota. apply wp_bind.
  eapply do_am_ok; [exact Hnone|exact Hg|exact Hw|by rewrite lookup_insert_eq|].
  clear w Hw. intros st g' reg' w Hset Hw. apply wp_bind.
  eapply (memory_step _ g' _ _) with (P := λ _ h', h' = h);
    [exact Hw|apply keeps_mem_type_free; typeclasses eauto..| |].
  { destruct Hw as [Hgw Hhw Hwf _]. eapply mem_type_free_ok with
      (o := Bytes (kind_of t) (uct_string len)); [exact Ht| | |done|].
    - rewrite Hgw. by destruct Hset as [(-> & _)|[(-> & _)|(-> & _)]].
    - rewrite Hhw. apply lookup_insert_eq.
    - intros w' [Hh' Hg']. split; [|done]. rewrite Hh', Hhw. by apply delete_insert_id. }
  clear w Hw. intros [] h1 w -> Hw. pose proof (HQ st g' reg') as HQ'. unfold answers in HQ'.
  destruct (st =? UCS_OK); cbn [negb] in *; [by apply wp_ret, HQ'|].
  apply wp_bind, wp_fprintf, wp_ret, HQ'; [done|]. destruct Hw. by split.
Qed.
End client.
