(* ===== verification/UctServer.v ===== *)
(** * uct_hello_world: the receiver

    The server's branch of main, with the handler hello_world that UCT runs when the
    message arrives: if the message comes ([delivers_one]), the branch ends, the
    string of the message is shown twice, and the descriptor is given back to whom it
    belongs. *)

From S2P Require Import Prelude CRuntime CLib Ucx HelloUtil OobSocket UctApi UctSend UctLookup.
From S2P Require Import UctOptions UctMain UctSteady UctOwn UctWire.
Open Scope Z_scope.

(** ** Observations *)

(** The messages print_strings showed, newest first. *)
Fixpoint shown (h : history uct_api) : list (list arg) :=
  match h with
  | [] => []
  | EOut Stdout fmt args :: h' =>
      if bool_decide (fmt = string_format) then args :: shown h' else shown h'
  | _ :: h' => shown h'
  end.

(** The descriptors that were given back to UCT. *)
Fixpoint released (h : history uct_api) : list Z :=
  match h with
  | [] => []
  | ECall (uct_iface_release_desc d) _ :: h' => d :: released h'
  | _ :: h' => released h'
  end.

(** A message has arrived. *)
Fixpoint delivered (h : history uct_api) : bool :=
  match h with
  | [] => false
  | ECb (Cb_am _ _ _ _) _ :: _ => true
  | _ :: h' => delivered h'
  end.

(** UCT delivers one message, inside a call for progress, after [n] such calls at the
    latest; nothing else happens. *)
Record delivers_one (L : uct_lib) (arg : ptr) (data : uct_data) (flags : Z) (n : nat) : Prop := {
  do_progress h wk :
    l_acts L h (uct_worker_progress wk) =
      if delivered h then []
      else if (progressed h <? n)%nat then []
      else [Callback (Cb_am arg data (Z.of_nat (length (ud_bytes data))) flags)];
  do_release h d : l_acts L h (uct_iface_release_desc d) = [];
}.

(** What print_strings shows of a message with the string [s]. *)
Definition line (label : string) (f : func_am_t) (s : list mbyte) (len : Z) : list arg :=
  [AStr label; AStr (func_am_t_str f); ABytes s; AZ len].

Section server.
Context `{!Ucs, !Cuda, !Uct} (L : uct_lib) (fuel n : nat) (a : N) (f : func_am_t) (k : mkind).
Context (desc flags : Z) (s r : list Z).
Local Abbreviation bytes := (s ++ 0 :: r).
Local Abbreviation data := (UctData desc bytes).
Local Abbreviation len := (Z.of_nat (length bytes)).
Context (HL : delivers_one L (Loc a 0) data flags n) (Hfuel : (S n < fuel)%nat).
Context (Hs : 0 ∉ s) (Hlen : 4 + len < 2 ^ 64) (Hal : ∀ tr z, l_alloc L tr z = true).
Context (g : uct_glob) (h : gmap N (obj uct_cell)) (shown0 : list (list arg)) (rel : list Z).
Context (Hnone : u_desc_holder g = NoDesc) (Ha : h !! a = Some (Cell k (CFunc f))).
Context (wk : Z).
Implicit Types (w : uct_world).
Local Abbreviation no_halt := (λ (_ : halt) (_ : uct_world), False).

(** The state of the receiver. *)
Record receiver (d : holder) (h' : gmap N (obj uct_cell)) (sh : list (list arg)) (b : bool) w : Prop := {
  rc_glob : glob w = with_desc_holder d g;
  rc_heap : heap w = h';
  rc_wf : wf_mem w;
  rc_shown : shown (trace w) = sh;
  rc_rel : released (trace w) = rel;
  rc_delivered : delivered (trace w) = b;
}.

(** The memory and desc_holder when the message has arrived. *)
Definition kept (d : holder) (h' : gmap N (obj uct_cell)) : Prop :=
  if has_flag flags UCT_CB_PARAM_FLAG_DESC then d = UctDesc desc (Some <$> bytes) ∧ h' = h
  else ∃ b, d = OwnDesc (Loc b 0) ∧ h !! b = None ∧
         h' = <[b := Bytes KHost ((Some <$> le_bytes 4 0) ++ (Some <$> bytes))]> h.

(** The string at the start of the message. *)
Lemma message_scan : scan (S (length (Some <$> bytes))) (Some <$> bytes) = Some (Some <$> s).
Proof using Hs.
  clear HL Hfuel Hlen Hal Hnone Ha. rewrite fmap_app, fmap_cons.
  apply scan_terminated; [rewrite !length_app, !length_fmap; simpl; lia|].
  intros (x & [= <-] & Hx)%list_elem_of_fmap. done.
Qed.

Lemma string_in_ok (Q : list mbyte → uct_world → Prop) w :
  Q (Some <$> s) w → wp no_halt (string_in (Some <$> bytes)) Q w.
Proof. intros HQ. unfold string_in. rewrite message_scan. by apply wp_ret. Qed.

(** print_strings, for a string that can be read. *)
Lemma print_strings_ok label z (m : UM (list mbyte)) d h' sh b (Q : unit → uct_world → Prop) w :
  z ≠ 0 → receiver d h' sh b w →
  (∀ w1 (Q' : list mbyte → uct_world → Prop),
     heap w1 = h' → Q' (Some <$> s) w1 → wp no_halt m Q' w1) →
  (∀ w', receiver d h' (line label f (Some <$> s) z :: sh) b w' → Q tt w') →
  wp no_halt (print_strings label (func_am_t_str f) m z) Q w.
Proof using.
  clear HL Hfuel Hs Hlen Hal Hnone Ha.
  intros Hz [Hg Hh Hwf Hsh Hrel Hdel] Hm HQ. unfold print_strings, printf.
  apply wp_bind, wp_fprintf, wp_bind. rewrite (proj2 (Z.eqb_neq _ _) Hz). cbn [negb].
  apply wp_bind, Hm; [done|]. apply wp_ret, wp_bind, wp_fprintf, wp_fprintf, HQ.
  split; [done|done|done| |done|done]. simpl. by rewrite Hsh.
Qed.

(** The handler: the message is shown and kept. *)
Lemma hello_world_ok (Q : Z → uct_world → Prop) w :
  receiver NoDesc h shown0 false w →
  (∀ st d h' w', kept d h' → receiver d h' (line "callback" f (Some <$> s) len :: shown0) false w' →
     Q st w') →
  wp no_halt (hello_world L (Loc a 0) data len flags) Q w.
Proof using Hs Hlen Hal Ha.
  clear HL Hfuel. intros Hw HQ. unfold hello_world, read_func. apply wp_bind, wp_bind.
  eapply wp_read_cell; [rewrite (rc_heap _ _ _ _ _ Hw); exact Ha|]. apply wp_ret.
  cbn [ud_bytes ud_desc]. apply wp_bind.
  eapply print_strings_ok; [rewrite length_app; simpl; lia|exact Hw| |].
  { intros w1 Q' _. apply string_in_ok. }
  clear w Hw. intros w Hw. unfold kept in HQ. destruct (has_flag _ _).
  - apply wp_bind, wp_mod_glob, wp_ret. eapply HQ; [done|].
    destruct Hw as [Hg Hh Hwf Hsh Hrel Hdel]. split; [|done..]. simpl. by rewrite Hg.
  - destruct Hw as [Hg Hh Hwf Hsh Hrel Hdel]. unfold malloc, sizeof_recv_desc.
    rewrite (u64_small (4 + len)) by (rewrite length_app in *; simpl in *; lia). apply wp_bind.
    eapply wp_malloc_obj; [done|by rewrite Hal|]. intros b _ -> Hfr.
    rewrite bool_decide_eq_false_2 by done. set (b := next w). apply wp_bind.
    replace (Z.to_nat (4 + len)) with (4 + length bytes)%nat by lia.
    eapply wp_write_mem with (d' := (Some <$> le_bytes 4 0) ++ replicate (length bytes) None);
      [by simpl; rewrite lookup_insert_eq|done| |].
    { by apply (splice_head (Some <$> le_bytes 4 0) (replicate 4 None) (replicate (length bytes) None)). }
    apply wp_bind, wp_the with (a := Some <$> bytes); [apply slice_all; by rewrite length_fmap|].
    apply wp_bind. eapply wp_write_mem with (d' := (Some <$> le_bytes 4 0) ++ (Some <$> bytes));
      [apply lookup_insert_eq|done| |].
    { apply (splice_tail (Some <$> le_bytes 4 0) _ (replicate (length bytes) None)); [done|]. by rewrite length_fmap, length_replicate. }
    apply wp_bind, wp_mod_glob, wp_ret. eapply HQ; [exists b; split_and!; [done| |reflexivity]|].
    { by rewrite <-Hh. }
    split; simpl; [by rewrite Hg|by rewrite !insert_insert_eq, Hh| |done..].
    intros b' Hb'. simpl in *. rewrite !insert_insert_eq, lookup_insert_ne by lia. apply Hwf. lia.
Qed.

(** Before and after the message. *)
Definition idle w : Prop := receiver NoDesc h shown0 false w.
Definition arrived w : Prop :=
  ∃ d h', kept d h' ∧ receiver d h' (line "callback" f (Some <$> s) len :: shown0) true w.

Lemma kept_some d h' : kept d h' → d ≠ NoDesc.
Proof using. unfold kept. destruct (has_flag _ _); [by intros [-> _]|by intros (b & -> & _)]. Qed.

(** A call for progress before the message is there. *)
Lemma progress_idle_ok (Q : Z → uct_world → Prop) w :
  idle w →
  (∀ x w', idle w' → (progressed (trace w) < n)%nat →
     progressed (trace w') = S (progressed (trace w)) → Q x w') →
  (∀ x w', arrived w' → Q x w') →
  wp no_halt (ucall L (uct_worker_progress wk)) Q w.
Proof using HL Hs Hlen Hal Ha.
  clear Hfuel. intros Hw HI HA. unfold ucall, ext. apply wp_bind, wp_gets. cbv beta.
  rewrite (do_progress _ _ _ _ _ HL), (rc_delivered _ _ _ _ _ Hw).
  destruct (Nat.ltb_spec (progressed (trace w)) n) as [Hn|Hn].
  - apply wp_bind, wp_ret. apply (wp_ext0 L no_halt (uct_worker_progress wk)). apply HI; [|done..].
    destruct Hw. by split.
  - apply wp_bind. simpl run_acts. apply wp_bind, wp_bind, wp_bind. eapply hello_world_ok; [done|].
    intros st d h' w1 Hk Hw1. apply wp_ret. apply wp_emit. apply wp_ret.
    apply (wp_ext0 L no_halt (uct_worker_progress wk)). apply HA. exists d, h'. split; [done|].
    destruct Hw1. by split.
Qed.

Lemma wait_message_ok (Q : unit → uct_world → Prop) w :
  idle w ∨ arrived w → (∀ w', arrived w' → Q tt w') → wp no_halt (wait_holder L fuel wk) Q w.
Proof using All.
  intros Hw HQ. unfold wait_holder.
  apply wp_while_total with (I := λ w, idle w ∨ arrived w)
    (μ := λ w, if delivered (trace w) then 0%nat else S (n - progressed (trace w)));
    [done|case_match; lia|].
  clear w Hw. intros w [Hw|(d & h' & Hk & Hw)]; unfold uglb;
    apply wp_bind, wp_bind, wp_get_glob, wp_ret, wp_ret; rewrite (rc_glob _ _ _ _ _ Hw).
  - apply wp_bind. rewrite (rc_delivered _ _ _ _ _ Hw). eapply progress_idle_ok; [done|..].
    + intros x w' Hw' Hn Hp. apply wp_ret. split; [by left|].
      rewrite (rc_delivered _ _ _ _ _ Hw'). lia.
    + intros x w' Hw'. apply wp_ret. split; [by right|]. destruct Hw' as (d & h' & _ & Hw').
      rewrite (rc_delivered _ _ _ _ _ Hw'). lia.
  - apply kept_some in Hk as Hd. simpl. destruct d; [done|..]; apply HQ; by eexists _, h'.
Qed.

(** What the branch leaves: both lines, the memory as it was, the descriptor given
    back to UCT if it was UCT's. *)
Record served (z : Z) w : Prop := {
  sv_heap : heap w = h;
  sv_shown : shown (trace w) =
    line "main" f (Some <$> s) z :: line "callback" f (Some <$> s) len :: shown0;
  sv_released : released (trace w) =
    if has_flag flags UCT_CB_PARAM_FLAG_DESC then desc :: rel else rel;
  sv_delivered : delivered (trace w) = true;
  sv_wf : wf_mem w;
}.

Lemma uct_print_received_ok args (Q : unit → uct_world → Prop) w :
  func_am_type args = f → 0 < test_strlen args < 2 ^ 64 → arrived w →
  (∀ w', served (test_strlen args) w' → Q tt w') → wp no_halt (print_received L args) Q w.
Proof using All.
  intros Hf Hz (d & h' & Hk & Hw) HQ. unfold print_received, uglb.
  apply wp_bind, wp_bind, wp_get_glob, wp_ret. rewrite (rc_glob _ _ _ _ _ Hw), Hf, u64_small by lia.
  pose (z := test_strlen args). fold z. assert (z ≠ 0) as Hz0 by (unfold z; lia).
  assert (∀ w', served z w' → Q tt w') as HQ' by done. clearbody z.
  unfold kept in Hk. destruct (has_flag _ _) eqn:Hflag.
  - destruct Hk as [-> ->]. cbn [u_desc_holder with_desc_holder]. apply wp_bind.
    eapply print_strings_ok; [done|exact Hw|intros w1 Q' _; apply string_in_ok|].
    clear w Hw. intros w [Hg Hh Hwf Hsh Hrel Hdel]. apply wp_bind. unfold ucall, ext.
    apply wp_bind, wp_gets. cbv beta. rewrite (do_release _ _ _ _ _ HL). apply wp_bind, wp_ret.
    apply (wp_ext0 L no_halt (uct_iface_release_desc desc)). apply wp_ret, HQ'.
    split; [done|done| |done|done]. simpl. by rewrite Hrel, Hflag.
  - destruct Hk as (b & -> & Hb & ->). cbn [u_desc_holder with_desc_holder]. apply wp_bind.
    eapply print_strings_ok; [done|exact Hw| |].
    { intros w1 Q' Hh1 HQ1. simpl ptr_add. unfold read_string. apply wp_bind.
      eapply wp_lookup_obj; [rewrite Hh1; apply lookup_insert_eq|]. cbv beta iota zeta.
      rewrite (drop_app_length' (Some <$> le_bytes 4 0)) by done. simpl by_cpu. cbv iota.
      eapply wp_the; [exact message_scan|done]. }
    clear w Hw. intros w [Hg Hh Hwf Hsh Hrel Hdel]. apply wp_bind.
    eapply wp_read_mem; [rewrite Hh; apply lookup_insert_eq|done| |].
    { apply slice_some; rewrite ?length_app, ?length_fmap; unfold sizeof_recv_desc; simpl; lia. }
    apply wp_bind, wp_the with (a := le_bytes 4 0); [done|]. cbv beta.
    change (le_val (le_bytes 4 0) =? 0) with true. cbv iota.
    eapply wp_free; [rewrite Hh; apply lookup_insert_eq|done|]. apply HQ'.
    split; [|done|by rewrite Hflag|done|].
    + simpl. rewrite Hh. by apply delete_insert_id.
    + intros b' Hb'. simpl in *. rewrite lookup_delete_None. right. by apply Hwf.
Qed.

Lemma uct_server_ok args (Q : unit → uct_world → Prop) w :
  func_am_type args = f → 0 < test_strlen args < 2 ^ 64 → idle w ∨ arrived w →
  (∀ w', served (test_strlen args) w' → Q tt w') → wp no_halt (uct_server L fuel args wk) Q w.
Proof using All.
  intros Hf Hz Hw HQ. unfold uct_server. apply wp_bind. eapply wait_message_ok; [done|].
  intros w1 Hw1. by eapply uct_print_received_ok.
Qed.
End server.
