(* ===== verification/UctReach.v ===== *)
(** * uct_hello_world: the question whether the peer can be reached

    Which parts of the program can offer a message to UCT, or ask
    uct_iface_is_reachable: only the calls in run_am and with_socket do; and what
    main does when the answer is no. *)

From S2P Require Import Prelude CRuntime CLib Ucx HelloUtil OobSocket UctApi UctSend UctLookup.
From S2P Require Import UctOptions UctMain UctOwn.
Open Scope Z_scope.

(** Messages that were offered to UCT, and whether it was asked about the peer. *)
Definition offers (c : uct_call) : nat :=
  match c with
  | uct_ep_am_short _ _ _ _ | uct_ep_am_bcopy _ _ _ | uct_ep_am_zcopy _ _ _ _ _ _ => 1%nat
  | _ => 0%nat
  end.
Definition asks (c : uct_call) : bool :=
  match c with uct_iface_is_reachable _ _ _ => true | _ => false end.
Fixpoint reach (h : history uct_api) : nat * bool :=
  match h with
  | [] => (0%nat, false)
  | ECall c _ :: h' => let '(n, asked) := reach h' in ((offers c + n)%nat, asks c || asked)
  | _ :: h' => reach h'
  end.

Definition same_reach : uct_world → uct_world → Prop := same (λ w : uct_world, reach (trace w)).

#[export] Instance same_reach_preorder : PreOrder same_reach.
Proof. unfold same_reach. typeclasses eauto. Qed.

#[export] Instance reach_interactive : Interactive same_reach.
Proof. apply same_trace_interactive. by intros []. Qed.

Lemma reach_push w (c : uct_call) r :
  offers c = 0%nat → asks c = false → same_reach w (push (ECall (A := uct_api) c r) w).
Proof. intros Ho Ha. unfold same_reach, same. simpl. rewrite Ho, Ha. by destruct (reach _). Qed.

#[export] Instance reach_quiet : UctQuiet same_reach.
Proof.
  split; [split; [split; [typeclasses eauto|]|]|]; intros;
    [by apply reach_push|done|by apply reach_push].
Qed.

Section quiet.
Context `{!Ucs, !Cuda, !Uct} (L : uct_lib) (fuel : nat).

(** Every other call. *)
Lemma keeps_other0 c : offers c = 0%nat → asks c = false → keeps same_reach (ucall0 L c).
Proof. intros Ho Ha w. by apply reach_push. Qed.
Lemma keeps_other c : offers c = 0%nat → asks c = false → keeps same_reach (ucall L c).
Proof.
  intros Ho Ha. unfold ucall. apply keeps_ext.
  - typeclasses eauto.
  - intros. apply keeps_uct_handler. typeclasses eauto.
  - intros. by apply reach_push.
Qed.
Hint Extern 2 (keeps _ (ucall0 _ ?c)) => exact (keeps_other0 c eq_refl eq_refl) : keeps.
Hint Extern 2 (keeps _ (ucall _ ?c)) => exact (keeps_other c eq_refl eq_refl) : keeps.

Lemma reach_init_iface tl f md wk i : keeps same_reach (init_iface L tl f md wk i).
Proof. unfold init_iface. solve_keeps. Qed.
Hint Resolve reach_init_iface : keeps.
Lemma reach_select_tl args name attr md wk i tls :
  keeps same_reach (select_tl L args name attr md wk i tls).
Proof. revert i. induction tls; intros i; simpl; unfold printf; solve_keeps. Qed.
Hint Resolve reach_select_tl : keeps.
Lemma reach_lookup_md args wk c name i : keeps same_reach (lookup_md L args wk c name i).
Proof. unfold lookup_md. solve_keeps. Qed.
Hint Resolve reach_lookup_md : keeps.
Lemma reach_lookup_mds args wk c n names i : keeps same_reach (lookup_mds L args wk c n names i).
Proof. revert names i. induction n; intros [] i; simpl; solve_keeps. Qed.
Hint Resolve reach_lookup_mds : keeps.
Lemma reach_dev_tl_lookup args wk : keeps same_reach (dev_tl_lookup L args wk).
Proof.
  assert (∀ cs, keeps same_reach (lookup_components L args wk cs)).
  { intros cs. induction cs; simpl; unfold lookup_component; solve_keeps. }
  unfold dev_tl_lookup. solve_keeps.
Qed.

Lemma reach_connect_common server port af : keeps same_reach (connect_common L server port af).
Proof. apply keeps_connect_common; [typeclasses eauto|]. intros. by apply reach_push. Qed.
Lemma reach_sendrecv fd p n : keeps same_reach (sendrecv L fd p n).
Proof. unfold sendrecv, recv_into. solve_keeps. Qed.
Hint Resolve reach_sendrecv : keeps.
Lemma reach_exchange_device info fd st a : keeps same_reach (exchange_device L info fd st a).
Proof. unfold exchange_device, get_address. solve_keeps. Qed.
Lemma reach_exchange_iface info fd st a : keeps same_reach (exchange_iface L info fd st a).
Proof. unfold exchange_iface, get_address. solve_keeps. Qed.
Lemma reach_cleanup fd a l : keeps same_reach (cleanup L fd a l).
Proof. unfold cleanup. solve_keeps. Qed.
End quiet.

(** ** The answer is no *)

Section unreachable.
Context `{!Ucs, !Cuda, !Uct} (L : uct_lib) (fuel : nat).
Context (Hno : ∀ h i dev addr, l_ret L h (uct_iface_is_reachable i dev addr) = 0).
Implicit Types (w : uct_world).

Definition no_offer : halt → uct_world → Prop := λ _ w, (reach (trace w)).1 = 0%nat.
Definition unasked w : Prop := reach (trace w) = (0%nat, false).
(** If UCT was asked, [st] is 0. *)
Definition refused_with (st : Z) w : Prop :=
  (reach (trace w)).1 = 0%nat ∧ ((reach (trace w)).2 = true → st = 0).

Lemma unasked_refused st w : unasked w → refused_with st w.
Proof. intros Hu. unfold refused_with. by rewrite Hu. Qed.

Lemma still {A} (m : UM A) r (Q : A → uct_world → Prop) w :
  keeps same_reach m → reach (trace w) = r → r.1 = 0%nat →
  (∀ a w', reach (trace w') = r → Q a w') → wp no_offer m Q w.
Proof.
  intros Hk Hr Hz HQ. specialize (Hk w). unfold same_reach, same in Hk. unfold wp.
  destruct (m w) as [[a|h] w']; simpl in Hk; [apply HQ; congruence|].
  unfold no_offer. by rewrite Hk, Hr.
Qed.

Lemma still_unasked {A} (m : UM A) (Q : A → uct_world → Prop) w :
  keeps same_reach m → unasked w → (∀ a w', unasked w' → Q a w') → wp no_offer m Q w.
Proof. intros Hk Hu HQ. by eapply still. Qed.
Lemma still_refused {A} st (m : UM A) (Q : A → uct_world → Prop) w :
  keeps same_reach m → refused_with st w → (∀ a w', refused_with st w' → Q a w') →
  wp no_offer m Q w.
Proof.
  intros Hk [Ho Ha] HQ. eapply still; [done|reflexivity|done|]. intros a w' Hr. apply HQ.
  unfold refused_with. by rewrite Hr.
Qed.

Local Ltac quiet :=
  lazymatch goal with |- wp _ (mbind _ _) _ _ => apply wp_bind | _ => idtac end;
  eapply still_unasked; [solve_keeps|eassumption|]; intros ? ? ?.

Hint Resolve reach_exchange_device reach_exchange_iface reach_dev_tl_lookup
  reach_connect_common reach_cleanup : keeps.
Hint Extern 2 (keeps _ (ucall0 _ ?c)) => exact (keeps_other0 L c eq_refl eq_refl) : keeps.
Hint Extern 2 (keeps _ (ucall _ ?c)) => exact (keeps_other L c eq_refl eq_refl) : keeps.

Lemma with_socket_refused args info wk id fd st a w :
  unasked w →
  wp no_offer (with_socket L fuel args info wk id fd st a) (λ x, refused_with x.1.1) w.
Proof.
  intros Hu. unfold with_socket. destruct (_ <? _).
  { quiet. by apply wp_ret, unasked_refused. }
  quiet. case_match; [by apply wp_ret, unasked_refused|]. case_match.
  quiet. case_match; [by apply wp_ret, unasked_refused|]. case_match.
  apply wp_bind. eapply still_unasked; [solve_keeps|eassumption|]. intros dev w7 Hu7.
  apply wp_bind. eapply still_unasked; [solve_keeps|eassumption|]. intros addr w8 Hu8.
  apply wp_bind. pose (c := uct_iface_is_reachable (ii_iface info) dev addr).
  unfold ucall, ext. apply wp_bind, wp_gets, wp_bind. eapply still_unasked; [|eassumption|].
  { apply keeps_run_acts; [typeclasses eauto|]. intros. apply keeps_uct_handler. typeclasses eauto. }
  intros [] w9 Hu9. apply (wp_ext0 L no_offer c). unfold c. rewrite Hno. simpl.
  apply wp_bind. eapply (still (chkerr _) (0%nat, true)); [solve_keeps| |done|].
  { simpl. by rewrite Hu9. }
  intros [] w10 Hr. apply wp_ret. unfold refused_with. by rewrite Hr.
Qed.

Lemma with_iface_refused args info wk arg w :
  unasked w → wp no_offer (with_iface L fuel args info wk arg) refused_with w.
Proof.
  intros Hu. unfold with_iface. quiet. destruct (negb _); [quiet; by apply wp_ret, unasked_refused|].
  quiet. case_bool_decide; [quiet; by apply wp_ret, unasked_refused|].
  quiet. case_bool_decide; [quiet; quiet; by apply wp_ret, unasked_refused|].
  quiet. apply wp_bind. eapply wp_conseq; [by apply with_socket_refused|].
  intros [[st adr] l] w9 Hr. simpl in Hr. apply wp_bind.
  eapply still_refused; [solve_keeps|done|]. intros [] w10 Hr'. by apply wp_ret.
Qed.

Lemma with_uct_worker_refused args wk arg w :
  unasked w → wp no_offer (with_uct_worker L fuel args wk arg) refused_with w.
Proof.
  intros Hu. unfold with_uct_worker. quiet. case_match.
  destruct (negb _); [quiet; by apply wp_ret, unasked_refused|]. apply wp_bind.
  eapply wp_conseq; [by apply with_iface_refused|]. intros st w9 Hr.
  apply wp_bind. eapply still_refused; [solve_keeps|done|]. intros _ w10 Hr10.
  apply wp_bind. eapply still_refused; [solve_keeps|done|]. intros _ w11 Hr11. by apply wp_ret.
Qed.

Lemma with_args_refused args arg w :
  unasked w → wp no_offer (with_args L fuel args arg) refused_with w.
Proof.
  intros Hu. unfold with_args. quiet. case_match.
  destruct (negb _); [quiet; by apply wp_ret, unasked_refused|]. quiet. case_match.
  apply wp_bind. apply wp_conseq with (Q := refused_with).
  { destruct (negb _); [quiet; by apply wp_ret, unasked_refused|]. apply wp_bind.
    eapply wp_conseq; [by apply with_uct_worker_refused|]. intros st w9 Hr.
    apply wp_bind. eapply still_refused; [solve_keeps|done|]. intros _ w10 Hr10. by apply wp_ret. }
  intros st w9 Hr. apply wp_bind. eapply still_refused; [solve_keeps|done|].
  intros _ w10 Hr10. by apply wp_ret.
Qed.

Lemma uct_main_refused argv w :
  unasked w → wp no_offer (uct_main L fuel argv) refused_with w.
Proof.
  intros Hu. unfold uct_main. quiet. apply wp_bind. apply wp_conseq with (Q := refused_with).
  { case_match; [|by apply wp_ret, unasked_refused]. apply wp_local_raw.
    eapply wp_conseq; [by apply with_args_refused|]. done. }
  intros st w9 [Ho Ha]. apply wp_ret. split; [done|]. intros Hasked. specialize (Ha Hasked).
  subst. destruct (0 =? _); [apply ucs_ok_zero|done].
Qed.
End unreachable.
