(* ===== verification/UctExchange.v ===== *)
(** * uct_hello_world: the exchange of addresses

    sendrecv over a byte stream: each side sends its buffer in a frame and keeps the
    buffer of the other. *)

From S2P Require Import Prelude CRuntime CLib Ucx HelloUtil OobSocket UctApi UctSend UctLookup.
From S2P Require Import UctOptions UctMain UctSteady.
Open Scope Z_scope.

(** ** The stream *)

(** The frame: the length as a size_t, and the bytes. *)
Definition framed (bs : list Z) : list Z := le_bytes 8 (Z.of_nat (length bs)) ++ bs.

(** Sends are complete, and what arrives are the next bytes of [input]. *)
Record connected (L : uct_lib) (fd : Z) (input : list Z) : Prop := {
  cn_send h bs : l_ret L h (sock_send fd bs) = Z.of_nat (length bs);
  cn_recv h n :
    let got := take (Z.to_nat n) (drop (incoming fd h) input) in
    l_ret L h (sock_recv fd n) = (Z.of_nat (length got), got);
}.

Section exchange.
Context `{!Ucs, !Cuda, !Uct} (L : uct_lib) (fd : Z) (input : list Z) (HL : connected L fd input).
Context {X} (V : history uct_api → X) `{!View V}.
Implicit Types (w : uct_world) (g : uct_glob) (h : gmap N (obj uct_cell)) (x : X).
Local Abbreviation no_halt := (λ (_ : halt) (_ : uct_world), False).

Lemma s32_small z : 0 ≤ z < 2 ^ 31 → s32 z = z.
Proof using. clear HL. intros. apply sgn_small; lia. Qed.

(** A receive of bytes that are there. *)
Lemma sock_recv_ok n (bs rest : list Z) g h x out i (Q : Z * list Z → uct_world → Prop) w :
  n = Z.of_nat (length bs) → steady V fd g h x (out, i) w → drop i input = bs ++ rest →
  (∀ w', steady V fd g h x (out, (i + length bs)%nat) w' → Q (n, bs) w') →
  wp no_halt (ucall0 L (sock_recv fd n)) Q w.
Proof.
  intros -> [Hg Hh Hwf Hv Ho] Hin HQ. pose (c := sock_recv fd (Z.of_nat (length bs))).
  apply (wp_ext0 L no_halt c). unfold wire in Ho. injection Ho as Hout Hi.
  pose proof (cn_recv L fd input HL (trace w) (Z.of_nat (length bs))) as Hr. cbv zeta in Hr.
  rewrite Hi, Hin, Nat2Z.id, take_app_length in Hr. fold c in Hr. rewrite Hr. apply HQ.
  split; [done..| |]; simpl; [by rewrite view_call|].
  unfold wire. simpl. by rewrite Z.eqb_refl, Hout, Hi.
Qed.

Lemma sock_send_ok bs g h x out i (Q : Z → uct_world → Prop) w :
  steady V fd g h x (out, i) w →
  (∀ w', steady V fd g h x (out ++ bs, i) w' → Q (Z.of_nat (length bs)) w') →
  wp no_halt (ucall0 L (sock_send fd bs)) Q w.
Proof.
  intros [Hg Hh Hwf Hv Ho] HQ. pose (c := sock_send fd bs). apply (wp_ext0 L no_halt c).
  pose proof (cn_send L fd input HL (trace w) bs) as Hr. fold c in Hr. rewrite Hr.
  unfold wire in Ho. injection Ho as Hout Hi. apply HQ.
  split; [done..| |]; simpl; [by rewrite view_call|].
  unfold wire. simpl. by rewrite Z.eqb_refl, Hout, Hi.
Qed.

Lemma stored_size_ok n (Q : Z → uct_world → Prop) w :
  0 ≤ n < 2 ^ 64 → Q n w → wp no_halt (stored_size (le_bytes 8 n)) Q w.
Proof using.
  clear HL. intros Hn HQ. unfold stored_size. apply wp_bind, wp_the with (a := le_bytes 8 n).
  { by apply splice_all. }
  apply wp_ret. rewrite le_val_bytes. change (256 ^ Z.of_nat 8) with (2 ^ 64). by rewrite Z.mod_small.
Qed.

Lemma sendrecv_ok b k own peer rest g h x out i (Q : received → uct_world → Prop) w :
  (∀ tr z, l_alloc L tr z = true) → steady V fd g h x (out, i) w →
  h !! b = Some (Bytes k (Some <$> own)) → drop i input = framed peer ++ rest →
  Z.of_nat (length own) < 2 ^ 31 → Z.of_nat (length peer) < 2 ^ 31 →
  (∀ b' w', h !! b' = None →
     steady V fd g (<[b' := Bytes KHost (Some <$> peer)]> h) x
       (out ++ (Some <$> framed own), (i + length (framed peer))%nat) w' →
     Q (Received 0 (Loc b' 0)) w') →
  wp no_halt (sendrecv L fd (Loc b 0) (Z.of_nat (length own))) Q w.
Proof.
  intros Hal Hw Hb Hin Hown Hpeer HQ. unfold sendrecv. apply wp_bind.
  eapply sock_send_ok; [exact Hw|]. clear w Hw. intros w Hw. rewrite length_fmap, le_bytes_length.
  change (negb (s32 (Z.of_nat 8) =? 8)) with false. cbv iota. apply wp_bind.
  eapply wp_read_mem; [by eapply steady_lookup|done|apply slice_all; by rewrite length_fmap|].
  apply wp_bind. eapply sock_send_ok; [exact Hw|]. clear w Hw. intros w Hw.
  rewrite length_fmap. cbv zeta. rewrite s32_small, Z.eqb_refl by lia. cbn [negb]. apply wp_bind.
  unfold framed in Hin. rewrite <-app_assoc in Hin.
  eapply sock_recv_ok; [|exact Hw|exact Hin|]; [by rewrite le_bytes_length|].
  clear w Hw. intros w Hw. rewrite le_bytes_length in Hw. apply wp_bind, stored_size_ok; [lia|].
  change (negb (s32 8 =? 8)) with false. cbn [orb]. unfold SIZE_MAX_2.
  rewrite (proj2 (Z.ltb_ge _ _)) by lia. unfold calloc. apply wp_bind.
  eapply (steady_malloc V fd L); [done|exact Hw|]. clear w Hw. intros b' w Hfr Hw.
  rewrite bool_decide_eq_false_2 by done. rewrite Nat2Z.id in Hw. unfold recv_into. apply wp_bind, wp_bind.
  assert (drop (i + 8) input = peer ++ rest) as Hin'.
  { rewrite <-drop_drop, Hin. by rewrite drop_app_length' by (by rewrite le_bytes_length). }
  eapply sock_recv_ok; [done|exact Hw|exact Hin'|]. clear w Hw. intros w Hw. apply wp_bind.
  eapply (steady_write V fd) with (d' := Some <$> peer) (k := KHost); [|done| |exact Hw|];
    [apply lookup_insert_eq|apply splice_all; by rewrite length_fmap, length_replicate|].
  clear w Hw. intros w Hw. rewrite insert_insert_eq in Hw.
  apply wp_ret. rewrite s32_small, Z.eqb_refl by lia. cbn [negb]. apply wp_ret, HQ; [done|].
  unfold framed. rewrite fmap_app, length_app, le_bytes_length.
  rewrite (app_assoc out), (Nat.add_assoc i). exact Hw.
Qed.
End exchange.

(** What sendrecv leaves, for a run from one world to another. *)
Record exchanged (fd : Z) (input own peer rest : list Z) (w : uct_world) (r : received)
    (w' : uct_world) : Prop := {
  ex_ret : rv_ret r = 0;
  ex_buf : ∃ b, rv_buf r = Loc b 0 ∧ heap w !! b = None ∧
             heap w' = <[b := Bytes KHost (Some <$> peer)]> (heap w);
  ex_out : outgoing fd (trace w') = outgoing fd (trace w) ++ (Some <$> framed own);
  ex_in : drop (incoming fd (trace w')) input = rest;
}.

Lemma sendrecv_exchanged `{!Ucs, !Cuda, !Uct} L fd input b k own peer rest w :
  connected L fd input → wf_mem w → (∀ tr z, l_alloc L tr z = true) →
  heap w !! b = Some (Bytes k (Some <$> own)) →
  drop (incoming fd (trace w)) input = framed peer ++ rest →
  Z.of_nat (length own) < 2 ^ 31 → Z.of_nat (length peer) < 2 ^ 31 →
  ∃ r w', sendrecv L fd (Loc b 0) (Z.of_nat (length own)) w = (Ok r, w') ∧
    exchanged fd input own peer rest w r w'.
Proof.
  intros HL Hwf Hal Hb Hin Hown Hpeer. apply wp_returns.
  eapply (sendrecv_ok L fd input HL (λ _, tt)); [done|by split|done|done|done|done|].
  intros b' w' Hb' [_ Hh _ _ Hw']. unfold wire in Hw'. injection Hw' as Ho Hi.
  split; [done|by exists b'|done|]. rewrite Hi, <-drop_drop.
  rewrite Hin. apply drop_app_length.
Qed.
