(* ===== verification/UctBlocks.v ===== *)
(** * uct_hello_world: the buffers main frees at its end

    [holds l h0 h]: the memory [h] is [h0] and, apart from it and from each other,
    the buffers of [l] with their contents; a pointer of [l] may be NULL. Then the
    elementary operations on such buffers, between [steady] states. *)

From S2P Require Import Prelude CRuntime CLib Ucx HelloUtil OobSocket UctApi UctSend UctLookup.
From S2P Require Import UctOptions UctMain UctSteady.
Open Scope Z_scope.

Implicit Types (h : gmap N (obj uct_cell)).

Fixpoint holds (l : list (ptr * list mbyte)) h0 h : Prop :=
  match l with
  | [] => h = h0
  | (Null, _) :: l => holds l h0 h
  | (Loc b off, d) :: l => off = 0 ∧ h !! b = Some (Bytes KHost d) ∧ holds l h0 (delete b h)
  | _ => False
  end.

#[export] Instance holds_perm : Proper ((≡ₚ) ==> (=) ==> (=) ==> impl) holds.
Proof.
  intros l l' Hl h0 ? <- h ? <-. revert h. induction Hl as [|[p d] l l' _ IH|[p d] [q e] l|l1 l2 l3 _ IH1 _ IH2];
    intros h; simpl; [done| | |by intros ?%IH1%IH2].
  - destruct p as [|b off| |]; [by apply IH| |done..]. intros (? & ? & ?). split_and!; [done|done|by apply IH].
  - destruct p as [|b off| |], q as [|b' off'| |]; unfold impl; try done; try tauto.
    intros (-> & Hb' & -> & Hb & Hl). apply lookup_delete_Some in Hb as [Hne Hb].
    rewrite delete_delete in Hl. split_and!; try done. by rewrite lookup_delete_ne.
Qed.

(** The element in the middle is moved to the front, and back. *)
Lemma holds_front l1 e l2 h0 h : holds (l1 ++ e :: l2) h0 h → holds (e :: l1 ++ l2) h0 h.
Proof. by rewrite Permutation_middle. Qed.
Lemma holds_back l1 e l2 h0 h : holds (e :: l1 ++ l2) h0 h → holds (l1 ++ e :: l2) h0 h.
Proof. by rewrite Permutation_middle. Qed.

Lemma holds_lookup l1 b off d l2 h0 h :
  holds (l1 ++ (Loc b off, d) :: l2) h0 h → off = 0 ∧ h !! b = Some (Bytes KHost d).
Proof. intros H%holds_front. destruct H as (? & ? & _). done. Qed.

Lemma holds_write l1 b d d' l2 h0 h :
  holds (l1 ++ (Loc b 0, d) :: l2) h0 h →
  holds (l1 ++ (Loc b 0, d') :: l2) h0 (<[b := Bytes KHost d']> h).
Proof.
  intros H%holds_front. apply holds_back. destruct H as (_ & Hb & H). split_and!; [done| |].
  - apply lookup_insert_eq.
  - by rewrite delete_insert_eq.
Qed.

Lemma holds_new l b d h0 h :
  h !! b = None → holds l h0 h → holds ((Loc b 0, d) :: l) h0 (<[b := Bytes KHost d]> h).
Proof.
  intros Hb H. split_and!; [done|apply lookup_insert_eq|]. by rewrite delete_insert_id.
Qed.

(** A pointer that was NULL becomes a new buffer. *)
Lemma holds_fill l1 d0 b d l2 h0 h :
  h !! b = None → holds (l1 ++ (Null, d0) :: l2) h0 h →
  holds (l1 ++ (Loc b 0, d) :: l2) h0 (<[b := Bytes KHost d]> h).
Proof. intros Hb H%holds_front. apply holds_back. by apply holds_new. Qed.

(** What was there before still is. *)
Lemma holds_base l h0 h b v : holds l h0 h → h0 !! b = Some v → h !! b = Some v.
Proof.
  revert h. induction l as [|[p d] l IH]; intros h; simpl; [by intros ->|].
  destruct p as [|b' off| |]; [apply IH| |done..]. intros (_ & _ & H) Hb.
  specialize (IH _ H Hb). by apply lookup_delete_Some in IH as [_ ?].
Qed.

(** Every pointer of the list is NULL or the start of a buffer. *)
Lemma holds_ptr l1 p d l2 h0 h :
  holds (l1 ++ (p, d) :: l2) h0 h → p = Null ∨ ∃ b, p = Loc b 0 ∧ h !! b = Some (Bytes KHost d).
Proof.
  intros H%holds_front. destruct p as [|b off| |]; [by left| |done..].
  destruct H as (-> & ? & _). right. by exists b.
Qed.

(** What UCT reads at a pointer. *)
Definition seen (p : ptr) (d : list mbyte) : contents :=
  match p with Null => None | _ => Some d end.

Section ops.
Context {X} (V : history uct_api → X) `{!View V} (fd : Z).
Context `{!Ucs, !Cuda, !Uct} (L : uct_lib).
Implicit Types (w : uct_world) (g : uct_glob) (x : X) (o : list mbyte * nat).
Local Abbreviation no_halt := (λ (_ : halt) (_ : uct_world), False).

Lemma holds_free l p d g h0 h x o (Q : unit → uct_world → Prop) w :
  holds ((p, d) :: l) h0 h → steady V fd g h x o w →
  (∀ h' w', holds l h0 h' → steady V fd g h' x o w' → Q tt w') → wp no_halt (free p) Q w.
Proof.
  intros Hm Hw HQ. destruct p as [|b off| |]; [by apply wp_free_null, (HQ h)| |done..].
  destruct Hm as (-> & Hb & Hm). eapply steady_free; [exact Hb|exact Hw|].
  intros w' Hw'. by eapply HQ.
Qed.

Lemma contents_at_ok l1 p d l2 g h0 h x o (Q : contents → uct_world → Prop) w :
  holds (l1 ++ (p, d) :: l2) h0 h → steady V fd g h x o w → Q (seen p d) w →
  wp no_halt (contents_at p) Q w.
Proof.
  intros Hm Hw HQ. destruct (holds_ptr _ _ _ _ _ _ Hm) as [->|(b & -> & Hb)]; [by apply wp_ret|].
  unfold contents_at. apply wp_bind. eapply wp_lookup_obj; [by eapply steady_lookup|]. by apply wp_ret.
Qed.

(** A call that answers an address, which is stored in a buffer of its length. *)
Lemma get_address_ok (call : UM (Z * list Z)) l1 p d l2 st bs g h0 h x o
    (Q : Z → uct_world → Prop) w :
  holds (l1 ++ (p, d) :: l2) h0 h → p ≠ Null → length bs = length d →
  (∀ Q' : Z * list Z → uct_world → Prop,
     (∀ w', steady V fd g h x o w' → Q' (st, bs) w') → wp no_halt call Q' w) →
  (∀ h' w', holds (l1 ++ (p, Some <$> bs) :: l2) h0 h' → steady V fd g h' x o w' → Q st w') →
  wp no_halt (get_address call p) Q w.
Proof.
  intros Hm Hp Hl Hcall HQ. destruct (holds_ptr _ _ _ _ _ _ Hm) as [|(b & -> & Hb)]; [done|].
  unfold get_address. apply wp_bind, Hcall. intros w1 Hw1. apply wp_bind.
  eapply (steady_write V fd) with (d' := Some <$> bs); [exact Hb|done| |exact Hw1|].
  { apply splice_all. by rewrite length_fmap. }
  intros w2 Hw2. apply wp_ret. eapply HQ; [|exact Hw2]. by eapply holds_write.
Qed.
End ops.
