(* ===== verification/UctRun.v ===== *)
(** * uct_hello_world: a run in which everybody cooperates

    [cooperates] says what UCT and the socket layer answer when nothing goes wrong:
    the addresses of this side ([own]) come from UCT, those of the peer ([peer]) from
    the socket, and UCT accepts the peer's. Then main gets as far as the message:
    connect_common, the exchange of the addresses, the endpoint, the barrier. *)

From S2P Require Import Prelude CRuntime CLib Ucx HelloUtil OobSocket UctApi UctSend UctLookup.
From S2P Require Import UctOptions UctMain UctSteady UctOwn UctBlocks UctExchange.
Open Scope Z_scope.

(** ** The outside *)

(** The addresses of one side: device, interface, endpoint. *)
Record addrs : Type := Addrs { a_dev : list Z; a_iface : list Z; a_ep : list Z }.

Section addrs.
Context `{!Uct} (attr : iface_attr_t).

Definition connects_to_ep : bool := has_flag (if_flags attr) UCT_IFACE_FLAG_CONNECT_TO_EP.

(** What is exchanged of an address of length [len], and what UCT is given of it. *)
Definition framed_if (len : Z) (bs : list Z) : list Z := if 0 <? len then framed bs else [].
Definition given (len : Z) (bs : list Z) : contents :=
  if 0 <? len then Some (Some <$> bs) else None.

(** Everything one side sends of its addresses. *)
Definition frames (a : addrs) : list Z :=
  framed_if (device_addr_len attr) (a_dev a) ++ framed_if (iface_addr_len attr) (a_iface a) ++
  (if connects_to_ep then framed (a_ep a) else []).

(** The addresses have the lengths of the attributes. *)
Definition sized (a : addrs) : Prop :=
  Z.of_nat (length (a_dev a)) = device_addr_len attr ∧
  Z.of_nat (length (a_iface a)) = iface_addr_len attr ∧
  Z.of_nat (length (a_ep a)) = ep_addr_len attr.

(** The length of an address is an int. *)
Definition small (a : addrs) : Prop :=
  Z.of_nat (length (a_dev a)) < 2 ^ 31 ∧ Z.of_nat (length (a_iface a)) < 2 ^ 31 ∧
  Z.of_nat (length (a_ep a)) < 2 ^ 31.
End addrs.

(** connect_common succeeds, with the descriptor [fd]. *)
Record dials (L : uct_lib) (server : option string) (fd : Z) : Prop := {
  di_fd : 0 ≤ fd;
  di_list h s p b af : ∃ t ts, l_ret L h (Uct_sock (getaddrinfo s p b af)) = (0, t :: ts);
  di_client h t : server ≠ None →
    l_ret L h (Uct_sock (socket t)) = fd ∧ l_ret L h (Uct_sock (connect fd t)) = 0;
  di_server h t l : server = None →
    0 ≤ (l_ret L h (Uct_sock (socket t)) : Z) ∧
    0 ≤ (l_ret L h (Uct_sock (setsockopt_reuseaddr l)) : Z) ∧
    l_ret L h (Uct_sock (bind_ l t)) = 0 ∧ 0 ≤ (l_ret L h (Uct_sock (listen l 0)) : Z) ∧
    l_ret L h (Uct_sock (accept l)) = fd;
}.

(** The barrier: the message of the peer is there after [n] polls. *)
Record meets (L : uct_lib) (fd : Z) (n : nat) : Prop := {
  me_send h : 0 ≤ (l_ret L h (Uct_sock (send_ fd sizeof_int)) : Z);
  me_poll h : (n ≤ polls fd h)%nat → l_ret L h (Uct_sock (poll_in fd 1)) = 1;
  me_recv h : l_ret L h (Uct_sock (recv_waitall fd sizeof_int)) = sizeof_int;
}.

Record cooperates `{!Ucs, !Uct} (L : uct_lib) (fd : Z) (info : iface_info_t) (own peer : addrs)
    (ep : Z) : Prop := {
  co_alloc tr z : l_alloc L tr z = true;
  co_quiet h c : silent c = true → l_acts L h c = [];
  co_async h : ∃ async, l_ret L h ucs_async_context_create = (UCS_OK, async);
  co_worker h async mode : ∃ wk, l_ret L h (uct_worker_create async mode) = (UCS_OK, wk);
  co_handler h arg : l_ret L h (uct_iface_set_am_handler (ii_iface info) 0 arg) = UCS_OK;
  co_wire : connected L fd (frames (ii_attr info) peer);
  co_own : sized (ii_attr info) own;
  co_small : small own ∧ small peer;
  co_device h :
    l_ret L h (uct_iface_get_device_address (ii_iface info)) = (UCS_OK, a_dev own);
  co_iface h : l_ret L h (uct_iface_get_address (ii_iface info)) = (UCS_OK, a_iface own);
  co_reachable h :
    l_ret L h (uct_iface_is_reachable (ii_iface info)
      (given (device_addr_len (ii_attr info)) (a_dev peer))
      (given (iface_addr_len (ii_attr info)) (a_iface peer))) ≠ 0;
  co_to_ep : connects_to_ep (ii_attr info) = true →
    (∀ h, l_ret L h (uct_ep_create (ii_iface info) None) = (UCS_OK, ep)) ∧
    (∀ h, l_ret L h (uct_ep_get_address ep) = (UCS_OK, a_ep own)) ∧
    (∀ h, l_ret L h (uct_ep_connect_to_ep ep
       (given (device_addr_len (ii_attr info)) (a_dev peer)) (Some (Some <$> a_ep peer))) = UCS_OK);
  co_to_iface : connects_to_ep (ii_attr info) = false →
    has_flag (if_flags (ii_attr info)) UCT_IFACE_FLAG_CONNECT_TO_IFACE = true ∧
    (∀ h, l_ret L h (uct_ep_create (ii_iface info)
       (Some (given (device_addr_len (ii_attr info)) (a_dev peer),
              given (iface_addr_len (ii_attr info)) (a_iface peer)))) = (UCS_OK, ep));
}.

(** How often the socket was polled: nothing but a poll changes it. *)
#[export] Instance polls_interactive fd : Interactive (same (λ w : uct_world, polls fd (trace w))).
Proof. apply (same_trace_interactive (polls fd)). by intros []. Qed.

#[export] Instance polls_quiet fd : UctQuiet (same (λ w : uct_world, polls fd (trace w))).
Proof. by split; [split; [split; [typeclasses eauto|]|]|]. Qed.

Section run.
Context `{!Ucs, !Cuda, !Uct} (L : uct_lib) (fd : Z) {X} (V : history uct_api → X) `{!View V}.
Implicit Types (w : uct_world) (g : uct_glob) (h : gmap N (obj uct_cell)) (x : X).
Implicit Types (o : list mbyte * nat).
Local Abbreviation no_halt := (λ (_ : halt) (_ : uct_world), False).

Local Ltac sys H :=
  apply wp_bind; lazymatch goal with |- wp _ (sys _ ?op) _ _ =>
    eapply (steady_sys V fd L op); [exact H|]; clear H end.

(** ** connect_common *)

Lemma connect_common_run server port af g h x o (Q : Z → uct_world → Prop) w :
  dials L server fd → steady V fd g h x o w → (∀ w', steady V fd g h x o w' → Q fd w') →
  wp no_halt (connect_common L server port af) Q w.
Proof.
  intros [Hfd Hlist Hc Hs] Hw HQ. unfold connect_common. sys Hw. intros w1 Hw1.
  destruct (Hlist (trace w) server (pretty.pretty port) (bool_decide (server = None)) af)
    as (t & ts & ->). change (0 <? 0) with false. cbn [negb Z.eqb]. apply wp_bind.
  assert (∀ w', steady V fd g h x o w' → wp no_halt
    (when (fd <? 0) (chkerr (match server with Some _ => "open client socket" | None => "open server socket" end));;
     sys L freeaddrinfo;; mret fd) Q w') as Hend.
  { intros w' Hw'. rewrite (proj2 (Z.ltb_ge fd 0)) by done. apply wp_bind, wp_ret. sys Hw'.
    intros w2 Hw2. by apply wp_ret, HQ. }
  simpl try_addresses. sys Hw1. intros w2 Hw2. destruct server as [s|].
  - destruct (Hc (trace w1) t) as [-> _]; [done|]. rewrite (proj2 (Z.ltb_ge fd 0)) by done.
    sys Hw2. intros w3 Hw3. destruct (Hc (trace w2) t) as [_ ->]; [done|].
    by apply wp_ret, Hend.
  - destruct (Hs (trace w1) t 0) as [Hl _]; [done|]. set (l := l_ret L (trace w1) _) in *.
    rewrite (proj2 (Z.ltb_ge l 0)) by done. sys Hw2. intros w3 Hw3.
    destruct (Hs (trace w2) t l) as (_ & Hr & _); [done|]. rewrite (proj2 (Z.ltb_ge _ 0)) by exact Hr.
    sys Hw3. intros w4 Hw4. destruct (Hs (trace w3) t l) as (_ & _ & -> & _); [done|].
    change (0 =? 0) with true. cbv iota. sys Hw4. intros w5 Hw5.
    destruct (Hs (trace w4) t l) as (_ & _ & _ & Hr' & _); [done|].
    rewrite (proj2 (Z.ltb_ge _ 0)) by exact Hr'. apply wp_bind.
    eapply steady_say; [typeclasses eauto|done|exact Hw5|]. intros w6 Hw6. cbv zeta. sys Hw6.
    intros w7 Hw7. destruct (Hs (trace w6) t l) as (_ & _ & _ & _ & ->); [done|].
    sys Hw7. intros w8 Hw8. by apply wp_ret, Hend.
Qed.

(** ** The barrier *)

Lemma keeps_progress_polls wk : keeps (same (λ w : uct_world, polls fd (trace w))) (progress_worker L wk).
Proof.
  unfold progress_worker, ucall. apply keeps_bind; [typeclasses eauto| |solve_keeps].
  apply keeps_ext; [typeclasses eauto| |done]. intros. apply keeps_uct_handler. typeclasses eauto.
Qed.

Lemma wait_peer_run (J : uct_world → Prop) n fuel wk (Q : Z → uct_world → Prop) w :
  meets L fd n → (n < fuel)%nat →
  (∀ w op r, J w → J (push (ECall (A := uct_api) (Uct_sock op) r) w)) →
  (∀ w, J w → wp no_halt (progress_worker L wk) (λ _, J) w) →
  J w → (∀ w', J w' → Q 0 w') → wp no_halt (wait_peer L fuel wk fd) Q w.
Proof.
  intros [Hsend Hpoll Hrecv] Hfuel Hsys Hcb HJ HQ. unfold wait_peer, barrier, sys.
  apply wp_bind, wp_bind, wp_ext0, wp_ret. pose proof (Hsend (trace w)) as Hs.
  rewrite (proj2 (Z.ltb_ge _ 0)) by exact Hs. apply wp_bind. unfold do_while.
  apply wp_loop_total with (I := λ _, J) (μ := λ _ w', (n - polls fd (trace w'))%nat);
    [by apply Hsys|lia|].
  intros [] w1 HJ1. apply wp_bind, wp_bind, wp_bind, wp_ext0, wp_ret, wp_bind.
  eapply wp_with_keeps; [apply keeps_progress_polls|]. eapply wp_conseq; [by apply Hcb, Hsys|].
  intros [] w2 HJ2 Hp. apply wp_ret. unfold same in Hp. simpl in Hp.
  rewrite decide_True in Hp by done. pose proof (Hpoll (trace w1)) as Hr.
  match goal with |- context [negb (?y =? 1)] =>
    change y with (l_ret L (trace w1) (Uct_sock (poll_in fd 1))) end.
  destruct (Z.eqb_spec (l_ret L (trace w1) (Uct_sock (poll_in fd 1))) 1) as [Hy|Hy]; cbn [negb].
  - apply wp_ret, wp_bind, wp_bind, wp_ext0, wp_ret, wp_ret.
    match goal with |- context [?y =? sizeof_int] =>
      change y with (l_ret L (trace w2) (Uct_sock (recv_waitall fd sizeof_int))) end.
    rewrite Hrecv, Z.eqb_refl. by apply HQ, Hsys.
  - apply wp_ret. split; [done|]. destruct (decide (n ≤ polls fd (trace w1))%nat); [|lia].
    by destruct Hy; apply Hr.
Qed.

(** ** The addresses *)

Section addresses.
Context (info : iface_info_t) (own peer : addrs) (ep : Z).
Context (HC : cooperates L fd info own peer ep).
Local Abbreviation attr := (ii_attr info).
Local Abbreviation given_dev := (given (device_addr_len attr) (a_dev peer)).
Local Abbreviation given_iface := (given (iface_addr_len attr) (a_iface peer)).

Lemma uct_quiet_call c g h x o (Q : uct_ret c → uct_world → Prop) w :
  silent c = true → wired c = false → steady V fd g h x o w →
  (∀ w', steady V fd g h x o w' → Q (l_ret L (trace w) c) w') → wp no_halt (ucall L c) Q w.
Proof. intros Hs. apply (steady_call V fd L c); [by apply (co_quiet _ _ _ _ _ _ HC)|done]. Qed.

(** sendrecv on a buffer of the list; the other's buffer is new. *)
Lemma sendrecv_buf l1 p bs pbs l2 rest len g h0 h x out i (Q : received → uct_world → Prop) w :
  holds (l1 ++ (p, Some <$> bs) :: l2) h0 h → p ≠ Null → len = Z.of_nat (length bs) →
  Z.of_nat (length bs) < 2 ^ 31 → Z.of_nat (length pbs) < 2 ^ 31 →
  drop i (frames attr peer) = framed pbs ++ rest → steady V fd g h x (out, i) w →
  (∀ b' w', h !! b' = None →
     steady V fd g (<[b' := Bytes KHost (Some <$> pbs)]> h) x
       (out ++ (Some <$> framed bs), (i + length (framed pbs))%nat) w' →
     Q (Received 0 (Loc b' 0)) w') →
  wp no_halt (sendrecv L fd p len) Q w.
Proof.
  intros Hl Hp -> Hbs Hpbs Hin Hw HQ. destruct (holds_ptr _ _ _ _ _ _ Hl) as [|(b & -> & Hb)]; [done|].
  by eapply (sendrecv_ok L fd _ (co_wire _ _ _ _ _ _ HC) V); [apply (co_alloc _ _ _ _ _ _ HC)|..].
Qed.

(** The stream after an address that was exchanged. *)
Lemma drop_framed i (input pbs rest : list Z) :
  drop i input = pbs ++ rest → drop (i + length pbs) input = rest.
Proof. intros Hin. rewrite <-drop_drop, Hin. apply drop_app_length. Qed.

Lemma exchange_device_run a d1 d3 l rest g h0 h x out i
    (Q : exit_to + Z * addresses → uct_world → Prop) w :
  own_dev a ≠ Null → peer_dev a = Null → Z.of_nat (length d1) = device_addr_len attr →
  holds ((own_dev a, d1) :: (peer_dev a, d3) :: l) h0 h → steady V fd g h x (out, i) w →
  drop i (frames attr peer) = framed_if (device_addr_len attr) (a_dev peer) ++ rest →
  (∀ p d1' d3' h' i' w', seen p d3' = given_dev →
     holds ((own_dev a, d1') :: (p, d3') :: l) h0 h' →
     steady V fd g h' x (out ++ (Some <$> framed_if (device_addr_len attr) (a_dev own)), i') w' →
     drop i' (frames attr peer) = rest → Q (inr (UCS_OK, with_peer_dev p a)) w') →
  wp no_halt (exchange_device L info fd UCS_OK a) Q w.
Proof.
  intros Hp Hn Hd Hl Hw Hin HQ. unfold exchange_device, framed_if, given in *.
  destruct (co_own _ _ _ _ _ _ HC) as (Ho & _ & _).
  destruct (co_small _ _ _ _ _ _ HC) as [(Hs & _ & _) (Hs' & _ & _)].
  destruct (0 <? device_addr_len attr).
  - apply wp_bind. eapply (get_address_ok V fd _ [] _ _ _ UCS_OK (a_dev own)); [exact Hl|done|lia|..].
    { intros Q' HQ'. eapply (uct_quiet_call (uct_iface_get_device_address _)); [done|done|exact Hw|].
      intros w' Hw'. rewrite (co_device _ _ _ _ _ _ HC). by apply HQ'. }
    clear h w Hl Hw. intros h w Hl Hw. rewrite Z.eqb_refl. cbn [negb]. apply wp_bind.
    eapply (sendrecv_buf []); [exact Hl|done|lia|done|exact Hs'|exact Hin|exact Hw|].
    clear w Hw. intros b w Hb Hw. cbn [rv_ret rv_buf]. rewrite Z.eqb_refl. cbn [negb].
    apply wp_ret. eapply HQ; [| |exact Hw|by apply drop_framed]; [done|].
    rewrite Hn in Hl. by apply (holds_fill [(own_dev a, _)] d3 b).
  - simpl in Hin. rewrite Hn in Hl. apply wp_ret. destruct a as [? ? pd ? ? ?]. simpl in *. subst pd.
    eapply (HQ Null d1 d3 h i); [done|done|by rewrite app_nil_r|done].
Qed.

Lemma exchange_iface_run a d2 d4 l rest status g h0 h x out i
    (Q : exit_to + Z * addresses → uct_world → Prop) w :
  own_iface a ≠ Null → peer_iface a = Null → Z.of_nat (length d2) = iface_addr_len attr →
  holds ((own_iface a, d2) :: (peer_iface a, d4) :: l) h0 h → steady V fd g h x (out, i) w →
  drop i (frames attr peer) = framed_if (iface_addr_len attr) (a_iface peer) ++ rest →
  (∀ p d2' d4' h' i' st w', seen p d4' = given_iface →
     holds ((own_iface a, d2') :: (p, d4') :: l) h0 h' →
     steady V fd g h' x (out ++ (Some <$> framed_if (iface_addr_len attr) (a_iface own)), i') w' →
     drop i' (frames attr peer) = rest → Q (inr (st, with_peer_iface p a)) w') →
  wp no_halt (exchange_iface L info fd status a) Q w.
Proof.
  intros Hp Hn Hd Hl Hw Hin HQ. unfold exchange_iface, framed_if, given in *.
  destruct (co_own _ _ _ _ _ _ HC) as (_ & Ho & _).
  destruct (co_small _ _ _ _ _ _ HC) as [(_ & Hs & _) (_ & Hs' & _)].
  destruct (0 <? iface_addr_len attr).
  - apply wp_bind. eapply (get_address_ok V fd _ [] _ _ _ UCS_OK (a_iface own)); [exact Hl|done|lia|..].
    { intros Q' HQ'. eapply (uct_quiet_call (uct_iface_get_address _)); [done|done|exact Hw|].
      intros w' Hw'. rewrite (co_iface _ _ _ _ _ _ HC). by apply HQ'. }
    clear h w Hl Hw. intros h w Hl Hw. rewrite Z.eqb_refl. cbn [negb]. apply wp_bind.
    eapply (sendrecv_buf []); [exact Hl|done|lia|done|exact Hs'|exact Hin|exact Hw|].
    clear w Hw. intros b w Hb Hw. cbn [rv_ret rv_buf]. rewrite Z.eqb_refl. cbn [negb].
    apply wp_ret. eapply HQ; [| |exact Hw|by apply drop_framed]; [done|].
    rewrite Hn in Hl. by apply (holds_fill [(own_iface a, _)] d4 b).
  - simpl in Hin. rewrite Hn in Hl. apply wp_ret. destruct a as [? ? ? pi ? ?]. simpl in *. subst pi.
    eapply (HQ Null d2 d4 h i); [done|done|by rewrite app_nil_r|done].
Qed.

(** ** The end of main *)

(** The buffers of main. *)
Definition buffers (a : addresses) (d : list (list mbyte)) : list (ptr * list mbyte) :=
  zip [own_dev a; own_iface a; peer_dev a; peer_iface a; own_ep a; peer_ep a] d.

Lemma free_buffer l1 p d l2 g h0 h x o (Q : unit → uct_world → Prop) w :
  holds (l1 ++ (p, d) :: l2) h0 h → steady V fd g h x o w →
  (∀ h' w', holds (l1 ++ l2) h0 h' → steady V fd g h' x o w' → Q tt w') → wp no_halt (free p) Q w.
Proof. intros Hl. eapply (holds_free V fd). by apply holds_front. Qed.

Lemma cleanup_run e a d g h0 h x o (Q : unit → uct_world → Prop) w :
  length d = 6%nat → holds (buffers a d) h0 h → steady V fd g h x o w →
  (∀ w', steady V fd g h0 x o w' → Q tt w') →
  wp no_halt (cleanup L fd a (out_free_ep e)) Q w.
Proof.
  intros Hd Hl Hw HQ. destruct d as [|d1 [|d2 [|d3 [|d4 [|d5 [|d6 [|]]]]]]]; try done.
  unfold buffers in Hl. simpl zip in Hl. unfold cleanup. apply wp_bind, wp_bind.
  eapply (uct_quiet_call (uct_ep_destroy e)); [done|done|exact Hw|]. clear w Hw. intros w Hw.
  apply wp_ret. apply wp_bind, wp_bind.
  eapply (free_buffer [_; _; _; _]); [exact Hl|exact Hw|]. clear h w Hl Hw. intros h w Hl Hw.
  eapply (free_buffer [_; _; _; _]); [exact Hl|exact Hw|]. clear h w Hl Hw. intros h w Hl Hw.
  apply wp_bind, wp_bind. eapply (steady_ext0 V fd L (Uct_sock (close_ fd))); [done|done|exact Hw|].
  clear w Hw. intros w Hw. apply wp_ret, wp_bind.
  eapply (free_buffer [_]); [exact Hl|exact Hw|]. clear h w Hl Hw. intros h w Hl Hw. apply wp_bind.
  eapply (free_buffer [_; _]); [exact Hl|exact Hw|]. clear h w Hl Hw. intros h w Hl Hw. apply wp_bind.
  eapply (free_buffer []); [exact Hl|exact Hw|]. clear h w Hl Hw. intros h w Hl Hw.
  eapply (free_buffer []); [exact Hl|exact Hw|]. clear h w Hl Hw. intros h w Hl Hw.
  simpl in Hl. subst h. by apply HQ.
Qed.

(** ** The message

    What comes in between is a client or a server: [before] are the states in which
    it may start, [after st x] says of the observation [x] what it should be when
    its status is [st]. *)

Context (args : cmd_args_t) (fuel n : nat) (g0 : uct_glob) (x0 : X).
Context (before : gmap N (obj uct_cell) → list mbyte * nat → uct_world → Prop).
Context (after : Z → X → Prop) (a0 : N).

(** The branch of main for the client, or the server. *)
Definition branch (wk e status : Z) : UM (Z * bool) :=
  match server_name args with
  | Some _ => uct_client L fuel args info wk e 0
  | None => uct_server L fuel args wk;; mret (status, false)
  end.

Record plays : Prop := {
  pl_meets : meets L fd n;
  pl_fuel : (n < fuel)%nat;
  pl_size : u64 (test_strlen args) ≤ func_am_max_size (func_am_type args) attr;
  pl_start h o w : steady V fd g0 h x0 o w → before h o w;
  pl_sys h o w op r : before h o w → before h o (push (ECall (A := uct_api) (Uct_sock op) r) w);
  pl_progress wk h o w :
    h !! a0 = Some (Cell KStack (CFunc (func_am_type args))) → before h o w →
    wp no_halt (progress_worker L wk) (λ _, before h o) w;
  pl_branch wk e h o w :
    h !! a0 = Some (Cell KStack (CFunc (func_am_type args))) → before h o w →
    wp no_halt (branch wk e UCS_OK)
      (λ r w', ∃ g x, after r.1 x ∧ steady V fd g h x o w') w;
  pl_after wk st g h x o w :
    after st x → steady V fd g h x o w →
    wp no_halt (progress_worker L wk) (λ _ w', ∃ g', steady V fd g' h x o w') w;
}.
Context (HP : plays).

Lemma run_am_run wk e h o w :
  h !! a0 = Some (Cell KStack (CFunc (func_am_type args))) → before h o w →
  wp no_halt (run_am L fuel args info wk e 0 fd UCS_OK)
    (λ st w', ∃ g x, after st x ∧ steady V fd g h x o w') w.
Proof.
  intros Ha Hw. unfold run_am. rewrite (proj2 (Z.ltb_ge _ _)) by apply HP. apply wp_bind.
  fold (branch wk e UCS_OK). eapply wp_conseq; [by apply (pl_branch HP)|].
  clear w Hw. intros [st jump] w (g & x & Haf & Hw). simpl in Haf.
  destruct jump; [by apply wp_ret; eauto|]. apply wp_bind.
  eapply (wait_peer_run (λ w, ∃ g, steady V fd g h x o w)); [apply HP|apply HP|..].
  - intros w1 op r [g1 [Hg Hh Hwf Hv Ho]]. exists g1. split; [done..| |done]. simpl. by rewrite view_call.
  - intros w1 [g1 Hw1]. by eapply (pl_after HP).
  - by exists g.
  - intros w1 [g1 Hw1]. apply wp_ret. simpl. eauto.
Qed.

(** The endpoint. *)
Lemma create_ep_run wk a d3 d4 d5 d6 l h0 h out i
    (Q : exit_to + Z * addresses * Z → uct_world → Prop) w :
  h0 !! a0 = Some (Cell KStack (CFunc (func_am_type args))) →
  own_ep a = Null → peer_ep a = Null → seen (peer_dev a) d3 = given_dev →
  seen (peer_iface a) d4 = given_iface →
  holds ((peer_dev a, d3) :: (peer_iface a, d4) :: (own_ep a, d5) :: (peer_ep a, d6) :: l) h0 h →
  steady V fd g0 h x0 (out, i) w →
  drop i (frames attr peer) = (if connects_to_ep attr then framed (a_ep peer) else []) →
  (∀ p q d5' d6' h' i' w',
     holds ((peer_dev a, d3) :: (peer_iface a, d4) :: (p, d5') :: (q, d6') :: l) h0 h' →
     before h' (out ++ (Some <$> (if connects_to_ep attr then framed (a_ep own) else [])), i') w' →
     Q (inr (UCS_OK, with_peer_ep q (with_own_ep p a), ep)) w') →
  wp no_halt (create_ep L fuel info wk fd a) Q w.
Proof.
  intros Ha Hp Hq H3 H4 Hl Hw Hin HQ. unfold create_ep. fold (connects_to_ep attr).
  destruct (connects_to_ep attr) eqn:Hep.
  - destruct (co_to_ep _ _ _ _ _ _ HC Hep) as (Hcr & Hga & Hco). unfold connect_to_ep, calloc.
    destruct (co_own _ _ _ _ _ _ HC) as (_ & _ & Ho).
    destruct (co_small _ _ _ _ _ _ HC) as [(_ & _ & Hs) (_ & _ & Hs')].
    apply wp_bind. eapply (steady_malloc V fd L); [apply (co_alloc _ _ _ _ _ _ HC)|exact Hw|].
    clear w Hw. intros b w Hb Hw. rewrite bool_decide_eq_false_2 by done. rewrite Hp in Hl.
    apply (holds_fill [_; _] _ b (replicate (Z.to_nat (ep_addr_len attr)) (Some 0))) in Hl; [|done].
    apply wp_bind. eapply (uct_quiet_call (uct_ep_create _ None)); [done|done|exact Hw|].
    intros w' Hw'. rewrite Hcr, Z.eqb_refl. clear w Hw. rename w' into w, Hw' into Hw. cbn [negb]. apply wp_bind.
    eapply (get_address_ok V fd _ [_; _] _ _ _ UCS_OK (a_ep own)); [exact Hl|done| |..].
    { rewrite length_replicate. lia. }
    { intros Q' HQ'. eapply (uct_quiet_call (uct_ep_get_address _)); [done|done|exact Hw|].
      intros w' Hw'. rewrite Hga. by apply HQ'. }
    clear h w Hb Hl Hw. intros h w Hl Hw. rewrite Z.eqb_refl. cbn [negb]. apply wp_bind.
    eapply (sendrecv_buf [_; _]); [exact Hl|done|lia|done|exact Hs'|by rewrite app_nil_r|exact Hw|].
    clear w Hw. intros b' w Hb' Hw. cbn [rv_ret rv_buf]. rewrite Z.eqb_refl. cbn [negb].
    rewrite Hq in Hl. apply (holds_fill [_; _; _] _ b' (Some <$> a_ep peer)) in Hl; [|done].
    apply wp_bind. eapply (contents_at_ok V fd []); [exact Hl|exact Hw|].
    change (seen _ d3) with (seen (peer_dev a) d3). rewrite H3.
    apply wp_bind. eapply (contents_at_ok V fd [_; _; _]); [exact Hl|exact Hw|]. apply wp_bind.
    eapply (uct_quiet_call (uct_ep_connect_to_ep _ _ _)); [done|done|exact Hw|].
    intros w' Hw'. simpl seen. rewrite Hco. clear w Hw. rename w' into w, Hw' into Hw. apply wp_bind.
    eapply (wait_peer_run (before _ _)); [apply HP|apply HP|apply (pl_sys HP)|..].
    { intros w1 Hw1. eapply (pl_progress HP); [|exact Hw1]. by eapply holds_base. }
    { apply (pl_start HP). exact Hw. }
    clear w Hw. intros w Hw. apply wp_ret. eapply (HQ (Loc b 0) (Loc b' 0)); [exact Hl|exact Hw].
  - destruct (co_to_iface _ _ _ _ _ _ HC Hep) as [-> Hcr]. unfold connect_to_iface. apply wp_bind.
    eapply (contents_at_ok V fd []); [exact Hl|exact Hw|]. rewrite H3.
    apply wp_bind. eapply (contents_at_ok V fd [_]); [exact Hl|exact Hw|]. rewrite H4. apply wp_bind.
    eapply (uct_quiet_call (uct_ep_create _ _)); [done|done|exact Hw|].
    intros w' Hw'. rewrite Hcr, Z.eqb_refl. clear w Hw. rename w' into w, Hw' into Hw. cbn [negb]. apply wp_ret.
    destruct a as [? ? ? ? oe pe]. simpl in *. subst oe pe.
    eapply (HQ Null Null d5 d6 h i); [done|]. apply (pl_start HP). by rewrite app_nil_r.
Qed.
End addresses.
End run.
