(* ===== verification/UctRunMain.v ===== *)
(** * uct_hello_world: a run in which everybody cooperates, to the end of main

    The parts of UctRun.v, dev_tl_lookup (UctFind.v) and the command line put
    together: [uct_main_run] says what main answers and leaves, for a client or a
    server that [plays] its part. *)

From S2P Require Import Prelude CRuntime CLib Ucx HelloUtil OobSocket UctApi UctSend UctLookup.
From S2P Require Import UctOptions UctMain UctSteady UctOwn UctFind UctBlocks UctExchange UctRun.
Open Scope Z_scope.

(** ** The command line *)

Section options.
Context `{!Ucs, !Cuda} {X} (V : history uct_api → X) `{!View V} (fd : Z).

(** What parse_cmd does not change. *)
Definition still_there (w : uct_world) :=
  (heap w, next w, u_desc_holder (glob w), V (trace w), wire fd (trace w)).

Lemma keeps_say s f l : f ≠ string_format → keeps (same still_there) (fprintf s f l : UM unit).
Proof. intros Hf w. unfold same, still_there. simpl. by rewrite view_out. Qed.
Lemma keeps_type t : keeps (same still_there) (set_uglb (with_test_mem_type t)).
Proof. by intros w. Qed.
Hint Resolve keeps_type : keeps.
Hint Extern 1 (keeps _ (fprintf _ _ _)) => apply keeps_say; discriminate : keeps.

Lemma keeps_glob_there : keeps (same still_there) (get_glob : UM uct_glob).
Proof. by intros w. Qed.
Hint Resolve keeps_glob_there : keeps.

Lemma keeps_check_there t : keeps (same still_there) (check_mem_type_support t : UM bool).
Proof. unfold check_mem_type_support, eprintf. solve_keeps. Qed.
Hint Resolve keeps_check_there : keeps.
Lemma keeps_usage_there : keeps (same still_there) print_err_usage.
Proof. unfold print_err_usage, print_common_help, eprintf. solve_keeps. Qed.
Hint Resolve keeps_usage_there : keeps.
Lemma keeps_parse_type_there s : keeps (same still_there) (parse_mem_type s : UM _).
Proof. unfold parse_mem_type, eprintf. solve_keeps. Qed.
Hint Resolve keeps_parse_type_there : keeps.
Lemma keeps_opt_there c args : keeps (same still_there) (uct_parse_opt c args).
Proof. unfold uct_parse_opt, eprintf. solve_keeps. Qed.
Hint Resolve keeps_opt_there : keeps.

Lemma keeps_parse_there argv : keeps (same still_there) (uct_parse_cmd argv).
Proof.
  assert (∀ os args, keeps (same still_there) (uct_parse_opts os args)).
  { intros os. induction os as [|c os IH]; intros args; simpl; solve_keeps. }
  assert (∀ xs, keeps (same still_there) (warn_operands xs)).
  { intros xs. induction xs as [|y xs IH]; simpl; unfold eprintf; solve_keeps. }
  unfold uct_parse_cmd, printf, eprintf. solve_keeps.
Qed.
End options.

Section run.
Context `{!Ucs, !Cuda, !Uct} (L : uct_lib) (fd : Z) {X} (V : history uct_api → X) `{!View V}.
Context (info : iface_info_t) (own peer : addrs) (ep : Z).
Context (HC : cooperates L fd info own peer ep).
Context (args : cmd_args_t) (fuel n : nat) (g0 : uct_glob) (x0 : X).
Context (before : gmap N (obj uct_cell) → list mbyte * nat → uct_world → Prop).
Context (after : Z → X → Prop) (a0 : N).
Context (HP : plays L fd V info args fuel n g0 x0 before after a0).
Context (Hdial : dials L (server_name args) fd).
Implicit Types (w : uct_world) (h : gmap N (obj uct_cell)).
Local Abbreviation no_halt := (λ (_ : halt) (_ : uct_world), False).
Local Abbreviation attr := (ii_attr info).

(** What a part of main leaves when it answers [st]. *)
Definition left_with h0 out (st : Z) w : Prop :=
  ∃ g x i, after st x ∧ steady V fd g h0 x (out ++ (Some <$> frames attr own), i) w.

Lemma with_socket_run wk od oi d1 d2 h0 h w :
  od ≠ Null → oi ≠ Null → Z.of_nat (length d1) = device_addr_len attr →
  Z.of_nat (length d2) = iface_addr_len attr →
  h0 !! a0 = Some (Cell KStack (CFunc (func_am_type args))) →
  holds [(od, d1); (oi, d2)] h0 h → steady V fd g0 h x0 ([], 0%nat) w →
  wp no_halt (with_socket L fuel args info wk 0 fd UCS_OK (Addresses od oi Null Null Null Null))
    (λ r w', ∃ st a d h', r = (st, a, out_free_ep ep) ∧ length d = 6%nat ∧
       holds (buffers a d) h0 h' ∧ left_with h' [] st w') w.
Proof.
  intros Hod Hoi Hd1 Hd2 Ha Hl Hw. unfold with_socket.
  rewrite (proj2 (Z.ltb_ge fd 0)) by apply (di_fd _ _ _ Hdial). apply wp_bind.
  pose (nil := [] : list mbyte).
  assert (holds ((od, d1) :: (Null, nil) :: (oi, d2) :: (Null, nil) :: (Null, nil) :: (Null, nil) :: []) h0 h)
    as Hl' by done. clear Hl.
  eapply (exchange_device_run L fd V info own peer ep HC _ d1 nil);
    [done|done|done|exact Hl'|exact Hw|reflexivity|].
  clear h w Hl' Hw. intros pd d1' d3 h i w H3 Hl Hw Hin. apply wp_bind.
  assert (holds ((oi, d2) :: (Null, nil) :: (od, d1') :: (pd, d3) :: (Null, nil) :: (Null, nil) :: []) h0 h)
    as Hl' by (revert Hl; apply holds_perm; [solve_Permutation|done..]). clear Hl.
  eapply (exchange_iface_run L fd V info own peer ep HC _ d2 nil);
    [done|done|done|exact Hl'|exact Hw|exact Hin|].
  clear h i w Hl' Hw Hin. intros pi d2' d4 h i st w H4 Hl Hw Hin.
  apply wp_bind.
  assert (holds ((pd, d3) :: (pi, d4) :: (Null, nil) :: (Null, nil) :: (od, d1') :: (oi, d2') :: []) h0 h)
    as Hl' by (revert Hl; apply holds_perm; [solve_Permutation|done..]). clear Hl.
  eapply (contents_at_ok V fd []); [exact Hl'|exact Hw|].
  change (seen _ d3) with (seen pd d3). rewrite H3. apply wp_bind.
  eapply (contents_at_ok V fd [_]); [exact Hl'|exact Hw|].
  change (seen _ d4) with (seen pi d4). rewrite H4. apply wp_bind.
  eapply (uct_quiet_call L fd V info own peer ep HC (uct_iface_is_reachable _ _ _)); [done|done|exact Hw|].
  intros w' Hw'. rewrite (proj2 (Z.eqb_neq _ _) (co_reachable _ _ _ _ _ _ HC _)).
  clear w Hw. rename w' into w, Hw' into Hw. apply wp_bind.
  eapply (create_ep_run L fd V info own peer ep HC args fuel n g0 x0 before after a0 HP) with
    (d3 := d3) (d4 := d4) (d5 := nil) (d6 := nil);
    [exact Ha|done|done|exact H3|exact H4|exact Hl'|exact Hw|exact Hin|].
  clear h i w Hl' Hw Hin. intros p q d5 d6 h i w Hl Hw. apply wp_bind.
  eapply wp_conseq; [eapply (run_am_run L fd V info args fuel n g0 x0 before after a0 HP);
    [by eapply holds_base|exact Hw]|].
  clear w Hw. intros st' w (g & x & Haf & Hw). apply wp_ret.
  exists st', (Addresses od oi pd pi p q), [d1'; d2'; d3; d4; d5; d6], h. split_and!; [done|done| |].
  - revert Hl. apply holds_perm; [solve_Permutation|done..].
  - exists g, x, i. split; [done|]. unfold frames. rewrite !fmap_app, !app_assoc. exact Hw.
Qed.

Lemma with_iface_run wk h0 w :
  h0 !! a0 = Some (Cell KStack (CFunc (func_am_type args))) →
  steady V fd g0 h0 x0 ([], 0%nat) w →
  wp no_halt (with_iface L fuel args info wk (Loc a0 0)) (left_with h0 []) w.
Proof.
  intros Ha Hw. unfold with_iface. apply wp_bind.
  eapply (uct_quiet_call L fd V info own peer ep HC (uct_iface_set_am_handler _ _ _)); [done|done|exact Hw|].
  intros w' Hw'. rewrite (co_handler _ _ _ _ _ _ HC), Z.eqb_refl. cbn [negb].
  clear w Hw. rename w' into w, Hw' into Hw. unfold calloc. apply wp_bind.
  eapply (steady_malloc V fd L); [apply (co_alloc _ _ _ _ _ _ HC)|exact Hw|].
  clear w Hw. intros b w Hb Hw. rewrite bool_decide_eq_false_2 by done. apply wp_bind.
  eapply (steady_malloc V fd L); [apply (co_alloc _ _ _ _ _ _ HC)|exact Hw|].
  clear w Hw. intros b' w Hb' Hw. rewrite bool_decide_eq_false_2 by done. apply wp_bind.
  eapply (connect_common_run L fd V); [exact Hdial|exact Hw|]. clear w Hw. intros w Hw.
  destruct (co_own _ _ _ _ _ _ HC) as (Ho1 & Ho2 & _). apply wp_bind.
  eapply wp_conseq; [eapply with_socket_run; [| | | |exact Ha| |exact Hw]|]; try done.
  - instantiate (1 := replicate (Z.to_nat (device_addr_len attr)) (Some 0)).
    rewrite length_replicate. lia.
  - instantiate (1 := replicate (Z.to_nat (iface_addr_len attr)) (Some 0)).
    rewrite length_replicate. lia.
  - apply (holds_back [_]). by repeat apply holds_new.
  - clear w Hw. intros [[st a] l] w (st' & a' & d & h & [= -> -> ->] & Hd & Hl & g & x & i & Haf & Hw).
    apply wp_bind. eapply (cleanup_run L fd V info own peer ep HC); [exact Hd|exact Hl|exact Hw|].
    intros w' Hw'. apply wp_ret. by exists g, x, i.
Qed.

(** A silent call at the end. *)
Lemma left_call c h0 out st (Q : uct_ret c → uct_world → Prop) w :
  silent c = true → wired c = false → left_with h0 out st w →
  (∀ r w', left_with h0 out st w' → Q r w') → wp no_halt (ucall L c) Q w.
Proof.
  intros Hs Hc (g & x & i & Haf & Hw) HQ.
  eapply (uct_quiet_call L fd V info own peer ep HC c); [done|done|exact Hw|].
  intros w' Hw'. apply HQ. by exists g, x, i.
Qed.

Context (I : inventory) (HI : catalogued I L) (dev name : string).
Context (Hdev : dev_name args = Some dev) (Hname : tl_name args = Some name).
Context (Hpick : pick I (func_am_type args) (u_test_mem_type g0) dev name = Some info).

Lemma with_uct_worker_run wk h0 w :
  h0 !! a0 = Some (Cell KStack (CFunc (func_am_type args))) →
  steady V fd g0 h0 x0 ([], 0%nat) w →
  wp no_halt (with_uct_worker L fuel args wk (Loc a0 0)) (left_with h0 []) w.
Proof.
  intros Ha Hw. unfold with_uct_worker. apply wp_bind.
  eapply (dev_tl_lookup_ok L I HI args wk dev name V fd); [done|done|exact Hw|].
  clear w Hw. intros w Hw. rewrite Hpick, Z.eqb_refl. cbn [negb]. apply wp_bind.
  eapply wp_conseq; [by apply with_iface_run|]. clear w Hw. intros st w Hw. apply wp_bind.
  eapply (left_call (uct_iface_close _)); [done|done|exact Hw|]. clear w Hw. intros r w Hw.
  apply wp_bind. eapply (left_call (uct_md_close _)); [done|done|exact Hw|].
  clear w Hw. intros r' w Hw. by apply wp_ret.
Qed.

Lemma with_args_run h0 w :
  h0 !! a0 = Some (Cell KStack (CFunc (func_am_type args))) →
  steady V fd g0 h0 x0 ([], 0%nat) w →
  wp no_halt (with_args L fuel args (Loc a0 0)) (left_with h0 []) w.
Proof.
  intros Ha Hw. unfold with_args. apply wp_bind.
  eapply (steady_ext0 V fd L ucs_async_context_create); [done|done|exact Hw|]. intros w1 Hw1.
  destruct (co_async _ _ _ _ _ _ HC (trace w)) as [async ->]. rewrite Z.eqb_refl. cbn [negb].
  apply wp_bind. eapply (steady_ext0 V fd L (uct_worker_create _ _)); [done|done|exact Hw1|].
  intros w2 Hw2. destruct (co_worker _ _ _ _ _ _ HC (trace w1) async THREAD_MODE_SINGLE) as [wk ->].
  rewrite Z.eqb_refl. cbn [negb]. apply wp_bind, wp_bind.
  eapply wp_conseq; [by apply with_uct_worker_run|]. clear w Hw w1 Hw1 w2 Hw2. intros st w Hw.
  apply wp_bind. eapply (left_call (uct_worker_destroy _)); [done|done|exact Hw|].
  clear w Hw. intros r w Hw. apply wp_ret, wp_bind. destruct Hw as (g & x & i & Haf & Hw).
  eapply (steady_ext0 V fd L (ucs_async_context_destroy _)); [done|done|exact Hw|].
  intros w' Hw'. apply wp_ret. by exists g, x, i.
Qed.

(** The exit status of main. *)
Definition exit_status (st : Z) : Z := if st =? UCS_ERR_UNSUPPORTED then UCS_OK else st.

(** The command line is accepted. *)
Definition parsed (argv : list string) : Prop :=
  ∃ w, uct_parse_cmd argv uct_init_world = (Ok (inl args), w) ∧ glob w = g0.

Lemma uct_main_run argv (Q : Z → uct_world → Prop) :
  parsed argv → V [] = x0 → a0 = 0%N →
  (∀ st w', left_with ∅ [] st w' → Q (exit_status st) w') →
  wp no_halt (uct_main L fuel argv) Q uct_init_world.
Proof.
  intros (w & Hparse & Hg) Hx Ha0 HQ. unfold uct_main. apply wp_bind.
  pose proof (keeps_parse_there V fd argv uct_init_world) as Hk. rewrite Hparse in Hk. simpl in Hk.
  unfold wp at 1. rewrite Hparse. unfold same, still_there in Hk. injection Hk as Hh Hn _ HV Ho Hi.
  apply wp_bind. assert (steady V fd g0 ∅ x0 ([], 0%nat) w) as Hw.
  { split; [done|done| |by rewrite HV|unfold wire; by rewrite Ho, Hi]. intros b _. by rewrite Hh. }
  eapply (steady_local V fd); [exact Hw|]. intros b w' Hb _ Hw'.
  assert (b = a0) as -> by (rewrite Hb, Hn, Ha0; done).
  eapply wp_conseq; [eapply with_args_run; [apply lookup_insert_eq|exact Hw']|].
  clear w' Hw'. intros st w' (g & x & i & Haf & Hw'). apply wp_ret, HQ.
  exists g, x, i. split; [done|].
  assert (∅ = delete a0 (<[a0 := Cell KStack (CFunc (func_am_type args))]> (∅ : gmap N (obj uct_cell)))) as Hd
    by (by rewrite delete_insert_id).
  rewrite Hd at 1. by apply steady_delete.
Qed.
End run.
