(* ===== verification/UctPlayers.v ===== *)
(** * uct_hello_world: the client and the server of a whole run

    Both play the part that [plays] (UctRun.v) leaves open in main: the client with
    the observation [traffic] of the messages UCT took, the server with the
    observation [output] of what it showed. *)

From S2P Require Import Prelude CRuntime CLib Ucx HelloUtil OobSocket UctApi UctSend UctLookup.
From S2P Require Import UctOptions UctMain UctSteady UctOwn UctWire UctClient UctZcopy UctServer.
From S2P Require Import UctExchange UctRun.
Open Scope Z_scope.

(** ** The socket is not used in between *)

#[export] Instance wire_interactive fd : Interactive (same (λ w : uct_world, wire fd (trace w))).
Proof. apply (same_trace_interactive (wire fd)). by intros []. Qed.

#[export] Instance wire_quiet fd : UctQuiet (same (λ w : uct_world, wire fd (trace w))).
Proof. by split; [split; [split; [typeclasses eauto|]|]|]. Qed.

Section wire.
Context `{!Ucs, !Cuda, !Uct} (L : uct_lib) (fuel : nat) (fd : Z).
Local Abbreviation R := (same (λ w : uct_world, wire fd (trace w))).

Lemma wire_ucall0 c : wired c = false → keeps R (ucall0 L c).
Proof. intros Hc w. by apply wire_call. Qed.
Lemma wire_ucall c : wired c = false → keeps R (ucall L c).
Proof.
  intros Hc. unfold ucall. apply keeps_ext; [typeclasses eauto| |].
  - intros. apply keeps_uct_handler. typeclasses eauto.
  - intros. by apply wire_call.
Qed.
Hint Extern 2 (keeps _ (ucall0 _ ?c)) => exact (wire_ucall0 c eq_refl) : keeps.
Hint Extern 2 (keeps _ (ucall _ ?c)) => exact (wire_ucall c eq_refl) : keeps.

Lemma wire_client args info wk e id : keeps R (uct_client L fuel args info wk e id).
Proof.
  unfold uct_client, do_am, do_am_short, do_am_bcopy, do_am_zcopy, register_buffer, wait_holder.
  solve_keeps. apply keeps_local_blind; [typeclasses eauto|done|]. intros. solve_keeps.
Qed.

Lemma wire_server args wk : keeps R (uct_server L fuel args wk).
Proof. unfold uct_server, wait_holder, print_received. solve_keeps. Qed.
End wire.

(** ** The client *)

#[export] Instance view_traffic `{!Ucs} : View traffic.
Proof. split; [|done..]. by intros h []. Qed.

Section client.
Context `{!Ucs, !Cuda, !Uct} (L : uct_lib) (fd : Z) (fuel n : nat) (room : Z).
Context (info : iface_info_t) (args : cmd_args_t) (t : ucs_memory_type_t) (len : nat) (g0 : uct_glob).
Context (HL : takes_messages L room n) (Hfuel : (S n < fuel)%nat) (Ht : mem_usable L t).
Context (Hlen : test_strlen args = Z.of_nat len).
Context (Hroom : func_am_type args = FUNC_AM_BCOPY → Z.of_nat len ≤ room).
Context (Hshort : func_am_type args = FUNC_AM_SHORT → t ≠ UCS_MEMORY_TYPE_CUDA ∧ (8 ≤ len)%nat).
Context (Hal : ∀ tr z, l_alloc L tr z = true) (Hmax : Z.of_nat len < 2 ^ 31).
Context (Hnone : u_desc_holder g0 = NoDesc) (Hg : u_test_mem_type g0 = t).
Context (Hclient : server_name args ≠ None) (Hmeets : meets L fd n).
Context (Hsize : u64 (test_strlen args) ≤ func_am_max_size (func_am_type args) (ii_attr info)).

Local Abbreviation no_traffic := ([], None, 0).

Definition took_all (st : Z) (x : list (list mbyte) * option ptr * Z) : Prop :=
  ∃ reg, x = (took st (uct_string len) [], None, reg).

Lemma steady_between g h x o w : steady traffic fd g h x o w → between g h x w.
Proof. by intros []. Qed.

(** Calls for progress between two messages. *)
Lemma progress_steady wk g h m reg o (Q : unit → uct_world → Prop) w :
  steady traffic fd g h (m, None, reg) o w →
  (∀ w', steady traffic fd g h (m, None, reg) o w' → Q tt w') →
  wp (λ _ _, False) (progress_worker L wk) Q w.
Proof.
  intros Hw HQ. unfold progress_worker. apply wp_bind.
  eapply wp_with_keeps; [by apply (wire_ucall L fd (uct_worker_progress wk))|].
  eapply (uct_progress_idle L n room HL wk); [by eapply steady_between|].
  intros r w' [Hg' Hh Hwf Htr] _ Ho. apply wp_ret, HQ. split; [done..|].
  unfold same in Ho. rewrite Ho. apply Hw.
Qed.

Lemma client_plays a0 :
  plays L fd traffic info args fuel n g0 no_traffic
    (λ h o, steady traffic fd g0 h no_traffic o) took_all a0.
Proof.
  split; [done|lia|done|done| | | |].
  - intros h o w op r [Hgw Hh Hwf Hv Ho]. by split.
  - intros wk h o w _ Hw. by eapply progress_steady.
  - intros wk e h o w _ Hw. unfold branch. destruct (server_name args); [|done].
    eapply wp_with_keeps; [apply (wire_client L fuel fd)|].
    eapply (uct_client_ok L fuel n room HL Hfuel wk e 0 args info t len Ht Hlen Hroom Hshort);
      [done|done|done|done|by eapply steady_between|].
    intros st g' reg' w' _ [Hg' Hh Hwf Htr] Ho. eexists g', _. split; [by exists reg'|].
    split; [done..|]. unfold same in Ho. rewrite Ho. apply Hw.
  - intros wk st g h x o w [reg ->] Hw. eapply progress_steady; [exact Hw|]. eauto.
Qed.
End client.

(** ** The server *)

Definition output (h : history uct_api) : list (list arg) * list Z * bool :=
  (shown h, released h, delivered h).

#[export] Instance view_output : View output.
Proof.
  split; [by intros h []|done|]. intros h s f l Hf. unfold output. simpl.
  destruct s; [|done]. by rewrite bool_decide_eq_false_2.
Qed.

Section server.
Context `{!Ucs, !Cuda, !Uct} (L : uct_lib) (fd : Z) (fuel n : nat) (a0 : N).
Context (info : iface_info_t) (args : cmd_args_t) (desc flags : Z) (s r : list Z) (g0 : uct_glob).
Context (HL : delivers_one L (Loc a0 0) (UctData desc (s ++ 0 :: r)) flags n).
Context (Hfuel : (S n < fuel)%nat) (Hs : 0 ∉ s).
Context (Hlen : 4 + Z.of_nat (length (s ++ 0 :: r)) < 2 ^ 64).
Context (Hal : ∀ tr z, l_alloc L tr z = true) (Hnone : u_desc_holder g0 = NoDesc).
Context (Hstr : 0 < test_strlen args < 2 ^ 64).
Context (Hserver : server_name args = None) (Hmeets : meets L fd n).
Context (Hsize : u64 (test_strlen args) ≤ func_am_max_size (func_am_type args) (ii_attr info)).
Local Abbreviation f := (func_am_type args).
Local Abbreviation size := (Z.of_nat (length (s ++ 0 :: r))).

(** The message may be there before the server waits for it. *)
Definition listens (h : gmap N (obj uct_cell)) (o : list mbyte * nat) (w : uct_world) : Prop :=
  wire fd (trace w) = o ∧
  (idle g0 h [] [] w ∨ arrived f desc flags s r g0 h [] [] w).

Definition showed (st : Z) (x : list (list arg) * list Z * bool) : Prop :=
  st = UCS_OK ∧
  x = ([line "main" f (Some <$> s) (test_strlen args); line "callback" f (Some <$> s) size],
       if has_flag flags UCT_CB_PARAM_FLAG_DESC then [desc] else [], true).

(** A call for progress after the message has arrived. *)
Lemma progress_delivered wk (Q : Z → uct_world → Prop) w :
  delivered (trace w) = true →
  (∀ x, Q x (push (ECall (A := uct_api) (uct_worker_progress wk) x) w)) →
  wp (λ _ _, False) (ucall L (uct_worker_progress wk)) Q w.
Proof.
  intros Hd HQ. unfold ucall, ext. apply wp_bind, wp_gets. cbv beta.
  rewrite (do_progress _ _ _ _ _ HL), Hd. apply wp_bind, wp_ret.
  apply (wp_ext0 L _ (uct_worker_progress wk)), HQ.
Qed.

Lemma listens_progress wk h o w :
  h !! a0 = Some (Cell KStack (CFunc f)) → listens h o w →
  wp (λ _ _, False) (progress_worker L wk) (λ _, listens h o) w.
Proof.
  intros Ha [Ho Hw]. unfold progress_worker. apply wp_bind.
  eapply wp_with_keeps; [by apply (wire_ucall L fd (uct_worker_progress wk))|].
  destruct Hw as [Hw|(d & h' & Hk & Hw)].
  - eapply (progress_idle_ok L n a0 f KStack desc flags s r HL Hs Hlen Hal g0 h [] [] Ha wk);
      [exact Hw|..].
    + intros x w' Hw' _ _ Hwire. apply wp_ret. split; [by rewrite <-Ho|by left].
    + intros x w' Hw' Hwire. apply wp_ret. split; [by rewrite <-Ho|by right].
  - apply progress_delivered; [apply Hw|]. intros x Hwire. apply wp_ret. split; [by rewrite <-Ho|].
    right. exists d, h'. split; [done|]. destruct Hw. by split.
Qed.

Lemma server_plays :
  plays L fd output info args fuel n g0 ([], [], false) listens showed a0.
Proof.
  split; [done|lia|done|..].
  - intros h o w [Hg Hh Hwf Hv Ho]. split; [done|]. left. unfold output in Hv.
    injection Hv as Hsh Hrel Hdel. split; try done. destruct g0. simpl in *. by subst.
  - intros h o w op x [Ho Hw]. split; [done|].
    destruct Hw as [[]|(d & h' & Hk & [])]; [left|right; exists d, h'; split; [done|]]; by split.
  - intros wk h o w. apply listens_progress.
  - intros wk e h o w Ha [Ho Hw]. unfold branch. rewrite Hserver. apply wp_bind.
    eapply wp_with_keeps; [apply (wire_server L fuel fd)|].
    eapply (uct_server_ok L fuel n a0 f KStack desc flags s r HL Hfuel Hs Hlen Hal g0 h [] [] Hnone Ha);
      [done|done|exact Hw|].
    intros w' [Hh Hsh Hrel Hdel Hwf] Hwire. apply wp_ret. eexists (glob w'), _.
    split; [by split|]. split; [done|done|done| |by rewrite <-Ho]. unfold output.
    by rewrite Hsh, Hrel, Hdel.
  - intros wk st g h x o w [-> ->] [Hg Hh Hwf Hv Ho]. unfold progress_worker. apply wp_bind.
    apply progress_delivered; [unfold output in Hv; congruence|]. intros y. apply wp_ret.
    exists g. by split.
Qed.
End server.
