(* ===== verification/Uct.v ===== *)
(** * Properties of uct_hello_world

    The theorems about the objects of a whole run, the choice of the transport, the
    command line, the exchange of addresses, what the client's branch leaves, and what goes wrong.
    [demo_uct] is a concrete outside for the witnesses: two components, one usable
    transport, a UCT that refuses the first message. *)

From S2P Require Import Prelude CRuntime CLib Ucx HelloUtil OobSocket Ownership UctApi UctSend.
From S2P Require Import UctLookup UctOptions UctMain UctSteady UctOwn UctLife UctLifeMain UctFind.
From S2P Require Import UctWire UctClient UctZcopy UctServer UctReach UctExchange.
From stdpp Require Import gmultiset pretty.
From Stdlib Require Import Ascii.
Import Ucx.Reference.
Open Scope Z_scope.

(** ** A concrete outside *)

Definition uct_cuda : Cuda := {|
  HAVE_CUDA := false;
  cudaSuccess := 0;
  mem_type_num t := if decide (t = UCS_MEMORY_TYPE_CUDA) then 1 else 0;
|}.
#[local] Existing Instance uct_cuda.

Definition demo_flags : Uct := {|
  UCT_MD_FLAG_NEED_MEMH := 1;
  UCT_MEM_HANDLE_NULL := 0;
  UCT_CB_PARAM_FLAG_DESC := 1;
  UCT_IFACE_FLAG_AM_SHORT := 1;
  UCT_IFACE_FLAG_AM_BCOPY := 2;
  UCT_IFACE_FLAG_AM_ZCOPY := 4;
  UCT_IFACE_FLAG_CONNECT_TO_IFACE := 8;
  UCT_IFACE_FLAG_CONNECT_TO_EP := 16;
  THREAD_MODE_SINGLE := 0;
|}.
#[local] Existing Instance demo_flags.

(** An interface that connects to an endpoint ([16]) or to an interface ([8]). *)
Definition demo_attr (connect : Z) : iface_attr_t := IfaceAttr (7 + connect) 64 64 64 2 1 1.

Definition demo_inventory (connect : Z) : inventory := {|
  in_components := [1; 2];
  in_mds c := if c =? 1 then ["posix"] else ["cma"; "tcp"];
  in_md c name := if bool_decide (name = "posix") then 11
                  else if bool_decide (name = "cma") then 21 else 22;
  in_md_attr md := MdAttr 1 1;
  in_tls md := if md =? 11 then [TlResource "posix" "memory"]
               else if md =? 22 then [TlResource "tcp" "lo"; TlResource "tcp" "eth0"] else [];
  in_iface md tl := if bool_decide (tl_res_dev tl = "eth0") then Some (31, demo_attr connect) else None;
|}.

Section demo.
Context (connect : Z) (reachable : Z) (zcopy : Z) (input : list Z) (arrives : option uct_data).
Local Abbreviation inv := (demo_inventory connect).

Definition refuses (h : history uct_api) : bool := (refused h <? 1)%nat.

Definition demo_sock (op : sock_op) : sock_ret op :=
  match op return sock_ret op with
  | getaddrinfo _ _ _ _ => (0, [AddrInfo 2 1 6])
  | freeaddrinfo => tt
  | socket _ => 5
  | accept _ => 6
  | poll_in _ _ => 1
  | send_ _ len | OobSocket.recv_waitall _ len => len
  | _ => 0
  end.

Definition demo_uct_ret (h : history uct_api) (c : uct_call) : uct_ret c :=
  match c return uct_ret c with
  | Uct_sock op => demo_sock op
  | sock_send _ bs => Z.of_nat (length bs)
  | sock_recv fd n =>
      let got := take (Z.to_nat n) (drop (incoming fd h) input) in (Z.of_nat (length got), got)
  | ucs_async_context_create => (0, 40)
  | uct_worker_create _ _ => (0, 41)
  | uct_query_components => (0, (42, in_components inv))
  | uct_component_query_count c => (0, Z.of_nat (length (in_mds inv c)))
  | uct_component_query_resources c _ => (0, in_mds inv c)
  | uct_md_config_read _ => (0, 43)
  | uct_md_open c name _ => (0, in_md inv c name)
  | uct_md_query md => (0, in_md_attr inv md)
  | uct_md_query_tl_resources md => (0, (44, in_tls inv md))
  | uct_md_iface_config_read _ _ => (0, 45)
  | uct_iface_open md _ name dev _ _ =>
      match in_iface inv md (TlResource name dev) with Some (i, _) => (0, i) | None => (-1, 0) end
  | uct_iface_query _ => (0, demo_attr connect)
  | uct_iface_get_device_address _ => (0, [1; 2])
  | uct_iface_get_address _ => (0, [3])
  | uct_ep_get_address _ => (0, [4])
  | uct_iface_is_reachable _ _ _ => reachable
  | uct_ep_create _ _ => (0, 46)
  | uct_ep_am_short _ _ _ _ => if refuses h then -2 else 0
  | uct_ep_am_bcopy _ _ _ =>
      if refuses h then -2
      else match h with
           | ECb (Cb_pack _ _) (Packed len _) :: _ => if 0 <=? len then len else -3
           | _ => -3
           end
  | uct_ep_am_zcopy _ _ _ _ _ _ => if refuses h then -2 else zcopy
  | uct_md_mem_reg _ _ _ => (0, 47)
  | ucs_async_context_destroy _ | uct_worker_destroy _ | uct_release_component_list _
  | uct_config_release _ | uct_release_tl_resource_list _ | uct_md_close _
  | uct_iface_progress_enable _ | uct_iface_close _ | uct_ep_destroy _
  | uct_iface_release_desc _ => tt
  | _ => 0
  end.

Definition demo_uct_acts (h : history uct_api) (c : uct_call) : list (act uct_api) :=
  match c with
  | uct_ep_am_bcopy _ _ arg => if refuses h then [] else [Callback (A := uct_api) (Cb_pack 64 arg)]
  | uct_worker_progress _ =>
      match arrives with
      | Some data =>
          if delivered h then [] else if (progressed h <? 1)%nat then []
          else [Callback (A := uct_api) (Cb_am (Loc 0 0) data (Z.of_nat (length (ud_bytes data))) 0)]
      | None =>
          match pending h with
          | Some comp =>
              if (progressed h <? 1)%nat then []
              else [Callback (A := uct_api) (Cb_completion comp 0)]
          | None => []
          end
      end
  | _ => []
  end.

Definition demo_uct : uct_lib := {|
  l_acts := demo_uct_acts;
  l_ret := demo_uct_ret;
  l_alloc := λ _ _, true;
|}.
End demo.

(** The addresses of the peer: of a device, of an interface, of an endpoint. *)
Definition demo_peer : list Z := framed [7; 8] ++ framed [9] ++ framed [10].
Definition demo_args : list string := ["-d"; "eth0"; "-t"; "tcp"].
Definition demo_bytes (n : nat) : list Z :=
  ((λ i, test_char (Z.of_nat i)) <$> seq 0 (n - 1)) ++ [0].

(** Whole runs: a client with each kind of message, and a server. *)
Example client_short_runs :
  (fst (uct_main (demo_uct 8 1 1 demo_peer None) 10 (demo_args ++ ["-n"; "host"]) uct_init_world)) = Ok 0.
Proof. vm_compute. reflexivity. Qed.
Example client_bcopy_runs :
  (fst (uct_main (demo_uct 16 1 1 demo_peer None) 10 (demo_args ++ ["-b"; "-n"; "host"]) uct_init_world)) = Ok 0.
Proof. vm_compute. reflexivity. Qed.
Example client_zcopy_runs :
  (fst (uct_main (demo_uct 16 1 1 demo_peer None) 10 (demo_args ++ ["-z"; "-n"; "host"]) uct_init_world)) = Ok 0.
Proof. vm_compute. reflexivity. Qed.
Example server_runs :
  let run := uct_main (demo_uct 16 1 1 demo_peer (Some (UctData 50 (demo_bytes 16)))) 10 demo_args uct_init_world in
  fst run = Ok 0 ∧ map_to_list (heap (snd run)) = [] ∧
  shown (trace (snd run)) =
    [line "main" FUNC_AM_SHORT (test_chars 15) 16; line "callback" FUNC_AM_SHORT (test_chars 15) 16].
Proof. vm_compute. split_and!; reflexivity. Qed.

(** ** Properties *)

Section properties.
Context `{!Ucs, !Cuda, !Uct} (L : uct_lib) (fuel : nat).
Implicit Types (w : uct_world).

(** C27: Whatever the outside does, every run of uct_hello_world, also one that stops,
    uses the objects it got from UCT (async context, worker, component lists, memory
    domains, configurations, interface, endpoint) and the sockets only while they are
    alive, in callbacks too: a component is used only while the list it comes from is
    alive, and a registration ends, in the completion of a zero-copy message, only
    while its memory domain is alive, wherever the completion is called. Each object
    is destroyed at most once, and none that something else depends on; and when main
    returns, all are gone. Two exceptions, both after an error: a socket stays open when
    the device address cannot be read, and when the program cannot connect, its last
    call closes a negative descriptor. *)
Theorem uct_objects argv :
  wp unmisused (uct_main L fuel argv) (λ _ w, ∃ k, alive ∅ k w ∧ final_sockets k) uct_init_world.
Proof.
  apply uct_main_alive.
  - split; [done| |done]. intros b kd n st md h. simpl. intros Hb. by apply lookup_empty_Some in Hb.
  - intros r k w [Ha _ _] Hk. eauto.
Qed.

(** C28: dev_tl_lookup computes [pick]: against a UCT that answers from an inventory it
    returns the first memory domain, in the order of the components, in which the
    first transport with the two names can be opened and supports the kind of message
    and the type of memory; it reports UCS_ERR_UNSUPPORTED if there is none; and it
    changes neither memory nor static variables. *)
Theorem uct_lookup I args wk dev name w :
  catalogued I L → dev_name args = Some dev → tl_name args = Some name → wf_mem w →
  ∃ w', dev_tl_lookup L args wk w =
      (Ok (match pick I (func_am_type args) (u_test_mem_type (glob w)) dev name with
           | Some info => (UCS_OK, info) | None => (UCS_ERR_UNSUPPORTED, no_info) end), w') ∧
    glob w' = glob w ∧ heap w' = heap w.
Proof.
  intros HI Hdev Hname Hwf. apply wp_answers.
  eapply (dev_tl_lookup_ok L I HI args wk dev name (λ _, tt) 0); [done|done|by split|].
  by intros w' [].
Qed.

(** What holds when the client is about to send a message of [len] bytes. *)
Record ready (room : Z) (n : nat) (args : cmd_args_t) (t : ucs_memory_type_t) (len : nat) w : Prop := {
  rd_lib : takes_messages L room n;
  rd_fuel : (S n < fuel)%nat;
  rd_mem : mem_usable L t;
  rd_alloc tr z : l_alloc L tr z = true;
  rd_len : test_strlen args = Z.of_nat len;
  rd_max : Z.of_nat len < 2 ^ 31;
  rd_room : func_am_type args = FUNC_AM_BCOPY → Z.of_nat len ≤ room;
  rd_type : u_test_mem_type (glob w) = t;
  rd_none : u_desc_holder (glob w) = NoDesc;
  rd_wf : wf_mem w;
  rd_idle : pending (trace w) = None;
}.

(** A short message carries 8 bytes or more, of memory the processor can read. *)
Definition short_fits (args : cmd_args_t) (t : ucs_memory_type_t) (len : nat) : Prop :=
  func_am_type args = FUNC_AM_SHORT → t ≠ UCS_MEMORY_TYPE_CUDA ∧ (8 ≤ len)%nat.

(** What the branch leaves when the sender has returned [st]. *)
Record client_left (args : cmd_args_t) (info : iface_info_t) (len : nat) (ep id : Z)
    w (st : Z) w' : Prop := {
  cl_heap : heap w' = heap w;
  cl_sent : sent (trace w') = took st (uct_string len) (sent (trace w));
  cl_settled : settled L ep id args info st (glob w) (glob w')
    (registered (trace w)) (registered (trace w'));
}.

Lemma ready_client room n args info t len wk ep id w :
  ready room n args t len w → short_fits args t len →
  wp (λ _ _, False) (uct_client L fuel args info wk ep id)
    (λ a w', ∃ st, a = answers st ∧ client_left args info len ep id w st w') w.
Proof.
  intros [HL Hfuel Hmem Hal Hlen Hmax Hroom Ht Hnone Hwf Hidle] Hshort.
  eapply (uct_client_ok L fuel n room HL Hfuel wk ep id args info t len Hmem Hlen Hroom Hshort
    (glob w) (heap w) (sent (trace w)) (registered (trace w))); [done..| |].
  - split; [done|done|done|]. unfold traffic. by rewrite Hidle.
  - intros st g' reg' w' Hset [Hg Hh _ Htr]. unfold traffic in Htr. injection Htr as Hs _ Hr.
    exists st. split; [done|]. split; [done|done|]. by rewrite Hg, Hr.
Qed.

(** C26: The client's branch of main, where no allocation fails, with each of the three
    kinds of message: a short one of at least 8 bytes in memory the processor can read
    (not CUDA), a buffered one for which UCT has room, or a zero-copy one, the latter two
    in each type of memory. UCT refuses a message for want of resources only a bounded
    number of times, and completes an operation in time and without an error (an error
    would stop the program at the assertion of zcopy_completion_cb). Then the branch
    returns, with UCS_OK or with the error UCT answered: UCT took the test string, NUL
    included, exactly if the status is UCS_OK, the status decides whether a goto leaves the
    branch, no memory stays allocated, and a registration that was made is undone if the
    message was under way when the call returned. *)
Theorem uct_client_sends room n args info t len wk ep id w :
  ready room n args t len w → short_fits args t len →
  ∃ st w', uct_client L fuel args info wk ep id w = (Ok (answers st), w') ∧
    client_left args info len ep id w st w'.
Proof.
  intros Hr Hs. destruct (wp_returns _ _ _ (ready_client _ _ _ info _ _ wk ep id _ Hr Hs))
    as (a & w' & Hrun & st & -> & ?). eauto.
Qed.

(** C31: The registration of a zero-copy message is undone by the completion callback
    only. When UCT sends the message within the call, so that it never answers
    UCS_INPROGRESS, there is no callback: the client reports success, and the buffer
    it has freed is still registered. *)
Theorem zcopy_leaks_registration room n args info t len wk ep id w :
  ready room n args t len w → func_am_type args = FUNC_AM_ZCOPY → needs_memh info = true →
  ¬ started L ep id →
  ∃ st w', uct_client L fuel args info wk ep id w = (Ok (answers st), w') ∧
    heap w' = heap w ∧
    (st = UCS_OK → sent (trace w') = uct_string len :: sent (trace w) ∧
       registered (trace w') = registered (trace w) + 1).
Proof.
  intros Hr Hf Hneed Hno.
  assert (short_fits args t len) as Hs by (intros Hc; by rewrite Hf in Hc).
  destruct (wp_returns _ _ _ (ready_client _ _ _ info _ _ wk ep id _ Hr Hs))
    as (a & w' & Hrun & st & -> & [Hh Hsent Hset]).
  exists st, w'. split_and!; [done..|]. intros ->. unfold took in Hsent. rewrite Z.eqb_refl in Hsent.
  split; [done|]. destruct Hset as [(_&_&_&_&Hst)|[(_&_&Hc)|(_&Hreg&_)]]; [done| |done].
  specialize (Hc Hf eq_refl). congruence.
Qed.

(** C33: am_short_params_pack reads a header of 8 bytes from the buffer, however short
    the message is: a client started with a shorter test string (-s) has undefined
    behaviour. *)
Theorem short_message_overreads args info len wk ep id w :
  (∀ tr z, l_alloc L tr z = true) → u_test_mem_type (glob w) = UCS_MEMORY_TYPE_HOST → wf_mem w →
  func_am_type args = FUNC_AM_SHORT → test_strlen args = Z.of_nat len → (0 < len < 8)%nat →
  ∃ w', uct_client L fuel args info wk ep id w = (Halt (UB "read out of bounds"), w').
Proof.
  intros Hal Ht Hwf Hf Hlen Hn. apply wp_halts. unfold uct_client, mem_type_malloc.
  rewrite Hlen, u64_small by lia. apply wp_bind, wp_bind, wp_get_glob.
  change (test_mem_type (glob w)) with (u_test_mem_type (glob w)). rewrite Ht.
  apply wp_malloc_obj; [done|by rewrite Hal|]. intros b _ -> Hfr. rewrite Nat2Z.id.
  rewrite bool_decide_eq_false_2 by done. unfold s32. rewrite (sgn_small 32 (Z.of_nat len)) by lia.
  apply wp_bind. eapply (uct_generate_ok L) with (t := UCS_MEMORY_TYPE_HOST) (n := len);
    [by split|done|by apply wf_mem_alloc|done|apply lookup_insert_eq|by rewrite length_replicate|lia|].
  intros w2 [Hh2 Hg2]. apply wp_bind. unfold do_am. rewrite Hf, Hlen. apply wp_bind.
  unfold am_short_params_pack. apply wp_bind. unfold read_mem.
  apply wp_bind. eapply wp_lookup_obj; [rewrite Hh2; apply lookup_insert_eq|]. cbv beta iota zeta.
  simpl by_cpu. cbv iota. rewrite slice_none; [done|].
  rewrite uct_string_length. unfold sizeof_header. lia.
Qed.

End properties.

Section pairs.
Context `{!Ucs, !Cuda, !Uct} (Lc Ls : uct_lib).

(** C30: Two programs that call sendrecv over a connected pair of sockets: each of them
    sends the length and the bytes of its own address and nothing else, and each of
    them ends with a buffer that holds the address of the other, and returns 0. *)
Theorem uct_addresses_exchanged fc fs bc bs kc ks ownc owns wc ws :
  connected Lc fc (framed owns) → connected Ls fs (framed ownc) →
  (∀ tr z, l_alloc Lc tr z = true) → (∀ tr z, l_alloc Ls tr z = true) →
  wf_mem wc → wf_mem ws →
  heap wc !! bc = Some (Bytes kc (Some <$> ownc)) → heap ws !! bs = Some (Bytes ks (Some <$> owns)) →
  incoming fc (trace wc) = 0%nat → incoming fs (trace ws) = 0%nat →
  Z.of_nat (length ownc) < 2 ^ 31 → Z.of_nat (length owns) < 2 ^ 31 →
  ∃ rc wc' rs ws',
    sendrecv Lc fc (Loc bc 0) (Z.of_nat (length ownc)) wc = (Ok rc, wc') ∧
    sendrecv Ls fs (Loc bs 0) (Z.of_nat (length owns)) ws = (Ok rs, ws') ∧
    exchanged fc (framed owns) ownc owns [] wc rc wc' ∧
    exchanged fs (framed ownc) owns ownc [] ws rs ws'.
Proof.
  intros HLc HLs Halc Hals Hwfc Hwfs Hbc Hbs Hic His Hlc Hls.
  destruct (sendrecv_exchanged Lc fc _ bc kc ownc owns [] wc HLc Hwfc Halc Hbc
    ltac:(by rewrite Hic, app_nil_r) Hlc Hls) as (rc & wc' & Hrc & Hec).
  destruct (sendrecv_exchanged Ls fs _ bs ks owns ownc [] ws HLs Hwfs Hals Hbs
    ltac:(by rewrite His, app_nil_r) Hls Hlc) as (rs & ws' & Hrs & Hes).
  exists rc, wc', rs, ws'. by split_and!.
Qed.
End pairs.

(** ** What an error becomes *)

(** C32: If uct_iface_is_reachable denies that the peer can be reached, main offers no
    message to UCT; but status keeps the UCS_OK of the call before, so that the
    program, which did nothing, exits with 0 whenever the question was asked. *)
Theorem unreachable_is_success `{!Ucs, !Cuda, !Uct} L fuel argv :
  (∀ h i dev addr, l_ret L h (uct_iface_is_reachable i dev addr) = 0) →
  wp no_offer (uct_main L fuel argv) refused_with uct_init_world.
Proof. intros Hno. by apply uct_main_refused. Qed.

(** ** The command line *)

(** The options that say [a], but for the port, which is written as [z]. *)
Definition uct_command_line (z : Z) (a : cmd_args_t) : list string :=
  [match func_am_type a with
   | FUNC_AM_SHORT => "-i"
   | FUNC_AM_BCOPY => "-b"
   | FUNC_AM_ZCOPY => "-z"
   end%string] ++
  (if uct_ai_family a =? AF_INET6 then ["-6"%string] else []) ++
  from_option (λ s, ["-n"%string; s]) [] (server_name a) ++
  from_option (λ s, ["-d"%string; s]) [] (dev_name a) ++
  from_option (λ s, ["-t"%string; s]) [] (tl_name a) ++
  ["-p"; pretty z; "-s"; pretty (test_strlen a)]%string.

Lemma uct_opts_getopt z a d t :
  dev_name a = Some d → tl_name a = Some t →
  getopt uct_optstring (uct_command_line z a) =
    [(match func_am_type a with
      | FUNC_AM_SHORT => "i" | FUNC_AM_BCOPY => "b" | FUNC_AM_ZCOPY => "z"
      end%char, EmptyString)] ++
    (if uct_ai_family a =? AF_INET6 then [("6"%char, EmptyString)] else []) ++
    from_option (λ s, [("n"%char, s)]) [] (server_name a) ++
    [("d", d); ("t", t); ("p", pretty z); ("s", pretty (test_strlen a))]%char.
Proof.
  intros Hd Ht. unfold uct_command_line. rewrite Hd, Ht.
  by destruct (func_am_type a), (uct_ai_family a =? AF_INET6), (server_name a).
Qed.

Lemma uct_line_operands z a d t :
  dev_name a = Some d → tl_name a = Some t →
  operands uct_optstring (uct_command_line z a) = [].
Proof.
  intros Hd Ht. unfold uct_command_line. rewrite Hd, Ht.
  by destruct (func_am_type a), (uct_ai_family a =? AF_INET6), (server_name a).
Qed.

(** The numbers. *)
Lemma uct_parse_port z a w : 0 ≤ z < 2 ^ 31 →
  uct_parse_opt ("p"%char, pretty z) a w =
    if u16 z <=? 0
    then (Ok (inr UCS_ERR_UNSUPPORTED),
          push (EOut Stderr "Wrong server port number %d\n" [AZ (u16 z)]) w)
    else (Ok (inl (with_port (u16 z) a)), w).
Proof.
  intros Hz. unfold uct_parse_opt. cbn -[atoi pretty Z.leb u16 Z.pow].
  rewrite atoi_pretty by done. by destruct (u16 z <=? 0).
Qed.

Lemma uct_parse_size n a w : 0 ≤ n ≤ LONG_MAX →
  uct_parse_opt ("s"%char, pretty n) a w = (Ok (inl (with_strlen n a)), w).
Proof.
  intros Hn. unfold uct_parse_opt. cbn -[atol pretty Z.ltb].
  rewrite atol_pretty by done. by rewrite (proj2 (Z.ltb_ge _ _)) by lia.
Qed.
(** Options one after the other. *)
Lemma uct_parse_cons o os a a' w w' :
  uct_parse_opt o a w = (Ok (inl a'), w') → uct_parse_opts (o :: os) a w = uct_parse_opts os a' w'.
Proof. intros Ho. simpl. unfold mbind, M_bind. by rewrite Ho. Qed.

Lemma uct_parse_stop o os a r w w' :
  uct_parse_opt o a w = (Ok (inr r), w') → uct_parse_opts (o :: os) a w = (Ok (inr r), w').
Proof. intros Ho. simpl. unfold mbind, M_bind. by rewrite Ho. Qed.

(** What the options give. *)
Lemma uct_opts_read z a d t w :
  0 ≤ z < 2 ^ 31 → 0 ≤ test_strlen a ≤ LONG_MAX →
  uct_ai_family a = AF_INET ∨ uct_ai_family a = AF_INET6 →
  dev_name a = Some d → tl_name a = Some t →
  uct_parse_opts (getopt uct_optstring (uct_command_line z a)) default_args w =
    if u16 z <=? 0
    then (Ok (inr UCS_ERR_UNSUPPORTED),
          push (EOut Stderr "Wrong server port number %d\n" [AZ (u16 z)]) w)
    else (Ok (inl (with_port (u16 z) a)), w).
Proof.
  intros Hz Hn Hf Hd Ht. rewrite (uct_opts_getopt z a d t Hd Ht).
  destruct a as [name port fam f dev tl n].
  cbn [func_am_type uct_ai_family server_name dev_name tl_name test_strlen] in *. subst dev tl.
  change (AF_INET =? AF_INET6) with false in *.
  destruct Hf as [-> | ->];
    [change (AF_INET =? AF_INET6) with false|change (AF_INET6 =? AF_INET6) with true];
    destruct f, name; cbn [app from_option];
    repeat (erewrite uct_parse_cons by reflexivity);
    match goal with |- uct_parse_opts ((_, _) :: _) ?a _ = _ =>
      pose proof (uct_parse_port z a w Hz) as Hp end;
    (destruct (u16 z <=? 0); [by rewrite (uct_parse_stop _ _ _ _ _ _ Hp)|]);
    by rewrite (uct_parse_cons _ _ _ _ _ _ Hp), (uct_parse_cons _ _ _ _ _ _ (uct_parse_size n _ w Hn)).
Qed.

(** C29: what is written on the command line is what parse_cmd hands to main: the
    kind of message, the address family, the name of the server, the device, the
    transport and the length of the string, whatever they are; and the port modulo
    2 ^ 16, since it is stored as a uint16_t before it is tested: only a multiple of
    65536 is rejected. Nothing else changes. *)
Theorem uct_command_line_read z a d t w :
  0 ≤ z < 2 ^ 31 → 0 ≤ test_strlen a ≤ LONG_MAX →
  uct_ai_family a = AF_INET ∨ uct_ai_family a = AF_INET6 →
  dev_name a = Some d → tl_name a = Some t →
  ∃ w', uct_parse_cmd (uct_command_line z a) w =
          (Ok (if z `mod` 65536 =? 0 then inr UCS_ERR_UNSUPPORTED
               else inl (with_port (z `mod` 65536) a)), w') ∧
        heap w' = heap w ∧ glob w' = glob w.
Proof.
  intros Hz Hn Hf Hd Ht. unfold uct_parse_cmd, mbind, M_bind.
  rewrite (uct_opts_read z a d t w Hz Hn Hf Hd Ht).
  change (z `mod` 65536) with (u16 z). pose proof (u16_range z).
  destruct (Z.leb_spec (u16 z) 0), (Z.eqb_spec (u16 z) 0); [by eexists|lia|lia|].
  rewrite (uct_line_operands z a d t Hd Ht).
  destruct a; simpl in *; subst. by eexists.
Qed.

(** ** Witnesses *)

Lemma uct_command_line_read_witness :
  ∃ w', uct_parse_cmd ["-z"; "-6"; "-n"; "node7"; "-d"; "mlx5_0:1"; "-t"; "rc_verbs";
                       "-p"; "65537"; "-s"; "64"]%string uct_init_world =
          (Ok (inl (CmdArgs (Some "node7"%string) 1 AF_INET6 FUNC_AM_ZCOPY
                      (Some "mlx5_0:1"%string) (Some "rc_verbs"%string) 64)), w') ∧
        heap w' = heap uct_init_world ∧ glob w' = glob uct_init_world.
Proof.
  apply (uct_command_line_read 65537
    (CmdArgs (Some "node7"%string) 0 AF_INET6 FUNC_AM_ZCOPY
       (Some "mlx5_0:1"%string) (Some "rc_verbs"%string) 64)
    "mlx5_0:1" "rc_verbs" uct_init_world);
    [lia|unfold LONG_MAX; simpl; lia|by right|done|done].
Defined.

Lemma demo_catalogued c r z i arr : catalogued (demo_inventory c) (demo_uct c r z i arr).
Proof.
  split; try done; try (by eexists).
  - intros h md wk tl room config. simpl. destruct tl as [name dev]. simpl.
    by case_bool_decide.
  - intros h md tl j attr. simpl. by case_bool_decide; intros [= <- <-].
Qed.

Lemma refused_suffix h h' : h `suffix_of` h' → (refused h ≤ refused h')%nat.
Proof. intros [l ->]. induction l as [|[c r|cb r|b|a b|s a b] l IH]; simpl; lia. Qed.

Lemma demo_takes c r z i : z ≠ -2 → takes_messages (demo_uct c r z i None) 64 1.
Proof.
  intros Hz. assert (∀ h, (1 ≤ refused h)%nat → refuses h = false) as Href.
  { intros h Hh. by apply Nat.ltb_ge. }
  split; try done.
  - intros h ep id arg. simpl. destruct (refuses h) eqn:Hr; [by left|]. right.
    exists 64. split_and!; [done|done|]. intros h' len bs Hs Hlen.
    assert (refuses (ECb (A := uct_api) (Cb_pack 64 arg) (Packed len bs) :: h') = false) as ->.
    { apply Href. apply refused_suffix in Hs. apply (proj1 (Nat.ltb_ge (refused h) 1)) in Hr.
      simpl. lia. }
    by rewrite (proj2 (Z.leb_le _ _)).
  - intros h call Hh. apply Href in Hh. destruct call; simpl; rewrite ?Hh; try done.
    + by destruct h as [|[|[] []| | |] h]; try done; destruct (Z.leb_spec 0 len) as [Hl|]; simpl;
        [rewrite (proj2 (Z.eqb_neq _ _)) by (simpl; lia)|].
    + by rewrite (proj2 (Z.eqb_neq _ _)).
Qed.

(** The client with the interface it found, about to send. *)
Definition demo_info : iface_info_t := IfaceInfo (demo_attr 16) 31 (MdAttr 1 1) 22.
Definition demo_client (f : func_am_t) (len : Z) : cmd_args_t :=
  CmdArgs (Some "host") 13337 2 f (Some "eth0") (Some "tcp") len.

Lemma demo_ready z f len :
  z ≠ -2 → (len ≤ 64)%nat →
  ready (demo_uct 16 1 z [] None) 10 64 1 (demo_client f (Z.of_nat len)) UCS_MEMORY_TYPE_HOST len
    uct_init_world.
Proof.
  intros Hz Hlen. split; try done; [by apply demo_takes|lia|change (2 ^ 31) with 2147483648; lia|].
  simpl. lia.
Qed.

(** A client that ran to the end with UCS_OK. *)
Lemma ran_ok (m : UM (Z * bool)) w st w' :
  m w = (Ok (answers st), w') → fst (m w) = Ok (answers UCS_OK) → st = UCS_OK.
Proof. intros ->. by injection 1. Qed.

Lemma uct_lookup_witness : ∃ w',
  dev_tl_lookup (demo_uct 16 1 1 [] None) (demo_client FUNC_AM_ZCOPY 16) 41 uct_init_world =
    (Ok (UCS_OK, demo_info), w') ∧ glob w' = uct_init_glob ∧ heap w' = ∅.
Proof.
  exact (uct_lookup (demo_uct 16 1 1 [] None) (demo_inventory 16) (demo_client FUNC_AM_ZCOPY 16) 41
    "eth0" "tcp" uct_init_world (demo_catalogued 16 1 1 [] None) eq_refl eq_refl (λ _ _, eq_refl)).
Defined.

Lemma uct_client_sends_witness : ∃ st w',
  uct_client (demo_uct 16 1 1 [] None) 10 (demo_client FUNC_AM_SHORT 16) demo_info 41 46 0
    uct_init_world = (Ok (answers st), w') ∧
  client_left (demo_uct 16 1 1 [] None) (demo_client FUNC_AM_SHORT 16) demo_info 16 46 0
    uct_init_world st w'.
Proof.
  apply (uct_client_sends _ 10 64 1 _ demo_info UCS_MEMORY_TYPE_HOST 16 41 46 0 uct_init_world).
  - apply (demo_ready 1 FUNC_AM_SHORT 16); [done|lia].
  - intros _. split; [done|lia].
Defined.

Lemma zcopy_leaks_registration_witness : ∃ w',
  uct_client (demo_uct 16 1 0 [] None) 10 (demo_client FUNC_AM_ZCOPY 16) demo_info 41 46 0
    uct_init_world = (Ok (0, false), w') ∧
  heap w' = ∅ ∧ sent (trace w') = [uct_string 16] ∧ registered (trace w') = 1.
Proof.
  destruct (zcopy_leaks_registration (demo_uct 16 1 0 [] None) 10 64 1 (demo_client FUNC_AM_ZCOPY 16)
    demo_info UCS_MEMORY_TYPE_HOST 16 41 46 0 uct_init_world) as (st & w' & Hrun & Hh & Hok).
  - apply (demo_ready 0 FUNC_AM_ZCOPY 16); [done|lia].
  - done.
  - done.
  - intros (h & buf & bs & memh & comp & Hst). simpl in Hst. by destruct (refuses h).
  - assert (st = UCS_OK) as -> by (eapply ran_ok; [exact Hrun|vm_compute; reflexivity]).
    destruct (Hok eq_refl) as [Hs Hr]. exists w'. split; [exact Hrun|]. split; [exact Hh|].
    split; [exact Hs|exact Hr].
Defined.

Lemma short_message_overreads_witness : ∃ w',
  uct_client (demo_uct 16 1 1 [] None) 10 (demo_client FUNC_AM_SHORT 4) demo_info 41 46 0
    uct_init_world = (Halt (UB "read out of bounds"), w').
Proof.
  apply (short_message_overreads _ 10 (demo_client FUNC_AM_SHORT 4) demo_info 4); try done. lia.
Defined.

(** Two programs that exchange the addresses [7; 8] and [9]. *)
Definition demo_holds (own : list Z) : uct_world :=
  World uct_init_glob {[0%N := Bytes KHost (Some <$> own)]} 1 [].

Lemma demo_connected i : connected (demo_uct 16 1 1 i None) 5 i.
Proof. by split. Qed.

Lemma uct_addresses_exchanged_witness : ∃ rc wc rs ws,
  sendrecv (demo_uct 16 1 1 (framed [9]) None) 5 (Loc 0 0) 2 (demo_holds [7; 8]) = (Ok rc, wc) ∧
  sendrecv (demo_uct 16 1 1 (framed [7; 8]) None) 5 (Loc 0 0) 1 (demo_holds [9]) = (Ok rs, ws) ∧
  exchanged 5 (framed [9]) [7; 8] [9] [] (demo_holds [7; 8]) rc wc ∧
  exchanged 5 (framed [7; 8]) [9] [7; 8] [] (demo_holds [9]) rs ws.
Proof.
  assert (∀ own, wf_mem (demo_holds own)) as Hwf.
  { intros own b Hb. simpl in *. apply lookup_singleton_ne. lia. }
  by apply (uct_addresses_exchanged _ _ 5 5 0 0 KHost KHost [7; 8] [9] (demo_holds [7; 8])
    (demo_holds [9]) (demo_connected _) (demo_connected _)).
Defined.

(** What a run that answered [a] satisfies. *)
Lemma wp_answered {A} E (m : UM A) Q w a :
  wp E m Q w → fst (m w) = Ok a → Q a (snd (m w)).
Proof. unfold wp. destruct (m w) as [r w']. simpl. by intros H ->. Qed.

Lemma unreachable_is_success_witness :
  let run := uct_main (demo_uct 16 0 1 demo_peer None) 10 (demo_args ++ ["-n"; "host"]) uct_init_world in
  fst run = Ok 0 ∧ (reach (trace (snd run))).2 = true ∧ refused_with 0 (snd run).
Proof.
  split; [vm_compute; reflexivity|]. split; [vm_compute; reflexivity|].
  refine (wp_answered _ _ _ _ 0 (unreachable_is_success (demo_uct 16 0 1 demo_peer None) 10
    (demo_args ++ ["-n"; "host"]) _) _); [by intros|].
  vm_compute. reflexivity.
Defined.
