(* ===== verification/UctPair.v ===== *)
(** * uct_hello_world: a client and a server

    The runs of a client and of a server from their command lines to the end of main,
    and the theorem that they fit together ([uct_pair]). *)

From S2P Require Import Prelude CRuntime CLib Ucx HelloUtil OobSocket Ownership UctApi UctSend.
From S2P Require Import UctLookup UctOptions UctMain UctSteady UctFind UctWire UctClient UctZcopy.
From S2P Require Import UctServer UctBlocks UctExchange UctRun UctRunMain UctPlayers Uct.
Import Ucx.Reference.
Open Scope Z_scope.

Section whole.
Context `{!Ucs, !Cuda, !Uct} (L : uct_lib) (fuel : nat).
Implicit Types (w : uct_world).

(** One side of a run in which everybody cooperates: the command line [argv] is
    accepted as [args], with the static variables [g]; the machine has a transport
    that suits, with the interface [info]; the socket is [fd]; the addresses of this
    side are [own], those of the other [peer]; the message is not too long. *)
Record sets_up (argv : list string) (args : cmd_args_t) (g : uct_glob) (fd : Z) (n : nat)
    (info : iface_info_t) (own peer : addrs) (ep : Z) : Prop := {
  su_parsed : parsed args g argv;
  su_lookup : ∃ I dev name, catalogued I L ∧ dev_name args = Some dev ∧ tl_name args = Some name ∧
    pick I (func_am_type args) (u_test_mem_type g) dev name = Some info;
  su_cooperates : cooperates L fd info own peer ep;
  su_dials : dials L (server_name args) fd;
  su_meets : meets L fd n;
  su_fuel : (S n < fuel)%nat;
  su_size : u64 (test_strlen args) ≤ func_am_max_size (func_am_type args) (ii_attr info);
}.

(** The client's message has [len] bytes, and UCT takes messages. *)
Record sends (room : Z) (n : nat) (args : cmd_args_t) (g : uct_glob) (len : nat) : Prop := {
  sd_lib : takes_messages L room n;
  sd_client : server_name args ≠ None;
  sd_mem : mem_usable L (u_test_mem_type g);
  sd_len : test_strlen args = Z.of_nat len;
  sd_max : Z.of_nat len < 2 ^ 31;
  sd_room : func_am_type args = FUNC_AM_BCOPY → Z.of_nat len ≤ room;
  sd_short : short_fits args (u_test_mem_type g) len;
}.

Lemma parsed_none args g argv : parsed args g argv → u_desc_holder g = NoDesc.
Proof.
  intros (w & Hrun & <-). pose proof (keeps_parse_there (λ _, tt) 0 argv uct_init_world) as Hk.
  rewrite Hrun in Hk. unfold same, still_there in Hk. simpl in Hk. congruence.
Qed.

Lemma client_main_run argv args g fd n info own peer ep room len :
  sets_up argv args g fd n info own peer ep → sends room n args g len →
  wp (λ _ _, False) (uct_main L fuel argv)
    (λ r w, ∃ st, r = exit_status st ∧ heap w = ∅ ∧ sent (trace w) = took st (uct_string len) [] ∧
       outgoing fd (trace w) = Some <$> frames (ii_attr info) own) uct_init_world.
Proof.
  intros [Hp (I & dev & name & HI & Hdev & Hname & Hpick) HC Hd Hm Hf Hsize]
    [HL Hclient Hmem Hlen Hmax Hroom Hshort].
  pose proof (co_alloc _ _ _ _ _ _ HC) as Hal. pose proof (parsed_none _ _ _ Hp) as Hnone.
  eapply (uct_main_run L fd traffic info own peer ep HC args fuel n g ([], None, 0) _ _ 0%N
    (client_plays L fd fuel n room info args _ len g HL Hf Hmem Hlen Hroom Hshort Hal Hmax Hnone
       eq_refl Hclient Hm Hsize 0%N) Hd I HI dev name Hdev Hname Hpick); [done..|].
  intros st w (g' & x & i & [reg ->] & [_ Hh _ Htr Ho]). exists st.
  unfold wire in Ho. unfold traffic in Htr. split_and!; [done|done|congruence|].
  simpl in Ho. congruence.
Qed.

(** The bytes of the test string. *)
Definition letters (n : nat) : list Z := (λ i, test_char (Z.of_nat i)) <$> seq 0 n.
Definition string_bytes (len : nat) : list Z := letters (len - 1) ++ [0].

Lemma letters_chars n : Some <$> letters n = test_chars n.
Proof. unfold letters, test_chars. by rewrite <-list_fmap_compose. Qed.
Lemma letters_not_nul n : 0 ∉ letters n.
Proof. intros (i & Hi & _)%list_elem_of_fmap. pose proof (test_char_upper (Z.of_nat i)). lia. Qed.
Lemma string_bytes_length len : (0 < len)%nat → length (string_bytes len) = len.
Proof. intros. unfold string_bytes, letters. rewrite length_app, length_fmap, length_seq. simpl. lia. Qed.
Lemma string_bytes_ok len : (0 < len)%nat → Some <$> string_bytes len = uct_string len.
Proof.
  intros Hn. unfold string_bytes, uct_string, half_filled. rewrite fmap_app, letters_chars.
  by replace (len - (len - 1))%nat with 1%nat by lia.
Qed.

Lemma server_main_run argv args g fd n info own peer ep len desc flags :
  sets_up argv args g fd n info own peer ep → (0 < len)%nat → Z.of_nat len < 2 ^ 31 →
  server_name args = None → 0 < test_strlen args < 2 ^ 64 →
  delivers_one L (Loc 0 0) (UctData desc (string_bytes len)) flags n →
  wp (λ _ _, False) (uct_main L fuel argv)
    (λ r w, r = UCS_OK ∧ heap w = ∅ ∧
       shown (trace w) = [line "main" (func_am_type args) (test_chars (len - 1)) (test_strlen args);
                          line "callback" (func_am_type args) (test_chars (len - 1)) (Z.of_nat len)] ∧
       released (trace w) = (if has_flag flags UCT_CB_PARAM_FLAG_DESC then [desc] else []) ∧
       outgoing fd (trace w) = Some <$> frames (ii_attr info) own) uct_init_world.
Proof.
  intros [Hp (I & dev & name & HI & Hdev & Hname & Hpick) HC Hd Hm Hf Hsize] Hn Hmax Hserver Hstr HL.
  pose proof (co_alloc _ _ _ _ _ _ HC) as Hal. pose proof (parsed_none _ _ _ Hp) as Hnone.
  pose proof (string_bytes_length len Hn) as Hlen.
  assert (4 + Z.of_nat (length (letters (len - 1) ++ 0 :: [])) < 2 ^ 64) as Hmax'
    by (fold (string_bytes len); rewrite Hlen; lia).
  eapply (uct_main_run L fd output info own peer ep HC args fuel n g ([], [], false) _ _ 0%N
    (server_plays L fd fuel n 0%N info args desc flags (letters (len - 1)) [] g HL Hf
       (letters_not_nul _) Hmax' Hal Hnone Hstr Hserver Hm Hsize)
    Hd I HI dev name Hdev Hname Hpick); [done..|].
  intros st w (g' & x & i & [-> ->] & [_ Hh _ Hout Ho]). unfold wire in Ho. unfold output in Hout.
  fold (string_bytes len) in Hout. rewrite Hlen, letters_chars in Hout. injection Hout as Hsh Hrel _.
  split_and!; [|done|done|done|simpl in Ho; congruence].
  unfold exit_status. by destruct (_ =? _).
Qed.
End whole.

Section pairs.
Context `{!Ucs, !Cuda, !Uct} (Lc Ls : uct_lib) (fuelc fuels : nat).

(** C25: Two programs, one started as a client and one as a server, on machines where
    no allocation fails and the calls that set up UCT and the socket succeed, that find
    the same kind of transport, are connected with each other, and get from the socket
    what the other one sends. The client's message is not empty and fits the transport; a
    short message has at least 8 bytes and is not in CUDA memory (short_message_overreads
    says what happens below 8); UCT refuses it for want of resources only a bounded
    number of times, and completes it without an error. Then both of main return. Each of
    them sends over the socket the addresses the other one is given, and nothing else. The
    client has the status [st] of its message: if that is UCS_OK, UCT took the test string,
    NUL included, and nothing else; the server, to which UCT delivers this string, returns
    UCS_OK, has shown its letters twice, from the callback and from main, and has given the
    descriptor back to UCT if it was UCT's. At the end no memory is allocated. *)
Theorem uct_pair argvc argvs ac as_ gc gs fdc fds n infoc infos ownc owns epc eps room len desc flags :
  sets_up Lc fuelc argvc ac gc fdc n infoc ownc owns epc →
  sets_up Ls fuels argvs as_ gs fds n infos owns ownc eps →
  ii_attr infoc = ii_attr infos →
  sends Lc room n ac gc len → (0 < len)%nat →
  server_name as_ = None → 0 < test_strlen as_ < 2 ^ 64 →
  delivers_one Ls (Loc 0 0) (UctData desc (string_bytes len)) flags n →
  ∃ st wc ws,
    uct_main Lc fuelc argvc uct_init_world = (Ok (exit_status st), wc) ∧
    uct_main Ls fuels argvs uct_init_world = (Ok UCS_OK, ws) ∧
    heap wc = ∅ ∧ heap ws = ∅ ∧
    sent (trace wc) = took st (Some <$> string_bytes len) [] ∧
    shown (trace ws) =
      [line "main" (func_am_type as_) (test_chars (len - 1)) (test_strlen as_);
       line "callback" (func_am_type as_) (test_chars (len - 1)) (Z.of_nat len)] ∧
    released (trace ws) = (if has_flag flags UCT_CB_PARAM_FLAG_DESC then [desc] else []) ∧
    outgoing fdc (trace wc) = Some <$> frames (ii_attr infos) ownc ∧
    outgoing fds (trace ws) = Some <$> frames (ii_attr infoc) owns.
Proof.
  intros Hc Hs Hattr Hsend Hn Hserver Hstr Hdel.
  destruct (wp_returns _ _ _ (client_main_run _ _ _ _ _ _ _ _ _ _ _ _ _ Hc Hsend))
    as (rc & wc & Hrc & st & -> & Hhc & Hsent & Hoc).
  destruct (wp_returns _ _ _ (server_main_run _ _ _ _ _ _ _ _ _ _ _ _ _ _ Hs Hn
    (sd_max _ _ _ _ _ _ Hsend) Hserver Hstr Hdel)) as (rs & ws & Hrs & -> & Hhs & Hsh & Hrel & Hos).
  exists st, wc, ws. rewrite string_bytes_ok by done. rewrite Hattr in Hoc |- *. rewrite Hos.
  by split_and!.
Qed.

End pairs.

(** ** A witness: both sides with [demo_uct], a zero-copy message *)

#[local] Existing Instance uct_cuda.
#[local] Existing Instance demo_flags.

Definition demo_addrs : addrs := Addrs [1; 2] [3] [4].
Definition demo_frames : list Z := frames (demo_attr 16) demo_addrs.
Definition demo_server : cmd_args_t :=
  CmdArgs None 13337 2 FUNC_AM_ZCOPY (Some "eth0") (Some "tcp") 16.
Definition demo_sender : uct_lib := demo_uct 16 1 1 demo_frames None.
Definition demo_receiver : uct_lib := demo_uct 16 1 1 demo_frames (Some (UctData 50 (string_bytes 16))).

(** UCT takes the message of this sender, after it refused it once. *)
Example sender_succeeds :
  let run := uct_main demo_sender 10 ["-d"; "eth0"; "-t"; "tcp"; "-z"; "-n"; "host"] uct_init_world in
  fst run = Ok 0 ∧ sent (trace (snd run)) = [Some <$> string_bytes 16].
Proof. vm_compute. split; reflexivity. Qed.

Lemma demo_cooperates fd arr : cooperates (demo_uct 16 1 1 demo_frames arr) fd demo_info demo_addrs demo_addrs 46.
Proof.
  split; try done.
  - by intros h [].
  - by eexists.
  - by eexists.
Qed.

Lemma demo_dials_client i arr s : dials (demo_uct 16 1 1 i arr) (Some s) 5.
Proof. split; try done. by intros h s' p b af; eexists _, _. Qed.
Lemma demo_dials_server i arr : dials (demo_uct 16 1 1 i arr) None 6.
Proof. split; try done. by intros h s' p b af; eexists _, _. Qed.

Lemma demo_sets_up argv args fd arr :
  parsed args uct_init_glob argv → dials (demo_uct 16 1 1 demo_frames arr) (server_name args) fd →
  dev_name args = Some "eth0" → tl_name args = Some "tcp" → func_am_type args = FUNC_AM_ZCOPY →
  test_strlen args = 16 →
  sets_up (demo_uct 16 1 1 demo_frames arr) 10 argv args uct_init_glob fd 1 demo_info demo_addrs demo_addrs 46.
Proof.
  intros Hp Hd Hdev Hname Hf Hlen. split; [done| |apply demo_cooperates|done|by split|lia|].
  - exists (demo_inventory 16), "eth0", "tcp". split; [apply demo_catalogued|]. by rewrite Hf.
  - by rewrite Hf, Hlen.
Qed.

Lemma uct_pair_witness : ∃ st wc ws,
  uct_main demo_sender 10 ["-d"; "eth0"; "-t"; "tcp"; "-z"; "-n"; "host"] uct_init_world
    = (Ok (exit_status st), wc) ∧
  uct_main demo_receiver 10 ["-d"; "eth0"; "-t"; "tcp"; "-z"] uct_init_world = (Ok UCS_OK, ws) ∧
  heap wc = ∅ ∧ heap ws = ∅ ∧ sent (trace wc) = took st (Some <$> string_bytes 16) [] ∧
  shown (trace ws) = [line "main" FUNC_AM_ZCOPY (test_chars 15) 16;
                      line "callback" FUNC_AM_ZCOPY (test_chars 15) 16] ∧
  released (trace ws) = [] ∧
  outgoing 5 (trace wc) = Some <$> demo_frames ∧ outgoing 6 (trace ws) = Some <$> demo_frames.
Proof.
  apply (uct_pair demo_sender demo_receiver 10 10 ["-d"; "eth0"; "-t"; "tcp"; "-z"; "-n"; "host"]
    ["-d"; "eth0"; "-t"; "tcp"; "-z"] (demo_client FUNC_AM_ZCOPY 16) demo_server uct_init_glob
    uct_init_glob 5 6 1 demo_info demo_info demo_addrs demo_addrs 46 46 64 16 50 0).
  - apply demo_sets_up; [by eexists|apply demo_dials_client|done..].
  - apply demo_sets_up; [by eexists|apply demo_dials_server|done..].
  - done.
  - split; [by apply demo_takes|done|by split|done|lia|done|done].
  - lia.
  - done.
  - done.
  - by split.
Defined.
