(* ===== verification/RmaApi.v ===== *)
(** * ucp_rma_client_server: external interface

    The C++ programs client.cpp and server.cpp with ucx_util.cpp: the functions
    they call (sockets, clock, UCX), the exceptions, the memory of std::vector and
    the scopes of objects with a destructor. *)

From S2P Require Import Prelude CRuntime CLib Ucx.
Open Scope Z_scope.

(** ** External functions *)

(** ucp_request_param_t as client.cpp fills it. *)
Record rma_param : Type := RmaParam { rma_attr_mask : Z; rma_memh : Z }.

Inductive rma_call : Type :=
  (* sockets; the port is in network byte order *)
  | socket
  | setsockopt_reuseaddr (fd : Z)
  | bind_any (fd port : Z)
  | listen_ (fd backlog : Z)
  | poll_in (fd : Z)
  | accept (fd : Z)
  | inet_pton (ip : string)
  | connect_ (fd addr port : Z)
  | send (fd : Z) (bs : list Z)
  | recv (fd len : Z)
  | close (fd : Z)
  (* UCX; 0 is a null handle *)
  | ucp_config_read
  | ucp_config_release (config : Z)
  | ucp_init (field_mask features config : Z)
  | ucp_cleanup (ctx : Z)
  | ucp_worker_create (ctx field_mask thread_mode : Z)
  | ucp_worker_destroy (worker : Z)
  | ucp_worker_query (worker field_mask : Z)
  | ucp_worker_release_address (worker addr : Z)
  | ucp_worker_progress (worker : Z)
  | ucp_mem_map (ctx field_mask : Z) (address : ptr) (length : Z)
  | ucp_mem_unmap (ctx memh : Z)
  | ucp_rkey_pack (ctx memh : Z)
  | ucp_rkey_buffer_release (buf : Z)
  | ucp_ep_create (worker field_mask : Z) (address : list Z)
  | ucp_ep_destroy (ep : Z)
  | ucp_ep_rkey_unpack (ep : Z) (buf : list Z)
  | ucp_rkey_destroy (rkey : Z)
  | ucp_put_nbx (ep : Z) (laddr : ptr) (payload : list mbyte) (raddr rkey : Z) (p : rma_param)
  | ucp_get_nbx (ep : Z) (laddr : ptr) (len raddr rkey : Z) (p : rma_param)
  | ucp_ep_flush_nbx (ep : Z) (p : rma_param)
  | ucp_request_check_status (req : Z)
  | ucp_request_free (req : Z)
  (* std::chrono::steady_clock::now(), in nanoseconds *)
  | steady_clock_now.

(** A result with what the call wrote through its out parameters: poll answers
    whether POLLIN is in revents, recv the bytes it stored, the query and the pack
    function a buffer of UCX and the bytes in it. *)
Definition rma_ret (c : rma_call) : Type :=
  match c with
  | poll_in _ => Z * bool
  | inet_pton _ => Z * Z
  | recv _ _ => Z * list Z
  | ucp_config_read | ucp_init _ _ _ | ucp_worker_create _ _ _ | ucp_mem_map _ _ _ _
  | ucp_ep_create _ _ _ | ucp_ep_rkey_unpack _ _ => Z * Z
  | ucp_worker_query _ _ | ucp_rkey_pack _ _ => Z * (Z * list Z)
  | ucp_config_release _ | ucp_cleanup _ | ucp_worker_destroy _
  | ucp_worker_release_address _ _ | ucp_rkey_buffer_release _ | ucp_ep_destroy _
  | ucp_rkey_destroy _ | ucp_request_free _ => unit
  | _ => Z
  end.

Canonical Structure rma_api : api := {|
  a_glob := unit;
  a_cell := Empty_set;
  a_call := rma_call;
  a_ret := rma_ret;
  a_cbk := Empty_set;
  a_cbr := Empty_set;
|}.

Abbreviation rma_world := (world rma_api).
Abbreviation rma_lib := (lib rma_api).
Abbreviation RM := (M (world rma_api)).

Definition rma_init_world : rma_world := World tt ∅ 0%N [].

(** The programs register no callback; inside a call the outside can only store
    into memory. *)
Definition no_callback (cb : Empty_set) : RM Empty_set := match cb with end.
Definition call (L : rma_lib) (c : rma_call) : RM (rma_ret c) := ext L no_callback c.

(** ** C++ *)

(** throw std::runtime_error(what); *)
Definition throw {A} (what : string) : RM A := stop (Throw what).

(** PTRDIFF_MAX, the largest size of a std::vector<char>. *)
Definition max_size : Z := 2 ^ 63 - 1.

Section cxx.
Context (L : rma_lib).

(** operator new for [n] bytes held by a container whose bytes are a value of the
    model. An empty container has no memory. *)
Definition reserve (n : Z) : RM unit :=
  if n =? 0 then mret tt
  else if max_size <? n then throw "std::length_error"
  else ok ← ask_alloc L n; if (ok : bool) then mret tt else throw "std::bad_alloc".

(** std::vector<char> v(n), whose data() is handed out: [n] zeros. *)
Definition new_vector (n : Z) : RM ptr :=
  reserve n;;
  if n =? 0 then mret Null else alloc (Bytes KHost (replicate (Z.to_nat n) (Some 0))).
Definition delete_vector (p : ptr) : RM unit := free p.

(** Access to the elements [i .. i+n-1] of a vector. *)
Definition read_vector (p : ptr) (i n : Z) : RM (list mbyte) :=
  if n =? 0 then mret [] else read_mem by_cpu (ptr_add p i) n.

(** std::string(s): up to 15 characters are stored in the object. *)
Definition new_string (s : string) : RM unit :=
  let n := Z.of_nat (String.length s) in
  when (15 <? n) (reserve (n + 1)).

(** A block at whose end [dtor] runs. An exception that no one catches ends the
    program; whether the stack is unwound before is up to the implementation
    ([unwinds]). exit() does not unwind. *)
Definition scope {X} (unwinds : bool) (dtor : RM unit) (body : RM X) : RM X := λ w,
  match body w with
  | (Ok a, w') => (dtor;; mret a) w'
  | (Halt (Throw e), w') =>
      if unwinds then (dtor;; stop (Throw e)) w' else (Halt (Throw e), w')
  | (Halt h, w') => (Halt h, w')
  end.
End cxx.

(** ** Rules *)

Section rules.
Context (L : rma_lib).
Implicit Types (E : halt → rma_world → Prop) (w : rma_world).

(** What [scope] needs of the way its body halts. *)
Definition unwound (unwinds : bool) (dtor : RM unit) E : halt → rma_world → Prop := λ h w,
  match h with
  | Throw e => if unwinds then wp E dtor (λ _ w', E (Throw e) w') w else E h w
  | _ => E h w
  end.

Lemma wp_scope {X} unwinds dtor (body : RM X) E Q w :
  wp (unwound unwinds dtor E) body (λ a w', wp E dtor (λ _ w'', Q a w'') w') w →
  wp E (scope unwinds dtor body) Q w.
Proof.
  unfold scope, wp at 1. intros H. unfold wp at 1.
  destruct (body w) as [[a|h] w'].
  - change (wp E (dtor;; mret a) Q w'). apply wp_bind. eapply wp_conseq; [exact H|].
    intros [] w'' HQ. by apply wp_ret.
  - destruct h; try exact H. simpl in H. destruct unwinds; [|exact H].
    change (wp E (dtor;; stop (Throw what)) Q w'). apply wp_bind.
    eapply wp_conseq; [exact H|]. intros [] w'' HE. by apply wp_stop.
Qed.

Lemma wp_reserve E n (Q : unit → rma_world → Prop) w :
  (n ≤ max_size → Q tt w) →
  (∀ ok, l_alloc L (trace w) n = ok → n ≤ max_size →
     if (ok : bool) then Q tt (push (EAlloc n ok) w)
     else E (Throw "std::bad_alloc") (push (EAlloc n ok) w)) →
  (max_size < n → E (Throw "std::length_error") w) →
  wp E (reserve L n) Q w.
Proof.
  intros HQ Ha Hl. unfold reserve. destruct (Z.eqb_spec n 0) as [Hz|].
  { apply wp_ret, HQ. unfold max_size. lia. }
  destruct (Z.ltb_spec max_size n); [apply wp_stop; by apply Hl|].
  apply wp_bind, wp_ask_alloc. specialize (Ha _ eq_refl).
  destruct (l_alloc L (trace w) n); [apply wp_ret|apply wp_stop]; by apply Ha.
Qed.
End rules.

