(* ===== verification/RmaTcp.v ===== *)
(** * ucx_util.cpp: TCP helpers and the handshake

    tcp::* and struct Handshake. [wire] and [parse] are the reference definitions
    of the wire format; send_fd and recv_fd are related to them in RmaWire.v. *)

From S2P Require Import Prelude CRuntime CLib Ucx RmaApi.
Open Scope Z_scope.

(** ** namespace tcp *)

(** die *)
Definition die {A} (msg : string) : RM A := throw msg.

Section tcp.
Context (L : rma_lib).

Definition tcp_listen (port : Z) : RM Z :=
  fd ← call L socket;
  if fd <? 0 then die "socket()" else
  call L (setsockopt_reuseaddr fd);;
  b ← call L (bind_any fd (htons port));
  if b <? 0 then die "bind()" else
  l ← call L (listen_ fd 16);
  if l <? 0 then die "listen()" else
  mret fd.

Definition accept_nonblock (lfd : Z) : RM Z :=
  '(pret, pollin) ← call L (poll_in lfd);
  if (pret <=? 0) || negb pollin then mret (-1) else call L (accept lfd).

Definition tcp_connect (ip : string) (port : Z) : RM Z :=
  fd ← call L socket;
  if fd <? 0 then die "socket()" else
  '(r, addr) ← call L (inet_pton ip);
  if negb (r =? 1) then die "inet_pton()" else
  c ← call L (connect_ fd addr (htons port));
  if c <? 0 then die "connect()" else
  mret fd.

(** while (off < len): every round moves off by at least one. *)
Definition send_all (fd : Z) (buf : list Z) : RM unit :=
  let len := Z.of_nat (length buf) in
  loop (S (length buf)) (λ off,
    if off <? len then
      n ← call L (send fd (drop (Z.to_nat off) buf));
      if n <=? 0 then die "send()" else mret (inl (u64 (off + n)))
    else mret (inr tt)) 0.

(** The bytes stored at buf + off are part of the answer of recv. *)
Definition recv_all (fd : Z) (buf : list Z) : RM (list Z) :=
  let len := Z.of_nat (length buf) in
  loop (S (length buf)) (λ '(off, buf),
    if off <? len then
      '(n, bs) ← call L (recv fd (len - off));
      if n <=? 0 then die "recv()"
      else
        buf' ← the "recv wrote outside the buffer" (splice off bs buf);
        mret (inl (u64 (off + n), buf'))
    else mret (inr buf)) (0, buf).
End tcp.

(** ** struct Handshake *)

Record Handshake : Type := MkHandshake {
  worker_addr : list Z;
  rkey : list Z;
  remote_addr : Z;   (* uint64_t *)
  size : Z;          (* uint64_t *)
}.

#[export] Instance Handshake_eq_dec : EqDecision Handshake.
Proof. solve_decision. Defined.

(** std::vector::size() *)
Definition vsize (v : list Z) : Z := Z.of_nat (length v).
Definition empty (v : list Z) : bool := vsize v =? 0.

Section handshake.
Context (L : rma_lib).

Definition send_fd (hs : Handshake) (fd : Z) : RM unit :=
  let wlen32 := u32 (vsize (worker_addr hs)) in
  let rlen32 := u32 (vsize (rkey hs)) in
  send_all L fd (le_bytes 4 wlen32);;
  when (negb (empty (worker_addr hs))) (send_all L fd (worker_addr hs));;
  send_all L fd (le_bytes 4 rlen32);;
  when (negb (empty (rkey hs))) (send_all L fd (rkey hs));;
  send_all L fd (le_bytes 8 (remote_addr hs));;
  send_all L fd (le_bytes 8 (size hs)).

(** An unsigned variable of [n] bytes that holds 0, received. *)
Definition recv_uint (fd : Z) (n : nat) : RM Z :=
  bs ← recv_all L fd (replicate n 0); mret (le_val bs).

(** v.resize(n) of an empty vector, and its bytes received. *)
Definition recv_bytes (fd n : Z) : RM (list Z) :=
  reserve L n;;
  let v := replicate (Z.to_nat n) 0 in
  if n =? 0 then mret v else recv_all L fd v.

Definition recv_fd (fd : Z) : RM Handshake :=
  wlen32 ← recv_uint fd 4;
  worker_addr ← recv_bytes fd wlen32;
  rlen32 ← recv_uint fd 4;
  rkey ← recv_bytes fd rlen32;
  remote_addr ← recv_uint fd 8;
  size ← recv_uint fd 8;
  mret (MkHandshake worker_addr rkey remote_addr size).
End handshake.

(** ** The wire format

    ucx_util.h: [u32 wlen][waddr][u32 rlen][rkey][u64 raddr][u64 size] *)

Definition wire (hs : Handshake) : list Z :=
  le_bytes 4 (u32 (vsize (worker_addr hs))) ++ worker_addr hs ++
  le_bytes 4 (u32 (vsize (rkey hs))) ++ rkey hs ++
  le_bytes 8 (remote_addr hs) ++ le_bytes 8 (size hs).

(** Parsers of a byte stream: a value and what is left of the input. *)
Definition parser (A : Type) : Type := list Z → option (A * list Z).

#[export] Instance parser_ret : MRet parser := λ A a bs, Some (a, bs).
#[export] Instance parser_bind : MBind parser := λ A B f p bs,
  match p bs with Some (a, rest) => f a rest | None => None end.

Definition take_bytes (n : Z) : parser (list Z) := λ bs,
  if n <=? Z.of_nat (length bs)
  then Some (take (Z.to_nat n) bs, drop (Z.to_nat n) bs) else None.

Definition parse_uint (n : Z) : parser Z := bs ← take_bytes n; mret (le_val bs).

Definition parse : parser Handshake :=
  wlen ← parse_uint 4;
  worker_addr ← take_bytes wlen;
  rlen ← parse_uint 4;
  rkey ← take_bytes rlen;
  remote_addr ← parse_uint 8;
  size ← parse_uint 8;
  mret (MkHandshake worker_addr rkey remote_addr size).
