(* ===== verification/RmaUcx.v ===== *)
(** * ucx_util.cpp: UcxEnv, UcxMem and UcxEndpoint

    The objects that own UCX handles: a Record of the members, a constructor that
    answers it or throws, a destructor, the move operations and the methods. *)

From S2P Require Import Prelude CRuntime CLib Ucx RmaApi RmaTcp.
Open Scope Z_scope.

Section ucx.
Context `{!Ucs, !Ucp} (L : rma_lib).

Definition failed (st : Z) : bool := negb (st =? UCS_OK).

(** ** UcxEnv *)

Record UcxEnv : Type := MkUcxEnv { env_ctx_ : Z; env_worker_ : Z }.

Definition new_UcxEnv : RM UcxEnv :=
  '(st, config) ← call L ucp_config_read;
  if failed st then throw "ucp_config_read failed" else
  '(st, ctx_) ← call L (ucp_init UCP_PARAM_FIELD_FEATURES
                          (Z.lor UCP_FEATURE_RMA UCP_FEATURE_AM) config);
  if failed st then
    call L (ucp_config_release config);;
    throw "ucp_init failed"
  else
  call L (ucp_config_release config);;
  '(st, worker_) ← call L (ucp_worker_create ctx_ UCP_WORKER_PARAM_FIELD_THREAD_MODE
                             UCS_THREAD_MODE_MULTI);
  if failed st then
    call L (ucp_cleanup ctx_);;
    throw "ucp_worker_create failed"
  else
  mret (MkUcxEnv ctx_ worker_).

Definition delete_UcxEnv (env : UcxEnv) : RM unit :=
  when (negb (env_worker_ env =? 0)) (call L (ucp_worker_destroy (env_worker_ env)));;
  when (negb (env_ctx_ env =? 0)) (call L (ucp_cleanup (env_ctx_ env))).

(** The copy of the address is made before UCX's buffer is released. *)
Definition worker_address_bytes (env : UcxEnv) : RM (list Z) :=
  '(st, (addr, bytes)) ← call L (ucp_worker_query (env_worker_ env) UCP_WORKER_ATTR_FIELD_ADDRESS);
  if failed st then throw "ucp_worker_query failed" else
  reserve L (vsize bytes);;
  call L (ucp_worker_release_address (env_worker_ env) addr);;
  mret bytes.

Definition progress (env : UcxEnv) : RM unit :=
  call L (ucp_worker_progress (env_worker_ env));; mret tt.

Definition wait (fuel : nat) (env : UcxEnv) (req : Z) : RM Z :=
  if req =? 0 then mret UCS_OK
  else
    st ← do_while fuel
      (call L (ucp_worker_progress (env_worker_ env));;
       call L (ucp_request_check_status req))
      (λ st, st =? UCS_INPROGRESS);
    call L (ucp_request_free req);;
    mret st.

(** ** UcxMem *)

Record UcxMem : Type := MkUcxMem { base_ : ptr; len_ : Z; memh_ : Z; mem_ctx_ : Z }.

(** UcxMem() = default: the initialisers of the members. *)
Definition default_UcxMem : UcxMem := MkUcxMem Null 0 0 0.

Definition new_UcxMem (ctx : Z) (base : ptr) (len : Z) : RM UcxMem :=
  '(st, memh) ← call L (ucp_mem_map ctx
      (Z.lor UCP_MEM_MAP_PARAM_FIELD_ADDRESS UCP_MEM_MAP_PARAM_FIELD_LENGTH) base len);
  if failed st then throw "ucp_mem_map failed" else
  mret (MkUcxMem base len memh ctx).

Definition delete_UcxMem (m : UcxMem) : RM unit :=
  when (negb (memh_ m =? 0)) (call L (ucp_mem_unmap (mem_ctx_ m) (memh_ m));; mret tt).

(** this->operator=(std::move(other)): the two objects afterwards; [same]: this ==
    &other. *)
Definition assign_UcxMem (same : bool) (this other : UcxMem) : UcxMem * UcxMem :=
  if same then (this, other)
  else (MkUcxMem (base_ other) (len_ other) (memh_ other) (mem_ctx_ other),
        MkUcxMem Null 0 0 0).

(** UcxMem(std::move(other)) *)
Definition move_UcxMem (other : UcxMem) : UcxMem * UcxMem :=
  assign_UcxMem false default_UcxMem other.

Definition mem_valid (m : UcxMem) : bool := negb (memh_ m =? 0).

Definition pack_rkey (m : UcxMem) (ctx : Z) : RM (list Z) :=
  '(st, (rkey_buf, bytes)) ← call L (ucp_rkey_pack ctx (memh_ m));
  if failed st then throw "ucp_rkey_pack failed" else
  reserve L (vsize bytes);;
  call L (ucp_rkey_buffer_release rkey_buf);;
  mret bytes.

(** ** UcxEndpoint *)

Record UcxEndpoint : Type := MkUcxEndpoint { ep_ : Z }.

Definition default_UcxEndpoint : UcxEndpoint := MkUcxEndpoint 0.

Definition new_UcxEndpoint (worker : Z) (remote_addr_bytes : list Z) : RM UcxEndpoint :=
  '(st, ep) ← call L (ucp_ep_create worker UCP_EP_PARAM_FIELD_REMOTE_ADDRESS remote_addr_bytes);
  if failed st then throw "ucp_ep_create failed" else
  mret (MkUcxEndpoint ep).

Definition delete_UcxEndpoint (e : UcxEndpoint) : RM unit :=
  when (negb (ep_ e =? 0)) (call L (ucp_ep_destroy (ep_ e))).

Definition assign_UcxEndpoint (same : bool) (this other : UcxEndpoint)
  : UcxEndpoint * UcxEndpoint :=
  if same then (this, other) else (MkUcxEndpoint (ep_ other), MkUcxEndpoint 0).

Definition move_UcxEndpoint (other : UcxEndpoint) : UcxEndpoint * UcxEndpoint :=
  assign_UcxEndpoint false default_UcxEndpoint other.

Definition ep_valid (e : UcxEndpoint) : bool := negb (ep_ e =? 0).

Definition import_rkey (e : UcxEndpoint) (rkey_bytes : list Z) : RM Z :=
  '(st, rkey) ← call L (ucp_ep_rkey_unpack (ep_ e) rkey_bytes);
  if failed st then throw "ucp_ep_rkey_unpack failed" else
  mret rkey.

Definition destroy_rkey (rkey : Z) : RM unit :=
  when (negb (rkey =? 0)) (call L (ucp_rkey_destroy rkey)).

(** The library reads the local buffer of a put. *)
Definition put_nbx (e : UcxEndpoint) (laddr : ptr) (len raddr rkey : Z) (param : rma_param) : RM Z :=
  payload ← read_vector laddr 0 len;
  call L (ucp_put_nbx (ep_ e) laddr payload raddr rkey param).

Definition get_nbx (e : UcxEndpoint) (laddr : ptr) (len raddr rkey : Z) (param : rma_param) : RM Z :=
  call L (ucp_get_nbx (ep_ e) laddr len raddr rkey param).

Definition flush_nbx (e : UcxEndpoint) (param : rma_param) : RM Z :=
  call L (ucp_ep_flush_nbx (ep_ e) param).
End ucx.
