(* ===== verification/RmaMain.v ===== *)
(** * ucp_rma_client_server: client.cpp and server.cpp

    The two main functions, in the order of the source; the objects with a
    destructor are scopes. [unwinds] is the choice of the implementation that
    [scope] describes, [fuel] bounds the waiting loops and the loop of the
    server. *)

From S2P Require Import Prelude CRuntime CLib Ucx RmaApi RmaTcp RmaUcx.
Open Scope Z_scope.

(** argv[i]; past the end it is a null pointer, which printf is never given a
    chance to see when argc is at least 1. *)
Definition argv_ (argv : list string) (i : nat) : string := default "" (argv !! i).

(** std::min<size_t>(16, v.size()) *)
Definition head_size (n : Z) : Z := Z.min 16 n.

Section rma.
Context `{!Ucs, !Ucp} (L : rma_lib) (unwinds : bool) (fuel : nat).

(** for (i = 0; i < n; ++i) v[i] = static_cast<char>(f(i)); *)
Definition fill (v : ptr) (n : Z) (f : Z → Z) : RM unit :=
  for_up 0 (Z.to_nat n) (λ i,
    write_mem by_cpu (ptr_add v (Z.of_nat i)) [Some (f (Z.of_nat i))]).

(** for (i = 0; i < n; ++i) std::printf("%02x ", (unsigned char)v[i]); *)
Definition print_head (v : ptr) (n : Z) : RM unit :=
  for_up 0 (Z.to_nat n) (λ i,
    bs ← read_vector v (Z.of_nat i) 1;
    printf "%02x " [ABytes bs]).

(** ** client.cpp *)

Definition put_char_at (i : Z) : Z := Z.land (u64 (i * 3)) 255.

(** die *)
Definition client_die {A} (msg : string) : RM A :=
  fprintf Stderr "%s\n" [AStr msg];; stop (Exit 1).

(** A status pointer that is an error: the rkey goes, an exception comes. *)
Definition check_ptr (rk req : Z) (msg : string) : RM unit :=
  when (UCS_PTR_IS_ERR req) (destroy_rkey L rk;; throw msg).

Definition finish (env : UcxEnv) (req : Z) (msg : string) : RM unit :=
  st ← wait L fuel env req;
  when (failed st) (client_die msg).

Definition rma_op (do_put : bool) (env : UcxEnv) (ep : UcxEndpoint) (lbuf : ptr) (n : Z)
    (raddr rk : Z) (param : rma_param) : RM unit :=
  if do_put then
    req ← put_nbx L ep lbuf n raddr rk param;
    check_ptr rk req "ucp_put_nbx failed";;
    finish env req "put completion error";;
    req ← flush_nbx L ep param;
    check_ptr rk req "flush failed";;
    finish env req "flush completion error"
  else
    req ← get_nbx L ep lbuf n raddr rk param;
    check_ptr rk req "ucp_get_nbx failed";;
    finish env req "get completion error".

(** From the construction of lmem to the return statement. *)
Definition with_lmem (do_put : bool) (env : UcxEnv) (ep : UcxEndpoint) (lbuf : ptr)
    (n raddr rk : Z) : RM Z :=
  lmem ← new_UcxMem L (env_ctx_ env) lbuf n;
  scope unwinds (delete_UcxMem L lmem) (
    let param := RmaParam UCP_OP_ATTR_FIELD_MEMH (memh_ lmem) in
    rma_op do_put env ep lbuf n raddr rk param;;
    printf "[client] %s done. First 16 bytes: " [AStr (if do_put then "PUT" else "GET")];;
    print_head lbuf (head_size n);;
    printf "\n" [];;
    destroy_rkey L rk;;
    mret 0).

(** From the construction of lbuf. *)
Definition with_lbuf (do_put : bool) (env : UcxEnv) (ep : UcxEndpoint)
    (n raddr rk : Z) : RM Z :=
  lbuf ← new_vector L n;
  scope unwinds (delete_vector lbuf) (
    when do_put (fill lbuf n put_char_at);;
    with_lmem do_put env ep lbuf n raddr rk).

Definition client_main (argv : list string) : RM Z :=
  if (length argv <? 4)%nat then
    fprintf Stderr "Usage: %s <server_ip> <port> <put|get>\n" [AStr (argv_ argv 0)];;
    mret 1
  else
    let ip := argv_ argv 1 in
    let port := u16 (strtoul (argv_ argv 2)) in
    let mode := argv_ argv 3 in
    new_string L mode;;
    let do_put := bool_decide (mode = "put"%string) in
    let do_get := bool_decide (mode = "get"%string) in
    when (negb do_put && negb do_get) (client_die "mode must be put or get");;
    fd ← tcp_connect L ip port;
    hs ← recv_fd L fd;
    call L (close fd);;
    let n := u64 (size hs) in
    env ← new_UcxEnv L;
    scope unwinds (delete_UcxEnv L env) (
      ep ← new_UcxEndpoint L (env_worker_ env) (worker_addr hs);
      scope unwinds (delete_UcxEndpoint L ep) (
        rk ← import_rkey L ep (rkey hs);
        with_lbuf do_put env ep n (remote_addr hs) rk)).

(** ** server.cpp *)

Definition server_char_at (i : Z) : Z := Z.land i 255.

(** The address of the buffer as the integer that is sent. *)
Context (address_of : ptr → Z).

(** A connection that is waiting is given the handshake. *)
Definition serve_one (lfd : Z) (hs : Handshake) (buf : ptr) (n : Z) : RM unit :=
  cfd ← accept_nonblock L lfd;
  when (0 <=? cfd) (
    reserve L (vsize (worker_addr hs));;
    reserve L (vsize (rkey hs));;
    send_fd L hs cfd;;
    call L (close cfd);;
    printf "[server] Handshake sent. RMA buffer at %p size=%zu\n" [APtr buf; AZ n]).

(** The head of the buffer, when more than a second has passed: the time of the
    last print afterwards. *)
Definition print_periodically (buf : ptr) (n last_print : Z) : RM Z :=
  now ← call L steady_clock_now;
  if 1000000000 <? now - last_print then
    printf "[server] head: " [];;
    print_head buf (head_size n);;
    printf "\n" [];;
    mret now
  else mret last_print.

(** while (true) *)
Definition event_loop (env : UcxEnv) (lfd : Z) (hs : Handshake) (buf : ptr) (n last_print : Z)
  : RM Z :=
  loop fuel (λ last_print,
    progress L env;;
    serve_one lfd hs buf n;;
    last_print ← print_periodically buf n last_print;
    mret (inl last_print)) last_print.

(** From the construction of env. *)
Definition with_env (port : Z) (buf : ptr) (n : Z) : RM Z :=
  env ← new_UcxEnv L;
  scope unwinds (delete_UcxEnv L env) (
    waddr_copy ← worker_address_bytes L env;
    mem ← new_UcxMem L (env_ctx_ env) buf n;
    scope unwinds (delete_UcxMem L mem) (
      rkey_copy ← pack_rkey L mem (env_ctx_ env);
      lfd ← tcp_listen L port;
      printf "[server] Listening on port %u\n" [AZ port];;
      last_print ← call L steady_clock_now;
      event_loop env lfd (MkHandshake waddr_copy rkey_copy (u64 (address_of buf)) (u64 n))
        buf n last_print)).

Definition server_main (argv : list string) : RM Z :=
  if (length argv <? 3)%nat then
    fprintf Stderr "Usage: %s <port> <size_bytes>\n" [AStr (argv_ argv 0)];;
    mret 1
  else
    let port := u16 (strtoul (argv_ argv 1)) in
    let n := strtoul (argv_ argv 2) in
    buf ← new_vector L n;
    scope unwinds (delete_vector buf) (
      fill buf n server_char_at;;
      with_env port buf n).
End rma.
