(* ===== verification/RmaSpec.v ===== *)
(** * ucp_rma_client_server: specifications over the history

    What a history says: the bytes that went through a socket, the memory a remote
    peer or a get may write. The hypotheses on the outside the programs rely on,
    as predicates on [lib], and the rules for one external call under them. *)

From S2P Require Import Prelude CRuntime CLib Ucx RmaApi.
Open Scope Z_scope.

(** ** Byte streams *)

(** The bytes accepted by send, and those answered by recv, on [fd] since it was
    opened. *)
Fixpoint sent (fd : Z) (h : history rma_api) : list Z :=
  match h with
  | [] => []
  | ECall c r :: h' =>
      match c return rma_ret c → list Z with
      | send fd' bs => λ n,
          if decide (fd' = fd) then sent fd h' ++ take (Z.to_nat n) bs else sent fd h'
      | socket | accept _ => λ fd', if decide (fd' = fd) then [] else sent fd h'
      | _ => λ _, sent fd h'
      end r
  | _ :: h' => sent fd h'
  end.

Fixpoint received (fd : Z) (h : history rma_api) : list Z :=
  match h with
  | [] => []
  | ECall c r :: h' =>
      match c return rma_ret c → list Z with
      | recv fd' _ => λ r,
          if decide (fd' = fd) then received fd h' ++ take (Z.to_nat r.1) r.2
          else received fd h'
      | socket | accept _ => λ fd', if decide (fd' = fd) then [] else received fd h'
      | _ => λ _, received fd h'
      end r
  | _ :: h' => received fd h'
  end.

(** send takes at most what it is given. *)
Definition send_bounded (L : rma_lib) : Prop :=
  ∀ h fd bs, l_ret L h (send fd bs) ≤ Z.of_nat (length bs).

(** The part of [input] that [fd] has not delivered yet. *)
Definition unread (fd : Z) (input : list Z) (h : history rma_api) : list Z :=
  drop (length (received fd h)) input.

(** recv on [fd] answers the bytes of [input] in their order, in pieces of any size,
    and 0 at the end. *)
Definition delivers (L : rma_lib) (fd : Z) (input : list Z) : Prop :=
  ∀ h n, 0 < n → ∃ k : nat,
    Z.of_nat k ≤ n ∧ (k ≤ length (unread fd input h))%nat ∧
    (unread fd input h ≠ [] → (0 < k)%nat) ∧
    l_ret L h (recv fd n) = (Z.of_nat k, take k (unread fd input h)).

(** ** Memory that the outside may write *)

Record region : Type := Region { rg_memh : Z; rg_ptr : ptr; rg_len : Z }.

#[export] Instance region_eq_dec : EqDecision region.
Proof. solve_decision. Defined.

Section exposed.
Context `{!Ucs}.

(** Registered memory. *)
Fixpoint mapped (h : history rma_api) : list region :=
  match h with
  | [] => []
  | ECall c r :: h' =>
      match c return rma_ret c → list region with
      | ucp_mem_map _ _ p len => λ r,
          if r.1 =? UCS_OK then Region r.2 p len :: mapped h' else mapped h'
      | ucp_mem_unmap _ m => λ _, filter (λ g, rg_memh g ≠ m) (mapped h')
      | _ => λ _, mapped h'
      end r
  | _ :: h' => mapped h'
  end.

(** Registered memory of which a key was packed, and targets of a get, until the
    registration ends. *)
Fixpoint exposed (h : history rma_api) : list region :=
  match h with
  | [] => []
  | ECall c r :: h' =>
      match c return rma_ret c → list region with
      | ucp_rkey_pack _ m => λ r,
          if r.1 =? UCS_OK then filter (λ g, rg_memh g = m) (mapped h') ++ exposed h'
          else exposed h'
      | ucp_get_nbx _ p len _ _ param => λ _, Region (rma_memh param) p len :: exposed h'
      | ucp_mem_unmap _ m => λ _, filter (λ g, rg_memh g ≠ m) (exposed h')
      | _ => λ _, exposed h'
      end r
  | _ :: h' => exposed h'
  end.

(** What may be written during the call [c]. *)
Definition allowed (h : history rma_api) (c : rma_call) : list region :=
  match c with
  | ucp_get_nbx _ p len _ _ param => Region (rma_memh param) p len :: exposed h
  | _ => exposed h
  end.

Definition polite (L : rma_lib) : Prop := ∀ h c p bs, Store p bs ∈ l_acts L h c →
  ∃ g b o, g ∈ allowed h c ∧ rg_ptr g = Loc b 0 ∧ p = Loc b o ∧
    0 ≤ o ∧ o + Z.of_nat (length bs) ≤ rg_len g.

(** ** Worlds *)

Implicit Types (w : rma_world).

(** Which objects there are, and how long they are. *)
Definition shape w (b : N) : option (mkind * nat) :=
  match heap w !! b with
  | Some (Bytes k d) => Some (k, length d)
  | _ => None
  end.

Lemma shape_lookup w b k d : heap w !! b = Some (Bytes k d) → shape w b = Some (k, length d).
Proof. unfold shape. by intros ->. Qed.

Definition live w (g : region) : Prop :=
  ∀ b o, rg_ptr g = Loc b o →
    o = 0 ∧ ∃ n, shape w b = Some (KHost, n) ∧ rg_len g = Z.of_nat n.

(** [w'] comes after [w] by events in [P]; objects may have other contents. *)
Definition after (P : event rma_api → Prop) w w' : Prop :=
  next w' = next w ∧ (∀ b, shape w' b = shape w b) ∧
  ∃ evs, trace w' = evs ++ trace w ∧ Forall P evs.

Definition is_store (e : event rma_api) : Prop :=
  match e with EStore _ _ => True | _ => False end.

#[export] Instance after_preorder P : PreOrder (after P).
Proof.
  split.
  - intros w. split; [done|]. split; [done|]. by exists [].
  - intros w1 w2 w3 (Hn & Hs & e1 & He1 & HP1) (Hn' & Hs' & e2 & He2 & HP2).
    split; [congruence|]. split; [intros b; by rewrite Hs'|].
    exists (e2 ++ e1). rewrite He2, He1, app_assoc. split; [done|]. by apply Forall_app.
Qed.

Lemma after_mono (P P' : event rma_api → Prop) w w' :
  (∀ e, P e → P' e) → after P w w' → after P' w w'.
Proof.
  intros Hm (? & ? & evs & ? & Hf). repeat (split; [done|]). exists evs. split; [done|].
  by eapply Forall_impl.
Qed.

Lemma after_push P e w w' : P e → after P w w' → after P w (push e w').
Proof.
  intros He (? & ? & evs & Ht & Hf). repeat (split; [done|]). exists (e :: evs).
  split; [simpl; by rewrite Ht|by constructor].
Qed.

(** What a history says is not changed by events it ignores. *)
Lemma after_ignored {X} (f : history rma_api → X) P w w' :
  (∀ e h, P e → f (e :: h) = f h) → after P w w' → f (trace w') = f (trace w).
Proof.
  intros Hf (_ & _ & evs & -> & HP). induction HP as [|e evs He _ IH]; [done|].
  simpl. by rewrite Hf.
Qed.

Lemma after_live P w w' g : after P w w' → live w g → live w' g.
Proof.
  intros (_ & Hs & _) Hl b o Hp. destruct (Hl b o Hp) as (? & n & Hb & ?).
  split; [done|]. exists n. by rewrite Hs.
Qed.

Lemma after_wf P w w' : after P w w' → wf_mem w → wf_mem w'.
Proof.
  intros (Hn & Hs & _) Hwf b Hb. rewrite Hn in Hb. specialize (Hwf b Hb).
  specialize (Hs b). unfold shape in Hs. rewrite Hwf in Hs.
  destruct (heap w' !! b) as [[]|]; [done| |done]. by destruct c.
Qed.
End exposed.

(** ** One external call *)

Section calls.
Context `{!Ucs} (L : rma_lib).
Implicit Types (E : halt → rma_world → Prop) (w : rma_world).

Lemma remote_store_ok E g b o bs Q w :
  live w g → rg_ptr g = Loc b 0 → 0 ≤ o → o + Z.of_nat (length bs) ≤ rg_len g →
  (∀ w', after is_store w w' → Q tt w') →
  wp E (run_act no_callback (Store (Loc b o) bs)) Q w.
Proof.
  intros Hl Hp Ho Hlen HQ. destruct (Hl b 0 Hp) as (_ & n & Hs & Hn).
  unfold shape in Hs. destruct (heap w !! b) as [[k d|]|] eqn:Hb; simplify_eq.
  cbn [run_act]. apply wp_bind. eapply wp_write_mem; [done|done| |].
  { apply splice_some; [done|]. rewrite length_fmap. lia. }
  apply wp_emit, HQ. apply (after_push _ _ w); [done|]. split; [done|].
  split; [|by exists []]. intros b'. destruct (decide (b' = b)) as [Heq|Hne].
  - subst b'. rewrite (shape_lookup w b _ _ Hb).
    erewrite shape_lookup by apply lookup_insert_eq.
    rewrite !length_app, length_take, length_drop, length_fmap. f_equal. f_equal. lia.
  - unfold shape. simpl. by rewrite lookup_insert_ne.
Qed.

Lemma wp_call E c (Q : rma_ret c → rma_world → Prop) w :
  polite L → Forall (live w) (allowed (trace w) c) →
  (∀ w' r, after is_store w w' → l_ret L (trace w') c = r → Q r (push (ECall c r) w')) →
  wp E (call L c) Q w.
Proof.
  intros Hp Hl HQ. apply wp_ext.
  apply wp_run_acts with (P := λ xs w',
    after is_store w w' ∧ Forall (λ x, x ∈ l_acts L (trace w) c) xs).
  - split; [reflexivity|]. apply List.Forall_forall. intros x Hx. by apply list_elem_of_In.
  - intros x xs w' [Ha Hx]. apply Forall_cons_1 in Hx as [Hx Hxs].
    destruct x as [[]|p bs]. destruct (Hp _ _ _ _ Hx) as (g & b & o & Hg & Hgp & -> & Ho & Hlen).
    rewrite List.Forall_forall in Hl. eapply remote_store_ok; [|done..|].
    + eapply after_live; [done|]. apply Hl. by apply list_elem_of_In.
    + intros w'' Ha'. split; [by etrans|done].
  - intros w' [Ha _]. by apply HQ.
Qed.

(** While nothing is exposed the outside does not touch memory. *)
Lemma wp_call_quiet E c (Q : rma_ret c → rma_world → Prop) w :
  polite L → allowed (trace w) c = [] →
  (∀ r, l_ret L (trace w) c = r → Q r (push (ECall c r) w)) →
  wp E (call L c) Q w.
Proof.
  intros Hp Hn HQ. apply wp_ext. destruct (l_acts L (trace w) c) as [|[[]|p bs] xs] eqn:Hx.
  - by apply HQ.
  - destruct (Hp (trace w) c p bs) as (g & _ & _ & Hg & _); [rewrite Hx; by left|].
    rewrite Hn in Hg. by apply elem_of_nil in Hg.
Qed.
End calls.
