(* ===== verification/RmaWire.v ===== *)
(** * ucp_rma_client_server: the handshake against its wire format

    send_all writes its bytes whatever pieces send accepts; recv_fd is a
    refinement of [parse]: [refines] relates a computation that reads a socket to a
    parser of the byte stream and is closed under sequencing. *)

From S2P Require Import Prelude CRuntime CLib Ucx RmaApi RmaTcp RmaSpec.
Open Scope Z_scope.

(** ** The format *)

Lemma take_bytes_app n bs rest :
  n = Z.of_nat (length bs) → take_bytes n (bs ++ rest) = Some (bs, rest).
Proof.
  intros ->. unfold take_bytes. rewrite length_app, (proj2 (Z.leb_le _ _)) by lia.
  by rewrite Nat2Z.id, take_app_length, drop_app_length.
Qed.

Lemma parse_uint_app n z rest :
  0 ≤ z < 256 ^ Z.of_nat n → parse_uint (Z.of_nat n) (le_bytes n z ++ rest) = Some (z, rest).
Proof.
  intros Hz. unfold parse_uint, mbind, parser_bind.
  rewrite take_bytes_app by by rewrite le_bytes_length.
  cbv beta iota. rewrite le_val_bytes, Z.mod_small by done. done.
Qed.

(** The types of the members, and the limit of a vector. *)
Record wf_handshake (hs : Handshake) : Prop := {
  wf_worker_addr : Forall is_byte (worker_addr hs) ∧ vsize (worker_addr hs) ≤ max_size;
  wf_rkey : Forall is_byte (rkey hs) ∧ vsize (rkey hs) ≤ max_size;
  wf_remote_addr : 0 ≤ remote_addr hs < 2 ^ 64;
  wf_size : 0 ≤ size hs < 2 ^ 64;
}.

Lemma parse_wire hs rest :
  wf_handshake hs → vsize (worker_addr hs) < 2 ^ 32 → vsize (rkey hs) < 2 ^ 32 →
  parse (wire hs ++ rest) = Some (hs, rest).
Proof.
  intros [[_ _] [_ _] Hr Hs] Hw Hk. unfold parse, wire. rewrite <-!app_assoc.
  assert (0 ≤ vsize (worker_addr hs) ∧ 0 ≤ vsize (rkey hs)) as [? ?].
  { unfold vsize. lia. }
  rewrite !u32_small by lia.
  unfold mbind, parser_bind.
  rewrite (parse_uint_app 4) by (split; [lia|exact Hw]).
  rewrite take_bytes_app by done.
  rewrite (parse_uint_app 4) by (split; [lia|exact Hk]).
  rewrite take_bytes_app by done.
  rewrite (parse_uint_app 8) by exact Hr.
  rewrite (parse_uint_app 8) by exact Hs.
  by destruct hs.
Qed.

Lemma take_bytes_inv n bs v rest :
  take_bytes n bs = Some (v, rest) →
  n ≤ Z.of_nat (length bs) ∧ v = take (Z.to_nat n) bs ∧ rest = drop (Z.to_nat n) bs.
Proof.
  unfold take_bytes. destruct (Z.leb_spec n (Z.of_nat (length bs))); [|done].
  intros. by simplify_eq.
Qed.

Lemma take_bytes_forall (P : Z → Prop) n bs v rest :
  Forall P bs → take_bytes n bs = Some (v, rest) → Forall P v ∧ Forall P rest.
Proof.
  intros Hbs (_ & -> & ->)%take_bytes_inv. split; [by apply Forall_take|by apply Forall_drop].
Qed.

(** A parsed integer has the range of its type. *)
Lemma parse_uint_inv n bs z rest :
  Forall is_byte bs → 0 ≤ n → parse_uint n bs = Some (z, rest) →
  0 ≤ z < 256 ^ n ∧ Forall is_byte rest.
Proof.
  intros Hbs Hn. unfold parse_uint, mbind, parser_bind.
  destruct (take_bytes n bs) as [[v r]|] eqn:Hv; [|done]. intros [= <- <-].
  destruct (take_bytes_forall _ _ _ _ _ Hbs Hv) as [Hb Hr]. split; [|done].
  pose proof (le_val_range v Hb) as Hle. destruct (take_bytes_inv _ _ _ _ Hv) as (? & Hv' & _).
  assert (Z.of_nat (length v) = n) as Hlen by (rewrite Hv', length_take; lia).
  by rewrite Hlen in Hle.
Qed.

Lemma parse_sizes bs hs rest :
  Forall is_byte bs → parse bs = Some (hs, rest) →
  vsize (worker_addr hs) < 2 ^ 32 ∧ vsize (rkey hs) < 2 ^ 32.
Proof.
  intros Hbs. unfold parse, mbind, parser_bind.
  destruct (parse_uint 4 bs) as [[wl b1]|] eqn:E1; [|done].
  destruct (parse_uint_inv 4 _ _ _ Hbs ltac:(lia) E1) as [Hwl Hb1].
  destruct (take_bytes wl b1) as [[wa b2]|] eqn:E2; [|done].
  destruct (take_bytes_forall _ _ _ _ _ Hb1 E2) as [_ Hb2].
  destruct (parse_uint 4 b2) as [[rl b3]|] eqn:E3; [|done].
  destruct (parse_uint_inv 4 _ _ _ Hb2 ltac:(lia) E3) as [Hrl Hb3].
  destruct (take_bytes rl b3) as [[rk b4]|] eqn:E4; [|done].
  destruct (parse_uint 8 b4) as [[ra b5]|]; [|done].
  destruct (parse_uint 8 b5) as [[sz b6]|]; [|done]. intros [= <- _]. unfold vsize. simpl.
  apply take_bytes_inv in E2 as (_ & -> & _). apply take_bytes_inv in E4 as (_ & -> & _).
  rewrite !length_take. lia.
Qed.

Lemma wire_bytes hs : wf_handshake hs → Forall is_byte (wire hs).
Proof.
  intros [[? _] [? _] _ _]. unfold wire.
  repeat (apply Forall_app; split); first [done|apply le_bytes_bytes].
Qed.

(** ** Sending *)

Section wire.
Context `{!Ucs} (L : rma_lib).
Implicit Types (E : halt → rma_world → Prop) (w : rma_world).

(** Between two points of a run: sends on [fd], and what the outside does. *)
Definition sends (fd : Z) (e : event rma_api) : Prop :=
  match e with
  | EStore _ _ => True
  | ECall c _ => match c with send fd' _ => fd' = fd | _ => False end
  | _ => False
  end.

(** Nothing but the outside stores; what is exposed is there. *)
Definition exposed_live w : Prop := Forall (live w) (exposed (trace w)).

Lemma is_store_sends fd e : is_store e → sends fd e.
Proof. by destruct e. Qed.

Lemma sent_store e h fd : is_store e → sent fd (e :: h) = sent fd h.
Proof. by destruct e. Qed.
Lemma received_store e h fd : is_store e → received fd (e :: h) = received fd h.
Proof. by destruct e. Qed.
Lemma exposed_store e h : is_store e → exposed (e :: h) = exposed h.
Proof. by destruct e. Qed.
Lemma exposed_sends e h fd : sends fd e → exposed (e :: h) = exposed h.
Proof. destruct e as [[]| | | |]; done. Qed.

Lemma after_exposed_live P w w' :
  (∀ e h, P e → exposed (e :: h) = exposed h) →
  after P w w' → exposed_live w → exposed_live w'.
Proof.
  intros HP Ha. unfold exposed_live. rewrite (after_ignored exposed P w w') by done.
  intros Hl. eapply Forall_impl; [|exact Hl]. intros g. by apply (after_live P).
Qed.

Lemma sends_exposed_live fd w w' :
  after (sends fd) w w' → exposed_live w → exposed_live w'.
Proof. apply after_exposed_live. intros e h. apply exposed_sends. Qed.

Lemma take_drop_take {X} (i j : nat) (l : list X) :
  take i l ++ take j (drop i l) = take (i + j) l.
Proof. by rewrite take_take_drop. Qed.

(** send takes nothing of what it is given. *)
Definition refused (fd : Z) : Prop := ∃ h bs, bs ≠ [] ∧ l_ret L h (send fd bs) ≤ 0.

(** All the bytes, or a proper prefix and an exception. *)
Lemma send_all_ok E fd buf (Q : unit → rma_world → Prop) w :
  polite L → send_bounded L → exposed_live w → Z.of_nat (length buf) ≤ max_size →
  (∀ w', after (sends fd) w w' →
     sent fd (trace w') = sent fd (trace w) ++ buf → Q tt w') →
  (∀ k w', refused fd → after (sends fd) w w' → (k < length buf)%nat →
     sent fd (trace w') = sent fd (trace w) ++ take k buf → E (Throw "send()") w') →
  wp E (send_all L fd buf) Q w.
Proof.
  intros Hp Hb Hl Hmax HQ HE. unfold send_all. cbv zeta.
  apply wp_loop_total with
    (I := λ off w', after (sends fd) w w' ∧ 0 ≤ off ≤ Z.of_nat (length buf) ∧
       sent fd (trace w') = sent fd (trace w) ++ take (Z.to_nat off) buf)
    (μ := λ off _, (length buf - Z.to_nat off)%nat).
  { split; [reflexivity|]. split; [lia|]. simpl. by rewrite app_nil_r. }
  { lia. }
  intros off w1 (Ha & Hoff & Hs). destruct (Z.ltb_spec off (Z.of_nat (length buf))).
  2:{ apply wp_ret, HQ; [done|]. rewrite Hs, take_ge by lia. done. }
  apply wp_bind. eapply (wp_call L _ (send fd (drop (Z.to_nat off) buf))); [done|by eapply sends_exposed_live|].
  intros w2 n Ha2 Hn. assert (after (sends fd) w w2) as Ha'.
  { etrans; [exact Ha|]. eapply after_mono; [apply is_store_sends|done]. }
  assert (sent fd (trace w2) = sent fd (trace w) ++ take (Z.to_nat off) buf) as Hs2.
  { rewrite <-Hs. apply after_ignored with (P := is_store); [|done].
    intros. by apply sent_store. }
  assert (after (sends fd) w (push (ECall (A := rma_api) (send fd (drop (Z.to_nat off) buf)) n) w2))
    as Ha3 by by apply after_push.
  assert (sent fd (trace (push (ECall (A := rma_api) (send fd (drop (Z.to_nat off) buf)) n) w2))
          = sent fd (trace w) ++ take (Z.to_nat off + Z.to_nat n) buf) as Hs3.
  { simpl. by rewrite decide_True, Hs2, <-app_assoc, take_drop_take. }
  destruct (Z.leb_spec n 0) as [Hn0|Hn0].
  { apply wp_stop. eapply (HE (Z.to_nat off)); [|done|lia|].
    { exists (trace w2), (drop (Z.to_nat off) buf). split; [|lia]. intros Hd.
      apply (f_equal length) in Hd. rewrite length_drop in Hd. simpl in Hd. lia. }
    rewrite Hs3. do 2 f_equal. lia. }
  pose proof (Hb (trace w2) fd (drop (Z.to_nat off) buf)) as Hle. rewrite Hn, length_drop in Hle.
  unfold max_size in Hmax. rewrite u64_small by lia.
  apply wp_ret. split; [|lia]. split; [done|]. split; [lia|]. rewrite Hs3. do 2 f_equal. lia.
Qed.

(** A peer that is gone: nothing is sent. *)
Lemma send_all_refused fd buf w :
  polite L → exposed_live w → buf ≠ [] → (∀ h fd bs, l_ret L h (send fd bs) ≤ 0) →
  wp (λ h _, h = Throw "send()") (send_all L fd buf) (λ _ _, False) w.
Proof.
  intros Hp Hl Hne Href. unfold send_all. cbn [loop]. apply wp_bind.
  rewrite (proj2 (Z.ltb_lt _ _)) by (destruct buf; [done|simpl; lia]).
  apply wp_bind. eapply (wp_call L _ (send fd _)); [done|done|]. intros w1 n _ Hn.
  rewrite (proj2 (Z.leb_le _ _)) by (rewrite <-Hn; apply Href). by apply wp_stop.
Qed.

(** What one call adds to what a history says. *)
Definition prefix_sent fd (bs : list Z) w w' : Prop :=
  ∃ k, sent fd (trace w') = sent fd (trace w) ++ take k bs.

(** send_all in the middle of a message [done ++ buf ++ todo]. *)
Lemma send_part_ok E fd pre buf msg (Q : unit → rma_world → Prop) w0 w :
  polite L → send_bounded L → exposed_live w0 → Z.of_nat (length buf) ≤ max_size →
  (∃ post, msg = pre ++ buf ++ post) → after (sends fd) w0 w →
  sent fd (trace w) = sent fd (trace w0) ++ pre →
  (∀ w', after (sends fd) w0 w' →
     sent fd (trace w') = sent fd (trace w0) ++ pre ++ buf → Q tt w') →
  (∀ w', refused fd → after (sends fd) w0 w' → prefix_sent fd msg w0 w' →
     E (Throw "send()") w') →
  wp E (send_all L fd buf) Q w.
Proof.
  intros Hp Hb Hl Hmax [post ->] Ha Hs HQ HE.
  apply send_all_ok; [done|done|by eapply sends_exposed_live|done|..].
  - intros w' Ha' Hs'. apply HQ; [by etrans|]. by rewrite Hs', Hs, <-app_assoc.
  - intros k w' Href Ha' Hk Hs'. apply HE; [done|by etrans|]. exists (length pre + k)%nat.
    rewrite Hs', Hs, <-app_assoc. f_equal.
    by rewrite take_app_add, take_app_le by lia.
Qed.

Lemma empty_nil v : empty v = true ↔ v = [].
Proof. unfold empty, vsize. rewrite Z.eqb_eq. destruct v; simpl; [done|]. split; [lia|done]. Qed.

Lemma send_fd_ok E hs fd (Q : unit → rma_world → Prop) w :
  polite L → send_bounded L → exposed_live w →
  vsize (worker_addr hs) ≤ max_size → vsize (rkey hs) ≤ max_size →
  (∀ w', after (sends fd) w w' →
     sent fd (trace w') = sent fd (trace w) ++ wire hs → Q tt w') →
  (∀ w', refused fd → after (sends fd) w w' → prefix_sent fd (wire hs) w w' →
     E (Throw "send()") w') →
  wp E (send_fd L hs fd) Q w.
Proof.
  intros Hp Hb Hl Hwa Hrk HQ HE. unfold send_fd, wire in *. cbv zeta.
  set (b1 := le_bytes 4 (u32 (vsize (worker_addr hs)))) in *.
  set (b3 := le_bytes 4 (u32 (vsize (rkey hs)))) in *.
  set (b5 := le_bytes 8 (remote_addr hs)) in *. set (b6 := le_bytes 8 (size hs)) in *.
  assert (∀ n z, n = 4%nat ∨ n = 8%nat → Z.of_nat (length (le_bytes n z)) ≤ max_size) as Hle.
  { intros n z Hn. rewrite le_bytes_length. unfold max_size. lia. }
  apply wp_bind. eapply (send_part_ok _ _ []); [done..|by apply Hle; left|by eexists|reflexivity|by rewrite app_nil_r| |done].
  intros w1 A1 S1. simpl in S1. apply wp_bind.
  apply wp_conseq with (Q := λ _ w', after (sends fd) w w' ∧
    sent fd (trace w') = sent fd (trace w) ++ b1 ++ worker_addr hs).
  { apply wp_when; intros He.
    - eapply (send_part_ok _ _ b1); [done..|by eexists|done|done| |done]. done.
    - rewrite negb_false_iff in He. apply empty_nil in He. by rewrite He, app_nil_r. }
  intros [] w2 [A2 S2]. apply wp_bind.
  eapply (send_part_ok _ _ (b1 ++ worker_addr hs)); [done..|by apply Hle; left| |done|done| |done].
  { eexists. by rewrite <-!app_assoc. }
  intros w3 A3 S3. rewrite <-!app_assoc in S3. apply wp_bind.
  apply wp_conseq with (Q := λ _ w', after (sends fd) w w' ∧
    sent fd (trace w') = sent fd (trace w) ++ b1 ++ worker_addr hs ++ b3 ++ rkey hs).
  { apply wp_when; intros He.
    - eapply (send_part_ok _ _ (b1 ++ worker_addr hs ++ b3)); [done..| |done|done| |done].
      { eexists. by rewrite <-!app_assoc. }
      intros w' A' S'. split; [done|]. by rewrite S', <-!app_assoc.
    - rewrite negb_false_iff in He. apply empty_nil in He. by rewrite He, app_nil_r. }
  intros [] w4 [A4 S4]. apply wp_bind.
  eapply (send_part_ok _ _ (b1 ++ worker_addr hs ++ b3 ++ rkey hs));
    [done..|by apply Hle; right| |done|done| |done].
  { eexists. by rewrite <-!app_assoc. }
  intros w5 A5 S5. rewrite <-!app_assoc in S5.
  eapply (send_part_ok _ _ (b1 ++ worker_addr hs ++ b3 ++ rkey hs ++ b5));
    [done..|by apply Hle; right| |done|done| |done].
  { exists []. by rewrite <-!app_assoc, app_nil_r. }
  intros w6 A6 S6. apply HQ; [done|]. by rewrite S6, <-!app_assoc.
Qed.
End wire.
