(* ===== verification/RmaRead.v ===== *)
(** * ucp_rma_client_server: receiving the handshake

    [refines fd input P m p]: on a socket that delivers [input], however it is cut
    into pieces, the computation [m] does what the parser [p] does on the bytes
    that were not read yet. *)

From S2P Require Import Prelude CRuntime CLib Ucx RmaApi RmaTcp RmaSpec RmaWire.
Open Scope Z_scope.

Section read.
Context `{!Ucs} (L : rma_lib) (fd : Z) (input : list Z).
Hypothesis Hpolite : polite L.
Hypothesis Hdel : delivers L fd input.
Hypothesis Hbytes : Forall is_byte input.
Implicit Types (E : halt → rma_world → Prop) (w : rma_world).

(** Between two points of a run: reads of [fd], allocations, and what the outside
    does. *)
Definition reads (e : event rma_api) : Prop :=
  match e with
  | EStore _ _ | EAlloc _ _ => True
  | ECall c _ => match c with recv fd' _ => fd' = fd | _ => False end
  | _ => False
  end.

Abbreviation rest w := (unread fd input (trace w)).

Lemma is_store_reads e : is_store e → reads e.
Proof. by destruct e. Qed.

Lemma exposed_reads e h : reads e → exposed (e :: h) = exposed h.
Proof. destruct e as [[]| | | |]; done. Qed.

Lemma reads_exposed_live w w' : after reads w w' → exposed_live w → exposed_live w'.
Proof. apply after_exposed_live. exact exposed_reads. Qed.

Lemma stores_unread w w' : after is_store w w' → rest w' = rest w.
Proof.
  apply (after_ignored (unread fd input)). intros e h He. unfold unread.
  by rewrite received_store.
Qed.

Lemma alloc_unread n ok w : rest (push (EAlloc n ok) w) = rest w.
Proof. done. Qed.

Lemma after_alloc n ok w w' : after reads w w' → after reads w (push (EAlloc n ok) w').
Proof. by apply after_push. Qed.

(** The bytes a recv adds. *)
Lemma recv_unread n k w :
  (k ≤ length (rest w))%nat →
  rest (push (ECall (A := rma_api) (recv fd n) (Z.of_nat k, take k (rest w))) w) =
  drop k (rest w).
Proof.
  intros Hk. unfold unread at 1. simpl. rewrite decide_True by done.
  rewrite length_app, Nat2Z.id, take_take, Nat.min_id, length_take, Nat.min_l by done.
  unfold unread. by rewrite drop_drop.
Qed.

(** The whole buffer from the stream, or an exception at the end of it. *)
Lemma recv_all_ok E buf (Q : list Z → rma_world → Prop) w :
  exposed_live w → Z.of_nat (length buf) ≤ max_size →
  (∀ w', after reads w w' → (length buf ≤ length (rest w))%nat →
     rest w' = drop (length buf) (rest w) → Q (take (length buf) (rest w)) w') →
  (∀ w', after reads w w' → (length (rest w) < length buf)%nat → E (Throw "recv()") w') →
  wp E (recv_all L fd buf) Q w.
Proof using Hpolite Hdel.
  intros Hl Hmax HQ HE. unfold recv_all. cbv zeta.
  apply wp_loop_total with
    (I := λ '(off, buf') w', after reads w w' ∧ 0 ≤ off ≤ Z.of_nat (length buf) ∧
       length buf' = length buf ∧ (Z.to_nat off ≤ length (rest w))%nat ∧
       rest w' = drop (Z.to_nat off) (rest w) ∧
       take (Z.to_nat off) buf' = take (Z.to_nat off) (rest w))
    (μ := λ '(off, _) _, (length buf - Z.to_nat off)%nat).
  { split; [reflexivity|]. repeat split; simpl; lia || done. }
  { lia. }
  intros [off buf'] w1 (Ha & Hoff & Hlen & Hr & Hrest & Htake).
  destruct (Z.ltb_spec off (Z.of_nat (length buf))) as [Hlt|Hge].
  2:{ apply wp_ret. assert (Z.to_nat off = length buf) as Heq by lia. rewrite Heq in *.
      rewrite <-Hlen, take_ge in Htake by lia. rewrite Htake, Hlen. apply HQ; done. }
  apply wp_bind. eapply (wp_call L _ (recv fd (Z.of_nat (length buf) - off)));
    [done|by eapply reads_exposed_live|].
  intros w2 r Ha2 Hret. assert (after reads w w2) as Ha'.
  { etrans; [exact Ha|]. eapply after_mono; [apply is_store_reads|done]. }
  pose proof (stores_unread _ _ Ha2) as Hrest2.
  destruct (Hdel (trace w2) (Z.of_nat (length buf) - off)) as (k & Hkn & Hk & Hk0 & Hl2); [lia|].
  rewrite Hl2 in Hret. subst r.
  set (w3 := push _ w2). assert (after reads w w3) as Ha3 by by apply after_push.
  pose proof (recv_unread (Z.of_nat (length buf) - off) k w2 Hk) as Hrest3. fold w3 in Hrest3.
  rewrite Hrest2, Hrest, drop_drop in Hrest3. rewrite Hrest2, Hrest in *.
  rewrite length_drop in Hk.
  cbv beta iota. destruct (Z.leb_spec (Z.of_nat k) 0) as [Hz|Hz].
  { apply wp_stop, HE; [done|]. destruct (drop (Z.to_nat off) (rest w)) eqn:Hd.
    - apply (f_equal length) in Hd. rewrite length_drop in Hd. simpl in Hd. lia.
    - assert (0 < k)%nat by (by apply Hk0). lia. }
  assert (length (take k (drop (Z.to_nat off) (rest w))) = k) as Hlk.
  { rewrite length_take, length_drop. lia. }
  apply wp_bind. eapply wp_the.
  { apply splice_some; [lia|]. rewrite Hlk. lia. }
  unfold max_size in Hmax. rewrite u64_small by lia. apply wp_ret.
  replace (Z.to_nat (off + Z.of_nat k)) with (Z.to_nat off + k)%nat by lia.
  split; [|lia]. split; [done|]. split; [lia|]. rewrite Hlk.
  split. { rewrite !length_app, length_take, length_drop, Hlk. lia. }
  split; [lia|]. split; [done|].
  rewrite take_app_add' by (rewrite length_take; lia).
  rewrite take_app_length' by done. by rewrite Htake, take_take_drop.
Qed.

(** ** Refinement of a parser *)

Definition no_memory (h : halt) : Prop := h = Throw "std::bad_alloc".

Definition refines {A} (P : A → Prop) (m : RM A) (p : parser A) : Prop := ∀ w,
  exposed_live w → Forall is_byte (rest w) →
  wp (λ h w', after reads w w' ∧ (h = Throw "recv()" ∧ p (rest w) = None ∨ no_memory h)) m
     (λ a w', after reads w w' ∧ P a ∧ p (rest w) = Some (a, rest w') ∧
        Forall is_byte (rest w')) w.

Lemma refines_ret {A} (P : A → Prop) (a : A) : P a → refines P (mret a) (mret a).
Proof. intros Ha w _ Hb. apply wp_ret. split; [reflexivity|done]. Qed.

Lemma refines_bind {A B} (P : A → Prop) (P' : B → Prop) (m : RM A) (p : parser A)
    (m' : A → RM B) (p' : A → parser B) :
  refines P m p → (∀ a, P a → refines P' (m' a) (p' a)) →
  refines P' (m ≫= m') (p ≫= p').
Proof.
  intros Hm Hm' w Hl Hb. apply wp_bind. eapply wp_mono; [by apply Hm|..].
  - intros a w1 (Ha1 & HP & Hp & Hb1). simpl.
    eapply wp_mono; [apply (Hm' a HP); [by eapply reads_exposed_live|done]|..].
    + intros b w2 (Ha2 & HP' & Hp' & Hb2). split; [by etrans|]. split; [done|].
      split; [|done]. unfold mbind, parser_bind. by rewrite Hp.
    + intros h w2 (Ha2 & Hh). split; [by etrans|]. unfold mbind, parser_bind. by rewrite Hp.
  - intros h w1 (Ha1 & [[Hh Hp]|Hh]); (split; [done|]); [left|by right].
    split; [done|]. unfold mbind, parser_bind. by rewrite Hp.
Qed.

Lemma take_bytes_some n bs :
  n ≤ Z.of_nat (length bs) →
  take_bytes n bs = Some (take (Z.to_nat n) bs, drop (Z.to_nat n) bs).
Proof. intros. unfold take_bytes. by rewrite (proj2 (Z.leb_le _ _)). Qed.

Lemma take_bytes_none n bs : Z.of_nat (length bs) < n → take_bytes n bs = None.
Proof. intros. unfold take_bytes. by rewrite (proj2 (Z.leb_gt _ _)). Qed.

Lemma recv_all_refines buf :
  Z.of_nat (length buf) ≤ max_size →
  refines (λ bs, Forall is_byte bs ∧ length bs = length buf) (recv_all L fd buf)
    (take_bytes (Z.of_nat (length buf))).
Proof using Hpolite Hdel.
  intros Hmax w Hl Hb. apply recv_all_ok; [done|done|..].
  - intros w' Ha Hlen Hr. split; [done|]. rewrite take_bytes_some, Nat2Z.id, Hr by lia.
    split; [split; [by apply Forall_take|rewrite length_take; lia]|].
    split; [done|]. by apply Forall_drop.
  - intros w' Ha Hlen. split; [done|]. left. split; [done|]. apply take_bytes_none. lia.
Qed.

Lemma recv_uint_refines n :
  (n = 4 ∨ n = 8)%nat →
  refines (λ z, 0 ≤ z < 256 ^ Z.of_nat n) (recv_uint L fd n) (parse_uint (Z.of_nat n)).
Proof using Hpolite Hdel.
  intros Hn. pose proof (recv_all_refines (replicate n 0)) as Hr.
  rewrite length_replicate in Hr. eapply refines_bind.
  - apply Hr. unfold max_size. lia.
  - intros bs [Hb <-]. apply refines_ret. by apply le_val_range.
Qed.

Lemma reserve_refines n {A} (P : A → Prop) (m : RM A) (p : parser A) :
  n ≤ max_size → refines P m p → refines P (reserve L n;; m) p.
Proof using.
  intros Hn Hm w Hl Hb. apply wp_bind, wp_reserve.
  - intros _. by apply Hm.
  - intros [] _ _.
    + eapply wp_mono; [apply Hm; [exact Hl|exact Hb]|..].
      * intros a w' (Ha & HP). split; [|exact HP]. etrans; [|exact Ha].
        apply (after_alloc _ _ w w). reflexivity.
      * intros h w' (Ha & HP). split; [|exact HP]. etrans; [|exact Ha].
        apply (after_alloc _ _ w w). reflexivity.
    + split; [|by right]. apply (after_alloc _ _ w w). reflexivity.
  - unfold max_size in *. lia.
Qed.

Lemma recv_bytes_refines n :
  0 ≤ n ≤ max_size →
  refines (λ bs, Forall is_byte bs ∧ vsize bs ≤ max_size) (recv_bytes L fd n) (take_bytes n).
Proof using Hpolite Hdel.
  intros Hn. unfold recv_bytes. cbv zeta. apply reserve_refines; [lia|].
  destruct (Z.eqb_spec n 0) as [Heq|].
  { subst n. intros w _ Hb. apply wp_ret. split; [reflexivity|].
    rewrite take_bytes_some by lia. split; [split; [constructor|unfold vsize, max_size; simpl; lia]|done]. }
  pose proof (recv_all_refines (replicate (Z.to_nat n) 0)) as Hr.
  rewrite length_replicate, Z2Nat.id in Hr by lia.
  intros w Hl Hb. eapply wp_conseq; [apply (Hr ltac:(lia) w Hl Hb)|]. intros bs w' (Ha & [HP Hlen] & Hx).
  split; [done|]. split; [|done]. split; [done|]. unfold vsize. lia.
Qed.

Lemma recv_fd_refines : refines wf_handshake (recv_fd L fd) parse.
Proof using Hpolite Hdel.
  unfold recv_fd, parse.
  assert (∀ z, 0 ≤ z < 256 ^ Z.of_nat 4 → 0 ≤ z ≤ max_size) as Hle.
  { intros z. change (256 ^ Z.of_nat 4) with (2 ^ 32). unfold max_size. lia. }
  eapply refines_bind; [apply (recv_uint_refines 4); by left|]. intros wlen Hw.
  eapply refines_bind; [by apply recv_bytes_refines, Hle|]. intros wa Hwa.
  eapply refines_bind; [apply (recv_uint_refines 4); by left|]. intros rlen Hrl.
  eapply refines_bind; [by apply recv_bytes_refines, Hle|]. intros rk Hrk.
  eapply refines_bind; [apply (recv_uint_refines 8); by right|]. intros ra Hra.
  eapply refines_bind; [apply (recv_uint_refines 8); by right|]. intros sz Hsz.
  apply refines_ret. by split.
Qed.
End read.
