(* ===== verification/RmaVec.v ===== *)
(** * ucp_rma_client_server: the data buffer and the waiting loop

    The only memory of the programs is the vector that UCX works on;
    [one_buffer p n] says that it is there and nothing else. The loops that fill
    and print it, and UcxEnv::wait, under the hypotheses of RmaSpec.v. *)

From S2P Require Import Prelude CRuntime CLib Ucx RmaApi RmaTcp RmaUcx RmaMain RmaSpec RmaWire.
Open Scope Z_scope.

Implicit Types (w : rma_world) (E : halt → rma_world → Prop).

(** ** The buffer *)

Definition one_buffer (p : ptr) (n : Z) w : Prop :=
  (n = 0 ∧ p = Null ∧ ∀ b, shape w b = None) ∨
  (0 < n ∧ ∃ b, p = Loc b 0 ∧
     ∀ b', shape w b' = if decide (b' = b) then Some (KHost, Z.to_nat n) else None).

(** Its contents. *)
Definition buffer_is (p : ptr) (d : list mbyte) w : Prop :=
  ∀ b o, p = Loc b o → heap w !! b = Some (Bytes KHost d).

Lemma one_buffer_shape p n w w' :
  (∀ b, shape w' b = shape w b) → one_buffer p n w → one_buffer p n w'.
Proof.
  intros Hs [(? & ? & Hn)|(? & b & ? & Hb)]; [left|right]; (split; [done|]).
  - split; [done|]. intros b. by rewrite Hs.
  - exists b. split; [done|]. intros b'. by rewrite Hs.
Qed.

Lemma one_buffer_after P p n w w' : after P w w' → one_buffer p n w → one_buffer p n w'.
Proof. intros (_ & Hs & _). by apply one_buffer_shape. Qed.

Lemma one_buffer_live p n m w : one_buffer p n w → live w (Region m p n).
Proof.
  intros [(_ & -> & _)|(Hn & b & -> & Hb)] b' o Hp; simpl in Hp; [done|]. simplify_eq.
  split; [done|]. exists (Z.to_nat n). rewrite Hb, decide_True by done.
  split; [done|]. simpl. lia.
Qed.

(** The object and its bytes. *)
Lemma shape_some w b k n :
  shape w b = Some (k, n) → ∃ d, heap w !! b = Some (Bytes k d) ∧ length d = n.
Proof.
  unfold shape. destruct (heap w !! b) as [[k' d|]|]; [|done..]. intros [= -> <-]. eauto.
Qed.

Lemma shape_none w b : shape w b = None → heap w !! b = None.
Proof. unfold shape. destruct (heap w !! b) as [[]|]; [done|by destruct c|done]. Qed.

Lemma empty_shape w : (∀ b, shape w b = None) → heap w = ∅.
Proof. intros Hs. apply map_eq. intros b. rewrite lookup_empty. apply shape_none, Hs. Qed.

Lemma shape_empty w b : heap w = ∅ → shape w b = None.
Proof. unfold shape. intros ->. by rewrite lookup_empty. Qed.

(** data() of a vector of [n] elements that is the allocation [b]. *)
Definition vector_data (b : N) (n : Z) : ptr := if n =? 0 then Null else Loc b 0.

Section vector.
Context (L : rma_lib).

Lemma new_vector_ok E n (Q : ptr → rma_world → Prop) w :
  0 ≤ n → wf_mem w → heap w = ∅ →
  (∀ what w', next w' = next w → heap w' = ∅ → trace w' = trace w ∨ (∃ ok, trace w' = EAlloc n ok :: trace w) →
     E (Throw what) w') →
  (∀ p w', p = vector_data (next w) n → one_buffer p n w' → buffer_is p (replicate (Z.to_nat n) (Some 0)) w' →
     trace w' = trace w ∨ (∃ ok, trace w' = EAlloc n ok :: trace w) → Q p w') →
  wp E (new_vector L n) Q w.
Proof.
  intros Hn Hwf Hh HE HQ. unfold new_vector, reserve, vector_data in *. apply wp_bind.
  destruct (Z.eqb_spec n 0) as [Hz|Hz].
  { apply wp_ret, wp_ret, HQ; [done| |by intros ? ?|by left]. left. split_and!; [done..|].
    intros b. by apply shape_empty. }
  destruct (max_size <? n).
  { apply wp_stop. apply HE; [done|done|by left]. }
  apply wp_bind, wp_ask_alloc. destruct (l_alloc L (trace w) n).
  2:{ apply wp_stop. apply HE; [done|done|right; by eexists]. }
  apply wp_ret. apply wp_alloc; [|done]. intros b Hb _ _. apply HQ.
  - by rewrite Hb.
  - right. split; [lia|]. exists b. split; [done|]. intros b'. unfold shape. simpl.
    destruct (decide (b' = b)) as [->|Hne].
    + by rewrite lookup_insert_eq, length_replicate.
    + rewrite lookup_insert_ne by done. by rewrite Hh, lookup_empty.
  - intros b' o [= <- <-]. simpl. by rewrite lookup_insert_eq.
  - right. by eexists.
Qed.

(** What a loop over the elements has written after [k] rounds. *)
Definition half_filled (n : nat) (f : Z → Z) (k : nat) : list mbyte :=
  ((λ i, Some (f (Z.of_nat i))) <$> seq 0 k) ++ replicate (n - k) (Some 0).

Definition pattern (n : Z) (f : Z → Z) : list mbyte :=
  (λ i, Some (f (Z.of_nat i))) <$> seq 0 (Z.to_nat n).

Lemma half_filled_step n f k :
  (k < n)%nat →
  splice (Z.of_nat k) [Some (f (Z.of_nat k))] (half_filled n f k) = Some (half_filled n f (S k)).
Proof.
  intros Hk. unfold half_filled. rewrite splice_some.
  2: lia.
  2:{ rewrite length_app, length_fmap, length_seq, length_replicate. simpl. lia. }
  rewrite Nat2Z.id. f_equal.
  rewrite take_app_length' by by rewrite length_fmap, length_seq.
  rewrite drop_app_ge by (rewrite length_fmap, length_seq; lia).
  rewrite length_fmap, length_seq, drop_replicate, seq_S, fmap_app, <-app_assoc.
  simpl. do 3 f_equal. lia.
Qed.

Lemma shape_put w b k d d' :
  heap w !! b = Some (Bytes k d) → length d' = length d →
  ∀ b', shape (set_heap (<[b := Bytes k d']> (heap w)) w) b' = shape w b'.
Proof.
  intros Hb Hd b'. destruct (decide (b' = b)) as [->|Hne].
  - rewrite (shape_lookup w b k d Hb). erewrite shape_lookup by apply lookup_insert_eq.
    by rewrite Hd.
  - unfold shape. simpl. by rewrite lookup_insert_ne.
Qed.

Lemma fill_ok E p n f (Q : unit → rma_world → Prop) w :
  one_buffer p n w → buffer_is p (replicate (Z.to_nat n) (Some 0)) w →
  (∀ w', one_buffer p n w' → buffer_is p (pattern n f) w' → trace w' = trace w →
     next w' = next w → Q tt w') →
  wp E (fill p n f) Q w.
Proof.
  intros Hb Hd HQ. unfold fill.
  apply wp_for_up with (I := λ k w', one_buffer p n w' ∧ trace w' = trace w ∧ next w' = next w ∧
    buffer_is p (half_filled (Z.to_nat n) f k) w').
  - split_and!; [done..|]. unfold half_filled. simpl. by rewrite Nat.sub_0_r.
  - intros k w1 [_ Hk] (Hb1 & Ht1 & Hn1 & Hd1). simpl in Hk.
    destruct Hb1 as [(-> & _)|(Hn & b & -> & Hsh)]; [simpl in Hk; lia|].
    assert (heap w1 !! b = Some (Bytes KHost (half_filled (Z.to_nat n) f k))) as Hlk by by eapply Hd1.
    simpl. rewrite Z.add_0_l.
    eapply wp_write_mem; [exact Hlk|done|by apply half_filled_step|].
    split_and!; [|done|done|].
    + eapply one_buffer_shape; [apply (shape_put _ _ _ _ _ Hlk)|].
      { unfold half_filled. rewrite !length_app, !length_fmap, !length_seq, !length_replicate. lia. }
      right. split; [done|]. by exists b.
    + intros b' o [= <- <-]. simpl. by rewrite lookup_insert_eq.
  - intros w1 (Hb1 & Ht1 & Hn1 & Hd1). apply HQ; [done| |done|done].
    unfold half_filled in Hd1. simpl in Hd1. rewrite Nat.sub_diag in Hd1. simpl in Hd1.
    by rewrite app_nil_r in Hd1.
Qed.

(** An element, whatever it holds. *)
Lemma read_vector_ok E p n i k (Q : list mbyte → rma_world → Prop) w :
  one_buffer p n w → 0 ≤ i → 0 ≤ k → i + k ≤ n → (∀ bs, Z.of_nat (length bs) = k → Q bs w) →
  wp E (read_vector p i k) Q w.
Proof.
  intros Hb Hi Hk Hn HQ. unfold read_vector. destruct (Z.eqb_spec k 0) as [Hz|Hz].
  { apply wp_ret, HQ. simpl. lia. }
  destruct Hb as [(? & _)|(_ & b & -> & Hsh)]; [lia|].
  specialize (Hsh b). rewrite decide_True in Hsh by done.
  destruct (shape_some _ _ _ _ Hsh) as (d & Hd & Hlen). simpl. rewrite Z.add_0_l.
  destruct (slice i k d) as [bs|] eqn:Hsl.
  - eapply wp_read_mem; [exact Hd|done|exact Hsl|]. apply HQ. by eapply slice_length.
  - rewrite slice_some in Hsl by lia. done.
Qed.

(** The whole buffer. *)
Lemma read_all_ok E p n d (Q : list mbyte → rma_world → Prop) w :
  one_buffer p n w → buffer_is p d w → length d = Z.to_nat n → Q d w →
  wp E (read_vector p 0 n) Q w.
Proof.
  intros Hb Hd Hlen HQ. unfold read_vector. destruct (Z.eqb_spec n 0) as [Hz|Hz].
  { subst n. destruct d; [by apply wp_ret|done]. }
  destruct Hb as [(? & _)|(Hn & b & -> & _)]; [lia|].
  simpl. eapply wp_read_mem; [by eapply Hd|done|apply slice_all; lia|done].
Qed.

Definition is_output (e : event rma_api) : Prop :=
  match e with EOut _ _ _ => True | _ => False end.

Lemma after_out P st f l w w' :
  (∀ e, is_output e → P e) → after P w w' → after P w (push (EOut st f l) w').
Proof. intros HP Ha. apply after_push; [by apply HP|done]. Qed.

Lemma print_head_ok E p n k (Q : unit → rma_world → Prop) w :
  one_buffer p n w → k ≤ n → (∀ w', after is_output w w' → Q tt w') →
  wp E (print_head p k) Q w.
Proof.
  intros Hb Hk HQ. unfold print_head.
  apply wp_for_up with (I := λ _ w', after is_output w w'); [reflexivity| |exact HQ].
  intros j w1 [_ Hj] Ha. simpl in Hj. apply wp_bind.
  eapply read_vector_ok; [by eapply one_buffer_after|lia|lia|lia|].
  intros bs _. by apply wp_fprintf, after_out.
Qed.

Lemma delete_vector_ok E p n (Q : unit → rma_world → Prop) w :
  one_buffer p n w →
  (∀ w', heap w' = ∅ → trace w' = trace w → next w' = next w → Q tt w') →
  wp E (delete_vector p) Q w.
Proof.
  intros [(_ & -> & Hs)|(Hn & b & -> & Hs)] HQ.
  { apply wp_free_null, HQ; [by apply empty_shape|done|done]. }
  pose proof (Hs b) as Hb. rewrite decide_True in Hb by done.
  destruct (shape_some _ _ _ _ Hb) as (d & Hd & _).
  eapply wp_free; [exact Hd|done|]. apply HQ; [|done|done]. simpl. apply map_eq. intros b'.
  rewrite lookup_empty. destruct (decide (b' = b)) as [->|Hne].
  - apply lookup_delete_eq.
  - rewrite lookup_delete_ne by done. apply shape_none. specialize (Hs b').
    by rewrite decide_False in Hs.
Qed.
End vector.
