(* ===== verification/RmaOwn.v ===== *)
(** * ucp_rma_client_server: ownership of external objects

    The specification of the life cycle of descriptors and UCX objects: a
    multiset of what is alive, which every call of the history changes or uses
    ([own_step]); a remote key is destroyed while its endpoint is alive. [leaves] is what a computation may leave behind when it does not
    return, and [own_scope] the rule of the destructors. *)

From S2P Require Import Prelude CRuntime CLib Ucx Ownership RmaApi RmaTcp RmaUcx RmaSpec.
From stdpp Require Import gmultiset.
Open Scope Z_scope.

(** What an error path may leave without breaking the destructors that follow. *)
Definition leakable (x : object) : Prop :=
  match x with Fd _ | Addr _ | RkeyBuf _ | Rkey _ _ => True | _ => False end.

(** ** Calls *)

Section own.
Context `{!Ucs}.

(** The objects after a call with its result; [None] is misuse: an object that is
    not alive is used or destroyed, or destroyed while others depend on it. *)
Definition own_step (c : rma_call) : rma_ret c → objects → option objects :=
  let ok (st : Z) := st =? UCS_OK in
  match c return rma_ret c → objects → option objects with
  | socket => λ fd o, make_if (0 <=? fd) (Fd fd) o
  | setsockopt_reuseaddr fd | bind_any fd _ | listen_ fd _ | connect_ fd _ _
  | send fd _ => λ _ o, with_objects [Fd fd] o (Some o)
  | poll_in fd | recv fd _ => λ _ o, with_objects [Fd fd] o (Some o)
  | accept l => λ fd o, with_objects [Fd l] o (make_if (0 <=? fd) (Fd fd) o)
  | close fd => λ _ o, drop_object (Fd fd) o
  | inet_pton _ => λ _ o, Some o
  | steady_clock_now => λ _ o, Some o
  | ucp_config_read => λ r o, make_if (ok r.1) (Config r.2) o
  | ucp_config_release c => λ _ o, drop_object (Config c) o
  | ucp_init _ _ c => λ r o, with_objects [Config c] o (make_if (ok r.1) (Ctx r.2) o)
  | ucp_cleanup c => λ _ o, none_left needs_ctx o (drop_object (Ctx c) o)
  | ucp_worker_create c _ _ => λ r o,
      with_objects [Ctx c] o (make_if (ok r.1) (Worker r.2) o)
  | ucp_worker_destroy w => λ _ o, none_left needs_worker o (drop_object (Worker w) o)
  | ucp_worker_query w _ => λ r o,
      with_objects [Worker w] o (make_if (ok r.1) (Addr r.2.1) o)
  | ucp_worker_release_address w a => λ _ o, with_objects [Worker w] o (drop_object (Addr a) o)
  | ucp_worker_progress w => λ _ o, with_objects [Worker w] o (Some o)
  | ucp_mem_map c _ _ _ => λ r o, with_objects [Ctx c] o (make_if (ok r.1) (Mem r.2) o)
  | ucp_mem_unmap c m => λ _ o, with_objects [Ctx c] o (drop_object (Mem m) o)
  | ucp_rkey_pack c m => λ r o,
      with_objects [Ctx c; Mem m] o (make_if (ok r.1) (RkeyBuf r.2.1) o)
  | ucp_rkey_buffer_release b => λ _ o, drop_object (RkeyBuf b) o
  | ucp_ep_create w _ _ => λ r o, with_objects [Worker w] o (make_if (ok r.1) (Ep r.2) o)
  | ucp_ep_destroy e => λ _ o, drop_object (Ep e) o
  | ucp_ep_rkey_unpack e _ => λ r o, with_objects [Ep e] o (make_if (ok r.1) (Rkey e r.2) o)
  | ucp_rkey_destroy r => λ _ o, drop_key r o
  | ucp_put_nbx e _ _ _ r p | ucp_get_nbx e _ _ _ r p => λ q o,
      with_objects [Ep e; Rkey e r; Mem (rma_memh p)] o (make_if (UCS_PTR_IS_PTR q) (Req q) o)
  | ucp_ep_flush_nbx e _ => λ q o,
      with_objects [Ep e] o (make_if (UCS_PTR_IS_PTR q) (Req q) o)
  | ucp_request_check_status q => λ _ o, with_objects [Req q] o (Some o)
  | ucp_request_free q => λ _ o, drop_object (Req q) o
  end.

Fixpoint owned (h : history rma_api) : option objects :=
  match h with
  | [] => Some ∅
  | ECall c r :: h' => owned h' ≫= own_step c r
  | _ :: h' => owned h'
  end.

(** A handle that was created is not null. *)
Definition creates (c : rma_call) : rma_ret c → option Z :=
  match c return rma_ret c → option Z with
  | ucp_init _ _ _ | ucp_worker_create _ _ _ | ucp_mem_map _ _ _ _
  | ucp_ep_create _ _ _ | ucp_ep_rkey_unpack _ _ => λ r,
      if r.1 =? UCS_OK then Some r.2 else None
  | _ => λ _, None
  end.
Definition nonnull_handles (L : rma_lib) : Prop :=
  ∀ h c z, creates c (l_ret L h c) = Some z → z ≠ 0.

(** ** Rules *)

#[export] Instance rma_typed : Typed rma_api := {| compat _ _ := True; ordinary _ := True |}.

#[export] Instance owned_interactive : Interactive (same (λ w : rma_world, owned (trace w))).
Proof. apply same_trace_interactive. by intros []. Qed.

Implicit Types (w : rma_world) (o s : objects).

Definition owns o w : Prop := owned (trace w) = Some o.

Section halting.
Context (unwinds : bool) (L : rma_lib).

(** [s] is alive, and if an exception is going to run destructors, what is alive
    besides does not stand in their way. *)
Definition leaves s : halt → rma_world → Prop := λ h w,
  ∃ o, owns o w ∧ s ⊆ o ∧
    (∀ e x, h = Throw e → unwinds = true → x ∈ o ∖ s → leakable x).

Definition spare s o : Prop := s ⊆ o ∧ ∀ x, x ∈ o ∖ s → leakable x.

Lemma leaves_spare s o h w : owns o w → spare s o → leaves s h w.
Proof. intros Ho [Hs Hl]. exists o. split; [done|]. split; [done|]. eauto. Qed.

Lemma leaves_sub s o h w : owns o w → s ⊆ o → (∀ e, h ≠ Throw e) → leaves s h w.
Proof. intros Ho Hs Hh. exists o. split; [done|]. split; [done|]. intros e x He. by destruct (Hh e). Qed.

Lemma run_acts_own xs o (w : rma_world) :
  owns o w →
  wp (λ h w', (∀ e, h ≠ Throw e) ∧ owns o w') (run_acts no_callback xs) (λ _ w', owns o w') w.
Proof.
  intros Ho. apply wp_run_acts with (P := λ _ w', owns o w'); [done| |done].
  intros x ys w1 Hw1. destruct x as [[]|p bs]. cbn [run_act]. apply wp_bind.
  pose proof (ms_write_mem (R := same (λ w : rma_world, owned (trace w))) by_lib p (Some <$> bs) w1) as Hk.
  assert (∀ e, fst (write_mem (A := rma_api) by_lib p (Some <$> bs) w1) ≠ Halt (Throw e)) as Hne.
  { intros e. destruct p as [|b z| |]; try done.
    unfold write_mem, lookup_obj, mbind, M_bind, gets, the.
    destruct (heap w1 !! b) as [[k d|]|]; try done. simpl.
    by destruct (splice z (Some <$> bs) d). }
  unfold wp at 1. destruct (write_mem by_lib p (Some <$> bs) w1) as [[[]|h] w2]; simpl in *.
  - apply wp_emit. unfold owns in *. simpl. unfold same in Hk. by rewrite Hk.
  - split; [intros e ->; by apply (Hne e)|]. unfold owns, same in *. by rewrite Hk.
Qed.

(** One call. *)
Lemma own_call s o c (Q : rma_ret c → rma_world → Prop) w :
  owns o w → s ⊆ o →
  (∀ h r, l_ret L h c = r → ∃ o', own_step c r o = Some o' ∧
     ∀ w', owns o' w' → Q r w') →
  wp (leaves s) (call L c) Q w.
Proof.
  intros Ho Hs Hc. apply wp_ext. eapply wp_mono; [by apply run_acts_own|..].
  - intros [] w' Ho'. destruct (Hc (trace w') _ eq_refl) as (o' & Hst & HQ). apply HQ.
    unfold owns in *. simpl. by rewrite Ho'.
  - intros h w' [Hh Ho']. by eapply leaves_sub.
Qed.

(** A call that only uses objects. *)
Lemma own_call_use s o c xs (Q : rma_ret c → rma_world → Prop) w :
  (∀ r, own_step c r o = with_objects xs o (Some o)) →
  owns o w → s ⊆ o → Forall (λ x, x ∈ o) xs →
  (∀ r w', owns o w' → Q r w') → wp (leaves s) (call L c) Q w.
Proof.
  intros Hst Ho Hs Hx HQ. eapply own_call; [done..|]. intros h r _. exists o.
  split; [|auto]. rewrite Hst. by apply use_ok.
Qed.

(** A computation that makes no call. *)
Lemma own_local {A} s o (m : RM A) (Q : A → rma_world → Prop) w :
  keeps (same (λ w : rma_world, owned (trace w))) m →
  owns o w → spare s o → (∀ a w', owns o w' → Q a w') → wp (leaves s) m Q w.
Proof.
  intros Hk Ho Hs HQ. specialize (Hk w). unfold same in Hk. unfold wp.
  destruct (m w) as [[a|h] w']; simpl in Hk.
  - apply HQ. unfold owns in *. by rewrite Hk.
  - eapply leaves_spare; [|done]. unfold owns in *. by rewrite Hk.
Qed.

Lemma own_scope {X} s x (dtor : RM unit) (body : RM X) (Q : X → rma_world → Prop) w :
  (∀ o' w' (Q' : unit → rma_world → Prop), owns (x ⊎ o') w' → spare s o' →
     (∀ w'', owns o' w'' → Q' tt w'') → wp (leaves s) dtor Q' w') →
  wp (leaves (x ⊎ s)) body (λ a w', ∃ o', owns (x ⊎ o') w' ∧ spare s o' ∧
     ∀ w'', owns o' w'' → Q a w'') w →
  wp (leaves s) (scope unwinds dtor body) Q w.
Proof.
  intros Hd Hb. apply wp_scope. eapply wp_mono; [exact Hb|..].
  - intros a w' (o' & Ho & Hsp & HQ). eapply Hd; [done|done|]. done.
  - intros h w' (o & Ho & Hs & Hl).
    assert ((∀ e, h ≠ Throw e) → leaves s h w') as Hnt.
    { intros Hh. eapply leaves_sub; [done|multiset_solver|done]. }
    destruct h; try (apply Hnt; done). simpl. destruct unwinds eqn:Hu.
    + apply (Hd (o ∖ x)).
      * by replace (x ⊎ o ∖ x) with o by multiset_solver.
      * split; [multiset_solver|]. intros y Hy. apply (Hl what); [done|done|multiset_solver].
      * intros w'' Ho'. eapply leaves_spare; [done|]. split; [multiset_solver|].
        intros y Hy. apply (Hl what); [done|done|multiset_solver].
    + exists o. split; [done|]. split; [multiset_solver|]. intros e y _ Hf. congruence.
Qed.
End halting.
End own.
