(* ===== verification/RmaRun.v ===== *)
(** * ucp_rma_client_server: what a run of the client does

    Observations of the history ([report]: the operations with their answers; the
    regions that are registered and their packed keys; rounds of progress), the waiting loop, and the client from main to
    its return. *)

From S2P Require Import Prelude CRuntime CLib Ucx RmaApi RmaTcp RmaUcx RmaMain RmaSpec RmaWire RmaRead RmaVec Ownership RmaOwn.
Open Scope Z_scope.

(** ** Observations *)

(** The bytes from which a key or an endpoint was made. *)
Fixpoint key_of (rk : Z) (h : history rma_api) : list Z :=
  match h with
  | [] => []
  | ECall c r :: h' =>
      match c return rma_ret c → list Z with
      | ucp_ep_rkey_unpack _ bs => λ r, if decide (r.2 = rk) then bs else key_of rk h'
      | _ => λ _, key_of rk h'
      end r
  | _ :: h' => key_of rk h'
  end.

Fixpoint peer_of (ep : Z) (h : history rma_api) : list Z :=
  match h with
  | [] => []
  | ECall c r :: h' =>
      match c return rma_ret c → list Z with
      | ucp_ep_create _ _ bs => λ r, if decide (r.2 = ep) then bs else peer_of ep h'
      | _ => λ _, peer_of ep h'
      end r
  | _ :: h' => peer_of ep h'
  end.

(** An operation with the status pointer it was answered ([q]), and the completion
    of a request with its status. A transfer says what is written or where to how
    much is read, the remote address, the key and the peer. *)
Inductive operation : Type :=
  | Put (payload : list mbyte) (raddr : Z) (key peer : list Z) (q : Z)
  | Get (laddr : ptr) (len raddr : Z) (key peer : list Z) (q : Z)
  | Flush (peer : list Z) (q : Z)
  | Done (q st : Z).

Fixpoint progressed (h : history rma_api) : nat :=
  match h with
  | [] => O
  | ECall (ucp_worker_progress _) _ :: h' => S (progressed h')
  | _ :: h' => progressed h'
  end.

(** What was sent on each connection that was closed, newest first. *)
Fixpoint served (h : history rma_api) : list (list Z) :=
  match h with
  | [] => []
  | ECall (close fd) _ :: h' => sent fd h' :: served h'
  | _ :: h' => served h'
  end.

(** How many connections were accepted. *)
Fixpoint accepted (h : history rma_api) : nat :=
  match h with
  | [] => O
  | ECall c r :: h' =>
      match c return rma_ret c → nat with
      | accept _ => λ fd, if 0 <=? fd then S (accepted h') else accepted h'
      | _ => λ _, accepted h'
      end r
  | _ :: h' => accepted h'
  end.

(** The address of the worker as UCX answered it. *)
Fixpoint own_address (h : history rma_api) : list Z :=
  match h with
  | [] => []
  | ECall c r :: h' =>
      match c return rma_ret c → list Z with
      | ucp_worker_query _ _ => λ r, r.2.2
      | _ => λ _, own_address h'
      end r
  | _ :: h' => own_address h'
  end.

Section board.
Context `{!Ucs}.

(** The packing of the key: what was registered under the handle that was packed,
    and the key as UCX answered it. *)
Fixpoint own_pack (h : history rma_api) : list region * list Z :=
  match h with
  | [] => ([], [])
  | ECall c r :: h' =>
      match c return rma_ret c → list region * list Z with
      | ucp_rkey_pack _ m => λ r, (base.filter (λ g, rg_memh g = m) (mapped h'), r.2.2)
      | _ => λ _, own_pack h'
      end r
  | _ :: h' => own_pack h'
  end.

Definition board (h : history rma_api) : list (list Z) * nat * nat * list Z * (list region * list Z) :=
  (served h, accepted h, progressed h, own_address h, own_pack h).

Lemma board_inv h h' : board h = board h' →
  served h = served h' ∧ accepted h = accepted h' ∧ progressed h = progressed h' ∧
  own_address h = own_address h' ∧ own_pack h = own_pack h'.
Proof. unfold board. intros. by simplify_eq. Qed.

Lemma board_store e h : is_store e → board (e :: h) = board h.
Proof. by destruct e. Qed.

Lemma board_sends fd e h : sends fd e → board (e :: h) = board h.
Proof. destruct e as [c r| | | |]; try done. by destruct c. Qed.
End board.

Section run.
Context `{!Ucs, !Ucp}.

(** The operations and completions of a history, the newest first. *)
Fixpoint report (h : history rma_api) : list operation :=
  match h with
  | [] => []
  | ECall c r :: h' =>
      match c return rma_ret c → list operation with
      | ucp_put_nbx ep _ payload raddr rk _ => λ q,
          Put payload raddr (key_of rk h') (peer_of ep h') q :: report h'
      | ucp_get_nbx ep laddr len raddr rk _ => λ q,
          Get laddr len raddr (key_of rk h') (peer_of ep h') q :: report h'
      | ucp_ep_flush_nbx ep _ => λ q, Flush (peer_of ep h') q :: report h'
      | ucp_request_check_status q => λ st,
          if st =? UCS_INPROGRESS then report h' else Done q st :: report h'
      | _ => λ _, report h'
      end r
  | _ :: h' => report h'
  end.

(** Every request completes by the [N]th round of progress. *)
Definition completes (L : rma_lib) (N : nat) : Prop :=
  ∀ h q, (N ≤ progressed h)%nat → l_ret L h (ucp_request_check_status q) ≠ UCS_INPROGRESS.

(** Events that change neither the report nor what is exposed. *)
Definition unreported (e : event rma_api) : Prop :=
  match e with
  | ECall c r =>
      match c return rma_ret c → Prop with
      | ucp_put_nbx _ _ _ _ _ _ | ucp_get_nbx _ _ _ _ _ _ | ucp_ep_flush_nbx _ _
      | ucp_rkey_pack _ _ | ucp_mem_map _ _ _ _ | ucp_mem_unmap _ _ => λ _, False
      | ucp_request_check_status _ => λ st, st = UCS_INPROGRESS
      | _ => λ _, True
      end r
  | _ => True
  end.

Lemma unreported_report e h : unreported e → report (e :: h) = report h.
Proof.
  destruct e as [c r| | | |]; try done. destruct c; try done. simpl.
  intros ->. by rewrite Z.eqb_refl.
Qed.

Lemma unreported_exposed e h : unreported e → exposed (e :: h) = exposed h.
Proof. destruct e as [c r| | | |]; try done. by destruct c. Qed.

Lemma unreported_mapped e h : unreported e → mapped (e :: h) = mapped h.
Proof. destruct e as [c r| | | |]; try done. by destruct c. Qed.

Context (L : rma_lib) (unwinds : bool) (fuel N : nat).
Hypothesis Hpolite : polite L.
Hypothesis Hnull : nonnull_handles L.
Hypothesis Hdone : completes L N.
Hypothesis Hfuel : (N < fuel)%nat.
Implicit Types (w : rma_world) (E : halt → rma_world → Prop).

(** ** How a run stops

    With exit(1) or an exception; [I] holds when an exception is thrown, for the
    destructors. *)

Definition stops (I : rma_world → Prop) : halt → rma_world → Prop := λ h w,
  h = Exit 1 ∨ ((∃ e, h = Throw e) ∧ (unwinds = true → I w)).

Lemma stops_throw {A} (I : rma_world → Prop) what (Q : A → rma_world → Prop) w :
  I w → wp (stops I) (throw what) Q w.
Proof. intros HI. apply wp_stop. right. eauto. Qed.

Lemma stops_die {A} (I : rma_world → Prop) msg (Q : A → rma_world → Prop) w :
  wp (stops I) (client_die msg) Q w.
Proof. apply wp_bind, wp_fprintf, wp_stop. by left. Qed.

(** A scope: from the invariant of the inside to that of the outside. *)
Lemma stops_scope {X} (I I' : rma_world → Prop) (dtor : RM unit) (body : RM X)
    (Q : X → rma_world → Prop) w :
  (∀ w (Q' : unit → rma_world → Prop), I' w → (∀ w', I w' → Q' tt w') → wp (stops I) dtor Q' w) →
  wp (stops I') body (λ a w', wp (stops I) dtor (λ _ w'', Q a w'') w') w →
  wp (stops I) (scope unwinds dtor body) Q w.
Proof.
  intros Hd Hb. apply wp_scope. eapply wp_mono; [exact Hb|done|].
  intros h w' [->|[[e ->] HI]]; [by left|]. simpl. destruct unwinds eqn:Hu.
  - eapply Hd; [by apply HI|]. intros w'' HI'. right. eauto.
  - right. split; [eauto|congruence].
Qed.

(** Nothing is exposed, and no operation was started. *)
Definition quiet w : Prop :=
  exposed (trace w) = [] ∧ mapped (trace w) = [] ∧ report (trace w) = [].

(** A call that is not one of the operations. *)
Definition calm (c : rma_call) : Prop :=
  match c with ucp_get_nbx _ _ _ _ _ _ => False | _ => True end.

Lemma quiet_call E c (Q : rma_ret c → rma_world → Prop) w :
  exposed (trace w) = [] → calm c →
  (∀ r, l_ret L (trace w) c = r → Q r (push (ECall c r) w)) →
  wp E (call L c) Q w.
Proof using Hpolite.
  intros Hx Hc HQ. apply wp_call_quiet; [done| |done]. by destruct c.
Qed.

Lemma quiet_push e w : unreported e → quiet w → quiet (push e w).
Proof.
  intros He (? & ? & ?). unfold quiet. change (trace (push e w)) with (e :: trace w).
  by rewrite unreported_exposed, unreported_mapped, unreported_report.
Qed.

Lemma quiet_after P w w' : (∀ e, P e → unreported e) → after P w w' → quiet w → quiet w'.
Proof.
  intros HP Ha (? & ? & ?). unfold quiet.
  rewrite (after_ignored exposed P w w'), (after_ignored mapped P w w'),
    (after_ignored report P w w'); try done;
    intros; auto using unreported_exposed, unreported_mapped, unreported_report.
Qed.

(** ** UcxEnv::wait *)

(** What a wait for [req] reports if it ends with [st]: nothing when there was no
    request. *)
Definition completed (req st : Z) : list operation :=
  if req =? 0 then [] else [Done req st].

(** The events of a wait that ends with [st]. *)
Definition waits (st : Z) (e : event rma_api) : Prop :=
  match e with
  | EStore _ _ => True
  | ECall c r =>
      match c return rma_ret c → Prop with
      | ucp_worker_progress _ | ucp_request_free _ => λ _, True
      | ucp_request_check_status _ => λ st', st' = UCS_INPROGRESS ∨ st' = st
      | _ => λ _, False
      end r
  | _ => False
  end.

Lemma waits_exposed st e h : waits st e → exposed (e :: h) = exposed h.
Proof. destruct e as [c r| | | |]; try done. by destruct c. Qed.

Lemma waits_unreported e : waits UCS_INPROGRESS e → unreported e.
Proof.
  destruct e as [c r| | | |]; try done. destruct c; try done. simpl. by intros [-> | ->].
Qed.

Lemma store_waits st e : is_store e → waits st e.
Proof. by destruct e. Qed.

Lemma progressed_store e h : is_store e → progressed (e :: h) = progressed h.
Proof. by destruct e. Qed.

Lemma wait_ok E env req (Q : Z → rma_world → Prop) w :
  exposed_live w →
  (∀ st w', after (waits st) w w' →
     (req = 0 → st = UCS_OK) →
     report (trace w') = completed req st ++ report (trace w) → Q st w') →
  wp E (wait L fuel env req) Q w.
Proof using Hpolite Hdone Hfuel.
  intros Hl HQ. unfold wait, completed in *. destruct (Z.eqb_spec req 0) as [Hz|Hz].
  { by apply wp_ret, HQ. }
  apply wp_bind. unfold do_while.
  apply wp_loop_total with
    (I := λ _ w', after (waits UCS_INPROGRESS) w w')
    (μ := λ _ w', (N - progressed (trace w'))%nat); [reflexivity|lia|].
  intros [] w1 Ha1.
  assert (∀ st w', after (waits UCS_INPROGRESS) w w' → after (waits st) w w') as Hweak.
  { intros st w'. apply after_mono. intros [c r| | | |]; try done. destruct c; try done.
    simpl. intros [-> | ->]; by left. }
  assert (∀ st w', after (waits st) w w' → exposed_live w') as Hlive.
  { intros st w' Ha. by eapply after_exposed_live, Hl; [intros; by eapply waits_exposed|]. }
  assert (∀ st w' w'', after (waits st) w w' → after is_store w' w'' → after (waits st) w w'') as Hst.
  { intros st w' w'' Ha Ha'. etrans; [exact Ha|]. eapply after_mono; [apply store_waits|done]. }
  apply wp_bind, wp_bind.
  eapply (wp_call L _ (ucp_worker_progress (env_worker_ env))); [done|by eapply Hlive|].
  intros w2 r2 Ha2 _. pose proof (after_ignored progressed _ _ _ progressed_store Ha2) as Hp2.
  set (w3 := push _ w2). assert (after (waits UCS_INPROGRESS) w w3) as Ha3.
  { apply after_push; [done|]. by eapply Hst. }
  assert (progressed (trace w3) = S (progressed (trace w1))) as Hp3 by (simpl; by rewrite Hp2).
  clearbody w3.
  eapply (wp_call L _ (ucp_request_check_status req)); [done|by eapply Hlive|].
  intros w4 st Ha4 Hst4. pose proof (after_ignored progressed _ _ _ progressed_store Ha4) as Hp4.
  destruct (Z.eqb_spec st UCS_INPROGRESS) as [Heq|Hne].
  - apply wp_ret. split; [apply after_push; [by left; subst|]; by eapply Hst|]. simpl.
    rewrite Hp4, Hp3. destruct (decide (N ≤ progressed (trace w4))%nat) as [Hle|Hgt]; [|lia].
    by destruct (Hdone (trace w4) req Hle); rewrite Hst4.
  - apply wp_ret, wp_bind. set (w5 := push _ w4). assert (after (waits st) w w5) as Ha5.
    { apply after_push; [by right|]. eapply Hst; [|done]. by apply Hweak. }
    assert (report (trace w5) = Done req st :: report (trace w)) as Hr5.
    { simpl. rewrite (proj2 (Z.eqb_neq _ _)) by done. f_equal.
      rewrite (after_ignored report is_store w3 w4 ltac:(by intros []) Ha4).
      eapply after_ignored; [|exact Ha3]. intros. by apply unreported_report, waits_unreported. }
    eapply (wp_call L _ (ucp_request_free req)); [done|by eapply Hlive|].
    intros w6 r6 Ha6 _. apply wp_ret, HQ; [|done|].
    { apply after_push; [done|]. by eapply Hst. }
    simpl. rewrite <-Hr5. eapply (after_ignored report); [|exact Ha6]. by intros [].
Qed.
End run.
