(* ===== verification/RmaClient.v ===== *)
(** * ucp_rma_client_server: the client

    client_main from the command line to its return: one transfer with the
    parameters of the handshake ([transferred]), no access outside the buffer, no failure
    that is not noticed. *)

From S2P Require Import Prelude CRuntime CLib Ucx RmaApi RmaTcp RmaUcx RmaMain RmaSpec RmaWire RmaRead RmaVec Ownership RmaOwn RmaRun.
Open Scope Z_scope.

(** What a run reports, the newest first: a put from the buffer [p] that completed,
    if it was not complete at once, and then a flush that did; or a get. Neither was
    answered an error. *)
Definition transferred `{!Ucs} (do_put : bool) (p : ptr) (n raddr : Z) (key peer : list Z)
    (ops : list operation) : Prop :=
  if do_put then ∃ q q', UCS_PTR_IS_ERR q = false ∧ UCS_PTR_IS_ERR q' = false ∧
    ops = completed q' UCS_OK ++ Flush peer q' ::
          completed q UCS_OK ++ [Put (pattern n put_char_at) raddr key peer q]
  else ∃ q, UCS_PTR_IS_ERR q = false ∧
    ops = completed q UCS_OK ++ [Get p n raddr key peer q].

Section client.
Context `{!Ucs, !Ucp} (L : rma_lib) (unwinds : bool) (fuel N : nat).
Hypothesis Hpolite : polite L.
Hypothesis Hnull : nonnull_handles L.
Hypothesis Hdone : completes L N.
Hypothesis Hfuel : (N < fuel)%nat.
Implicit Types (w : rma_world) (E : halt → rma_world → Prop).
Local Abbreviation stops := (stops unwinds).

(** ** Inside the scope of lmem *)

Section inside.
Context (p : ptr) (n m : Z).

(** At most the buffer is exposed. *)
Definition inside w : Prop :=
  Forall (eq (Region m p n)) (exposed (trace w)) ∧ one_buffer p n w.

Lemma inside_live w : inside w → exposed_live w.
Proof.
  intros [Hx Hb]. eapply Forall_impl; [|exact Hx]. intros g <-. by apply one_buffer_live.
Qed.

Lemma inside_after P w w' :
  (∀ e h, P e → exposed (e :: h) = exposed h) → after P w w' → inside w → inside w'.
Proof.
  intros HP Ha [Hx Hb]. split; [by rewrite (after_ignored exposed P w w')|].
  by eapply one_buffer_after.
Qed.

Lemma peer_of_store ep e h : is_store e → peer_of ep (e :: h) = peer_of ep h.
Proof. by destruct e. Qed.

Lemma report_store e h : is_store e → report (e :: h) = report h.
Proof. by destruct e. Qed.

(** A call that exposes nothing. *)
Lemma inside_call E c (Q : rma_ret c → rma_world → Prop) w :
  calm c → (∀ r h, exposed (ECall (A := rma_api) c r :: h) = exposed h) →
  (∀ r h, report (ECall (A := rma_api) c r :: h) = report h) →
  inside w →
  (∀ r w', inside w' → report (trace w') = report (trace w) → Q r w') →
  wp E (call L c) Q w.
Proof using Hpolite.
  intros Hc Hx Hr Hi HQ. apply wp_call; [done|..].
  { pose proof (inside_live w Hi). by destruct c. }
  intros w1 r Ha Hl. apply HQ.
  - pose proof (inside_after _ _ _ exposed_store Ha Hi) as [Hx1 Hb1].
    split; [|exact Hb1]. change (trace (push (ECall c r) w1)) with (ECall c r :: trace w1). by rewrite Hx.
  - simpl trace. rewrite Hr. exact (after_ignored report _ _ _ report_store Ha).
Qed.

Lemma finish_ok (I : rma_world → Prop) env req msg (Q : unit → rma_world → Prop) w :
  inside w →
  (∀ w', inside w' → (∀ ep, peer_of ep (trace w') = peer_of ep (trace w)) →
     report (trace w') = completed req UCS_OK ++ report (trace w) → Q tt w') →
  wp (stops I) (finish L fuel env req msg) Q w.
Proof using Hpolite Hdone Hfuel.
  intros Hi HQ. apply wp_bind. eapply (wait_ok L fuel N); [done..|by apply inside_live|].
  intros st w1 Ha _ Hr. apply wp_when; [intros _; apply stops_die|]. intros Hf. unfold failed in Hf.
  apply negb_false_iff, Z.eqb_eq in Hf as ->. apply HQ; [| |done].
  - eapply inside_after; [|exact Ha|exact Hi]. intros e h. apply waits_exposed.
  - intros ep. eapply (after_ignored (peer_of ep)); [|exact Ha].
    intros [c r| | | |] h; try done. by destruct c.
Qed.

Lemma check_ptr_ok rk req msg (Q : unit → rma_world → Prop) w :
  inside w → (UCS_PTR_IS_ERR req = false → Q tt w) →
  wp (stops inside) (check_ptr L rk req msg) Q w.
Proof using Hpolite.
  intros Hi HQ. apply wp_when; intros He; [|by apply HQ].
  apply wp_bind. apply wp_conseq with (Q := λ _ w', inside w').
  - apply wp_when; intros _; [|done]. eapply (inside_call _ (ucp_rkey_destroy rk)); [done..|]. auto.
  - intros [] w' Hi'. by apply stops_throw.
Qed.

Lemma rma_op_ok do_put env ep raddr rk key peer (Q : unit → rma_world → Prop) w :
  0 ≤ n → exposed (trace w) = [] → one_buffer p n w →
  (do_put = true → buffer_is p (pattern n put_char_at) w) →
  key_of rk (trace w) = key → peer_of (ep_ ep) (trace w) = peer →
  report (trace w) = [] →
  (∀ w', inside w' → transferred do_put p n raddr key peer (report (trace w')) → Q tt w') →
  wp (stops inside) (rma_op L fuel do_put env ep p n raddr rk (RmaParam UCP_OP_ATTR_FIELD_MEMH m)) Q w.
Proof using Hpolite Hdone Hfuel.
  intros Hn Hx Hb Hd Hkey Hpeer Hrep HQ. unfold rma_op. destruct do_put; apply wp_bind.
  - unfold put_nbx. apply wp_bind. eapply read_all_ok; [done|by apply Hd|..].
    { unfold pattern. by rewrite length_fmap, length_seq. }
    eapply (quiet_call L Hpolite _ (ucp_put_nbx _ _ _ _ _ _)); [done..|]. intros req _.
    set (w1 := push _ w). assert (inside w1) as Hi1 by (split; [simpl; by rewrite Hx|done]).
    assert (report (trace w1) = [Put (pattern n put_char_at) raddr key peer req]) as Hr1
      by (simpl; by rewrite Hrep, Hkey, Hpeer).
    assert (peer_of (ep_ ep) (trace w1) = peer) as Hp1 by done.
    clearbody w1. apply wp_bind, check_ptr_ok; [done|]. intros He2.
    apply wp_bind, finish_ok; [done|]. intros w3 Hi3 Hp3 Hr3.
    apply wp_bind. eapply (wp_call L _ (ucp_ep_flush_nbx _ _)); [done|by apply inside_live|].
    intros w4' req2 Ha4 _. set (w4 := push _ w4').
    assert (inside w4) as Hi4 by exact (inside_after _ _ _ exposed_store Ha4 Hi3).
    assert (report (trace w4) = Flush peer req2 :: report (trace w3)) as Hr4.
    { simpl. rewrite (after_ignored report _ _ _ report_store Ha4).
      rewrite (after_ignored (peer_of (ep_ ep)) _ _ _ (peer_of_store _) Ha4). by rewrite Hp3, Hp1. }
    clearbody w4. apply wp_bind, check_ptr_ok; [done|]. intros He4.
    apply finish_ok; [done|]. intros w6 Hi6 _ Hr6. apply HQ; [done|].
    exists req, req2. split_and!; [done..|]. by rewrite Hr6, Hr4, Hr3, Hr1.
  - unfold get_nbx. eapply (wp_call L _ (ucp_get_nbx _ _ _ _ _ _)); [done|..].
    { simpl. rewrite Hx. constructor; [by apply one_buffer_live|done]. }
    intros w1 req Ha _. set (w2 := push _ w1).
    assert (exposed (trace w1) = []) as Hx1.
    { rewrite <-Hx. eapply after_ignored; [apply exposed_store|exact Ha]. }
    assert (inside w2) as Hi2.
    { split; [simpl; rewrite Hx1; by constructor|]. eapply one_buffer_after in Ha; [|exact Hb].
      exact Ha. }
    assert (report (trace w2) = [Get p n raddr key peer req]) as Hr2.
    { assert (report (trace w1) = []) as Hr1.
      { rewrite <-Hrep. eapply after_ignored; [apply report_store|exact Ha]. }
      assert (key_of rk (trace w1) = key) as Hk1.
      { rewrite <-Hkey. eapply (after_ignored (key_of rk)); [|exact Ha]. by intros []. }
      assert (peer_of (ep_ ep) (trace w1) = peer) as Hp1.
      { rewrite <-Hpeer. eapply (after_ignored (peer_of (ep_ ep))); [|exact Ha]. by intros []. }
      simpl. by rewrite Hr1, Hk1, Hp1. }
    clearbody w2. apply wp_bind, check_ptr_ok; [done|]. intros He2.
    apply finish_ok; [done|]. intros w4 Hi4 _ Hr4. apply HQ; [done|].
    exists req. split; [done|]. by rewrite Hr4, Hr2.
Qed.

Lemma delete_UcxMem_ok E mem (Q : unit → rma_world → Prop) w :
  m ≠ 0 → memh_ mem = m → inside w →
  (∀ w', exposed (trace w') = [] → one_buffer p n w' →
     report (trace w') = report (trace w) → board (trace w') = board (trace w) → Q tt w') →
  wp E (delete_UcxMem L mem) Q w.
Proof using Hpolite.
  intros Hm <- Hi HQ. unfold delete_UcxMem. rewrite (proj2 (Z.eqb_neq _ _)) by done.
  apply wp_bind. eapply (wp_call L _ (ucp_mem_unmap _ _)); [done|by apply inside_live|].
  intros w1 r Ha _. apply wp_ret.
  pose proof (inside_after _ _ _ exposed_store Ha Hi) as [Hx1 Hb1]. apply HQ.
  - simpl. induction Hx1 as [|g gs <- _ IH]; [done|]. simpl.
    rewrite filter_cons_False; [exact IH|]. simpl. auto.
  - exact Hb1.
  - exact (after_ignored report _ _ _ report_store Ha).
  - exact (after_ignored board _ _ _ board_store Ha).
Qed.
End inside.

(** ** The scopes *)

(** Before the operation: nothing is exposed or reported, and the history tells
    where the endpoint and the key come from. *)
Record prepared (ep rk : Z) (key peer : list Z) (h : history rma_api) : Prop := {
  prep_exposed : exposed h = [];
  prep_report : report h = [];
  prep_key : key_of rk h = key;
  prep_peer : peer_of ep h = peer;
}.

(** In the scope of lbuf. *)
Definition in_lbuf (p : ptr) (n : Z) w : Prop :=
  exposed (trace w) = [] ∧ one_buffer p n w.

Lemma with_lmem_ok do_put env ep p n raddr rk key peer (Q : Z → rma_world → Prop) w :
  0 ≤ n → one_buffer p n w → (do_put = true → buffer_is p (pattern n put_char_at) w) →
  prepared (ep_ ep) rk key peer (trace w) →
  (∀ w', in_lbuf p n w' → transferred do_put p n raddr key peer (report (trace w')) → Q 0 w') →
  wp (stops (in_lbuf p n)) (with_lmem L unwinds fuel do_put env ep p n raddr rk) Q w.
Proof using Hpolite Hnull Hdone Hfuel.
  intros Hn Hb Hd [Hx Hr Hk Hp] HQ. apply wp_bind. unfold new_UcxMem. apply wp_bind.
  eapply (quiet_call L Hpolite _ (ucp_mem_map _ _ _ _)); [done..|]. intros [st m] Hret.
  destruct (failed st) eqn:Hf; [by apply stops_throw|]. apply wp_ret.
  assert (m ≠ 0) as Hm.
  { apply (Hnull _ _ _ ltac:(rewrite Hret; simpl; unfold failed in Hf;
      apply negb_false_iff in Hf; by rewrite Hf)). }
  apply (stops_scope _ _ (inside p n m)).
  { intros w1 Q' Hi HQ'. eapply delete_UcxMem_ok; [done|done|exact Hi|].
    intros w2 Hx2 Hb2 _ _. by apply HQ'. }
  apply wp_bind. eapply rma_op_ok; [done|done|exact Hb|exact Hd|exact Hk|exact Hp|exact Hr|].
  intros w1 Hi1 Hr1. apply wp_bind, wp_fprintf.
  apply wp_bind. eapply print_head_ok; [apply Hi1|unfold head_size; lia|].
  intros w2 Ha2'. assert (after is_output w1 w2) as Ha2.
  { etrans; [|exact Ha2']. by apply after_out. }
  apply wp_bind, wp_fprintf.
  assert (inside p n m w2) as Hi2.
  { eapply inside_after; [|exact Ha2|exact Hi1]. by intros []. }
  assert (report (trace w2) = report (trace w1)) as Hr2.
  { eapply (after_ignored report _ _ _); [|exact Ha2]. by intros []. }
  apply wp_bind. match goal with |- wp _ _ _ ?w => set (w3 := w) end.
  apply wp_conseq with (Q := λ _ w', inside p n m w' ∧ report (trace w') = report (trace w2)).
  { apply wp_when; intros _; [|done]. eapply (inside_call p n m _ (ucp_rkey_destroy rk)); [done..|].
    intros r w' Hi' Hr'. split; [exact Hi'|exact Hr']. }
  intros [] w4 [Hi4 Hr4]. apply wp_ret. eapply delete_UcxMem_ok; [exact Hm|done|exact Hi4|].
  intros w5 Hx5 Hb5 Hr5 _. apply HQ; [done|]. by rewrite Hr5, Hr4, Hr2.
Qed.

Lemma with_lbuf_ok do_put env ep n raddr rk key peer (Q : Z → rma_world → Prop) w :
  0 ≤ n → heap w = ∅ → wf_mem w → prepared (ep_ ep) rk key peer (trace w) →
  (∀ w', heap w' = ∅ → exposed (trace w') = [] →
     transferred do_put (vector_data (next w) n) n raddr key peer (report (trace w')) → Q 0 w') →
  wp (stops (λ w, exposed (trace w) = [])) (with_lbuf L unwinds fuel do_put env ep n raddr rk) Q w.
Proof using Hpolite Hnull Hdone Hfuel.
  intros Hn Hh Hwf Hprep HQ. apply wp_bind. eapply new_vector_ok; [done..| |].
  { intros what w1 _ _ Ht. right. split; [eauto|]. intros _.
    destruct Ht as [->|[ok ->]]; apply Hprep. }
  intros p w1 Hpd Hb1 Hd1 Ht1.
  assert (prepared (ep_ ep) rk key peer (trace w1)) as Hprep1.
  { destruct Ht1 as [->|[ok ->]]; [done|]. by destruct Hprep. }
  apply (stops_scope _ _ (in_lbuf p n)).
  { intros w2 Q' [Hx2 Hb2] HQ'. eapply delete_vector_ok; [exact Hb2|].
    intros w3 _ Ht3 _. apply HQ'. by rewrite Ht3. }
  apply wp_bind.
  apply wp_conseq with (Q := λ _ w', one_buffer p n w' ∧ trace w' = trace w1 ∧
    (do_put = true → buffer_is p (pattern n put_char_at) w')).
  { apply wp_when; intros Hput; [|by rewrite Hput].
    eapply fill_ok; [exact Hb1|exact Hd1|]. auto. }
  intros [] w2 (Hb2 & Ht2 & Hd2). eapply with_lmem_ok; [done|exact Hb2|exact Hd2|by rewrite Ht2|].
  intros w3 [Hx3 Hb3] Hr3. eapply delete_vector_ok; [exact Hb3|].
  intros w4 Hh4 Ht4 _. apply HQ; [done|by rewrite Ht4|by rewrite Ht4, <-Hpd].
Qed.

(** ** main *)

(** Before there is an endpoint: no memory, nothing exposed or reported. *)
Definition fresh w : Prop := quiet w ∧ heap w = ∅ ∧ wf_mem w ∧ next w = 0%N.

Lemma fresh_push e w : unreported e → fresh w → fresh (push e w).
Proof using. intros He (? & ? & ?). split; [by apply quiet_push|done]. Qed.

Lemma fresh_after P w w' : (∀ e, P e → unreported e) → after P w w' → fresh w → fresh w'.
Proof using.
  intros HP Ha (Hq & Hh & Hwf & Hn). split; [by eapply quiet_after|].
  split; [|split; [by eapply after_wf|by destruct Ha as (-> & _)]].
  apply empty_shape. intros b. destruct Ha as (_ & Hs & _). rewrite Hs. by apply shape_empty.
Qed.

Lemma fresh_call E c (Q : rma_ret c → rma_world → Prop) w :
  fresh w → calm c → (∀ r, unreported (ECall (A := rma_api) c r)) →
  (∀ r, l_ret L (trace w) c = r → fresh (push (ECall (A := rma_api) c r) w) →
     Q r (push (ECall (A := rma_api) c r) w)) →
  wp E (call L c) Q w.
Proof using Hpolite.
  intros Hf Hc Hu HQ. eapply quiet_call; [done|apply Hf|done|]. intros r Hr.
  apply HQ; [done|]. by apply fresh_push.
Qed.

Lemma tcp_connect_ok (I : rma_world → Prop) ip port (Q : Z → rma_world → Prop) w :
  fresh w → (∀ w', I w') →
  (∀ fd w', fresh w' → received fd (trace w') = [] → Q fd w') →
  wp (stops I) (tcp_connect L ip port) Q w.
Proof using Hpolite.
  intros Hf HI HQ. apply wp_bind. eapply (fresh_call _ socket); [done..|]. intros fd _ Hf1.
  destruct (fd <? 0); [by apply stops_throw|].
  apply wp_bind. eapply (fresh_call _ (inet_pton ip)); [done..|]. intros [r addr] _ Hf2.
  destruct (negb (r =? 1)); [by apply stops_throw|].
  apply wp_bind. eapply (fresh_call _ (connect_ fd addr (htons port))); [done..|]. intros c _ Hf3.
  destruct (c <? 0); [by apply stops_throw|]. apply wp_ret, HQ; [done|].
  simpl. by rewrite decide_True.
Qed.

Lemma new_UcxEnv_ok (I : rma_world → Prop) (Q : UcxEnv → rma_world → Prop) w :
  fresh w → (∀ w', I w') →
  (∀ env w', fresh w' → env_worker_ env ≠ 0 → env_ctx_ env ≠ 0 → Q env w') →
  wp (stops I) (new_UcxEnv L) Q w.
Proof using Hpolite Hnull.
  intros Hf HI HQ. apply wp_bind. eapply (fresh_call _ ucp_config_read); [done..|].
  intros [st c] _ Hf1. destruct (failed st); [by apply stops_throw|].
  apply wp_bind. eapply (fresh_call _ (ucp_init _ _ _)); [done..|]. intros [st2 x] Hr2 Hf2.
  destruct (failed st2) eqn:Hx.
  { apply wp_bind. eapply (fresh_call _ (ucp_config_release c)); [done..|]. intros. by apply stops_throw. }
  apply wp_bind. eapply (fresh_call _ (ucp_config_release c)); [done..|]. intros r3 _ Hf3.
  apply wp_bind. eapply (fresh_call _ (ucp_worker_create _ _ _)); [done..|]. intros [st4 y] Hr4 Hf4.
  destruct (failed st4) eqn:Hy.
  { apply wp_bind. eapply (fresh_call _ (ucp_cleanup x)); [done..|]. intros. by apply stops_throw. }
  unfold failed in Hx, Hy. apply negb_false_iff in Hx, Hy. apply wp_ret, HQ; [done|..].
  - apply (Hnull _ _ _ ltac:(rewrite Hr4; simpl; by rewrite Hy)).
  - apply (Hnull _ _ _ ltac:(rewrite Hr2; simpl; by rewrite Hx)).
Qed.

(** The destructors of endpoint and environment, once nothing is exposed. *)
Lemma done_call E c (Q : rma_ret c → rma_world → Prop) w :
  exposed (trace w) = [] → calm c →
  (∀ r h, exposed h = [] → exposed (ECall (A := rma_api) c r :: h) = []) →
  (∀ r h, report (ECall (A := rma_api) c r :: h) = report h) →
  (∀ r h, board (ECall (A := rma_api) c r :: h) = board h) →
  (∀ r w', exposed (trace w') = [] → heap w' = heap w → report (trace w') = report (trace w) →
     board (trace w') = board (trace w) → Q r w') →
  wp E (call L c) Q w.
Proof using Hpolite.
  intros Hx Hc Hxc Hrc Hbc HQ. eapply quiet_call; [done..|]. intros r _. apply HQ; [|done|..].
  - by apply Hxc.
  - apply Hrc.
  - apply Hbc.
Qed.

Definition finished w w' : Prop :=
  exposed (trace w') = [] ∧ heap w' = heap w ∧ report (trace w') = report (trace w) ∧
  board (trace w') = board (trace w).

Lemma delete_UcxEndpoint_ok E ep (Q : unit → rma_world → Prop) w :
  exposed (trace w) = [] → (∀ w', finished w w' → Q tt w') →
  wp E (delete_UcxEndpoint L ep) Q w.
Proof using Hpolite.
  intros Hx HQ. apply wp_when; intros _; [|by apply HQ].
  eapply (done_call _ (ucp_ep_destroy (ep_ ep))); [done..|]. intros [] w' ? ? ? ?. by apply HQ.
Qed.

Lemma delete_UcxEnv_ok E env (Q : unit → rma_world → Prop) w :
  exposed (trace w) = [] → (∀ w', finished w w' → Q tt w') →
  wp E (delete_UcxEnv L env) Q w.
Proof using Hpolite.
  intros Hx HQ. apply wp_bind.
  apply wp_conseq with (Q := λ _ w', finished w w').
  { apply wp_when; intros _; [|done].
    by eapply (done_call _ (ucp_worker_destroy (env_worker_ env))). }
  intros [] w1 (Hx1 & Hh1 & Hr1 & Hb1). apply wp_when; intros _; [|by apply HQ].
  eapply (done_call _ (ucp_cleanup (env_ctx_ env))); [done..|]. intros [] w2 Hx2 Hh2 Hr2 Hb2.
  apply HQ. split; [done|]. by rewrite Hh2, Hr2, Hb2.
Qed.

Definition client_result (argv : list string) (input : list Z) (r : Z) w : Prop :=
  heap w = ∅ ∧
  ((r = 1 ∧ (length argv < 4)%nat ∧ report (trace w) = []) ∨
   (r = 0 ∧ ∃ do_put hs rest,
      argv !! 3%nat = Some (if (do_put : bool) then "put"%string else "get"%string) ∧
      parse input = Some (hs, rest) ∧
      transferred do_put (vector_data 0 (size hs)) (size hs) (remote_addr hs) (rkey hs)
        (worker_addr hs) (report (trace w)))).

Lemma mode_known argv m : m ≠ ""%string → argv_ argv 3 = m → argv !! 3%nat = Some m.
Proof using. unfold argv_. destruct (argv !! 3%nat); simpl; congruence. Qed.

Lemma client_main_ok argv input w :
  (∀ fd, delivers L fd input) → Forall is_byte input → fresh w →
  wp (stops (λ _, True)) (client_main L unwinds fuel argv) (client_result argv input) w.
Proof using Hpolite Hnull Hdone Hfuel.
  intros Hdel Hbytes Hf. unfold client_main.
  destruct (Nat.ltb_spec (length argv) 4) as [Hargc|Hargc].
  { apply wp_bind, wp_fprintf, wp_ret. split; [apply Hf|]. left. split_and!; [done|done|apply Hf]. }
  cbv zeta. set (do_put := bool_decide (argv_ argv 3 = "put"%string)).
  set (do_get := bool_decide (argv_ argv 3 = "get"%string)).
  apply wp_bind. apply wp_conseq with (Q := λ _ w', fresh w').
  { apply wp_when; intros _; [|done]. apply wp_reserve; [done| |].
    - intros [] _ _; [by apply fresh_push|]. right. eauto.
    - intros _. right. eauto. }
  intros [] w1 Hf1. apply wp_bind, wp_when; [intros _; apply stops_die|]. intros Hmode.
  assert (argv !! 3%nat = Some (if do_put then "put"%string else "get"%string)) as Hargv.
  { apply mode_known; [by destruct do_put|]. unfold do_put, do_get in *.
    case_bool_decide; [done|]. case_bool_decide; [done|]. done. }
  clearbody do_put do_get. clear Hmode.
  apply wp_bind, tcp_connect_ok; [done|done|]. intros fd w2 Hf2 Hrecv.
  assert (unread fd input (trace w2) = input) as Hun by (unfold unread; by rewrite Hrecv).
  apply wp_bind. eapply wp_mono; [apply (recv_fd_refines L fd input Hpolite (Hdel fd))|..].
  { unfold exposed_live. destruct Hf2 as [[-> _] _]. constructor. }
  { by rewrite Hun. }
  2:{ intros h w' [_ Hh]. right. split; [|done]. destruct Hh as [[-> _]|Hh]; eauto. }
  intros hs w3 (Ha3 & Hhs & Hparse & _). rewrite Hun in Hparse.
  assert (fresh w3) as Hf3.
  { eapply fresh_after; [|exact Ha3|exact Hf2]. intros [c r| | | |]; try done. by destruct c. }
  apply wp_bind. eapply (fresh_call _ (close fd)); [done..|]. intros r4 _ Hf4.
  rewrite u64_small by apply Hhs.
  apply wp_bind. eapply new_UcxEnv_ok; [exact Hf4|done|]. intros env w5 Hf5 _ _.
  apply (stops_scope _ _ (λ w, exposed (trace w) = [])).
  { intros w6 Q' Hx6 HQ'. eapply delete_UcxEnv_ok; [done|]. intros w7 _. by apply HQ'. }
  apply wp_bind. unfold new_UcxEndpoint. apply wp_bind.
  eapply (fresh_call _ (ucp_ep_create _ _ _)); [done..|]. intros [st e] _ Hf6.
  destruct (failed st); [apply stops_throw, Hf6|]. apply wp_ret. simpl.
  apply (stops_scope _ _ (λ w, exposed (trace w) = [])).
  { intros w7 Q' Hx7 HQ'. eapply delete_UcxEndpoint_ok; [done|]. intros w8 (Hx8 & _). by apply HQ'. }
  apply wp_bind. unfold import_rkey. apply wp_bind.
  eapply (fresh_call _ (ucp_ep_rkey_unpack _ _)); [done..|]. intros [st2 rk] _ Hf7.
  destruct (failed st2); [apply stops_throw, Hf7|]. apply wp_ret.
  eapply with_lbuf_ok; [apply Hhs|apply Hf7|apply Hf7|..].
  { split; [apply Hf7|apply Hf7|simpl; by rewrite decide_True|simpl; by rewrite decide_True]. }
  intros w8 Hh8 Hx8 Hr8. eapply delete_UcxEndpoint_ok; [done|]. intros w9 (Hx9 & Hh9 & Hr9 & _).
  eapply delete_UcxEnv_ok; [done|]. intros w10 (Hx10 & Hh10 & Hr10 & _).
  split; [by rewrite Hh10, Hh9|]. right. split; [done|]. exists do_put, hs, (unread fd input (trace w3)).
  split_and!; [done|done|]. rewrite Hr10, Hr9. by rewrite (proj2 (proj2 (proj2 Hf7))) in Hr8.
Qed.
End client.
