(* ===== verification/RmaServe.v ===== *)
(** * ucp_rma_client_server: the server

    server_main serves every connection it accepts with the same handshake, that of its buffer ([published]), makes
    no access outside its buffer, and does not stop by itself; but one connection
    that fails stops it. *)

From S2P Require Import Prelude CRuntime CLib Ucx RmaApi RmaTcp RmaUcx RmaMain RmaSpec RmaWire RmaRead RmaVec Ownership RmaOwn RmaRun RmaClient.
Open Scope Z_scope.

(** Memory suffices, and send takes something. *)
Record healthy (L : rma_lib) : Prop := {
  healthy_alloc : ∀ h n, n ≤ max_size → l_alloc L h n = true;
  healthy_send : ∀ h fd bs, bs ≠ [] → 0 < l_ret L h (send fd bs);
}.

Section serve.
Context `{!Ucs, !Ucp} (L : rma_lib) (unwinds : bool) (fuel : nat).
Hypothesis Hpolite : polite L.
Hypothesis Hsend : send_bounded L.
Implicit Types (w : rma_world) (E : halt → rma_world → Prop).

(** ** One round of the loop *)

Section loop.
Context (p : ptr) (n m : Z) (hs : Handshake).
Hypothesis Hwa : vsize (worker_addr hs) ≤ max_size.
Hypothesis Hrk : vsize (rkey hs) ≤ max_size.

Lemma inside_step E c (Q : rma_ret c → rma_world → Prop) w :
  calm c → (∀ r h, exposed (ECall (A := rma_api) c r :: h) = exposed h) →
  inside p n m w →
  (∀ r w1, after is_store w w1 → l_ret L (trace w1) c = r →
     inside p n m (push (ECall (A := rma_api) c r) w1) →
     Q r (push (ECall (A := rma_api) c r) w1)) →
  wp E (call L c) Q w.
Proof using Hpolite.
  intros Hc Hx Hi HQ. apply wp_call; [done|..].
  { pose proof (inside_live p n m w Hi). by destruct c. }
  intros w1 r Ha Hl. apply HQ; [done|done|].
  pose proof (inside_after p n m _ _ _ exposed_store Ha Hi) as [Hx1 Hb1].
  split; [|exact Hb1]. change (trace (push (ECall c r) w1)) with (ECall c r :: trace w1). by rewrite Hx.
Qed.

(** Everything that was served is [wire hs], and everything accepted was served. *)
Definition good w : Prop :=
  inside p n m w ∧ own_address (trace w) = worker_addr hs ∧ own_pack (trace w) = ([Region m p n], rkey hs) ∧
  Forall (eq (wire hs)) (served (trace w)).

(** What is left when the loop stops: one connection may be half served. *)
Definition left_behind (k : nat) w : Prop :=
  own_address (trace w) = worker_addr hs ∧ own_pack (trace w) = ([Region m p n], rkey hs) ∧
  Forall (eq (wire hs)) (served (trace w)) ∧ accepted (trace w) = (k + length (served (trace w)))%nat.

Definition stopped (I : rma_world → Prop) : halt → rma_world → Prop := λ h w,
  (h = NoFuel ∧ left_behind 0 w ∧ progressed (trace w) = fuel) ∨
  ((∃ e, h = Throw e) ∧ ¬ healthy L ∧ left_behind 1 w ∧ I w).

(** The board of a good world. *)
Definition reads_board w (k rounds : nat) : Prop :=
  good w ∧ accepted (trace w) = (k + length (served (trace w)))%nat ∧ progressed (trace w) = rounds.

Lemma same_board w w' k rounds :
  inside p n m w' → board (trace w') = board (trace w) →
  reads_board w k rounds → reads_board w' k rounds.
Proof.
  unfold reads_board, good. intros Hi (-> & -> & -> & -> & ->)%board_inv (Hg & ? & ?).
  by destruct Hg as (_ & ? & ? & ?).
Qed.

Lemma reads_left_behind w k rounds : reads_board w k rounds → left_behind k w.
Proof. intros ((_ & ? & ? & ?) & ? & _). by split_and!. Qed.

Lemma stopped_throw {A} what rounds (Q : A → rma_world → Prop) w :
  ¬ healthy L → reads_board w 1 rounds → wp (stopped (inside p n m)) (throw what) Q w.
Proof.
  intros Hh Hr. apply wp_stop. right. split_and!; [eauto|done|by eapply reads_left_behind|apply Hr].
Qed.

(** A call that changes nothing on the board. *)
Lemma dull_call E c (Q : rma_ret c → rma_world → Prop) w k rounds :
  calm c → (∀ r h, exposed (ECall (A := rma_api) c r :: h) = exposed h) →
  (∀ r h, board (ECall (A := rma_api) c r :: h) = board h) →
  reads_board w k rounds →
  (∀ r w', reads_board w' k rounds → Q r w') → wp E (call L c) Q w.
Proof using Hpolite.
  intros Hc Hx Hb Hr HQ. apply inside_step; [done|done|apply Hr|].
  intros r w1 Ha _ Hi. apply HQ. eapply same_board; [exact Hi| |exact Hr].
  change (trace (push (ECall c r) w1)) with (ECall c r :: trace w1). rewrite Hb.
  exact (after_ignored board _ _ _ board_store Ha).
Qed.

Lemma reserve_ok k rounds bytes (Q : unit → rma_world → Prop) w :
  k = 1%nat → vsize bytes ≤ max_size → reads_board w k rounds → (∀ w', reads_board w' k rounds →
    (∀ fd, sent fd (trace w') = sent fd (trace w)) → Q tt w') →
  wp (stopped (inside p n m)) (reserve L (vsize bytes)) Q w.
Proof.
  intros -> Hmax Hr HQ. apply wp_reserve; [by intros _; apply HQ| |lia].
  intros ok Ha _. destruct ok; [by apply HQ|]. right.
  split_and!; [eauto| |by apply (reads_left_behind w 1 rounds)|apply Hr].
  intros [Hal _]. by rewrite Hal in Ha.
Qed.

Lemma serve_one_ok lfd rounds (Q : unit → rma_world → Prop) w :
  reads_board w 0 rounds → (∀ w', reads_board w' 0 rounds → Q tt w') →
  wp (stopped (inside p n m)) (serve_one L lfd hs p n) Q w.
Proof.
  intros Hr HQ. unfold serve_one, accept_nonblock. apply wp_bind, wp_bind.
  eapply (dull_call _ (poll_in lfd)); [done..|]. intros [pret pollin] w1 Hr1.
  destruct ((pret <=? 0) || negb pollin). { by apply wp_ret, wp_ret, HQ. }
  eapply (inside_step _ (accept lfd)); [done|done|apply Hr1|].
  intros cfd w2 Ha2 _ Hi2. set (w3 := push _ w2).
  assert (board (trace w2) = board (trace w1)) as Hb2 by exact (after_ignored board _ _ _ board_store Ha2).
  destruct (Z.leb_spec 0 cfd) as [Hcfd|Hneg].
  2:{ apply wp_ret, HQ. eapply same_board; [exact Hi2| |exact Hr1]. rewrite <-Hb2.
      unfold board. simpl. by rewrite (proj2 (Z.leb_gt _ _)) by done. }
  assert (reads_board w3 1 rounds) as Hr3.
  { destruct Hr1 as ((_ & Had & Hk & Hsv) & Hac & Hpr).
    apply board_inv in Hb2 as (E1 & E2 & E3 & E4 & E5).
    split; [split_and!; [exact Hi2|simpl; by rewrite ?E4, ?E5, ?E1..]|]. simpl.
    by rewrite (proj2 (Z.leb_le _ _)), E1, E2, E3, Hac by done. }
  assert (sent cfd (trace w3) = []) as Hs3 by (simpl; by rewrite decide_True).
  clearbody w3. apply wp_bind. eapply reserve_ok; [done|done|exact Hr3|]. intros w4 Hr4 Hs4.
  apply wp_bind. eapply reserve_ok; [done|done|exact Hr4|]. intros w5 Hr5 Hs5.
  apply wp_bind. eapply send_fd_ok; [done|done| |done|done|..].
  { eapply inside_live, Hr5. }
  2:{ intros w6 Href Ha6 [k Hk]. right. assert (reads_board w6 1 rounds) as Hr6.
      { eapply same_board; [|exact (after_ignored board _ _ _ (board_sends cfd) Ha6)|exact Hr5].
        eapply inside_after; [|exact Ha6|apply Hr5]. intros. by eapply exposed_sends. }
      split_and!; [eauto| |by eapply reads_left_behind|apply Hr6].
      intros [_ Hs]. destruct Href as (h & bs & Hbs & Hle). specialize (Hs h cfd bs Hbs). lia. }
  intros w6 Ha6 Hs6. rewrite Hs5, Hs4, Hs3 in Hs6. simpl in Hs6.
  assert (reads_board w6 1 rounds) as Hr6.
  { eapply same_board; [|exact (after_ignored board _ _ _ (board_sends cfd) Ha6)|exact Hr5].
    eapply inside_after; [|exact Ha6|apply Hr5]. intros. by eapply exposed_sends. }
  apply wp_bind. eapply (inside_step _ (close cfd)); [done|done|apply Hr6|].
  intros r7 w7 Ha7 _ Hi7. apply wp_fprintf, HQ.
  assert (board (trace w7) = board (trace w6)) as Hb7 by exact (after_ignored board _ _ _ board_store Ha7).
  assert (sent cfd (trace w7) = wire hs) as Hs7.
  { rewrite <-Hs6. eapply (after_ignored (sent cfd)); [|exact Ha7]. intros. by apply sent_store. }
  destruct Hr6 as ((_ & Had & Hk & Hsv) & Hac & Hpr).
  apply board_inv in Hb7 as (E1 & E2 & E3 & E4 & E5).
  split; [split_and!; [exact Hi7|simpl; by rewrite ?E4, ?E5..|]|]; simpl.
  - rewrite E1, Hs7. by constructor.
  - rewrite E1, E2, E3, Hac. split; [simpl; lia|done].
Qed.

Lemma print_periodically_ok E last rounds (Q : Z → rma_world → Prop) w :
  reads_board w 0 rounds → (∀ r w', reads_board w' 0 rounds → Q r w') →
  wp E (print_periodically L p n last) Q w.
Proof using Hpolite.
  intros Hr HQ. apply wp_bind. eapply (dull_call _ steady_clock_now); [done..|].
  intros now w1 Hr1. destruct (_ <? _); [|by apply wp_ret, HQ].
  apply wp_bind, wp_fprintf, wp_bind.
  match goal with |- wp _ _ _ ?w => set (w2 := w) end.
  assert (reads_board w2 0 rounds) as Hr2 by (eapply same_board; [|done|exact Hr1]; apply Hr1).
  clearbody w2. eapply print_head_ok; [apply Hr2|unfold head_size; lia|]. intros w3 Ha3.
  assert (reads_board w3 0 rounds) as Hr3.
  { eapply same_board; [|eapply (after_ignored board); [|exact Ha3]; by intros []|exact Hr2].
    eapply inside_after; [|exact Ha3|apply Hr2]. by intros []. }
  apply wp_bind, wp_fprintf, wp_ret, HQ. eapply same_board; [|done|exact Hr3]. apply Hr3.
Qed.

Lemma event_loop_ok env lfd last (Q : Z → rma_world → Prop) w :
  reads_board w 0 0 → wp (stopped (inside p n m)) (event_loop L fuel env lfd hs p n last) Q w.
Proof using Hpolite Hsend Hwa Hrk.
  unfold event_loop. assert (0 + fuel = fuel)%nat as Heq by done. revert Heq.
  generalize 0%nat at 1 3 as r. generalize fuel at 1 3 as k. intros k.
  revert last w. induction k as [|k IH]; intros last w r Hk Hr; simpl.
  { apply wp_stop. left. split_and!; [done|by eapply reads_left_behind|].
    destruct Hr as (_ & _ & ->). lia. }
  apply wp_bind, wp_bind. unfold progress. apply wp_bind.
  eapply (inside_step _ (ucp_worker_progress _)); [done|done|apply Hr|].
  intros x w1 Ha1 _ Hi1. set (w2 := push _ w1).
  assert (reads_board w2 0 (S r)) as Hr2.
  { destruct Hr as ((_ & Had & Hky & Hsv) & Hac & Hpr).
    pose proof (after_ignored board _ _ _ board_store Ha1) as Hb.
    apply board_inv in Hb as (E1 & E2 & E3 & E4 & E5).
    split; [split_and!; [exact Hi1|simpl; by rewrite ?E4, ?E5, ?E1..]|]. simpl.
    by rewrite E1, E2, E3, Hac, Hpr. }
  clearbody w2. apply wp_ret, wp_bind. eapply serve_one_ok; [exact Hr2|]. intros w3 Hr3.
  apply wp_bind. eapply print_periodically_ok; [exact Hr3|]. intros now w4 Hr4.
  apply wp_ret. apply (IH now w4 (S r)); [lia|exact Hr4].
Qed.
End loop.

(** ** Around the loop *)

Section server.
Hypothesis Hnull : nonnull_handles L.
Context (address_of : ptr → Z) (n : Z).

(** The key that was packed is that of the vector, the first allocation of the
    program, registered with its whole size. Every connection that was closed got
    the same handshake: address and key as UCX answered them, address and size of
    the vector; [k] connections were accepted and not closed. *)
Definition published (k : nat) (h : history rma_api) : Prop :=
  let p := vector_data 0 n in
  (∃ m key, own_pack h = ([Region m p n], key) ∧
     Forall (eq (wire (MkHandshake (own_address h) key (u64 (address_of p)) (u64 n)))) (served h)) ∧
  accepted h = (k + length (served h))%nat.

(** How the server stops: never by itself; with an exception before it has accepted
    a connection, or when memory or a peer fails. *)
Definition halted (I : rma_world → Prop) : halt → rma_world → Prop := λ h w,
  (h = NoFuel ∧ published 0 (trace w) ∧ progressed (trace w) = fuel) ∨
  ((∃ e, h = Throw e) ∧
   (accepted (trace w) = 0%nat ∧ served (trace w) = [] ∨ ¬ healthy L ∧ published 1 (trace w)) ∧
   (unwinds = true → I w)).

Lemma published_board k h h' : board h = board h' → published k h → published k h'.
Proof. intros (E1 & E2 & _ & E4 & E5)%board_inv. unfold published. by rewrite E1, E2, E4, E5. Qed.

Lemma halted_scope {X} (I I' : rma_world → Prop) (dtor : RM unit) (body : RM X)
    (Q : X → rma_world → Prop) w :
  (∀ w (Q' : unit → rma_world → Prop), I' w →
     (∀ w', I w' → board (trace w') = board (trace w) → Q' tt w') → wp (halted I) dtor Q' w) →
  wp (halted I') body (λ _ _, False) w → wp (halted I) (scope unwinds dtor body) Q w.
Proof.
  intros Hd Hb. apply wp_scope. eapply wp_mono; [exact Hb|done|].
  intros h w' [(-> & Hp & Hr)|([e ->] & Ho & HI)]; [by left|]. simpl.
  destruct unwinds eqn:Hu.
  - eapply Hd; [by apply HI|]. intros w'' HI' Hbd. right. split_and!; [eauto| |done].
    pose proof (board_inv _ _ Hbd) as (-> & -> & _ & _ & _).
    destruct Ho as [?|[? ?]]; [by left|right]. split; [done|]. symmetry in Hbd. by eapply published_board.
  - right. split_and!; [eauto|done|congruence].
Qed.

(** Before the listener is there. *)
Definition setup p w : Prop :=
  quiet w ∧ one_buffer p n w ∧ accepted (trace w) = 0%nat ∧ served (trace w) = [] ∧
  progressed (trace w) = 0%nat.

Lemma setup_throw {A} (I : rma_world → Prop) what (Q : A → rma_world → Prop) w :
  accepted (trace w) = 0%nat → served (trace w) = [] → I w → wp (halted I) (throw what) Q w.
Proof. intros. apply wp_stop. right. split_and!; [eauto|by left|done]. Qed.

Definition silent (c : rma_call) : Prop :=
  ∀ r h, unreported (ECall (A := rma_api) c r) ∧
    accepted (ECall (A := rma_api) c r :: h) = accepted h ∧
    served (ECall (A := rma_api) c r :: h) = served h ∧
    progressed (ECall (A := rma_api) c r :: h) = progressed h.

Lemma setup_call E p c (Q : rma_ret c → rma_world → Prop) w :
  setup p w → calm c → silent c →
  (∀ r, l_ret L (trace w) c = r → setup p (push (ECall (A := rma_api) c r) w) →
     Q r (push (ECall (A := rma_api) c r) w)) →
  wp E (call L c) Q w.
Proof using Hpolite.
  intros (Hq & Hb & Ha & Hs & Hp) Hc Hsl HQ. eapply quiet_call; [done|apply Hq|done|].
  intros r Hr. apply HQ; [done|]. destruct (Hsl r (trace w)) as (Hu & Ea & Es & Ep).
  split_and!; [by apply quiet_push|exact Hb|..]; change (trace (push ?e w)) with (e :: trace w);
    congruence.
Qed.

Lemma setup_new_UcxEnv p (I : rma_world → Prop) (Q : UcxEnv → rma_world → Prop) w :
  setup p w → (∀ w', setup p w' → I w') → (∀ env w', setup p w' → Q env w') →
  wp (halted I) (new_UcxEnv L) Q w.
Proof using Hpolite.
  intros Hs HI HQ.
  assert (∀ what (Q : UcxEnv → rma_world → Prop) w, setup p w → wp (halted I) (throw what) Q w) as Ht.
  { intros what Q' w' Hs'. apply setup_throw; [apply Hs'..|by apply HI]. }
  apply wp_bind. eapply (setup_call _ _ ucp_config_read); [done..|]. intros [st c] _ Hs1.
  destruct (failed st); [by apply Ht|].
  apply wp_bind. eapply (setup_call _ _ (ucp_init _ _ _)); [done..|]. intros [st2 x] _ Hs2.
  destruct (failed st2).
  { apply wp_bind. eapply (setup_call _ _ (ucp_config_release c)); [done..|]. intros. by apply Ht. }
  apply wp_bind. eapply (setup_call _ _ (ucp_config_release c)); [done..|]. intros r3 _ Hs3.
  apply wp_bind. eapply (setup_call _ _ (ucp_worker_create _ _ _)); [done..|]. intros [st4 y] _ Hs4.
  destruct (failed st4).
  { apply wp_bind. eapply (setup_call _ _ (ucp_cleanup x)); [done..|]. intros. by apply Ht. }
  by apply wp_ret, HQ.
Qed.

Lemma setup_reserve p (I : rma_world → Prop) bytes (Q : unit → rma_world → Prop) w :
  setup p w → (∀ w', setup p w' → I w') →
  (∀ w', setup p w' → vsize bytes ≤ max_size →
     own_address (trace w') = own_address (trace w) → Q tt w') →
  wp (halted I) (reserve L (vsize bytes)) Q w.
Proof using.
  intros Hs HI HQ. apply wp_reserve; [by intros; apply HQ|..].
  - intros [] _ Hmax; [by apply HQ|]. right. split_and!; [eauto|left; split; apply Hs|].
    intros _. by apply HI.
  - intros _. right. split_and!; [eauto|left; split; apply Hs|]. intros _. by apply HI.
Qed.

(** The address is what the query answered, and fits a vector. *)
Lemma setup_address p (I : rma_world → Prop) env (Q : list Z → rma_world → Prop) w :
  setup p w → (∀ w', setup p w' → I w') →
  (∀ bs w', setup p w' → vsize bs ≤ max_size → own_address (trace w') = bs → Q bs w') →
  wp (halted I) (worker_address_bytes L env) Q w.
Proof using Hpolite.
  intros Hs HI HQ. apply wp_bind. eapply (setup_call _ _ (ucp_worker_query _ _)); [done..|].
  intros [st [a bs]] _ Hs1. destruct (failed st).
  { apply setup_throw; [apply Hs1..|by apply HI]. }
  apply wp_bind. eapply setup_reserve; [exact Hs1|done|]. intros w2 Hs2 Hmax Had.
  apply wp_bind. eapply (setup_call _ _ (ucp_worker_release_address _ _)); [done..|].
  intros r3 _ Hs3. apply wp_ret, HQ; [done|done|]. simpl. by rewrite Had.
Qed.

(** From the packing of the key on, the buffer is exposed. *)
Definition listening p m (wa rk : list Z) w : Prop :=
  inside p n m w ∧ accepted (trace w) = 0%nat ∧ served (trace w) = [] ∧
  progressed (trace w) = 0%nat ∧ own_address (trace w) = wa ∧ own_pack (trace w) = ([Region m p n], rk).

Lemma listening_throw {A} p m wa rk what (Q : A → rma_world → Prop) w :
  listening p m wa rk w → wp (halted (inside p n m)) (throw what) Q w.
Proof using. intros (Hi & Ha & Hs & _). by apply setup_throw. Qed.

Lemma listening_after P p m wa rk w w' :
  (∀ e h, P e → exposed (e :: h) = exposed h) → (∀ e h, P e → board (e :: h) = board h) →
  after P w w' → listening p m wa rk w → listening p m wa rk w'.
Proof using.
  intros Hx Hb Ha (Hi & H1 & H2 & H3 & H4 & H5).
  pose proof (after_ignored board P w w' Hb Ha) as (E1 & E2 & E3 & E4 & E5)%board_inv.
  split; [by eapply inside_after|]. by rewrite E1, E2, E3, E4, E5.
Qed.

Lemma listening_call E p m wa rk c (Q : rma_ret c → rma_world → Prop) w :
  listening p m wa rk w → calm c →
  (∀ r h, exposed (ECall (A := rma_api) c r :: h) = exposed h) →
  (∀ r h, board (ECall (A := rma_api) c r :: h) = board h) →
  (∀ r w', listening p m wa rk w' → Q r w') → wp E (call L c) Q w.
Proof using Hpolite.
  intros Hl Hc Hx Hb HQ. apply (inside_step p n m); [done|done|apply Hl|].
  intros r w1 Ha _ Hi. apply HQ.
  pose proof (listening_after _ _ _ _ _ _ _ exposed_store board_store Ha Hl) as (_ & Hbd).
  split; [exact Hi|]. pose proof (Hb r (trace w1)) as (E1 & E2 & E3 & E4 & E5)%board_inv.
  change (trace (push ?e w1)) with (e :: trace w1). by rewrite E1, E2, E3, E4, E5.
Qed.

Lemma tcp_listen_ok p m wa rk port (Q : Z → rma_world → Prop) w :
  listening p m wa rk w → (∀ fd w', listening p m wa rk w' → Q fd w') →
  wp (halted (inside p n m)) (tcp_listen L port) Q w.
Proof using Hpolite.
  intros Hl HQ. apply wp_bind. eapply (listening_call _ _ _ _ _ socket); [done..|]. intros fd w1 Hl1.
  destruct (fd <? 0); [by eapply listening_throw|].
  apply wp_bind. eapply (listening_call _ _ _ _ _ (setsockopt_reuseaddr fd)); [done..|]. intros r w2 Hl2.
  apply wp_bind. eapply (listening_call _ _ _ _ _ (bind_any _ _)); [done..|]. intros b w3 Hl3.
  destruct (b <? 0); [by eapply listening_throw|].
  apply wp_bind. eapply (listening_call _ _ _ _ _ (listen_ _ _)); [done..|]. intros l w4 Hl4.
  destruct (l <? 0); [by eapply listening_throw|]. by apply wp_ret, HQ.
Qed.

Lemma left_behind_published k p m hs w :
  p = vector_data 0 n → remote_addr hs = u64 (address_of p) → size hs = u64 n →
  left_behind p n m hs k w → published k (trace w).
Proof using.
  intros -> Hr Hs (Ha & Hk & Hsv & Hac). split; [|done]. exists m, (rkey hs).
  split; [done|]. rewrite Ha, <-Hr, <-Hs. by destruct hs.
Qed.

(** pack_rkey exposes the registered buffer. *)
Lemma pack_rkey_ok p m ctx wa (Q : list Z → rma_world → Prop) w :
  m ≠ 0 → exposed (trace w) = [] → mapped (trace w) = [Region m p n] → one_buffer p n w →
  accepted (trace w) = 0%nat → served (trace w) = [] → progressed (trace w) = 0%nat →
  own_address (trace w) = wa →
  (∀ bs w', vsize bs ≤ max_size → listening p m wa bs w' → Q bs w') →
  wp (halted (inside p n m)) (pack_rkey L (MkUcxMem p n m ctx) ctx) Q w.
Proof using Hpolite.
  intros Hm Hx Hmap Hb Ha Hs Hp Hwa HQ. apply wp_bind.
  eapply (quiet_call L Hpolite _ (ucp_rkey_pack _ _)); [done..|]. intros [st [a bs]] _.
  set (w1 := push _ w).
  assert (listening p m wa bs w1) as Hl1.
  { split; [split; [|done]|]; [simpl; rewrite Hx, Hmap|].
    - destruct (_ =? _); [|constructor]. simpl. rewrite filter_cons_True by done. repeat constructor.
    - split_and!; [done..|]. simpl. by rewrite Hmap, filter_cons_True. }
  clearbody w1. destruct (failed st); [by eapply listening_throw|].
  apply wp_bind, wp_reserve.
  - intros Hmax. apply wp_bind. eapply (listening_call _ _ _ _ _ (ucp_rkey_buffer_release _)); [exact Hl1|done|done|done|].
    intros r w2 Hl2. by apply wp_ret, HQ.
  - intros ok _ Hmax. destruct ok.
    + apply wp_bind. eapply (listening_call _ _ _ _ _ (ucp_rkey_buffer_release _)); [exact Hl1|done|done|done|].
      intros r w2 Hl2. by apply wp_ret, HQ.
    + right. split_and!; [eauto|left; split; apply Hl1|]. intros _. apply Hl1.
  - intros _. right. split_and!; [eauto|left; split; apply Hl1|]. intros _. apply Hl1.
Qed.

Lemma with_env_ok p port (Q : Z → rma_world → Prop) w :
  p = vector_data 0 n → setup p w → wp (halted (in_lbuf p n)) (with_env L unwinds fuel address_of port p n) Q w.
Proof using Hpolite Hsend Hnull.
  intros Hpd Hs. assert (∀ w', setup p w' → in_lbuf p n w') as Hin.
  { intros w' (Hq & Hb & _). split; [apply Hq|done]. }
  apply wp_bind. eapply setup_new_UcxEnv; [exact Hs|exact Hin|]. intros env w1 Hs1.
  apply (halted_scope _ (in_lbuf p n)).
  { intros w2 Q' [Hx2 Hb2] HQ'. eapply delete_UcxEnv_ok; [done..|].
    intros w3 (Hx3 & Hh3 & _ & Hbd). apply HQ'; [|done]. split; [done|].
    eapply one_buffer_shape; [|exact Hb2]. intros b. unfold shape. by rewrite Hh3. }
  apply wp_bind. eapply setup_address; [exact Hs1|exact Hin|]. intros waddr w2 Hs2 Hwa Had.
  apply wp_bind. unfold new_UcxMem. apply wp_bind.
  destruct Hs2 as ((Hx & Hmap & _) & Hb2 & Ha2 & Hsv2 & Hp2).
  eapply (quiet_call L Hpolite _ (ucp_mem_map _ _ _ _)); [done..|]. intros [st m] Hret.
  destruct (failed st) eqn:Hf; [by apply setup_throw|]. apply wp_ret.
  pose proof Hf as Hok. unfold failed in Hok. apply negb_false_iff in Hok.
  assert (m ≠ 0) as Hm.
  { apply (Hnull _ _ _ ltac:(rewrite Hret; simpl; by rewrite Hok)). }
  apply (halted_scope _ (inside p n m)).
  { intros w3 Q' Hi HQ'. eapply delete_UcxMem_ok; [done|exact Hm|done|exact Hi|].
    intros w4 Hx4 Hb4 _ Hbd. by apply HQ'. }
  apply wp_bind. eapply pack_rkey_ok; [done|done|simpl; by rewrite Hok, Hmap|done..|].
  intros rk w4 Hrk Hl4. apply wp_bind. eapply tcp_listen_ok; [exact Hl4|]. intros lfd w5 Hl5.
  apply wp_bind, wp_fprintf.
  match goal with |- wp _ _ _ ?w => set (w6 := w) end.
  assert (listening p m waddr rk w6) as Hl6 by exact Hl5. clearbody w6.
  apply wp_bind. eapply (listening_call _ _ _ _ _ steady_clock_now); [exact Hl6|done|done|done|].
  intros last w7 (Hi7 & Ha7 & Hs7 & Hp7 & Hwa7 & Hk7).
  eapply wp_mono; [apply (event_loop_ok p n m (MkHandshake waddr rk (u64 (address_of p)) (u64 n)))
    with (Q := λ _ _, False)|..].
  - exact Hwa.
  - exact Hrk.
  - split; [split_and!; [exact Hi7|exact Hwa7|exact Hk7|by rewrite Hs7]|]. by rewrite Ha7, Hs7.
  - done.
  - intros h w8 [(-> & Hlb & Hpr)|([e ->] & Hh & Hlb & Hi8)].
    + left. split_and!; [done|exact (left_behind_published _ p m (MkHandshake waddr rk (u64 (address_of p)) (u64 n)) w8 Hpd eq_refl eq_refl Hlb)|done].
    + right. split_and!; [eauto|right; split; [done|exact (left_behind_published _ p m (MkHandshake waddr rk (u64 (address_of p)) (u64 n)) w8 Hpd eq_refl eq_refl Hlb)]|done].
Qed.

Lemma server_main_ok argv (w : rma_world) :
  fresh w → accepted (trace w) = 0%nat → served (trace w) = [] → progressed (trace w) = 0%nat →
  0 ≤ n → n = strtoul (argv_ argv 2) →
  wp (halted (λ _, True)) (server_main L unwinds fuel address_of argv)
     (λ r w', r = 1 ∧ (length argv < 3)%nat ∧ heap w' = ∅) w.
Proof using Hpolite Hsend Hnull.
  intros (Hq & Hh & Hwf & Hnx) Ha Hs Hp Hn0 Hn. unfold server_main.
  destruct (Nat.ltb_spec (length argv) 3) as [Hargc|Hargc].
  { apply wp_bind, wp_fprintf, wp_ret. by split_and!. }
  cbv zeta. rewrite <-Hn. apply wp_bind. eapply new_vector_ok; [done..| |].
  { intros what w1 _ _ Ht. right. split_and!; [eauto| |done]. left.
    destruct Ht as [->|[ok ->]]; done. }
  intros p w1 Hpd Hb1 Hd1 Ht1. rewrite Hnx in Hpd. assert (setup p w1) as Hs1.
  { split_and!; [|done|..]; destruct Ht1 as [Ht|[ok Ht]]; unfold quiet; rewrite Ht; done. }
  apply (halted_scope _ (in_lbuf p n)).
  { intros w2 Q' [Hx2 Hb2] HQ'. eapply delete_vector_ok; [exact Hb2|].
    intros w3 _ Ht3 _. apply HQ'; [done|]. by rewrite Ht3. }
  apply wp_bind. eapply fill_ok; [exact Hb1|exact Hd1|]. intros w2 Hb2 _ Ht2 _.
  apply with_env_ok; [done|]. destruct Hs1 as (Hq1 & _ & Hrest). unfold setup, quiet in *. by rewrite Ht2.
Qed.
End server.
End serve.
