(* ===== verification/RmaLife.v ===== *)
(** * ucp_rma_client_server: the life of the objects in the two programs

    Every function keeps to [own_step]; the client releases what it created, and
    an exception leaves nothing that the destructors trip over. *)

From S2P Require Import Prelude CRuntime CLib Ucx RmaApi RmaTcp RmaUcx RmaMain RmaSpec Ownership RmaOwn.
From stdpp Require Import gmultiset.
Open Scope Z_scope.

Section life.
Context `{!Ucs, !Ucp} (L : rma_lib) (unwinds : bool) (fuel : nat).
Implicit Types (w : rma_world) (o s : objects).
Local Abbreviation leaves := (leaves unwinds).

(** ** Computations that keep the objects *)

Definition uses {A} o (m : RM A) : Prop := ∀ s (Q : A → rma_world → Prop) w,
  owns o w → spare s o → (∀ a w', owns o w' → Q a w') → wp (leaves s) m Q w.

Lemma uses_ret {A} o (a : A) : uses o (mret a).
Proof. intros s Q w Ho Hs HQ. by apply wp_ret, HQ. Qed.

Lemma uses_stop {A} o h : uses o (stop h : RM A).
Proof. intros s Q w Ho Hs HQ. apply wp_stop. by eapply leaves_spare. Qed.

Lemma uses_bind {A B} o (m : RM A) (f : A → RM B) :
  uses o m → (∀ a, uses o (f a)) → uses o (m ≫= f).
Proof.
  intros Hm Hf s Q w Ho Hs HQ. apply wp_bind. eapply Hm; [done..|].
  intros a w' Ho'. by eapply Hf.
Qed.

Lemma uses_local {A} o (m : RM A) :
  keeps (same (λ w : rma_world, owned (trace w))) m → uses o m.
Proof. intros Hk s Q w Ho Hs HQ. by eapply own_local. Qed.

Lemma uses_call o c xs :
  (∀ r, own_step c r o = with_objects xs o (Some o)) → Forall (λ x, x ∈ o) xs →
  uses o (call L c).
Proof. intros Hc Hx s Q w Ho [Hs _] HQ. by eapply own_call_use. Qed.

Lemma uses_loop {S A} o n (body : S → RM (S + A)) x :
  (∀ x, uses o (body x)) → uses o (loop n body x).
Proof.
  intros Hb s Q w Ho Hs HQ. apply wp_loop with (I := λ _ w', owns o w'); [done|..].
  - intros _ w' Ho'. by eapply leaves_spare.
  - intros y w' Ho'. eapply Hb; [done..|]. intros [y'|a] w'' Ho''; [done|by apply HQ].
Qed.

Lemma uses_when o b m : uses o m → uses o (when b m).
Proof. intros. destruct b; [done|apply uses_ret]. Qed.

Lemma keeps_reserve n : keeps (same (λ w : rma_world, owned (trace w))) (reserve L n).
Proof.
  unfold reserve. solve_keeps. intros w. unfold same. simpl. done.
Qed.

Lemma uses_reserve o n : uses o (reserve L n).
Proof. apply uses_local, keeps_reserve. Qed.

Lemma uses_printf o f a st : uses o (fprintf (A := rma_api) st f a).
Proof. apply uses_local. solve_keeps. Qed.

(** ** tcp *)

Lemma uses_send_all o fd buf : Fd fd ∈ o → uses o (send_all L fd buf).
Proof.
  intros Hfd. apply uses_loop. intros off. destruct (off <? _); [|apply uses_ret].
  apply uses_bind; [apply (uses_call _ (send fd _) [Fd fd]); [done|by repeat constructor]|].
  intros n. destruct (n <=? 0); [apply uses_stop|apply uses_ret].
Qed.

Lemma uses_recv_all o fd buf : Fd fd ∈ o → uses o (recv_all L fd buf).
Proof.
  intros Hfd. apply uses_loop. intros [off b]. destruct (off <? _); [|apply uses_ret].
  apply uses_bind; [apply (uses_call _ (recv fd _) [Fd fd]); [done|by repeat constructor]|].
  intros [n bs]. destruct (n <=? 0); [apply uses_stop|].
  apply uses_bind; [apply uses_local; solve_keeps|]. intros. apply uses_ret.
Qed.

Lemma uses_send_fd o hs fd : Fd fd ∈ o → uses o (send_fd L hs fd).
Proof.
  intros. unfold send_fd. cbv zeta.
  do 5 (apply uses_bind; [try apply uses_when; by apply uses_send_all|intros []]).
  by apply uses_send_all.
Qed.

Lemma uses_recv_uint o fd n : Fd fd ∈ o → uses o (recv_uint L fd n).
Proof. intros. apply uses_bind; [by apply uses_recv_all|]. intros. apply uses_ret. Qed.

Lemma uses_recv_bytes o fd n : Fd fd ∈ o → uses o (recv_bytes L fd n).
Proof.
  intros. apply uses_bind; [apply uses_reserve|]. intros [].
  cbv zeta. destruct (n =? 0); [apply uses_ret|by apply uses_recv_all].
Qed.

Lemma uses_recv_fd o fd : Fd fd ∈ o → uses o (recv_fd L fd).
Proof.
  intros. unfold recv_fd.
  repeat (apply uses_bind; [by first [apply uses_recv_uint|apply uses_recv_bytes]|intros ?]).
  apply uses_ret.
Qed.

(** What may be left behind may be left behind once more. *)
Lemma spare_make s o x : leakable x → spare s o → spare s (make x o).
Proof.
  intros Hx [Hs Hl]. unfold make. split; [multiset_solver|].
  intros y Hy. destruct (decide (y = x)) as [Heq|]; [by subst|].
  apply Hl. multiset_solver.
Qed.

Lemma spare_self o : spare o o.
Proof. split; [done|]. intros x Hx. multiset_solver. Qed.

Lemma spare_sub s o : spare s o → s ⊆ o.
Proof. by intros [? _]. Qed.

Lemma make_sub s o x : s ⊆ o → s ⊆ make x o.
Proof. unfold make. multiset_solver. Qed.

Lemma make_in x o : x ∈ make x o.
Proof. unfold make. multiset_solver. Qed.

Lemma make_in_r x y o : x ∈ o → x ∈ make y o.
Proof. unfold make. multiset_solver. Qed.

Lemma make_comm x y o : make x (make y o) = make y (make x o).
Proof. unfold make. multiset_solver. Qed.

(** Destroying the object on top. *)
Lemma own_drop s o x c (Q : rma_ret c → rma_world → Prop) w :
  (∀ r, own_step c r (make x o) = Some o) →
  owns (make x o) w → s ⊆ o → (∀ r w', owns o w' → Q r w') →
  wp (leaves s) (call L c) Q w.
Proof.
  intros Hc Ho Hs HQ. eapply own_call; [done|by apply make_sub|].
  intros h r _. exists o. by split; [|auto].
Qed.

Lemma own_socket s o (Q : Z → rma_world → Prop) w :
  owns o w → s ⊆ o →
  (∀ fd w', fd < 0 → owns o w' → Q fd w') →
  (∀ fd w', 0 ≤ fd → owns (make (Fd fd) o) w' → Q fd w') →
  wp (leaves s) (call L socket) Q w.
Proof.
  intros Ho Hs Hn HQ. eapply (own_call _ _ _ _ socket); [done..|]. intros h fd _. eexists.
  split; [done|]. intros w'. destruct (Z.leb_spec 0 fd); auto.
Qed.

(** An exception while only what may be left is left. *)
Lemma own_throw {A} s o what (Q : A → rma_world → Prop) w :
  owns o w → spare s o → wp (leaves s) (throw what) Q w.
Proof. intros. apply wp_stop. by eapply leaves_spare. Qed.

Lemma own_tcp_connect s o ip port (Q : Z → rma_world → Prop) w :
  owns o w → spare s o → (∀ fd w', owns (make (Fd fd) o) w' → Q fd w') →
  wp (leaves s) (tcp_connect L ip port) Q w.
Proof.
  intros Ho Hs HQ. apply wp_bind. eapply own_socket; [done|by apply spare_sub|..].
  { intros fd w1 Hfd Ho1. rewrite (proj2 (Z.ltb_lt _ _)) by done. by eapply own_throw. }
  intros fd w1 Hfd Ho1. rewrite (proj2 (Z.ltb_ge _ _)) by done.
  assert (spare s (make (Fd fd) o)) as Hs1 by by apply spare_make.
  apply wp_bind. eapply (own_call _ _ _ _ (inet_pton ip)); [done|by apply spare_sub|].
  intros _ [r addr] _. eexists. split; [done|]. intros w2 Ho2. simpl.
  destruct (negb (r =? 1)); [by eapply own_throw|].
  apply wp_bind. eapply (own_call_use _ _ _ _ (connect_ fd addr (htons port)));
    [done|done|by apply spare_sub|repeat constructor; apply make_in|].
  intros c w3 Ho3. destruct (c <? 0); [by eapply own_throw|]. by apply wp_ret, HQ.
Qed.

Lemma own_tcp_listen s o port (Q : Z → rma_world → Prop) w :
  owns o w → spare s o → (∀ fd w', owns (make (Fd fd) o) w' → Q fd w') →
  wp (leaves s) (tcp_listen L port) Q w.
Proof.
  intros Ho Hs HQ. apply wp_bind. eapply own_socket; [done|by apply spare_sub|..].
  { intros fd w1 Hfd Ho1. rewrite (proj2 (Z.ltb_lt _ _)) by done. by eapply own_throw. }
  intros fd w1 Hfd Ho1. rewrite (proj2 (Z.ltb_ge _ _)) by done.
  assert (spare s (make (Fd fd) o)) as Hs1 by by apply spare_make.
  assert (∀ c, (∀ r, own_step c r (make (Fd fd) o) =
      with_objects [Fd fd] (make (Fd fd) o) (Some (make (Fd fd) o))) →
    uses (make (Fd fd) o) (call L c)) as Hu.
  { intros c Hc. eapply uses_call; [exact Hc|]. repeat constructor. apply make_in. }
  apply wp_bind. apply (Hu (setsockopt_reuseaddr fd)); [done..|]. intros _ w2 Ho2.
  apply wp_bind. apply (Hu (bind_any fd (htons port))); [done..|]. intros b w3 Ho3.
  destruct (b <? 0); [by eapply own_throw|].
  apply wp_bind. apply (Hu (listen_ fd 16)); [done..|]. intros l w4 Ho4.
  destruct (l <? 0); [by eapply own_throw|]. by apply wp_ret, HQ.
Qed.

(** The answer of accept_nonblock is a new descriptor if it is not negative. *)
Lemma own_accept s o lfd (Q : Z → rma_world → Prop) w :
  owns o w → spare s o → Fd lfd ∈ o →
  (∀ fd w', fd < 0 → owns o w' → Q fd w') →
  (∀ fd w', 0 ≤ fd → owns (make (Fd fd) o) w' → Q fd w') →
  wp (leaves s) (accept_nonblock L lfd) Q w.
Proof.
  intros Ho Hs Hl Hn HQ. apply wp_bind.
  eapply (own_call_use _ _ _ _ (poll_in lfd)); [done|done|by apply spare_sub|by repeat constructor|].
  intros [pret pollin] w1 Ho1. destruct ((pret <=? 0) || negb pollin).
  { by apply wp_ret, Hn. }
  eapply (own_call _ _ _ _ (accept lfd)); [done|by apply spare_sub|]. intros h fd _. eexists.
  split; [simpl; apply use_ok; by repeat constructor|].
  intros w'. destruct (Z.leb_spec 0 fd); auto.
Qed.

(** ** UcxEnv, UcxMem, UcxEndpoint *)

Hypothesis Hnull : nonnull_handles L.

(** A call that creates an object if it succeeds. *)
Lemma own_create s o c xs (status handle : rma_ret c → Z) (x : Z → object)
    (Q : rma_ret c → rma_world → Prop) w :
  (∀ r, own_step c r o =
     with_objects xs o (make_if (status r =? UCS_OK) (x (handle r)) o)) →
  Forall (λ y, y ∈ o) xs → owns o w → s ⊆ o →
  (∀ r w', failed (status r) = true → owns o w' → Q r w') →
  (∀ h r w', failed (status r) = false → l_ret L h c = r →
     owns (make (x (handle r)) o) w' → Q r w') →
  wp (leaves s) (call L c) Q w.
Proof using.
  intros Hc Hx Ho Hs Hf HQ. eapply own_call; [done..|]. intros h r Hr. eexists.
  split; [rewrite Hc; by apply use_ok|]. intros w'.
  destruct (failed (status r)) eqn:Hfl; unfold failed in Hfl.
  - apply negb_true_iff in Hfl as Hst. rewrite Hst. apply Hf. unfold failed. by rewrite Hst.
  - apply negb_false_iff in Hfl as Hst. rewrite Hst. eapply HQ; [|done]. unfold failed. by rewrite Hst.
Qed.

(** The same when the handle of a new object is not null. *)
Lemma own_create_nonnull s o c xs (status handle : rma_ret c → Z) (x : Z → object)
    (Q : rma_ret c → rma_world → Prop) w :
  (∀ r, own_step c r o =
     with_objects xs o (make_if (status r =? UCS_OK) (x (handle r)) o)) →
  (∀ r, creates c r = if status r =? UCS_OK then Some (handle r) else None) →
  Forall (λ y, y ∈ o) xs → owns o w → s ⊆ o →
  (∀ r w', failed (status r) = true → owns o w' → Q r w') →
  (∀ r w', failed (status r) = false → handle r ≠ 0 →
     owns (make (x (handle r)) o) w' → Q r w') →
  wp (leaves s) (call L c) Q w.
Proof using Hnull.
  intros Hc Hcr Hx Ho Hs Hf HQ. eapply own_create; [done..|].
  intros h r w' Hfl Hr. apply HQ; [done|]. apply (Hnull h c). rewrite Hr, Hcr.
  unfold failed in Hfl. apply negb_false_iff in Hfl. by rewrite Hfl.
Qed.

Definition env_objects (env : UcxEnv) : objects :=
  {[+ Worker (env_worker_ env) +]} ⊎ {[+ Ctx (env_ctx_ env) +]}.

(** What depends on nothing: the objects below the environment. *)
Definition independent o : Prop := ∀ x, x ∈ o → needs_ctx x = false.

Lemma own_new_UcxEnv s o (Q : UcxEnv → rma_world → Prop) w :
  owns o w → spare s o → independent o →
  (∀ env w', env_worker_ env ≠ 0 → env_ctx_ env ≠ 0 → owns (env_objects env ⊎ o) w' → Q env w') →
  wp (leaves s) (new_UcxEnv L) Q w.
Proof using Hnull.
  intros Ho Hs Hi HQ. pose proof (spare_sub _ _ Hs) as Hss. apply wp_bind.
  apply (own_create _ o ucp_config_read [] fst snd Config); [|done|done|done|..].
  { intros r. by rewrite use_ok. }
  { intros [st c] w1 Hf Ho1. simpl in Hf. rewrite Hf. by eapply own_throw. }
  intros _ [st c] w1 Hf _ Ho1. simpl in Hf, Ho1. rewrite Hf. apply wp_bind.
  eapply (own_create_nonnull _ _ (ucp_init _ _ c) [Config c] fst snd Ctx);
    [done|done|repeat constructor; apply make_in|done|by apply make_sub|..].
  { intros [st' x] w2 Hf' Ho2. simpl in Hf'. rewrite Hf'. apply wp_bind.
    eapply (own_drop _ _ (Config c) (ucp_config_release c)); [|done|done|].
    - intros r. by apply drop_ok.
    - intros r w3 Ho3. by eapply own_throw. }
  intros [st' x] w2 Hf' Hx Ho2. simpl in Hf', Hx, Ho2. rewrite Hf'. apply wp_bind.
  rewrite make_comm in Ho2. eapply (own_drop _ (make (Ctx x) o) (Config c) (ucp_config_release c)); [|done|by apply make_sub|].
  { intros r. by apply drop_ok. }
  intros _ w3 Ho3. apply wp_bind.
  eapply (own_create_nonnull _ _ (ucp_worker_create x _ _) [Ctx x] fst snd Worker);
    [done|done|repeat constructor; apply make_in|done|by apply make_sub|..].
  { intros [st2 y] w4 Hf2 Ho4. simpl in Hf2. rewrite Hf2. apply wp_bind.
    eapply (own_drop _ _ (Ctx x) (ucp_cleanup x)); [|done|done|].
    - intros r. simpl. rewrite none_ok; [by apply drop_ok|].
      intros z [Hz|Hz]%gmultiset_elem_of_disj_union; [|by apply Hi].
      apply gmultiset_elem_of_singleton in Hz. by subst z.
    - intros r w5 Ho5. by eapply own_throw. }
  intros [st2 y] w4 Hf2 Hy Ho4. simpl in Hf2, Hy, Ho4. rewrite Hf2.
  apply wp_ret, HQ; [done|done|]. unfold env_objects, make in *. by rewrite <-(assoc_L (⊎)).
Qed.

(** The destructor, once nothing depends on the worker or the context. *)
Lemma own_delete_UcxEnv s env o (Q : unit → rma_world → Prop) w :
  env_worker_ env ≠ 0 → env_ctx_ env ≠ 0 →
  owns (env_objects env ⊎ o) w → spare s o → independent o →
  (∀ w', owns o w' → Q tt w') → wp (leaves s) (delete_UcxEnv L env) Q w.
Proof using.
  intros Hw Hc Ho Hs Hi HQ. pose proof (spare_sub _ _ Hs) as Hss. unfold delete_UcxEnv.
  rewrite !(proj2 (Z.eqb_neq _ _)) by done. simpl.
  apply wp_bind. eapply (own_drop _ (make (Ctx (env_ctx_ env)) o) (Worker (env_worker_ env))
    (ucp_worker_destroy (env_worker_ env))).
  - intros r. simpl. rewrite none_ok; [by apply drop_ok|].
    intros x. unfold make. rewrite !gmultiset_elem_of_disj_union, !gmultiset_elem_of_singleton.
    intros [->|[->|Hx]]; [done|done|]. specialize (Hi x Hx). by destruct x.
  - unfold env_objects, make in *. by rewrite (assoc_L (⊎)).
  - by apply make_sub.
  - intros [] w1 Ho1. eapply (own_drop _ o (Ctx (env_ctx_ env)) (ucp_cleanup (env_ctx_ env))); [|done|done|].
    + intros r. simpl. rewrite none_ok; [by apply drop_ok|].
      intros x. unfold make. rewrite gmultiset_elem_of_disj_union, gmultiset_elem_of_singleton.
      intros [->|Hx]; [done|by apply Hi].
    + intros [] w2 Ho2. by apply HQ.
Qed.

Lemma own_new_UcxEndpoint s o worker bs (Q : UcxEndpoint → rma_world → Prop) w :
  owns o w → spare s o → Worker worker ∈ o →
  (∀ ep w', ep_ ep ≠ 0 → owns (make (Ep (ep_ ep)) o) w' → Q ep w') →
  wp (leaves s) (new_UcxEndpoint L worker bs) Q w.
Proof using Hnull.
  intros Ho Hs Hw HQ. apply wp_bind.
  eapply (own_create_nonnull _ _ (ucp_ep_create worker _ bs) [Worker worker] fst snd Ep);
    [done|done|by repeat constructor|done|by apply spare_sub|..].
  - intros [st e] w1 Hf Ho1. simpl in Hf. rewrite Hf. by eapply own_throw.
  - intros [st e] w1 Hf He Ho1. simpl in Hf, He. rewrite Hf. by apply wp_ret, HQ.
Qed.

Lemma own_delete_UcxEndpoint s o ep (Q : unit → rma_world → Prop) w :
  ep_ ep ≠ 0 → owns (make (Ep (ep_ ep)) o) w → s ⊆ o → (∀ w', owns o w' → Q tt w') →
  wp (leaves s) (delete_UcxEndpoint L ep) Q w.
Proof using.
  intros He Ho Hs HQ. unfold delete_UcxEndpoint. rewrite (proj2 (Z.eqb_neq _ _)) by done.
  eapply (own_drop _ o (Ep (ep_ ep)) (ucp_ep_destroy (ep_ ep))); [|done|done|].
  - intros r. by apply drop_ok.
  - intros [] w' Ho'. by apply HQ.
Qed.

Lemma own_import_rkey s o ep bs (Q : Z → rma_world → Prop) w :
  owns o w → spare s o → Ep (ep_ ep) ∈ o →
  (∀ rk w', rk ≠ 0 → owns (make (Rkey (ep_ ep) rk) o) w' → Q rk w') →
  wp (leaves s) (import_rkey L ep bs) Q w.
Proof using Hnull.
  intros Ho Hs He HQ. apply wp_bind.
  eapply (own_create_nonnull _ _ (ucp_ep_rkey_unpack (ep_ ep) bs) [Ep (ep_ ep)] fst snd (Rkey (ep_ ep)));
    [done|done|by repeat constructor|done|by apply spare_sub|..].
  - intros [st r] w1 Hf Ho1. simpl in Hf. rewrite Hf. by eapply own_throw.
  - intros [st r] w1 Hf Hr Ho1. simpl in Hf, Hr. rewrite Hf. by apply wp_ret, HQ.
Qed.

Lemma own_destroy_rkey s o e rk (Q : unit → rma_world → Prop) w :
  rk ≠ 0 → Ep e ∈ o → keyless o → owns (make (Rkey e rk) o) w → s ⊆ o →
  (∀ w', owns o w' → Q tt w') →
  wp (leaves s) (destroy_rkey L rk) Q w.
Proof using.
  intros Hr He Hk Ho Hs HQ. unfold destroy_rkey. rewrite (proj2 (Z.eqb_neq _ _)) by done.
  eapply (own_drop _ o (Rkey e rk) (ucp_rkey_destroy rk)); [|done|done|].
  - intros r. by eapply drop_key_ok.
  - intros [] w' Ho'. by apply HQ.
Qed.

Lemma own_new_UcxMem s o ctx p len (Q : UcxMem → rma_world → Prop) w :
  owns o w → spare s o → Ctx ctx ∈ o →
  (∀ m w', memh_ m ≠ 0 → mem_ctx_ m = ctx → owns (make (Mem (memh_ m)) o) w' → Q m w') →
  wp (leaves s) (new_UcxMem L ctx p len) Q w.
Proof using Hnull.
  intros Ho Hs Hc HQ. apply wp_bind.
  eapply (own_create_nonnull _ _ (ucp_mem_map ctx _ p len) [Ctx ctx] fst snd Mem);
    [done|done|by repeat constructor|done|by apply spare_sub|..].
  - intros [st m] w1 Hf Ho1. simpl in Hf. rewrite Hf. by eapply own_throw.
  - intros [st m] w1 Hf Hm Ho1. simpl in Hf, Hm. rewrite Hf. by apply wp_ret, HQ.
Qed.

Lemma own_delete_UcxMem s o m (Q : unit → rma_world → Prop) w :
  memh_ m ≠ 0 → Ctx (mem_ctx_ m) ∈ o → owns (make (Mem (memh_ m)) o) w → s ⊆ o →
  (∀ w', owns o w' → Q tt w') → wp (leaves s) (delete_UcxMem L m) Q w.
Proof using.
  intros Hm Hc Ho Hs HQ. unfold delete_UcxMem. rewrite (proj2 (Z.eqb_neq _ _)) by done.
  apply wp_bind.
  eapply (own_drop _ o (Mem (memh_ m)) (ucp_mem_unmap (mem_ctx_ m) (memh_ m))); [|done|done|].
  - intros r. simpl. rewrite use_ok; [by apply drop_ok|]. repeat constructor. by apply make_in_r.
  - intros r w' Ho'. by apply wp_ret, HQ.
Qed.

(** A copy of a buffer of UCX, which is released afterwards. *)
Lemma own_worker_address s o env (Q : list Z → rma_world → Prop) w :
  owns o w → spare s o → Worker (env_worker_ env) ∈ o →
  (∀ bs w', owns o w' → Q bs w') → wp (leaves s) (worker_address_bytes L env) Q w.
Proof using.
  intros Ho Hs Hw HQ. apply wp_bind.
  eapply (own_create _ _ (ucp_worker_query (env_worker_ env) UCP_WORKER_ATTR_FIELD_ADDRESS)
    [Worker (env_worker_ env)] fst (λ r, r.2.1) Addr);
    [done|by repeat constructor|done|by apply spare_sub|..].
  - intros [st [a bs]] w1 Hf Ho1. simpl in Hf. rewrite Hf. by eapply own_throw.
  - intros _ [st [a bs]] w1 Hf _ Ho1. simpl in Hf, Ho1. rewrite Hf.
    apply wp_bind. eapply uses_reserve; [done|by apply spare_make|]. intros _ w2 Ho2.
    apply wp_bind. eapply (own_drop _ o (Addr a)
      (ucp_worker_release_address (env_worker_ env) a)); [|done|by apply spare_sub|].
    + intros r. simpl. rewrite use_ok; [by apply drop_ok|]. repeat constructor. by apply make_in_r.
    + intros _ w3 Ho3. by apply wp_ret, HQ.
Qed.

Lemma own_pack_rkey s o m ctx (Q : list Z → rma_world → Prop) w :
  owns o w → spare s o → Ctx ctx ∈ o → Mem (memh_ m) ∈ o →
  (∀ bs w', owns o w' → Q bs w') → wp (leaves s) (pack_rkey L m ctx) Q w.
Proof using.
  intros Ho Hs Hc Hm HQ. apply wp_bind.
  eapply (own_create _ _ (ucp_rkey_pack ctx (memh_ m)) [Ctx ctx; Mem (memh_ m)] fst
    (λ r, r.2.1) RkeyBuf); [done|by repeat constructor|done|by apply spare_sub|..].
  - intros [st [a bs]] w1 Hf Ho1. simpl in Hf. rewrite Hf. by eapply own_throw.
  - intros _ [st [a bs]] w1 Hf _ Ho1. simpl in Hf, Ho1. rewrite Hf.
    apply wp_bind. eapply uses_reserve; [done|by apply spare_make|]. intros _ w2 Ho2.
    apply wp_bind. eapply (own_drop _ o (RkeyBuf a) (ucp_rkey_buffer_release a));
      [|done|by apply spare_sub|].
    + intros r. by apply drop_ok.
    + intros _ w3 Ho3. by apply wp_ret, HQ.
Qed.

(** Waiting for what a non-blocking operation returned, which was not an error. *)
Definition with_request (req : Z) o : objects :=
  if UCS_PTR_IS_PTR req then make (Req req) o else o.

Lemma own_wait s o env req (Q : Z → rma_world → Prop) w :
  UCS_PTR_IS_ERR req = false → owns (with_request req o) w → s ⊆ o →
  Worker (env_worker_ env) ∈ o → (∀ st w', owns o w' → Q st w') →
  wp (leaves s) (wait L fuel env req) Q w.
Proof using.
  intros He Ho Hs Hw HQ. unfold wait, with_request in *.
  destruct (ucs_ptr_cases req) as [->|[(_ & He' & _)|(Hnz & _ & Hp)]]; [|congruence|].
  { destruct ucs_ptr_null as (_ & Hn & _). rewrite Hn in Ho. by apply wp_ret, HQ. }
  rewrite Hp in Ho. rewrite (proj2 (Z.eqb_neq _ _)) by done.
  apply wp_bind. unfold do_while. apply wp_loop with (I := λ _ w', owns (make (Req req) o) w').
  - done.
  - intros _ w' Ho'. eapply leaves_sub; [done|by apply make_sub|done].
  - intros [] w1 Ho1. apply wp_bind, wp_bind.
    eapply (own_call_use _ _ _ _ (ucp_worker_progress (env_worker_ env)));
      [done|done|by apply make_sub|repeat constructor; by apply make_in_r|].
    intros _ w2 Ho2.
    eapply (own_call_use _ _ _ _ (ucp_request_check_status req));
      [done|done|by apply make_sub|repeat constructor; by apply make_in|].
    intros st w3 Ho3. destruct (st =? UCS_INPROGRESS); [by apply wp_ret|].
    apply wp_ret, wp_bind.
    eapply (own_drop _ o (Req req) (ucp_request_free req)); [|done|done|].
    + intros r. by apply drop_ok.
    + intros _ w4 Ho4. by apply wp_ret, HQ.
Qed.
End life.
