(* ===== verification/RmaLifeMain.v ===== *)
(** * ucp_rma_client_server: the life of the objects, the main functions

    client_main and server_main against [own_step], scope by scope. *)

From S2P Require Import Prelude CRuntime CLib Ucx RmaApi RmaTcp RmaUcx RmaMain RmaSpec Ownership RmaOwn.
From S2P Require Import RmaLife.
From stdpp Require Import gmultiset.
Open Scope Z_scope.

Section programs.
Context `{!Ucs, !Ucp} (L : rma_lib) (unwinds : bool) (fuel : nat).
Implicit Types (w : rma_world) (o s : objects).
Local Abbreviation leaves := (leaves unwinds).
Hypothesis Hnull : nonnull_handles L.

Lemma keeps_fill v n f : keeps (same (λ w : rma_world, owned (trace w))) (fill v n f).
Proof. unfold fill. solve_keeps. Qed.

Lemma keeps_read_vector p i n :
  keeps (same (λ w : rma_world, owned (trace w))) (read_vector p i n).
Proof. unfold read_vector. solve_keeps. Qed.

Lemma keeps_print_head v n : keeps (same (λ w : rma_world, owned (trace w))) (print_head v n).
Proof. pose proof keeps_read_vector. unfold print_head, printf. solve_keeps. Qed.

Lemma keeps_new_vector n : keeps (same (λ w : rma_world, owned (trace w))) (new_vector L n).
Proof. pose proof (keeps_reserve L). unfold new_vector. solve_keeps. Qed.

Lemma keeps_delete_vector p : keeps (same (λ w : rma_world, owned (trace w))) (delete_vector p).
Proof. unfold delete_vector. solve_keeps. Qed.

Lemma uses_client_die {A} o msg : uses unwinds o (client_die msg : RM A).
Proof. apply uses_bind; [apply uses_printf|]. intros. apply uses_stop. Qed.

(** ** The operation of the client

    [o] is alive besides the key; on an error the key is destroyed. *)

Record op_objects (env : UcxEnv) (ep : UcxEndpoint) (param : rma_param) o : Prop := {
  op_worker : Worker (env_worker_ env) ∈ o;
  op_ep : Ep (ep_ ep) ∈ o;
  op_mem : Mem (rma_memh param) ∈ o;
  op_keyless : keyless o;
}.

(** exit() is not an exception: nothing has to be in order. *)
Lemma own_client_die {A} s o msg (Q : A → rma_world → Prop) w :
  owns o w → s ⊆ o → wp (leaves s) (client_die msg) Q w.
Proof using.
  intros Ho Hs. apply wp_bind, wp_fprintf, wp_stop. by eapply leaves_sub.
Qed.

Lemma own_finish s o env req msg (Q : unit → rma_world → Prop) w :
  UCS_PTR_IS_ERR req = false → owns (with_request req o) w → s ⊆ o →
  Worker (env_worker_ env) ∈ o → (∀ w', owns o w' → Q tt w') →
  wp (leaves s) (finish L fuel env req msg) Q w.
Proof using.
  intros He Ho Hs Hw HQ. apply wp_bind. eapply own_wait; [done..|].
  intros st w' Ho'. apply wp_when; intros _; [by eapply own_client_die|by apply HQ].
Qed.

(** An error after a non-blocking operation: there is no request. *)
Lemma own_check_ptr s o e rk req msg (Q : unit → rma_world → Prop) w :
  rk ≠ 0 → Ep e ∈ o → keyless o →
  owns (with_request req (make (Rkey e rk) o)) w → spare s o →
  (∀ w', UCS_PTR_IS_ERR req = false → owns (with_request req (make (Rkey e rk) o)) w' → Q tt w') →
  wp (leaves s) (check_ptr L rk req msg) Q w.
Proof using.
  intros Hrk Hep Hk Ho Hs HQ. unfold check_ptr. apply wp_when; intros He; [|by apply HQ].
  assert (with_request req (make (Rkey e rk) o) = make (Rkey e rk) o) as Hn.
  { unfold with_request. destruct (ucs_ptr_cases req) as [->|[(_ & _ & ->)|(_ & He' & _)]];
      [|done|congruence]. by destruct ucs_ptr_null as (_ & -> & _). }
  rewrite Hn in Ho. apply wp_bind. eapply own_destroy_rkey; [done..|by apply spare_sub|].
  intros w' Ho'. by eapply own_throw.
Qed.

Lemma own_nbx s o c ep rk param (Q : rma_ret c → rma_world → Prop) w (req : rma_ret c → Z) :
  (∀ r o', own_step c r o' =
     with_objects [Ep (ep_ ep); Rkey (ep_ ep) rk; Mem (rma_memh param)] o'
       (make_if (UCS_PTR_IS_PTR (req r)) (Req (req r)) o')) →
  owns (make (Rkey (ep_ ep) rk) o) w → spare s o → Ep (ep_ ep) ∈ o → Mem (rma_memh param) ∈ o →
  (∀ r w', owns (with_request (req r) (make (Rkey (ep_ ep) rk) o)) w' → Q r w') →
  wp (leaves s) (call L c) Q w.
Proof using.
  intros Hc Ho Hs He Hm HQ. eapply own_call; [done|by apply make_sub, spare_sub|].
  intros h r _. eexists. split.
  { rewrite Hc. apply use_ok. repeat constructor; [by apply make_in_r|apply make_in|by apply make_in_r]. }
  intros w' Ho'. apply HQ. unfold with_request. by destruct (UCS_PTR_IS_PTR (req r)).
Qed.

Lemma own_rma_op s o do_put env ep lbuf n raddr rk param (Q : unit → rma_world → Prop) w :
  rk ≠ 0 → op_objects env ep param o → owns (make (Rkey (ep_ ep) rk) o) w → spare s o →
  (∀ w', owns (make (Rkey (ep_ ep) rk) o) w' → Q tt w') →
  wp (leaves s) (rma_op L fuel do_put env ep lbuf n raddr rk param) Q w.
Proof using.
  intros Hrk [Hw He Hm Hk] Ho Hs HQ.
  assert (spare s (make (Rkey (ep_ ep) rk) o)) as Hs' by by apply spare_make.
  assert (s ⊆ make (Rkey (ep_ ep) rk) o) as Hss by by apply spare_sub.
  assert (Worker (env_worker_ env) ∈ make (Rkey (ep_ ep) rk) o) as Hw' by by apply make_in_r.
  unfold rma_op. destruct do_put; apply wp_bind.
  - unfold put_nbx. apply wp_bind.
    eapply own_local; [apply keeps_read_vector|done|done|]. intros payload w1 Ho1.
    eapply (own_nbx _ _ (ucp_put_nbx (ep_ ep) lbuf payload raddr rk param) ep rk param _ _ (λ q, q));
      [done..|]. intros req w2 Ho2.
    apply wp_bind. eapply own_check_ptr; [done..|]. intros w3 He3 Ho3.
    apply wp_bind. eapply own_finish; [done..|]. intros w4 Ho4.
    apply wp_bind. eapply (own_call _ _ _ _ (ucp_ep_flush_nbx (ep_ ep) param)); [done..|].
    intros h req2 _. exists (with_request req2 (make (Rkey (ep_ ep) rk) o)). split.
    { simpl. rewrite use_ok by (repeat constructor; by apply make_in_r).
      unfold make_if, with_request. by destruct (UCS_PTR_IS_PTR req2). }
    intros w5 Ho5. apply wp_bind. eapply (own_check_ptr _ _ _ _ req2); [done|done|done|exact Ho5|done|].
    intros w6 He6 Ho6. by eapply own_finish.
  - eapply (own_nbx _ _ (ucp_get_nbx (ep_ ep) lbuf n raddr rk param) ep rk param _ _ (λ q, q));
      [done..|]. intros req w2 Ho2.
    apply wp_bind. eapply own_check_ptr; [done..|]. intros w3 He3 Ho3.
    by eapply own_finish.
Qed.

(** ** client.cpp *)

Lemma spare_both x s o : spare s o → spare (x ⊎ s) (x ⊎ o).
Proof.
  intros [Hs Hl]. split; [multiset_solver|]. intros y Hy. apply Hl. multiset_solver.
Qed.

(** The objects that outlive the scopes of lbuf and lmem. *)
Record base_objects (env : UcxEnv) (ep : UcxEndpoint) s : Prop := {
  base_worker : Worker (env_worker_ env) ∈ s;
  base_ctx : Ctx (env_ctx_ env) ∈ s;
  base_ep : Ep (ep_ ep) ∈ s;
}.

Lemma no_objects o : ∅ ⊎ o = o.
Proof. multiset_solver. Qed.
Lemma no_objects_r o : o ⊎ ∅ = o.
Proof. multiset_solver. Qed.

Lemma sub_in x s o : s ⊆ o → x ∈ s → x ∈ o.
Proof. multiset_solver. Qed.

Lemma own_with_lmem s o do_put env ep lbuf n raddr rk (Q : Z → rma_world → Prop) w :
  rk ≠ 0 → base_objects env ep s → keyless o → owns (make (Rkey (ep_ ep) rk) o) w → spare s o →
  (∀ w', owns o w' → Q 0 w') →
  wp (leaves s) (with_lmem L unwinds fuel do_put env ep lbuf n raddr rk) Q w.
Proof using Hnull.
  intros Hrk [Hw Hc He] Hk Ho Hs HQ. pose proof (spare_sub _ _ Hs) as Hss. apply wp_bind.
  eapply own_new_UcxMem; [done|exact Ho|by apply spare_make|by apply make_in_r, (sub_in _ s)|].
  intros m w1 Hm Hmc Ho1. rewrite make_comm in Ho1.
  apply (own_scope _ _ {[+ Mem (memh_ m) +]}).
  { intros o' w' Q' Ho' Hs' HQ'.
    eapply own_delete_UcxMem; [done| |exact Ho'|by apply spare_sub|exact HQ'].
    rewrite Hmc. by eapply sub_in; [apply spare_sub|]. }
  cbv zeta. set (o1 := {[+ Mem (memh_ m) +]} ⊎ o).
  assert (spare ({[+ Mem (memh_ m) +]} ⊎ s) o1) as Hs1 by by apply spare_both.
  assert (keyless o1) as Hk1.
  { intros e r. unfold o1. pose proof (Hk e r). multiset_solver. }
  assert (Ep (ep_ ep) ∈ o1) as He1 by by apply make_in_r, (sub_in _ s).
  apply wp_bind. eapply (own_rma_op _ o1); [done| |exact Ho1|done|].
  { split; [by apply make_in_r, (sub_in _ s)..|apply make_in|done]. }
  intros w2 Ho2. assert (spare ({[+ Mem (memh_ m) +]} ⊎ s) (make (Rkey (ep_ ep) rk) o1)) as Hs2.
  { by apply spare_make. }
  apply wp_bind. eapply uses_printf; [exact Ho2|done|]. intros _ w3 Ho3.
  apply wp_bind. eapply own_local; [apply keeps_print_head|exact Ho3|done|]. intros _ w4 Ho4.
  apply wp_bind. eapply uses_printf; [exact Ho4|done|]. intros _ w5 Ho5.
  apply wp_bind. eapply own_destroy_rkey; [done|exact He1|exact Hk1|exact Ho5|by apply spare_sub|].
  intros w6 Ho6. apply wp_ret. exists o. by split_and!.
Qed.

Lemma own_with_lbuf s o do_put env ep n raddr rk (Q : Z → rma_world → Prop) w :
  rk ≠ 0 → base_objects env ep s → keyless o → owns (make (Rkey (ep_ ep) rk) o) w → spare s o →
  (∀ w', owns o w' → Q 0 w') →
  wp (leaves s) (with_lbuf L unwinds fuel do_put env ep n raddr rk) Q w.
Proof using Hnull.
  intros Hrk Hb Hk Ho Hs HQ.
  assert (spare s (make (Rkey (ep_ ep) rk) o)) as Hs1 by by apply spare_make.
  apply wp_bind. eapply own_local; [apply keeps_new_vector|exact Ho|done|]. intros p w1 Ho1.
  apply (own_scope _ _ ∅).
  { intros o' w' Q' Ho' Hs' HQ'. rewrite no_objects in Ho'.
    eapply own_local; [apply keeps_delete_vector|exact Ho'|done|]. intros [] w2. apply HQ'. }
  rewrite no_objects. apply wp_bind.
  apply wp_conseq with (Q := λ _ w', owns (make (Rkey (ep_ ep) rk) o) w').
  { apply wp_when; intros _; [|done].
    eapply own_local; [apply keeps_fill|exact Ho1|done|]. by intros _ w2. }
  intros [] w2 Ho2. eapply own_with_lmem; [done|done|done|exact Ho2|done|].
  intros w3 Ho3. exists o. rewrite no_objects. by split_and!.
Qed.

Lemma own_client_main argv (Q : Z → rma_world → Prop) w :
  owns ∅ w → (∀ r w', owns ∅ w' → Q r w') →
  wp (leaves ∅) (client_main L unwinds fuel argv) Q w.
Proof using Hnull.
  intros Ho HQ. assert (spare ∅ ∅) as Hs by apply spare_self.
  unfold client_main. destruct (length argv <? 4)%nat.
  { apply wp_bind. eapply uses_printf; [exact Ho|done|]. intros _ w1 Ho1. by apply wp_ret, HQ. }
  cbv zeta. apply wp_bind. unfold new_string.
  eapply uses_when; [apply uses_reserve|exact Ho|done|]. intros _ w1 Ho1.
  apply wp_bind, wp_when.
  { intros _. by eapply own_client_die. }
  intros Hmode. apply wp_bind. eapply own_tcp_connect; [exact Ho1|done|]. intros fd w2 Ho2.
  apply wp_bind. eapply uses_recv_fd; [apply make_in|exact Ho2|by apply spare_make|].
  intros hs w3 Ho3.
  apply wp_bind. eapply (own_drop _ _ _ ∅ (Fd fd) (close fd)); [|exact Ho3|done|].
  { intros r. by apply drop_ok. }
  intros _ w4 Ho4.
  apply wp_bind. eapply own_new_UcxEnv; [done|exact Ho4|done|by intros x ?%gmultiset_not_elem_of_empty|].
  intros env w5 Hwz Hcz Ho5.
  apply (own_scope _ _ (env_objects env)).
  { intros o' w' Q' Ho' Hs' HQ'. eapply own_delete_UcxEnv; [done|done|exact Ho'|done| |exact HQ'].
    destruct Hs' as [_ Hl]. intros x Hx. specialize (Hl x ltac:(multiset_solver)). by destruct x. }
  rewrite no_objects_r in Ho5 |- *.
  apply wp_bind. eapply own_new_UcxEndpoint; [done|exact Ho5|apply spare_self| |].
  { unfold env_objects. multiset_solver. }
  intros ep w6 Hep Ho6.
  apply (own_scope _ _ {[+ Ep (ep_ ep) +]}).
  { intros o' w' Q' Ho' Hs' HQ'.
    eapply own_delete_UcxEndpoint; [done|exact Ho'|by apply spare_sub|exact HQ']. }
  set (s2 := {[+ Ep (ep_ ep) +]} ⊎ env_objects env).
  apply wp_bind. eapply (own_import_rkey _ _ Hnull s2 s2); [exact Ho6|apply spare_self|apply make_in|].
  intros rk w7 Hrk Ho7. eapply (own_with_lbuf s2 s2); [done| | |exact Ho7|apply spare_self|].
  { unfold s2, env_objects. split; multiset_solver. }
  { intros e r. unfold s2, env_objects. multiset_solver. }
  intros w8 Ho8. exists (env_objects env). split; [exact Ho8|]. split; [apply spare_self|].
  intros w9 Ho9. exists ∅. rewrite no_objects_r. split; [exact Ho9|]. split; [done|].
  intros w10 Ho10. by apply HQ.
Qed.

(** ** server.cpp *)

Lemma own_serve_one s o lfd hs buf n (Q : unit → rma_world → Prop) w :
  owns o w → spare s o → Fd lfd ∈ o → (∀ w', owns o w' → Q tt w') →
  wp (leaves s) (serve_one L lfd hs buf n) Q w.
Proof using.
  intros Ho Hs Hl HQ. apply wp_bind. eapply own_accept; [exact Ho|done|done|..].
  { intros fd w1 Hfd Ho1. rewrite (proj2 (Z.leb_gt _ _)) by done. by apply wp_ret, HQ. }
  intros fd w1 Hfd Ho1. rewrite (proj2 (Z.leb_le _ _)) by done.
  assert (spare s (make (Fd fd) o)) as Hs1 by by apply spare_make.
  apply wp_bind. eapply uses_reserve; [exact Ho1|done|]. intros _ w2 Ho2.
  apply wp_bind. eapply uses_reserve; [exact Ho2|done|]. intros _ w3 Ho3.
  apply wp_bind. eapply uses_send_fd; [apply make_in|exact Ho3|done|]. intros _ w4 Ho4.
  apply wp_bind. eapply (own_drop _ _ _ o (Fd fd) (close fd)); [|exact Ho4|by apply spare_sub|].
  { intros r. by apply drop_ok. }
  intros _ w5 Ho5. eapply uses_printf; [exact Ho5|done|]. intros [] w6. apply HQ.
Qed.

Lemma uses_print_periodically o buf n last : uses unwinds o (print_periodically L buf n last).
Proof using.
  apply uses_bind.
  { apply (uses_call _ _ _ steady_clock_now []); [|done]. intros r. symmetry. by apply use_ok. }
  intros now. destruct (_ <? _); [|apply uses_ret].
  apply uses_bind; [apply uses_printf|intros _].
  apply uses_bind; [apply uses_local, keeps_print_head|intros _].
  apply uses_bind; [apply uses_printf|intros _]. apply uses_ret.
Qed.

Lemma own_event_loop s o env lfd hs buf n last (Q : Z → rma_world → Prop) w :
  owns o w → spare s o → Fd lfd ∈ o → Worker (env_worker_ env) ∈ o →
  wp (leaves s) (event_loop L fuel env lfd hs buf n last) Q w.
Proof using.
  intros Ho Hs Hl Hw. apply wp_loop with (I := λ _ w', owns o w'); [exact Ho|..].
  { intros _ w' Ho'. by eapply leaves_spare. }
  intros last' w1 Ho1. apply wp_bind. unfold progress. apply wp_bind.
  eapply (own_call_use _ _ _ _ (ucp_worker_progress (env_worker_ env)));
    [done|exact Ho1|by apply spare_sub|by repeat constructor|]. intros _ w2 Ho2.
  apply wp_ret, wp_bind. eapply own_serve_one; [exact Ho2|done|done|]. intros w3 Ho3.
  apply wp_bind. eapply uses_print_periodically; [exact Ho3|done|]. intros now w4 Ho4.
  by apply wp_ret.
Qed.

Lemma own_with_env s o port buf n address_of (Q : Z → rma_world → Prop) w :
  owns o w → spare s o → independent o →
  wp (leaves s) (with_env L unwinds fuel address_of port buf n) Q w.
Proof using Hnull.
  intros Ho Hs Hi. apply wp_bind.
  eapply own_new_UcxEnv; [exact Hnull|exact Ho|done|done|]. intros env w1 Hwz Hcz Ho1.
  assert (independent s) as His.
  { intros x Hx. apply Hi. destruct Hs as [Hss _]. multiset_solver. }
  apply (own_scope _ _ (env_objects env)).
  { intros o' w' Q' Ho' Hs' HQ'. eapply own_delete_UcxEnv; [done|done|exact Ho'|done| |exact HQ'].
    destruct Hs' as [Hss Hl]. intros x Hx. destruct (decide (x ∈ s)) as [|Hn]; [by apply His|].
    specialize (Hl x ltac:(multiset_solver)). by destruct x. }
  set (o1 := env_objects env ⊎ o).
  assert (spare (env_objects env ⊎ s) o1) as Hs1 by by apply spare_both.
  assert (Worker (env_worker_ env) ∈ o1) as Hw1 by (unfold o1, env_objects; multiset_solver).
  assert (Ctx (env_ctx_ env) ∈ env_objects env) as Hc1 by (unfold env_objects; multiset_solver).
  apply wp_bind. eapply own_worker_address; [exact Ho1|done|done|]. intros waddr w2 Ho2.
  apply wp_bind. eapply own_new_UcxMem; [exact Hnull|exact Ho2|done|unfold o1; multiset_solver|].
  intros m w3 Hm Hmc Ho3. apply (own_scope _ _ {[+ Mem (memh_ m) +]}).
  { intros o' w' Q' Ho' Hs' HQ'.
    eapply own_delete_UcxMem; [done| |exact Ho'|by apply spare_sub|exact HQ'].
    rewrite Hmc. apply spare_sub in Hs'. multiset_solver. }
  set (o2 := {[+ Mem (memh_ m) +]} ⊎ o1).
  assert (spare ({[+ Mem (memh_ m) +]} ⊎ (env_objects env ⊎ s)) o2) as Hs2 by by apply spare_both.
  apply wp_bind. eapply own_pack_rkey;
    [exact Ho3|exact Hs2|unfold o1; apply make_in_r; multiset_solver|apply make_in|].
  intros rk w4 Ho4. apply wp_bind. eapply own_tcp_listen; [exact Ho4|exact Hs2|].
  intros lfd w5 Ho5.
  assert (spare ({[+ Mem (memh_ m) +]} ⊎ (env_objects env ⊎ s)) (make (Fd lfd) o2)) as Hs3.
  { by apply spare_make. }
  apply wp_bind. eapply uses_printf; [exact Ho5|exact Hs3|]. intros _ w6 Ho6.
  apply wp_bind. eapply (uses_call _ _ _ steady_clock_now []); [|done|exact Ho6|exact Hs3|].
  { intros r. symmetry. by apply use_ok. }
  intros last w7 Ho7. eapply own_event_loop; [exact Ho7|exact Hs3|apply make_in|].
  by apply make_in_r, make_in_r.
Qed.

Lemma own_server_main argv address_of (Q : Z → rma_world → Prop) w :
  owns ∅ w → (∀ r w', owns ∅ w' → Q r w') →
  wp (leaves ∅) (server_main L unwinds fuel address_of argv) Q w.
Proof using Hnull.
  intros Ho HQ. assert (spare ∅ ∅) as Hs by apply spare_self.
  unfold server_main. destruct (length argv <? 3)%nat.
  { apply wp_bind. eapply uses_printf; [exact Ho|done|]. intros _ w1 Ho1. by apply wp_ret, HQ. }
  cbv zeta. apply wp_bind. eapply own_local; [apply keeps_new_vector|exact Ho|done|].
  intros p w1 Ho1. apply (own_scope _ _ ∅).
  { intros o' w' Q' Ho' Hs' HQ'. rewrite no_objects in Ho'.
    eapply own_local; [apply keeps_delete_vector|exact Ho'|done|]. intros [] w2. apply HQ'. }
  rewrite no_objects. apply wp_bind. eapply own_local; [apply keeps_fill|exact Ho1|done|].
  intros _ w2 Ho2. eapply own_with_env; [exact Ho2|done|].
  by intros x ?%gmultiset_not_elem_of_empty.
Qed.
End programs.
