(* ===== verification/Rma.v ===== *)
(** * Properties of ucp_rma_client_server

    The theorems about the handshake over TCP and about whole runs of client.cpp
    and server.cpp. [demo_rma] is a concrete outside for the witnesses: sockets
    that move at most three bytes at a time, and a UCX on which everything
    succeeds. *)

From S2P Require Import Prelude CRuntime CLib Ucx RmaApi RmaTcp RmaUcx RmaMain RmaSpec RmaWire.
From S2P Require Import RmaRead RmaVec Ownership RmaOwn RmaRun RmaClient RmaServe RmaLife RmaLifeMain.
From stdpp Require Import gmultiset.
Import Ucx.Reference.
Open Scope Z_scope.

(** ** A concrete outside *)

Definition demo_hs : Handshake := MkHandshake [1; 2; 3; 4; 5] [250; 251] 4096 20.

Definition demo_rma_ret (input : list Z) (h : history rma_api) (c : rma_call) : rma_ret c :=
  match c with
  | socket => 5
  | accept _ => 6
  | poll_in _ => (1, true)
  | inet_pton _ => (1, 16777343)
  | send _ bs => Z.of_nat (Nat.min 3 (length bs))
  | recv fd n =>
      let k := Nat.min (Z.to_nat n) (Nat.min 3 (length (unread fd input h))) in
      (Z.of_nat k, take k (unread fd input h))
  | ucp_config_read => (0, 10)
  | ucp_init _ _ _ => (0, 11)
  | ucp_worker_create _ _ _ => (0, 12)
  | ucp_worker_query _ _ => (0, (13, worker_addr demo_hs))
  | ucp_mem_map _ _ _ _ => (0, 14)
  | ucp_rkey_pack _ _ => (0, (15, rkey demo_hs))
  | ucp_ep_create _ _ _ => (0, 16)
  | ucp_ep_rkey_unpack _ _ => (0, 17)
  | ucp_put_nbx _ _ _ _ _ _ | ucp_get_nbx _ _ _ _ _ _ => 18
  | ucp_ep_flush_nbx _ _ => 19
  | ucp_config_release _ | ucp_cleanup _ | ucp_worker_destroy _
  | ucp_worker_release_address _ _ | ucp_rkey_buffer_release _ | ucp_ep_destroy _
  | ucp_rkey_destroy _ | ucp_request_free _ => tt
  | _ => 0
  end.

Definition demo_rma (input : list Z) : rma_lib := {|
  l_acts := λ _ _, [];
  l_ret := demo_rma_ret input;
  l_alloc := λ _ _, true;
|}.

(** The same with a peer that is gone. *)
Definition demo_gone : rma_lib := {|
  l_acts := λ _ _, [];
  l_ret := λ h c, match c return rma_ret c with send _ _ => -1 | c => demo_rma_ret [] h c end;
  l_alloc := λ _ _, true;
|}.

Definition demo_address (p : ptr) : Z := match p with Loc _ off => 4096 + off | _ => 0 end.

(** A world with an open connection, and the server in its loop. *)
Definition demo_connected : rma_world := World tt ∅ 0%N [ECall (A := rma_api) socket 5].

Lemma demo_rma_polite input : polite (demo_rma input).
Proof. by intros h c p bs ?%elem_of_nil. Qed.

Lemma demo_rma_bounded input : send_bounded (demo_rma input).
Proof.
  intros h fd bs. change (Z.of_nat (Nat.min 3 (length bs)) ≤ Z.of_nat (length bs)). lia.
Qed.

Lemma demo_rma_delivers input fd : delivers (demo_rma input) fd input.
Proof.
  intros h n Hn. exists (Nat.min (Z.to_nat n) (Nat.min 3 (length (unread fd input h)))).
  split; [lia|]. split; [lia|]. split; [|done].
  destruct (unread fd input h); [done|]. simpl. lia.
Qed.

Lemma demo_rma_nonnull input : nonnull_handles (demo_rma input).
Proof. intros h c z. destruct c; simpl; try done; intros [= <-]; done. Qed.

Lemma demo_rma_completes input : completes (demo_rma input) 0.
Proof. intros h q _. done. Qed.

Lemma demo_hs_wf : wf_handshake demo_hs.
Proof.
  split; simpl; [split; [repeat constructor; unfold is_byte; lia|by compute]..|lia|lia].
Qed.

(** A socket on which nothing was received has everything unread. *)
Lemma unread_all fd input h : received fd h = [] → unread fd input h = input.
Proof. unfold unread. by intros ->. Qed.

(** ** The handshake *)

(** The length fields of the wire format have 32 bits: a handshake with a longer
    worker address or key is never received as it was sent. *)
Lemma long_fields_lost L hs fd w :
  polite L → delivers L fd (wire hs) → exposed_live w → wf_handshake hs →
  received fd (trace w) = [] →
  2 ^ 32 ≤ vsize (worker_addr hs) ∨ 2 ^ 32 ≤ vsize (rkey hs) →
  wp (λ h _, h = Throw "recv()" ∨ no_memory h) (recv_fd L fd) (λ hs' _, hs' ≠ hs) w.
Proof.
  intros Hp Hd Hl Hwf Hr Hlong. pose proof (wire_bytes hs Hwf) as Hb.
  eapply wp_mono; [apply (recv_fd_refines L fd (wire hs) Hp Hd w Hl)|..];
    rewrite (unread_all fd (wire hs)) by done; [done| |].
  - intros hs' w' (_ & _ & Hp' & _) ->. destruct (parse_sizes _ _ _ Hb Hp'). lia.
  - intros h w' [_ [[-> _]|Hh]]; auto.
Qed.

(** Whatever pieces the socket accepts, Handshake::send_fd puts exactly the
    bytes of the wire format on the connection, or throws after a prefix of
    them; it always ends, and sends on no other descriptor. *)
Theorem send_fd_writes_wire L hs fd w :
  polite L → send_bounded L → exposed_live w →
  vsize (worker_addr hs) ≤ max_size → vsize (rkey hs) ≤ max_size →
  wp (λ h w', h = Throw "send()" ∧ refused L fd ∧ prefix_sent fd (wire hs) w w')
     (send_fd L hs fd)
     (λ _ w', after (sends fd) w w' ∧ sent fd (trace w') = sent fd (trace w) ++ wire hs) w.
Proof. intros. apply send_fd_ok; auto. Qed.

(** C18: Handshake::recv_fd refines the parser of the wire format: on a socket that
    delivers a byte stream in pieces of any size it answers the handshake the
    parser finds and leaves the rest unread; if the stream ends too early it
    throws; otherwise it can only run out of memory. *)
Theorem recv_fd_refines_parse L fd input w :
  polite L → delivers L fd input → exposed_live w →
  Forall is_byte (unread fd input (trace w)) →
  wp (λ h _, h = Throw "recv()" ∧ parse (unread fd input (trace w)) = None ∨ no_memory h)
     (recv_fd L fd)
     (λ hs w', wf_handshake hs ∧
        parse (unread fd input (trace w)) = Some (hs, unread fd input (trace w'))) w.
Proof.
  intros Hp Hd Hl Hb. eapply wp_mono; [apply (recv_fd_refines L fd input Hp Hd w Hl Hb)|..].
  - intros hs w' (_ & ? & ? & _). done.
  - by intros h w' [_ Hh].
Qed.

(** C14: composition of the two ends: if the bytes one process has sent with
    send_fd are the bytes another receives, recv_fd gives the same handshake and
    reads all of it, although the two sides cut the stream differently. *)
Theorem handshake_transfer Ls Lc hs fds fdc ws ws' wc :
  polite Ls → send_bounded Ls → exposed_live ws → wf_handshake hs →
  vsize (worker_addr hs) < 2 ^ 32 → vsize (rkey hs) < 2 ^ 32 →
  sent fds (trace ws) = [] → send_fd Ls hs fds ws = (Ok tt, ws') →
  polite Lc → delivers Lc fdc (sent fds (trace ws')) → exposed_live wc →
  received fdc (trace wc) = [] →
  wp (λ h _, no_memory h) (recv_fd Lc fdc)
     (λ hs' w', hs' = hs ∧ unread fdc (sent fds (trace ws')) (trace w') = []) wc.
Proof.
  intros Hps Hb Hls Hwf Hwa Hrk Hs Hrun Hpc Hd Hlc Hr.
  assert (sent fds (trace ws') = wire hs) as Hw.
  { apply (wp_run (λ _ _, True) (send_fd Ls hs fds)
      (λ _ w', sent fds (trace w') = wire hs) ws tt ws'); [|done].
    apply send_fd_ok; [done|done|done|apply Hwf|apply Hwf|..]; [|done].
    intros w' _ Hw'. by rewrite Hw', Hs. }
  rewrite Hw in Hd |- *.
  assert (parse (wire hs) = Some (hs, [])) as Hp.
  { rewrite <-(app_nil_r (wire hs)). by apply parse_wire. }
  eapply wp_mono; [apply (recv_fd_refines Lc fdc (wire hs) Hpc Hd wc Hlc)|..];
    rewrite (unread_all fdc (wire hs)) by done.
  - by apply wire_bytes.
  - intros hs' w' (_ & _ & Hp' & _). rewrite Hp in Hp'. by simplify_eq.
  - intros h w' [_ [[_ Hn]|Hn]]; [by rewrite Hp in Hn|done].
Qed.

(** ** The programs *)

Section programs.
Context `{!Ucs, !Ucp} (L : rma_lib) (unwinds : bool) (fuel : nat).

(** C15: the client, on a connection that delivers [input]: it has no undefined
    behaviour and it ends, by return, exit(1) or an exception. If it returns 0 the
    operations of the run were exactly these, in this order: one put of the pattern
    (3 i) mod 256 of the size in the handshake, its completion with UCS_OK if it
    returned a request, a flush, and the completion of the flush; or one get into the
    vector and its completion; with the peer, the key and the remote address of the
    handshake in [input]. No operation was answered an error pointer, and all memory
    is free. With fewer than three arguments it returns 1 without any operation. *)
Theorem client_transfers argv input N :
  polite L → nonnull_handles L → completes L N → (N < fuel)%nat →
  (∀ fd, delivers L fd input) → Forall is_byte input →
  wp (λ h _, h = Exit 1 ∨ ∃ e, h = Throw e) (client_main L unwinds fuel argv)
     (client_result argv input) rma_init_world.
Proof.
  intros Hp Hn Hc Hf Hd Hb.
  eapply wp_mono; [eapply (client_main_ok L unwinds fuel N Hp Hn Hc Hf argv input)|done|].
  - done.
  - done.
  - by split_and!.
  - intros h w' [->|[He _]]; auto.
Qed.

(** C17: the life of descriptors and UCX objects in both programs, for every
    behaviour of the outside with non-null handles. Each call uses objects that are
    alive, each object is destroyed once; a worker is destroyed when no endpoint or
    request is left, a context when no worker, endpoint, request or registered memory
    is left; a remote key is used for the endpoint it was unpacked for, and destroyed
    while that endpoint is alive. This holds at every point where a run may stop; at a
    return nothing is left, and an exception that unwinds the stack leaves only
    descriptors, keys and buffers of UCX: a key that such a run leaks is never
    destroyed. *)
Theorem objects_lifecycle argv address_of :
  nonnull_handles L →
  wp (leaves unwinds ∅) (client_main L unwinds fuel argv) (λ _ w', owns ∅ w') rma_init_world ∧
  wp (leaves unwinds ∅) (server_main L unwinds fuel address_of argv) (λ _ w', owns ∅ w')
     rma_init_world.
Proof. intros Hn. split; [by apply own_client_main|by apply own_server_main]. Qed.

(** C16: the server never returns once it has its arguments, and its memory
    accesses are defined whatever remote peers write into the buffer. The key it
    packed is that of its vector, registered with its whole size, and every
    connection it closed was given the same handshake: address and key as UCX
    answered them, and address and size of that vector. With sockets that accept data
    and enough memory it goes on for ever after the first connection, and every
    connection that was accepted has been served. *)
Theorem server_serves argv address_of :
  polite L → send_bounded L → nonnull_handles L →
  wp (halted L unwinds fuel address_of (strtoul (argv_ argv 2)) (λ _, True))
     (server_main L unwinds fuel address_of argv)
     (λ r w', r = 1 ∧ (length argv < 3)%nat ∧ heap w' = ∅) rma_init_world.
Proof.
  intros Hp Hs Hn. apply server_main_ok; try done. apply strtoul_range.
Qed.

(** C20: one peer that goes away ends the service: in a round in which a connection
    is accepted and its socket takes no data, the exception of send_all leaves the
    event loop, and with it the server. *)
Theorem bad_peer_stops_server env lfd hs p n m last w :
  polite L → inside p n m w → (0 < fuel)%nat →
  vsize (worker_addr hs) ≤ max_size → vsize (rkey hs) ≤ max_size →
  (∀ h, l_ret L h (poll_in lfd) = (1, true)) → (∀ h, 0 ≤ l_ret L h (accept lfd)) →
  (∀ h k, l_alloc L h k = true) → (∀ h fd bs, l_ret L h (send fd bs) ≤ 0) →
  wp (λ h _, h = Throw "send()") (event_loop L fuel env lfd hs p n last) (λ _ _, False) w.
Proof.
  intros Hp Hi Hf Hwa Hrk Hpoll Hacc Hall Hsend.
  destruct fuel as [|k]; [lia|]. unfold event_loop, progress, serve_one, accept_nonblock. cbn [loop].
  apply wp_bind, wp_bind, wp_bind.
  eapply (inside_step L Hp p n m _ (ucp_worker_progress _)); [done|done|exact Hi|].
  intros r1 w1 _ _ Hi1. apply wp_ret, wp_bind, wp_bind, wp_bind.
  eapply (inside_step L Hp p n m _ (poll_in lfd)); [done|done|exact Hi1|].
  intros r2 w2 _ Hr2 Hi2. rewrite Hpoll in Hr2. subst r2.
  change (Z.leb 1 0 || negb true) with false. cbv iota.
  eapply (inside_step L Hp p n m _ (accept lfd)); [done|done|exact Hi2|].
  intros cfd w3 _ Hr3 Hi3. pose proof (Hacc (trace w3)) as Hge. rewrite Hr3 in Hge.
  rewrite (proj2 (Z.leb_le _ _)) by done. unfold when.
  assert (∀ k (Q : unit → rma_world → Prop) w, k ≤ max_size → inside p n m w →
    (∀ w', inside p n m w' → Q tt w') → wp (λ h _, h = Throw "send()") (reserve L k) Q w) as Hres.
  { intros k' Q w' Hk Hi' HQ. apply wp_reserve; [by intros; apply HQ| |lia].
    intros ok Hok _. rewrite Hall in Hok. subst ok. by apply HQ. }
  apply wp_bind, Hres; [done|exact Hi3|]. intros w4 Hi4.
  apply wp_bind, Hres; [done|exact Hi4|]. intros w5 Hi5.
  apply wp_bind. unfold send_fd. cbv zeta. apply wp_bind.
  eapply wp_conseq; [apply send_all_refused; [done|by eapply inside_live|done|done]|done].
Qed.
End programs.

(** Move assignment between two objects: the handle of the target is in neither
    afterwards, so no destructor unmaps it. *)
Lemma assign_UcxMem_loses_handle this other :
  memh_ this ≠ 0 → memh_ this ≠ memh_ other →
  let '(this', other') := assign_UcxMem false this other in
  memh_ this' = memh_ other ∧ memh_ this' ≠ memh_ this ∧ memh_ other' ≠ memh_ this.
Proof. intros. simpl. split_and!; congruence. Qed.

(** ** Witnesses *)

Definition demo_rma_argv : list string := ["client"; "127.0.0.1"; "7000"; "put"]%string.
Definition demo_server_argv : list string := ["server"; "7000"; "20"]%string.

Lemma send_fd_writes_wire_witness :
  fst (send_fd (demo_rma []) demo_hs 5 demo_connected) = Ok tt ∧
  wp (λ h w', h = Throw "send()" ∧ refused (demo_rma []) 5 ∧
        prefix_sent 5 (wire demo_hs) demo_connected w')
     (send_fd (demo_rma []) demo_hs 5)
     (λ _ w', after (sends 5) demo_connected w' ∧
        sent 5 (trace w') = sent 5 (trace demo_connected) ++ wire demo_hs) demo_connected.
Proof.
  split; [vm_compute; reflexivity|].
  apply (send_fd_writes_wire (demo_rma []) demo_hs 5 demo_connected);
    [apply demo_rma_polite|apply demo_rma_bounded|by constructor|by compute|by compute].
Defined.

Lemma recv_fd_refines_parse_witness :
  fst (recv_fd (demo_rma (wire demo_hs)) 5 demo_connected) = Ok demo_hs ∧
  wp (λ h _, h = Throw "recv()" ∧ parse (unread 5 (wire demo_hs) (trace demo_connected)) = None ∨
        no_memory h)
     (recv_fd (demo_rma (wire demo_hs)) 5)
     (λ hs w', wf_handshake hs ∧
        parse (unread 5 (wire demo_hs) (trace demo_connected)) =
          Some (hs, unread 5 (wire demo_hs) (trace w'))) demo_connected.
Proof.
  split; [vm_compute; reflexivity|].
  apply (recv_fd_refines_parse (demo_rma (wire demo_hs)) 5 (wire demo_hs) demo_connected);
    [apply demo_rma_polite|apply demo_rma_delivers|by constructor|].
  apply wire_bytes, demo_hs_wf.
Defined.

Lemma handshake_transfer_witness :
  let ws' := snd (send_fd (demo_rma []) demo_hs 5 demo_connected) in
  wp (λ h _, no_memory h) (recv_fd (demo_rma (sent 5 (trace ws'))) 5)
     (λ hs' w', hs' = demo_hs ∧ unread 5 (sent 5 (trace ws')) (trace w') = []) demo_connected.
Proof.
  intros ws'.
  refine (handshake_transfer (demo_rma []) (demo_rma (sent 5 (trace ws'))) demo_hs 5 5
    demo_connected ws' demo_connected (demo_rma_polite _) (demo_rma_bounded _) _ demo_hs_wf
    _ _ eq_refl _ (demo_rma_polite _) (demo_rma_delivers _ _) _ eq_refl);
    [by constructor|by compute|by compute|vm_compute; reflexivity|by constructor].
Defined.

Lemma client_transfers_witness :
  fst (client_main (demo_rma (wire demo_hs)) true 1 demo_rma_argv rma_init_world) = Ok 0 ∧
  wp (λ h _, h = Exit 1 ∨ ∃ e, h = Throw e)
     (client_main (demo_rma (wire demo_hs)) true 1 demo_rma_argv)
     (client_result demo_rma_argv (wire demo_hs)) rma_init_world.
Proof.
  split; [vm_compute; reflexivity|].
  apply (client_transfers (demo_rma (wire demo_hs)) true 1 demo_rma_argv (wire demo_hs) 0);
    [apply demo_rma_polite|apply demo_rma_nonnull|apply demo_rma_completes|lia
    |apply demo_rma_delivers|apply wire_bytes, demo_hs_wf].
Defined.

Lemma objects_lifecycle_witness :
  (let '(r, w) := client_main (demo_rma (wire demo_hs)) true 1 demo_rma_argv rma_init_world in
   r = Ok 0 ∧ length (trace w) = 58%nat) ∧
  (wp (leaves true ∅) (client_main (demo_rma (wire demo_hs)) true 1 demo_rma_argv)
      (λ _ w', owns ∅ w') rma_init_world ∧
   wp (leaves true ∅) (server_main (demo_rma (wire demo_hs)) true 1 demo_address demo_rma_argv)
      (λ _ w', owns ∅ w') rma_init_world).
Proof.
  split; [vm_compute; split; reflexivity|].
  exact (objects_lifecycle (demo_rma (wire demo_hs)) true 1 demo_rma_argv demo_address
           (demo_rma_nonnull _)).
Defined.

(** Three rounds, three connections. *)
Lemma server_serves_witness :
  (let '(r, w) := server_main (demo_rma []) true 3 demo_address demo_server_argv rma_init_world in
   r = Halt NoFuel ∧ length (served (trace w)) = 3%nat) ∧
  wp (halted (demo_rma []) true 3 demo_address (strtoul (argv_ demo_server_argv 2)) (λ _, True))
     (server_main (demo_rma []) true 3 demo_address demo_server_argv)
     (λ r w', r = 1 ∧ (length demo_server_argv < 3)%nat ∧ heap w' = ∅) rma_init_world.
Proof.
  split; [vm_compute; split; reflexivity|].
  apply (server_serves (demo_rma []) true 3 demo_server_argv demo_address);
    [apply demo_rma_polite|apply demo_rma_bounded|apply demo_rma_nonnull].
Defined.

Lemma bad_peer_stops_server_witness :
  wp (λ h _, h = Throw "send()")
     (event_loop demo_gone 3 (MkUcxEnv 11 12) 5 demo_hs Null 0 0) (λ _ _, False) rma_init_world.
Proof.
  apply (bad_peer_stops_server demo_gone 3 (MkUcxEnv 11 12) 5 demo_hs Null 0 14 0 rma_init_world);
    [by intros h c p bs ?%elem_of_nil| |lia|by compute|by compute|done|done|done|done].
  split; [constructor|]. left. split_and!; [done|done|]. intros b. done.
Defined.
