(* ===== verification/CsApi.v ===== *)
(** * ucp_client_server.c: data types and external interface

    The global variables, structures and enumerations of the program, the
    external functions it calls and the callbacks it registers. *)

From S2P Require Import Prelude CRuntime Ucx HelloUtil.
Open Scope Z_scope.

(** ** Data *)

Inductive send_recv_type_t : Type :=
  | CLIENT_SERVER_SEND_RECV_STREAM
  | CLIENT_SERVER_SEND_RECV_TAG
  | CLIENT_SERVER_SEND_RECV_AM
  | OTHER_SEND_RECV (n : Z).   (* a value of the enum type with no enumerator *)
Definition CLIENT_SERVER_SEND_RECV_DEFAULT : send_recv_type_t :=
  CLIENT_SERVER_SEND_RECV_STREAM.

#[export] Instance send_recv_type_t_eq_dec : EqDecision send_recv_type_t.
Proof. solve_decision. Defined.

(** ucp_dt_iov_t, an element of the array of buffers of one message. *)
Record ucp_dt_iov_t : Type := DtIov { iov_buffer : ptr; iov_length : Z }.

(** The structures whose address the program hands out: an array of
    ucp_dt_iov_t, a test_req_t, a ucx_server_ctx_t. *)
Inductive cs_cell : Type :=
  | CIov (l : list ucp_dt_iov_t)
  | CReq (complete : Z)
  | CSrv (conn_request listener : option Z).   (* None: not assigned yet *)

(** am_data_desc *)
Record am_data_desc_t : Type := AmDataDesc {
  am_complete : Z;
  am_is_rndv : Z;
  am_desc : ptr;
  am_recv_buf : ptr;
}.

(** The static variables. *)
Record cs_glob : Type := CsGlob {
  g_test_mem_type : ucs_memory_type_t;
  g_test_string_length : Z;     (* long *)
  g_iov_cnt : Z;                (* long *)
  g_server_port : Z;            (* uint16_t *)
  g_ai_family : Z;              (* sa_family_t *)
  g_num_iterations : Z;         (* int *)
  g_connection_closed : Z;      (* int *)
  g_am_data_desc : am_data_desc_t;
}.

Definition AF_INET : Z := 2.
Definition AF_INET6 : Z := 10.
Definition DEFAULT_PORT : Z := 13337.
Definition IP_STRING_LEN : Z := 50.
Definition PORT_STRING_LEN : Z := 8.
Definition TAG : Z := 51966.                 (* 0xCAFE *)
Definition COMM_TYPE_DEFAULT : string := "STREAM".
Definition PRINT_INTERVAL : Z := 2000.
Definition DEFAULT_NUM_ITERATIONS : Z := 1.
Definition TEST_AM_ID : Z := 0.

Definition cs_init_glob : cs_glob := {|
  g_test_mem_type := UCS_MEMORY_TYPE_HOST;
  g_test_string_length := 16;
  g_iov_cnt := 1;
  g_server_port := DEFAULT_PORT;
  g_ai_family := AF_INET;
  g_num_iterations := DEFAULT_NUM_ITERATIONS;
  g_connection_closed := 1;
  g_am_data_desc := AmDataDesc 0 0 Null Null;
|}.

(** Assignments to the static variables. *)
Definition with_mem_type v g := CsGlob v (g_test_string_length g) (g_iov_cnt g)
  (g_server_port g) (g_ai_family g) (g_num_iterations g) (g_connection_closed g)
  (g_am_data_desc g).
Definition with_string_length v g := CsGlob (g_test_mem_type g) v (g_iov_cnt g)
  (g_server_port g) (g_ai_family g) (g_num_iterations g) (g_connection_closed g)
  (g_am_data_desc g).
Definition with_iov_cnt v g := CsGlob (g_test_mem_type g) (g_test_string_length g) v
  (g_server_port g) (g_ai_family g) (g_num_iterations g) (g_connection_closed g)
  (g_am_data_desc g).
Definition with_server_port v g := CsGlob (g_test_mem_type g) (g_test_string_length g)
  (g_iov_cnt g) v (g_ai_family g) (g_num_iterations g) (g_connection_closed g)
  (g_am_data_desc g).
Definition with_ai_family v g := CsGlob (g_test_mem_type g) (g_test_string_length g)
  (g_iov_cnt g) (g_server_port g) v (g_num_iterations g) (g_connection_closed g)
  (g_am_data_desc g).
Definition with_num_iterations v g := CsGlob (g_test_mem_type g) (g_test_string_length g)
  (g_iov_cnt g) (g_server_port g) (g_ai_family g) v (g_connection_closed g)
  (g_am_data_desc g).
Definition with_connection_closed v g := CsGlob (g_test_mem_type g)
  (g_test_string_length g) (g_iov_cnt g) (g_server_port g) (g_ai_family g)
  (g_num_iterations g) v (g_am_data_desc g).
Definition with_am_data_desc v g := CsGlob (g_test_mem_type g) (g_test_string_length g)
  (g_iov_cnt g) (g_server_port g) (g_ai_family g) (g_num_iterations g)
  (g_connection_closed g) v.

(** struct sockaddr_storage as the program fills it: the family and the port
    are at the same place for both families, the addresses are not. *)
Record sockaddr_storage : Type := SockAddr {
  ss_family : Z;
  ss_port : Z;                 (* network byte order *)
  sin_addr : list Z;
  sin6_addr : list Z;
}.

(** ** External functions *)

Inductive cs_cb_name : Type := F_send_cb | F_tag_recv_cb | F_stream_recv_cb | F_am_recv_cb.

(** ucp_request_param_t; [None]: a member that was not set. *)
Record ucp_request_param_t : Type := RequestParam {
  op_attr_mask : Z;
  rp_cb : option cs_cb_name;
  rp_datatype : option ucp_datatype;
  rp_user_data : ptr;
  rp_flags : option Z;
}.

(** ucp_ep_params_t *)
Record ucp_ep_params_t : Type := EpParams {
  ep_field_mask : Z;
  ep_err_mode_peer : bool;            (* err_mode = UCP_ERR_HANDLING_MODE_PEER *)
  ep_err_handler_cb : bool;           (* err_handler.cb = err_cb *)
  ep_flags : option Z;
  ep_sockaddr : option sockaddr_storage;
  ep_conn_request : option Z;
}.

(** A message as the UCP functions take it: address and length, the memory they
    describe under the datatype of the request, and the bytes that are there
    when the call is made (for a send). *)
Record message : Type := Message {
  msg_ptr : ptr;
  msg_length : Z;
  msg_segs : list (ptr * Z);
  msg_payload : list mbyte;
}.

Inductive cs_call : Type :=
  | Cuda_call (op : cuda_op)
  | inet_pton (af : Z) (s : string)
  | inet_ntop (af : Z) (addr : list Z) (size : Z)
  | gettimeofday
  | ucp_init (field_mask features : Z) (name : string)
  | ucp_cleanup (ctx : Z)
  | ucp_worker_create (ctx field_mask : Z)
  | ucp_worker_destroy (worker : Z)
  | ucp_worker_progress (worker : Z)
  | ucp_worker_set_am_recv_handler (worker field_mask id : Z)
  | ucp_listener_create (worker field_mask : Z) (addr : sockaddr_storage) (arg : ptr)
  | ucp_listener_query (listener field_mask : Z)
  | ucp_listener_destroy (listener : Z)
  | ucp_listener_reject (listener conn_request : Z)
  | ucp_conn_request_query (conn_request field_mask : Z)
  | ucp_ep_create (worker : Z) (p : ucp_ep_params_t)
  | ucp_ep_close_nbx (ep op_attr_mask flags : Z)
  | ucp_stream_send_nbx (ep : Z) (m : message) (p : ucp_request_param_t)
  | ucp_stream_recv_nbx (ep : Z) (m : message) (p : ucp_request_param_t)
  | ucp_tag_send_nbx (ep : Z) (m : message) (tag : Z) (p : ucp_request_param_t)
  | ucp_tag_recv_nbx (worker : Z) (m : message) (tag tag_mask : Z) (p : ucp_request_param_t)
  | ucp_am_send_nbx (ep id header_length : Z) (m : message) (p : ucp_request_param_t)
  | ucp_am_recv_data_nbx (worker : Z) (desc : ptr) (m : message) (p : ucp_request_param_t)
  | ucp_request_check_status (request : Z)
  | ucp_request_free (request : Z).

(** A status with what the call wrote through its out parameter. *)
Definition cs_ret (c : cs_call) : Type :=
  match c with
  | inet_pton _ _ => option (list Z)
  | inet_ntop _ _ _ => string
  | gettimeofday => Z * Z
  | ucp_init _ _ _ | ucp_worker_create _ _ | ucp_listener_create _ _ _ _
  | ucp_ep_create _ _ | ucp_stream_recv_nbx _ _ _ => Z * Z
  | ucp_listener_query _ _ | ucp_conn_request_query _ _ => Z * sockaddr_storage
  | ucp_cleanup _ | ucp_worker_destroy _ | ucp_listener_destroy _
  | ucp_request_free _ => unit
  | _ => Z
  end.

(** ** Callbacks *)

(** The data argument of an AM callback: the message itself (eager), or a
    descriptor of it (rendezvous). *)
Inductive am_data : Type :=
  | Eager (bytes : list Z)
  | Rndv (desc : Z).

Inductive cs_cbk : Type :=
  | Cb_send (status : Z) (user_data : ptr)
  | Cb_tag_recv (status : Z) (user_data : ptr)
  | Cb_stream_recv (status length : Z) (user_data : ptr)
  | Cb_am_recv (status length : Z) (user_data : ptr)
  | Cb_err (status : Z)
  | Cb_conn (conn_request : Z) (arg : ptr)
  | Cb_am_data (header_length : Z) (data : am_data) (length recv_attr : Z).

Canonical Structure cs_api : api := {|
  a_glob := cs_glob;
  a_cell := cs_cell;
  a_call := cs_call;
  a_ret := cs_ret;
  a_cbk := cs_cbk;
  a_cbr := Z;
|}.

#[export] Instance cs_hello : HelloApi cs_api := {|
  test_mem_type := g_test_mem_type : a_glob cs_api → _;
  cuda_call := Cuda_call : _ → a_call cs_api;
  cuda_res op r := r;
|}.

(** Assignments keep the type of an object; nothing but start_server assigns the
    listener of a ucx_server_ctx_t. *)
#[export] Instance cs_typed : Typed cs_api := {|
  compat := λ c c' : cs_cell,
    match c, c' with
    | CIov _, CIov _ | CReq _, CReq _ => True
    | CSrv _ l, CSrv _ l' => l = l'
    | _, _ => False
    end;
  ordinary _ := True;
|}.

Abbreviation cs_world := (world cs_api).
Abbreviation cs_lib := (lib cs_api).
Abbreviation CM := (M (world cs_api)).

(** Reading a static variable. *)
Definition glb {X} (f : cs_glob → X) : CM X := g ← get_glob; mret (f g).
Definition set_glb (f : cs_glob → cs_glob) : CM unit := mod_glob f.

(** An external call without and with callbacks, at the types of this program. *)
Definition call0 (L : cs_lib) (c : cs_call) : CM (cs_ret c) := ext0 L c.
