(* ===== verification/Iov.v ===== *)
(** * ucp_client_server.c: the buffers of one message

    An array of [iov_cnt] descriptors, each owning a buffer of
    [test_string_length] bytes of the selected memory type. [iov_heap] is the
    ownership invariant: it says which objects the message owns and that the
    rest of the memory is as it was before. *)

From S2P Require Import Prelude CRuntime CLib Ucx HelloUtil CsApi.
Open Scope Z_scope.

Section iov.
Context `{!Ucs, !Ucp, !Cuda} (L : cs_lib).

(** iov[idx], as a value and as an assignment. *)
Definition read_iov (iov : ptr) : CM (list ucp_dt_iov_t) :=
  c ← read_cell iov;
  match c with CIov l => mret l | _ => stop (UB "wrong type") end.
Definition get_iov (iov : ptr) (idx : nat) : CM ucp_dt_iov_t :=
  l ← read_iov iov; the "iov index" (l !! idx).
Definition set_iov (iov : ptr) (idx : nat) (e : ucp_dt_iov_t) : CM unit :=
  update_cell "iov index" iov (λ c,
    match c with
    | CIov l => if bool_decide (idx < length l)%nat then Some (CIov (<[idx := e]> l)) else None
    | _ => None
    end).

(** The bound of "for (idx = 0; idx < iov_cnt; idx++)" with a size_t idx. *)
Definition iov_rounds (iov_cnt : Z) : nat := Z.to_nat (u64 iov_cnt).
#[global] Arguments iov_rounds : simpl never.

(** malloc(iov_cnt * sizeof(ucp_dt_iov_t)); the product is a size_t. *)
Definition malloc_iov : CM ptr :=
  iov_cnt ← glb g_iov_cnt;
  let bytes := u64 (iov_cnt * sizeof_ucp_dt_iov_t) in
  malloc_obj L bytes
    (Cell KHost (CIov (replicate (Z.to_nat (bytes / sizeof_ucp_dt_iov_t))
                         (DtIov Indet 0)))).

(** memset(iov, 0, iov_cnt * sizeof( *iov)) *)
Definition memset_iov (iov : ptr) : CM unit :=
  iov_cnt ← glb g_iov_cnt;
  let n := Z.to_nat (u64 (iov_cnt * sizeof_ucp_dt_iov_t) / sizeof_ucp_dt_iov_t) in
  update_cell "write out of bounds" iov (λ c,
    match c with
    | CIov l =>
        if bool_decide (n ≤ length l)%nat
        then Some (CIov (replicate n (DtIov Null 0) ++ drop n l)) else None
    | _ => None
    end).

Definition buffer_free (iov : ptr) : CM unit :=
  iov_cnt ← glb g_iov_cnt;
  for_up 0 (iov_rounds iov_cnt) (λ idx,
    e ← get_iov iov idx;
    mem_type_free L (iov_buffer e));;
  free iov.

Definition buffer_malloc (iov : ptr) : CM Z :=
  iov_cnt ← glb g_iov_cnt;
  r ← for_break 0 (iov_rounds iov_cnt) (λ idx,
    e ← get_iov iov idx;
    test_string_length ← glb g_test_string_length;
    set_iov iov idx (DtIov (iov_buffer e) test_string_length);;
    buffer ← mem_type_malloc L test_string_length;
    set_iov iov idx (DtIov buffer test_string_length);;
    if bool_decide (buffer = Null) then
      buffer_free iov;;
      mret (Some (-1))
    else mret None);
  match r with Some ret => mret ret | None => mret 0 end.

Definition fill_buffer (iov : ptr) : CM Z :=
  iov_cnt ← glb g_iov_cnt;
  r ← for_break 0 (iov_rounds iov_cnt) (λ idx,
    e ← get_iov iov idx;
    ret ← generate_test_string L (iov_buffer e) (iov_length e);
    if ret =? 0 then mret None else mret (Some ret));
  match r with
  | Some _ => eprintf "Failed to %s\n" [AStr "generate test string"];; mret (-1)
  | None => mret 0
  end.

Definition print_iov (iov : ptr) : CM unit :=
  test_string_length ← glb g_test_string_length;
  msg ← malloc L test_string_length;
  iov_cnt ← glb g_iov_cnt;
  for_up 0 (iov_rounds iov_cnt) (λ idx,
    e ← get_iov iov idx;
    mem_type_memcpy L msg (iov_buffer e) test_string_length;;
    s ← read_string (Some 16%nat) msg;
    printf "%.16s.\n" [ABytes s]);;
  free msg.

Definition print_result (is_server : bool) (iov : ptr) (current_iter : Z) : CM unit :=
  iteration ← c_int (current_iter + 1);
  (if is_server then
     printf "Server: iteration #%d\n" [AZ iteration];;
     printf "UCX data message was received\n" [];;
     printf "\n\n----- UCP TEST SUCCESS -------\n\n" []
   else
     printf "Client: iteration #%d\n" [AZ iteration];;
     printf "\n\n------------------------------\n\n" []);;
  print_iov iov;;
  printf "\n\n------------------------------\n\n" [].

(** ctx->complete, as a value and as an assignment. *)
Definition read_req (ctx : ptr) : CM Z :=
  c ← read_cell ctx;
  match c with CReq complete => mret complete | _ => stop (UB "wrong type") end.
Definition write_req (ctx : ptr) (complete : Z) : CM unit :=
  update_cell "wrong type" ctx (λ c,
    match c with CReq _ => Some (CReq complete) | _ => None end).

(** *param as fill_request_param leaves it. *)
Definition request_param (iov_cnt : Z) (ctx : ptr) : ucp_request_param_t := {|
  op_attr_mask :=
    Z.lor (Z.lor UCP_OP_ATTR_FIELD_CALLBACK UCP_OP_ATTR_FIELD_DATATYPE)
          UCP_OP_ATTR_FIELD_USER_DATA;
  rp_cb := None;
  rp_datatype := Some (if iov_cnt =? 1 then ucp_dt_make_contig 1 else UCP_DATATYPE_IOV);
  rp_user_data := ctx;
  rp_flags := None;
|}.

Definition describe_message (iov ctx : ptr) : CM (ptr * Z * ucp_request_param_t) :=
  iov_cnt ← glb g_iov_cnt;
  msg ← (if iov_cnt =? 1 then e ← get_iov iov 0; mret (iov_buffer e) else mret iov);
  msg_length ←
    (if iov_cnt =? 1 then e ← get_iov iov 0; mret (iov_length e)
     else mret (u64 iov_cnt));
  write_req ctx 0;;
  mret (msg, msg_length, request_param iov_cnt ctx).

(** The out parameters *msg, *msg_length and *param when 0 is returned;
    [None] when -1 is returned. *)
Definition fill_request_param (iov : ptr) (is_client : bool) (ctx : ptr)
  : CM (option (ptr * Z * ucp_request_param_t)) :=
  r ← buffer_malloc iov;
  if negb (r =? 0) then
    eprintf "Failed to %s\n" [AStr "allocate memory"];; mret None
  else
    f ← (if is_client then fill_buffer iov else mret 0);
    if is_client && negb (f =? 0) then
      buffer_free iov;; mret None
    else
      r ← describe_message iov ctx; mret (Some r).

(** The memory a message occupies: the buffer, or the buffers the array of
    descriptors lists. *)
Definition segments (msg : ptr) (msg_length : Z) (p : ucp_request_param_t)
  : CM (list (ptr * Z)) :=
  match rp_datatype p with
  | Some UCP_DATATYPE_IOV =>
      l ← read_iov msg;
      let n := Z.to_nat msg_length in
      if bool_decide (n ≤ length l)%nat
      then mret ((λ e, (iov_buffer e, iov_length e)) <$> take n l)
      else stop (UB "iov index")
  | Some (ucp_dt_make_contig size) => mret [(msg, size * msg_length)]
  | None => mret [(msg, msg_length)]
  end.

(** Its bytes. *)
Fixpoint gather (segs : list (ptr * Z)) : CM (list mbyte) :=
  match segs with
  | [] => mret []
  | (p, n) :: segs' =>
      d ← read_mem by_lib p n;
      r ← gather segs';
      mret (d ++ r)
  end.
End iov.

(** ** Preserved relations *)

Section iov_keeps.
Context `{!Ucs, !Ucp, !Cuda} (L : cs_lib).
Context (R : cs_world → cs_world → Prop) `{!HelloQuiet R}.

Lemma keeps_glb {X} (f : cs_glob → X) : keeps R (glb f).
Proof. unfold glb. solve_keeps. Qed.
Hint Resolve keeps_glb : keeps.

Lemma keeps_read_iov p : keeps R (read_iov p).
Proof. unfold read_iov. solve_keeps. Qed.
Hint Resolve keeps_read_iov : keeps.
Lemma keeps_get_iov p i : keeps R (get_iov p i).
Proof. unfold get_iov. solve_keeps. Qed.
Lemma keeps_set_iov p i e : keeps R (set_iov p i e).
Proof. unfold set_iov. solve_keeps. Qed.
Lemma keeps_read_req p : keeps R (read_req p).
Proof. unfold read_req. solve_keeps. Qed.
Lemma keeps_write_req p v : keeps R (write_req p v).
Proof. unfold write_req. solve_keeps. Qed.
Hint Resolve keeps_read_req keeps_write_req : keeps.
Hint Resolve keeps_get_iov keeps_set_iov : keeps.
Lemma keeps_malloc_iov : keeps R (malloc_iov L).
Proof. unfold malloc_iov. solve_keeps. Qed.
Lemma keeps_memset_iov p : keeps R (memset_iov p).
Proof. unfold memset_iov. solve_keeps. Qed.
Lemma keeps_buffer_free p : keeps R (buffer_free L p).
Proof. unfold buffer_free. solve_keeps. Qed.
Hint Resolve keeps_buffer_free : keeps.
Lemma keeps_buffer_malloc p : keeps R (buffer_malloc L p).
Proof. unfold buffer_malloc. solve_keeps. Qed.
Lemma keeps_fill_buffer p : keeps R (fill_buffer L p).
Proof. unfold fill_buffer. solve_keeps. Qed.
Hint Resolve keeps_buffer_malloc keeps_fill_buffer : keeps.
Lemma keeps_print_iov p : keeps R (print_iov L p).
Proof. unfold print_iov, printf, malloc. solve_keeps. Qed.
Hint Resolve keeps_print_iov : keeps.
Lemma keeps_print_result s p i : keeps R (print_result L s p i).
Proof. unfold print_result, printf. solve_keeps. Qed.
Lemma keeps_fill_request_param p c ctx : keeps R (fill_request_param L p c ctx).
Proof. unfold fill_request_param, describe_message. solve_keeps. Qed.
Lemma keeps_segments m n p : keeps R (segments m n p).
Proof. unfold segments. solve_keeps. Qed.
Lemma keeps_gather l : keeps R (gather l).
Proof. induction l as [|[p n] l IH]; simpl; solve_keeps. Qed.
End iov_keeps.

#[export] Hint Resolve keeps_glb keeps_read_req keeps_write_req keeps_read_iov keeps_get_iov keeps_set_iov
  keeps_malloc_iov keeps_memset_iov keeps_buffer_free keeps_buffer_malloc
  keeps_fill_buffer keeps_print_iov keeps_print_result
  keeps_fill_request_param keeps_segments keeps_gather : keeps.

(** ** Ownership *)

(** The descriptors of the buffers [bs], followed by the descriptors [es]. *)
Definition entries (len : nat) (bs : list N) (es : list ucp_dt_iov_t)
  : list ucp_dt_iov_t :=
  ((λ b, DtIov (Loc b 0) (Z.of_nat len)) <$> bs) ++ es.

(** In the heap [h], the array [ib] describes the buffers [bs], of kind [k] and
    [len] bytes each, followed by descriptors [es] without a buffer; all other
    objects are as in [h0], which has none of these. *)
Record iov_heap (h0 h : gmap N (obj (a_cell cs_api))) (ib : N) (bs : list N)
    (es : list ucp_dt_iov_t) (k : mkind) (len : nat) : Prop := {
  ih_nodup : NoDup (ib :: bs);
  ih_fresh : ∀ b, b ∈ ib :: bs → h0 !! b = None;
  ih_frame : ∀ b, b ∉ ib :: bs → h !! b = h0 !! b;
  ih_iov : h !! ib = Some (Cell KHost (CIov (entries len bs es)));
  ih_empty : Forall (λ e, iov_buffer e = Null) es;
  ih_bufs : ∀ b, b ∈ bs → ∃ d, h !! b = Some (Bytes k d) ∧ length d = len;
}.

Section entries.
Implicit Types (bs : list N) (es : list ucp_dt_iov_t).

Lemma entries_length len bs es : length (entries len bs es) = (length bs + length es)%nat.
Proof. unfold entries. by rewrite length_app, length_fmap. Qed.

Lemma entries_buf len bs es i b :
  bs !! i = Some b → entries len bs es !! i = Some (DtIov (Loc b 0) (Z.of_nat len)).
Proof.
  intros Hb. unfold entries. apply lookup_app_l_Some. by rewrite list_lookup_fmap, Hb.
Qed.

Lemma entries_empty len bs es i e :
  (length bs ≤ i)%nat → es !! (i - length bs)%nat = Some e →
  entries len bs es !! i = Some e.
Proof.
  intros Hi He. unfold entries. rewrite lookup_app_r by (rewrite length_fmap; lia).
  by rewrite length_fmap.
Qed.

Lemma entries_insert len bs e e' es :
  <[length bs := e']> (entries len bs (e :: es)) = entries len bs (e' :: es).
Proof.
  unfold entries. rewrite insert_app_r_alt by (rewrite length_fmap; lia).
  by rewrite length_fmap, Nat.sub_diag.
Qed.

Lemma entries_snoc len bs b es :
  entries len bs (DtIov (Loc b 0) (Z.of_nat len) :: es) = entries len (bs ++ [b]) es.
Proof. unfold entries. by rewrite fmap_app, <-app_assoc. Qed.
End entries.

Section iov_heap.
Context (h0 : gmap N (obj (a_cell cs_api))) (ib : N) (k : mkind) (len : nat).

(** Rewriting the descriptors that own no buffer. *)
Lemma iov_heap_set h bs es es' :
  iov_heap h0 h ib bs es k len → Forall (λ e, iov_buffer e = Null) es' →
  iov_heap h0 (<[ib := Cell KHost (CIov (entries len bs es'))]> h) ib bs es' k len.
Proof.
  intros [Hnd Hfr Hframe Hiov Hemp Hbufs] He.
  assert (ib ∉ bs) as Hib by by apply list.NoDup_cons in Hnd as [].
  split; [done|done| | |done|].
  - intros b Hb. rewrite lookup_insert_ne; [by apply Hframe|].
    intros <-. apply Hb. left.
  - by rewrite lookup_insert_eq.
  - intros b Hb. rewrite lookup_insert_ne by (intros <-; done). by apply Hbufs.
Qed.

(** An object the message does not own changes, or goes away. *)
Lemma iov_heap_frame h bs es b o :
  iov_heap h0 h ib bs es k len → b ∉ ib :: bs →
  iov_heap (<[b := o]> h0) (<[b := o]> h) ib bs es k len.
Proof.
  intros [Hnd Hfr Hframe Hiov Hemp Hbufs] Hb. split; [done| | | |done|].
  - intros b' Hb'. rewrite lookup_insert_ne by (intros <-; done). by apply Hfr.
  - intros b' Hb'. destruct (decide (b = b')) as [->|]; [by rewrite !lookup_insert_eq|].
    rewrite !lookup_insert_ne by done. by apply Hframe.
  - rewrite lookup_insert_ne; [done|]. intros ->. apply Hb. left.
  - intros b' Hb'. rewrite lookup_insert_ne; [by apply Hbufs|].
    intros <-. apply Hb. by right.
Qed.

Lemma iov_heap_frame_delete h bs es b :
  iov_heap h0 h ib bs es k len → b ∉ ib :: bs →
  iov_heap (delete b h0) (delete b h) ib bs es k len.
Proof.
  intros [Hnd Hfr Hframe Hiov Hemp Hbufs] Hb. split; [done| | | |done|].
  - intros b' Hb'. rewrite lookup_delete_ne by (intros <-; done). by apply Hfr.
  - intros b' Hb'. destruct (decide (b = b')) as [->|]; [by rewrite !lookup_delete_eq|].
    rewrite !lookup_delete_ne by done. by apply Hframe.
  - rewrite lookup_delete_ne; [done|]. intros ->. apply Hb. left.
  - intros b' Hb'. rewrite lookup_delete_ne; [by apply Hbufs|].
    intros <-. apply Hb. by right.
Qed.

(** What the message owns exists; the rest of the heap is [h0]. *)
Lemma iov_heap_owned h bs es b :
  iov_heap h0 h ib bs es k len → b ∈ ib :: bs → h !! b ≠ None.
Proof.
  intros Hih [->|Hb]%elem_of_cons Hn.
  - eapply option_clash; [exact Hn|apply Hih].
  - destruct (ih_bufs _ _ _ _ _ _ _ Hih b Hb) as (d & Hd & _).
    by eapply option_clash.
Qed.

Lemma iov_heap_other h bs es b o :
  iov_heap h0 h ib bs es k len → h0 !! b = Some o → (b ∉ ib :: bs) ∧ h !! b = Some o.
Proof.
  intros Hih Hb. assert (b ∉ ib :: bs) as Hn.
  { intros Hin. eapply option_clash; [|exact Hb]. by apply Hih. }
  split; [done|]. by rewrite (ih_frame _ _ _ _ _ _ _ Hih b Hn).
Qed.

(** A fresh buffer takes the place of the first empty descriptor. *)
Lemma iov_heap_grow h bs e es b d :
  iov_heap h0 h ib bs (e :: es) k len → h !! b = None → length d = len →
  iov_heap h0 (<[ib := Cell KHost (CIov (entries len (bs ++ [b]) es))]>
                (<[b := Bytes k d]> h)) ib (bs ++ [b]) es k len.
Proof.
  intros [Hnd Hfr Hframe Hiov Hemp Hbufs] Hb Hd.
  apply list.NoDup_cons in Hnd as [Hib Hnd].
  assert (ib ≠ b) as Hne by (intros ->; by eapply option_clash).
  assert (b ∉ bs) as Hbs.
  { intros Hin. destruct (Hbufs _ Hin) as (?&?&?). by eapply option_clash. }
  split.
  - apply list.NoDup_cons. split; [set_solver|].
    apply list.NoDup_app. split_and!; [done|set_solver|apply NoDup_singleton].
  - intros b' Hb'. destruct (decide (b' = b)) as [->|]; [|apply Hfr; set_solver].
    rewrite <-Hframe; [done|]. set_solver.
  - intros b' Hb'. rewrite !lookup_insert_ne by set_solver. apply Hframe. set_solver.
  - by rewrite lookup_insert_eq.
  - by inversion Hemp.
  - intros b' Hb'. destruct (decide (b' = b)) as [->|].
    + exists d. by rewrite lookup_insert_ne, lookup_insert_eq by done.
    + rewrite !lookup_insert_ne by set_solver. apply Hbufs. set_solver.
Qed.

(** Overwriting a buffer. *)
Lemma iov_heap_write h bs es b d :
  iov_heap h0 h ib bs es k len → b ∈ bs → length d = len →
  iov_heap h0 (<[b := Bytes k d]> h) ib bs es k len.
Proof.
  intros [Hnd Hfr Hframe Hiov Hemp Hbufs] Hb Hd.
  assert (ib ∉ bs) as Hib by by apply list.NoDup_cons in Hnd as [].
  split; [done|done| | |done|].
  - intros b' Hb'. rewrite lookup_insert_ne by set_solver. by apply Hframe.
  - by rewrite lookup_insert_ne by set_solver.
  - intros b' Hb'. destruct (decide (b' = b)) as [->|].
    + exists d. by rewrite lookup_insert_eq.
    + rewrite lookup_insert_ne by done. by apply Hbufs.
Qed.
End iov_heap.

Section iov_specs.
Context `{!Ucs, !Ucp, !Cuda} (L : cs_lib) (t : ucs_memory_type_t).
Context (Hm : mem_usable L t).
Implicit Types (w : cs_world) (E : halt → cs_world → Prop).

Lemma wp_glb E {X} (f : cs_glob → X) Q w : Q (f (glob w)) w → wp E (glb f) Q w.
Proof. done. Qed.

Lemma wp_get_iov E ib k l i e Q w :
  heap w !! ib = Some (Cell k (CIov l)) → l !! i = Some e → Q e w →
  wp E (get_iov (Loc ib 0) i) Q w.
Proof.
  intros Hi Hl HQ. unfold get_iov, read_iov. apply wp_bind, wp_bind.
  eapply wp_read_cell; [done|]. apply wp_ret. rewrite Hl. by apply wp_ret.
Qed.

Lemma wp_set_iov E ib k l i e e' Q w :
  heap w !! ib = Some (Cell k (CIov l)) → l !! i = Some e →
  Q tt (set_heap (<[ib := Cell k (CIov (<[i := e']> l))]> (heap w)) w) →
  wp E (set_iov (Loc ib 0) i e') Q w.
Proof.
  intros Hi Hl HQ. eapply wp_update_cell; [done| |done]. cbv beta iota.
  by rewrite bool_decide_eq_true_2 by (by eapply lookup_lt_Some).
Qed.

(** The heap after the first [i] buffers were released. *)
Definition freed_upto (w : cs_world) (ib : N) (bs : list N) (i : nat) w' : Prop :=
  glob w' = glob w ∧
  (∀ b, b ∈ take i bs → heap w' !! b = None) ∧
  (∀ b, b ∉ take i bs → heap w' !! b = heap w !! b).

Lemma buffer_free_ok E h0 ib bs es len Q w :
  g_test_mem_type (glob w) = t →
  iov_heap h0 (heap w) ib bs es (kind_of t) len →
  iov_rounds (g_iov_cnt (glob w)) = (length bs + length es)%nat →
  (∀ w', heap_only w h0 w' → Q tt w') →
  wp E (buffer_free L (Loc ib 0)) Q w.
Proof.
  intros Hg [Hnd Hfr Hframe Hiov Hemp Hbufs] Hn HQ. unfold buffer_free.
  apply list.NoDup_cons in Hnd as [Hib Hnd].
  apply wp_bind, wp_glb. rewrite Hn.
  assert (∀ i, ib ∉ take i bs) as Hib'.
  { intros i Hin. apply Hib. revert Hin. apply subseteq_take. }
  apply wp_bind, wp_for_up with (I := freed_upto w ib bs).
  { split_and!; [done| |done]. intros b Hb. by apply not_elem_of_nil in Hb. }
  - intros i w1 Hi (Hg1 & Hdead & Hlive). apply wp_bind.
    destruct (decide (i < length bs)%nat) as [Hlt|Hge].
    + destruct (lookup_lt_is_Some_2 bs i Hlt) as [b Hb].
      eapply wp_get_iov; [by rewrite Hlive|by apply entries_buf|]. cbn [iov_buffer].
      destruct (Hbufs b) as (d & Hd & Hl); [by eapply list_elem_of_lookup_2|].
      assert (b ∉ take i bs) as Hbi.
      { intros (j & Hj)%list_elem_of_lookup. apply lookup_take_Some in Hj as [Hj ?].
        pose proof (NoDup_lookup _ _ _ _ Hnd Hj Hb). lia. }
      eapply mem_type_free_ok; [done|by rewrite Hg1|by rewrite Hlive|done|].
      intros w2 [Hh2 Hg2]. unfold freed_upto. rewrite (take_S_r _ _ _ Hb).
      split_and!; [by rewrite Hg2| |].
      * intros b' [Hb'| ->%list_elem_of_singleton]%elem_of_app; rewrite Hh2.
        -- destruct (decide (b = b')) as [->|]; [done|].
           rewrite lookup_delete_ne by done. by apply Hdead.
        -- by rewrite lookup_delete_eq.
      * intros b' [Hb' Hne]%not_elem_of_app. rewrite list_elem_of_singleton in Hne.
        rewrite Hh2, lookup_delete_ne by done. by apply Hlive.
    + destruct (lookup_lt_is_Some_2 es (i - length bs)) as [e He]; [lia|].
      eapply wp_get_iov; [by rewrite Hlive|by eapply entries_empty; [lia|done]|].
      rewrite Forall_lookup in Hemp. rewrite (Hemp _ _ He).
      eapply mem_type_free_null_ok; [done|by rewrite Hg1|].
      intros w2 [Hh2 Hg2]. unfold freed_upto. rewrite !take_ge in * by lia.
      split_and!; [by rewrite Hg2| |]; intros b Hb; rewrite Hh2; auto.
  - clear Hemp. intros w1 (Hg1 & Hdead & Hlive). simpl in *. rewrite !take_ge in * by lia.
    eapply wp_free; [by rewrite Hlive|done|]. apply HQ. split; [|done]. simpl.
    apply map_eq. intros b. destruct (decide (b = ib)) as [->|Hne].
    { rewrite lookup_delete_eq, Hfr; [done|left]. }
    rewrite lookup_delete_ne by done. destruct (decide (b ∈ bs)) as [Hin|Hnin].
    { rewrite Hdead, Hfr; [done|by right|done]. }
    rewrite Hlive by done. apply Hframe. by apply not_elem_of_cons.
Qed.
(** Every buffer is allocated, or everything is released again. *)
Lemma buffer_malloc_ok E h0 ib es len Q w :
  g_test_mem_type (glob w) = t →
  g_test_string_length (glob w) = Z.of_nat len →
  iov_rounds (g_iov_cnt (glob w)) = length es →
  wf_mem w →
  iov_heap h0 (heap w) ib [] es (kind_of t) len →
  (∀ w', heap_only w h0 w' → oom w' → Q (-1) w') →
  (∀ bs w', glob w' = glob w → length bs = length es →
     iov_heap h0 (heap w') ib bs [] (kind_of t) len → Q 0 w') →
  wp E (buffer_malloc L (Loc ib 0)) Q w.
Proof.
  intros Hg Hlen Hn Hwf Hih HN HQ. unfold buffer_malloc.
  apply wp_bind, wp_glb. rewrite Hn.
  apply wp_bind, wp_for_break with (I := λ i w', ∃ bs es', length bs = i ∧
    (i + length es')%nat = length es ∧ glob w' = glob w ∧ wf_mem w' ∧
    iov_heap h0 (heap w') ib bs es' (kind_of t) len).
  { exists [], es. by split_and!. }
  - intros i w1 Hi (bs & es' & <- & Hes & Hg1 & Hwf1 & Hih1).
    destruct es' as [|e es']; [simpl in Hes; lia|].
    apply (wp_with_keeps grows); [solve_keeps|].
    apply wp_bind. eapply wp_get_iov; [apply Hih1| |].
    { eapply entries_empty; [done|]. by rewrite Nat.sub_diag. }
    pose proof (ih_iov _ _ _ _ _ _ _ Hih1) as Hib.
    pose proof (ih_empty _ _ _ _ _ _ _ Hih1) as [He Hes']%Forall_cons_1.
    apply wp_bind, wp_glb. rewrite Hg1, Hlen, He.
    apply wp_bind. eapply wp_set_iov; [done| |].
    { eapply entries_empty; [done|]. by rewrite Nat.sub_diag. }
    rewrite entries_insert.
    assert (Forall (λ e, iov_buffer e = Null) (DtIov Null (Z.of_nat len) :: es')) as Hes2
      by by constructor.
    pose proof (iov_heap_set _ _ _ _ _ _ _ _ Hih1 Hes2) as Hih2.
    match goal with |- wp _ _ _ ?w => set (w2 := w) in * end.
    assert (wf_mem w2) as Hwf2 by (eapply grows_wf; [by eapply grows_insert|done]).
    assert (heap w2 !! ib = Some (Cell KHost (CIov
      (entries len bs (DtIov Null (Z.of_nat len) :: es'))))) as Hib2 by apply Hih2.
    apply wp_bind. eapply mem_type_malloc_ok; [done|by simpl; rewrite Hg1|done|..].
    + intros w3 [Hh3 Hg3] Hoom. apply (wp_with_keeps grows); [solve_keeps|].
      apply wp_bind. eapply wp_set_iov; [by rewrite Hh3| |].
      { eapply entries_empty; [done|]. by rewrite Nat.sub_diag. }
      rewrite bool_decide_eq_true_2 by done.
      apply wp_bind. eapply buffer_free_ok.
      { simpl. rewrite Hg3. simpl. by rewrite Hg1. }
      { simpl. rewrite Hh3, entries_insert. by apply iov_heap_set with (1 := Hih2). }
      { simpl. rewrite Hg3. simpl. by rewrite Hg1, Hn. }
      intros w4 [Hh4 Hg4]. apply wp_ret. intros Hgr _. apply HN.
      * split; [done|]. rewrite Hg4. simpl. by rewrite Hg3.
      * by eapply oom_grows.
    + intros b w3 -> Hb [Hh3 Hg3]. apply wp_bind.
      eapply wp_set_iov.
      { rewrite Hh3, lookup_insert_ne; [done|]. intros Heq. rewrite Heq in Hb. by eapply option_clash. }
      { eapply entries_empty; [done|]. by rewrite Nat.sub_diag. }
      rewrite bool_decide_eq_false_2 by done. apply wp_ret. intros Hgr.
      exists (bs ++ [next w2]), es'. rewrite length_app. simpl in *.
      split_and!; [lia|lia|by rewrite Hg3|by eapply grows_wf|].
      rewrite Hh3, entries_insert, entries_snoc.
      eapply iov_heap_grow; [done|done|]. by rewrite length_replicate, Nat2Z.id.
  - intros w1 (bs & es' & Hl & Hes & Hg1 & _ & Hih1). apply wp_ret.
    destruct es'; [|simpl in *; lia]. by eapply HQ.
Qed.

(** The content generate_test_string gives to a buffer of [len] bytes. *)
Definition filled (len : nat) : list mbyte := test_chars (len - 1) ++ [None].

Lemma filled_length len : (1 ≤ len)%nat → length (filled len) = len.
Proof. intros. unfold filled. rewrite length_app, test_chars_length. simpl. lia. Qed.

Lemma fill_buffer_ok E h0 ib bs len Q w :
  g_test_mem_type (glob w) = t →
  iov_rounds (g_iov_cnt (glob w)) = length bs →
  wf_mem w → (1 ≤ len)%nat → Z.of_nat len < 2 ^ 31 →
  iov_heap h0 (heap w) ib bs [] (kind_of t) len →
  (∀ w', glob w' = glob w → iov_heap h0 (heap w') ib bs [] (kind_of t) len →
     oom w' → Q (-1) w') →
  (∀ w', glob w' = glob w → iov_heap h0 (heap w') ib bs [] (kind_of t) len →
     (∀ b, b ∈ bs → heap w' !! b = Some (Bytes (kind_of t) (filled len))) → Q 0 w') →
  wp E (fill_buffer L (Loc ib 0)) Q w.
Proof.
  intros Hg Hn Hwf Hl1 Hl2 Hih HN HQ. unfold fill_buffer.
  apply wp_bind, wp_glb. rewrite Hn.
  apply wp_bind, wp_for_break with (I := λ i w', glob w' = glob w ∧ wf_mem w' ∧
    iov_heap h0 (heap w') ib bs [] (kind_of t) len ∧
    ∀ b, b ∈ take i bs → heap w' !! b = Some (Bytes (kind_of t) (filled len))).
  { split_and!; [done..|]. intros b Hb. by apply not_elem_of_nil in Hb. }
  - intros i w1 Hi (Hg1 & Hwf1 & Hih1 & Hf1).
    destruct (lookup_lt_is_Some_2 bs i) as [b Hb]; [lia|].
    assert (b ∈ bs) as Hin by by eapply list_elem_of_lookup_2.
    destruct (ih_bufs _ _ _ _ _ _ _ Hih1 b Hin) as (d & Hd & Hdl).
    apply (wp_with_keeps grows); [solve_keeps|].
    apply wp_bind. eapply wp_get_iov; [apply Hih1|by apply entries_buf|].
    apply wp_bind. eapply generate_test_string_ok with (n := len);
      [done|by rewrite Hg1|done|done|done|done|done|..].
    + intros w2 [Hh2 Hg2] Hoom. apply wp_ret. intros Hgr.
      apply wp_bind, wp_fprintf, wp_ret. apply HN; simpl.
      * by rewrite Hg2.
      * by rewrite Hh2.
      * eapply oom_grows; [done|apply grows_push].
    + intros w2 [Hh2 Hg2]. apply wp_ret. intros Hgr.
      split_and!; [by rewrite Hg2|by eapply grows_wf| |].
      * rewrite Hh2. apply iov_heap_write; [done|done|]. by apply filled_length.
      * intros b' Hb'. rewrite Hh2. rewrite (take_S_r _ _ _ Hb) in Hb'.
        destruct (decide (b' = b)) as [->|Hne]; [by rewrite lookup_insert_eq|].
        rewrite lookup_insert_ne by done. apply Hf1. set_solver.
  - intros w1 (Hg1 & _ & Hih1 & Hf1). apply wp_ret. apply HQ; [done..|].
    intros b Hb. apply Hf1. by rewrite take_ge.
Qed.

(** Printing changes nothing; its only undefined behaviour is the copy to the
    unchecked result of a failed malloc. *)
Lemma print_iov_ok E h0 ib bs len Q w :
  g_test_mem_type (glob w) = t →
  g_test_string_length (glob w) = Z.of_nat len →
  iov_rounds (g_iov_cnt (glob w)) = length bs →
  wf_mem w → (16 ≤ len)%nat →
  iov_heap h0 (heap w) ib bs [] (kind_of t) len →
  (∀ w', oom w' → E (UB "write through an invalid pointer") w') →
  (∀ w', heap_only w (heap w) w' → Q tt w') →
  wp E (print_iov L (Loc ib 0)) Q w.
Proof.
  intros Hg Hlen Hn Hwf Hl Hih HE HQ. unfold print_iov, malloc.
  apply wp_bind, wp_glb. rewrite Hlen. apply wp_bind, wp_malloc_obj; [done| |].
  { intros _. apply wp_bind, wp_glb. simpl. rewrite Hn.
    apply wp_bind. destruct bs as [|b bs]; [by apply wp_ret, wp_ret, HQ|].
    destruct (ih_bufs _ _ _ _ _ _ _ Hih b) as (d & Hd & Hdl); [left|].
    simpl. apply wp_bind, wp_bind. eapply wp_get_iov; [apply Hih|done|].
    apply wp_bind. simpl.
    eapply mem_type_memcpy_null; [done|done|done| |by apply slice_all; lia|].
    { intros ->. done. }
    intros w' Hoom. apply HE. eapply oom_grows; [|exact Hoom].
    exists (Z.of_nat len). left. }
  intros mb _ -> Hmb. rewrite Nat2Z.id.
  match goal with |- wp _ _ _ ?w => set (w1 := w) in * end.
  assert (iov_rounds (g_iov_cnt (glob w1)) = length bs) as Hn1 by exact Hn.
  apply wp_bind, wp_glb. rewrite Hn1.
  apply wp_bind, wp_for_up with (I := λ _ w', ∃ d, length d = len ∧
    heap_only w (<[next w := Bytes KHost d]> (heap w)) w').
  { exists (replicate len None). split; [by rewrite length_replicate|done]. }
  - intros i w2 Hi (d & Hd & Hh2 & Hg2).
    destruct (lookup_lt_is_Some_2 bs i) as [b Hb]; [lia|].
    assert (b ∈ bs) as Hin by by eapply list_elem_of_lookup_2.
    destruct (ih_bufs _ _ _ _ _ _ _ Hih b Hin) as (db & Hdb & Hdl).
    pose proof (ih_iov _ _ _ _ _ _ _ Hih) as Hiov.
    assert (∀ b o, heap w !! b = Some o → heap w2 !! b = Some o) as Hsame.
    { intros b' o Ho. rewrite Hh2, lookup_insert_ne; [done|].
      intros <-. by eapply option_clash. }
    apply wp_bind. eapply wp_get_iov; [by apply Hsame|by apply entries_buf|]. cbn [iov_buffer].
    apply wp_bind. eapply mem_type_memcpy_ok; [done|by rewrite Hg2|by apply Hsame|
      by rewrite Hh2, lookup_insert_eq| |by apply slice_all; lia|
      by apply splice_all; lia|].
    { intros ->. done. }
    intros w3 [Hh3 Hg3]. apply wp_bind. destruct (scan_some 16 db) as [r Hr]; [lia|].
    eapply (wp_read_string _ (Some 16%nat)) with (k := KHost) (d := db);
      [by rewrite Hh3, lookup_insert_eq|done|exact Hr|].
    apply wp_fprintf. exists db. split; [lia|]. split; simpl.
    + by rewrite Hh3, Hh2, insert_insert_eq.
    + by rewrite Hg3.
  - intros w2 (d & _ & Hh2 & Hg2). eapply wp_free.
    { by rewrite Hh2, lookup_insert_eq. }
    { done. }
    apply HQ. split; simpl; [|done]. by rewrite Hh2, delete_insert_id.
Qed.

Lemma print_iov_unterminated E h0 ib b bs d len (Q : unit → cs_world → Prop) w :
  g_test_mem_type (glob w) = t →
  g_test_string_length (glob w) = Z.of_nat len →
  (1 ≤ iov_rounds (g_iov_cnt (glob w)))%nat →
  wf_mem w → l_alloc L (trace w) (Z.of_nat len) = true →
  iov_heap h0 (heap w) ib (b :: bs) [] (kind_of t) len →
  heap w !! b = Some (Bytes (kind_of t) d) → length d = len →
  (len < 16)%nat → Some 0 ∉ d →
  (∀ w', E (UB "read out of bounds") w') →
  wp E (print_iov L (Loc ib 0)) Q w.
Proof.
  intros Hg Hlen Hn Hwf Ha Hih Hb Hd Hl Hz HE. unfold print_iov, malloc.
  apply wp_bind, wp_glb. rewrite Hlen. apply wp_bind, wp_malloc_ok; [done|done|].
  intros mb w1 -> Hmb [Hh1 Hg1]. apply wp_bind, wp_glb. rewrite Hg1.
  destruct (iov_rounds _) as [|m]; [lia|]. cbn [for_up].
  assert (∀ b o, heap w !! b = Some o → heap w1 !! b = Some o) as Hsame.
  { intros b' o Ho. rewrite Hh1, lookup_insert_ne; [done|].
    intros <-. by eapply option_clash. }
  apply wp_bind, wp_bind, wp_bind.
  eapply wp_get_iov; [apply Hsame, Hih|by apply entries_buf|]. cbn [iov_buffer].
  apply wp_bind. eapply mem_type_memcpy_ok with (dd' := d); [done|by rewrite Hg1|by apply Hsame|
    by rewrite Hh1, lookup_insert_eq| |by apply slice_all; lia| |].
  { by intros ->. }
  { apply splice_all. rewrite length_replicate. lia. }
  intros w2 [Hh2 Hg2]. apply wp_bind. unfold read_string. apply wp_bind.
  eapply wp_lookup_obj; [by rewrite Hh2, lookup_insert_eq|]. cbv beta iota zeta. simpl by_cpu.
  cbv iota. change (drop (Z.to_nat 0) d) with d. rewrite scan_none by (done || simpl; lia).
  apply wp_stop, HE.
Qed.

Lemma print_result_ok E h0 ib bs len s i Q w :
  g_test_mem_type (glob w) = t →
  g_test_string_length (glob w) = Z.of_nat len →
  iov_rounds (g_iov_cnt (glob w)) = length bs →
  wf_mem w → (16 ≤ len)%nat →
  iov_heap h0 (heap w) ib bs [] (kind_of t) len →
  0 ≤ i < 2 ^ 31 - 1 →
  (∀ w', oom w' → E (UB "write through an invalid pointer") w') →
  (∀ w', heap_only w (heap w) w' → Q tt w') →
  wp E (print_result L s (Loc ib 0) i) Q w.
Proof.
  intros Hg Hlen Hn Hwf Hl Hih Hi HE HQ. unfold print_result, printf.
  apply wp_bind, wp_c_int; [lia|]. apply wp_bind.
  destruct s; repeat (apply wp_bind, wp_fprintf); apply wp_fprintf;
    apply wp_bind; eapply print_iov_ok; try done;
    intros w' [Hh' Hg']; apply wp_fprintf, HQ; by split.
Qed.

(** The configuration the command line leaves: [n] buffers of [len] bytes. *)
Record cs_conf (n len : nat) (g : cs_glob) : Prop := {
  cc_type : g_test_mem_type g = t;
  cc_len : g_test_string_length g = Z.of_nat len;
  cc_cnt : g_iov_cnt g = Z.of_nat n;
  cc_cnt_pos : (1 ≤ n)%nat;
  cc_cnt_max : Z.of_nat n * sizeof_ucp_dt_iov_t < 2 ^ 64;
  cc_len_pos : (1 ≤ len)%nat;
  cc_len_max : Z.of_nat len < 2 ^ 31;
}.

Lemma cs_conf_rounds n len g : cs_conf n len g → iov_rounds (g_iov_cnt g) = n.
Proof.
  intros []. unfold iov_rounds. rewrite cc_cnt0, u64_small; [lia|].
  pose proof sizeof_ucp_dt_iov_t_pos. nia.
Qed.

(** The array is allocated and cleared, or NULL is written through. *)
Lemma new_iov_ok {X} E n len (k : ptr → CM X) Q w :
  cs_conf n len (glob w) → wf_mem w →
  (∀ w', oom w' → E (UB "write through an invalid pointer") w') →
  (∀ ib es m w', glob w' = glob w → trace w' = EAlloc m true :: trace w →
     wf_mem w' → length es = n → heap w !! ib = None →
     iov_heap (heap w) (heap w') ib [] es (kind_of t) len → wp E (k (Loc ib 0)) Q w') →
  wp E (iov ← malloc_iov L; memset_iov iov;; k iov) Q w.
Proof.
  intros Hc Hwf HE HQ. pose proof sizeof_ucp_dt_iov_t_pos as Hsz.
  apply wp_bind. unfold malloc_iov. apply wp_bind, wp_glb.
  assert (u64 (g_iov_cnt (glob w) * sizeof_ucp_dt_iov_t) / sizeof_ucp_dt_iov_t
          = Z.of_nat n) as Hn.
  { destruct Hc. rewrite cc_cnt0, u64_small by nia. by apply Z.div_mul; lia. }
  rewrite Hn, Nat2Z.id. apply wp_malloc_obj; [done| |].
  { intros _. apply wp_bind. unfold memset_iov. apply wp_bind, wp_glb.
    apply wp_stop, HE. eexists. left. }
  intros b _ -> Hb. apply wp_bind. unfold memset_iov. apply wp_bind, wp_glb.
  change (glob (World (glob w) _ _ _)) with (glob w). rewrite Hn, Nat2Z.id.
  match goal with |- wp _ _ _ ?w => set (w1 := w) in * end.
  assert (heap w1 !! next w = Some (Cell KHost (CIov (replicate n (DtIov Indet 0)))))
    as Hb1 by by apply lookup_insert_eq.
  eapply wp_update_cell; [exact Hb1| |].
  { cbv beta iota. by rewrite bool_decide_eq_true_2 by (by rewrite length_replicate). }
  rewrite drop_replicate, Nat.sub_diag, app_nil_r.
  eapply HQ with (es := replicate n (DtIov Null 0));
    [done|done| |by rewrite length_replicate|done|].
  - eapply grows_wf; [by eapply grows_insert|]. intros b' Hb'. simpl in *.
    rewrite lookup_insert_ne by lia. apply Hwf. lia.
  - split.
    + apply NoDup_singleton.
    + intros b' ->%list_elem_of_singleton. done.
    + intros b' Hb'. rewrite list_elem_of_singleton in Hb'. simpl.
      by rewrite !lookup_insert_ne by done.
    + apply lookup_insert_eq.
    + by apply Forall_replicate.
    + intros b' Hb'. by apply not_elem_of_nil in Hb'.
Qed.

(** What a send or a receive is given. *)
Definition msg_addr (n : nat) (ib b : N) : ptr :=
  if Z.of_nat n =? 1 then Loc b 0 else Loc ib 0.
Definition msg_len (n len : nat) : Z :=
  if Z.of_nat n =? 1 then Z.of_nat len else Z.of_nat n.

Lemma describe_message_ok E h0 ib b bs n len cb ck cc Q w :
  cs_conf n len (glob w) → length (b :: bs) = n →
  h0 !! cb = Some (Cell ck (CReq cc)) →
  iov_heap h0 (heap w) ib (b :: bs) [] (kind_of t) len →
  (∀ w', glob w' = glob w →
     iov_heap (<[cb := Cell ck (CReq 0)]> h0) (heap w') ib (b :: bs) [] (kind_of t) len →
     (∀ b', b' ∈ b :: bs → heap w' !! b' = heap w !! b') →
     Q (msg_addr n ib b, msg_len n len, request_param (Z.of_nat n) (Loc cb 0)) w') →
  wp E (describe_message (Loc ib 0) (Loc cb 0)) Q w.
Proof.
  intros Hc Hn Hcb Hih HQ. destruct Hc as [Hty Hlen Hcnt Hpos Hmax Hl1 Hl2].
  assert (cb ∉ ib :: b :: bs) as Hcb2.
  { intros Hin. eapply option_clash; [|exact Hcb]. by apply Hih. }
  unfold describe_message. apply wp_bind, wp_glb. rewrite Hcnt.
  assert (u64 (Z.of_nat n) = Z.of_nat n) as Hu.
  { pose proof sizeof_ucp_dt_iov_t_pos. apply u64_small. nia. }
  rewrite Hu. unfold msg_addr, msg_len in HQ.
  apply wp_bind, wp_conseq with (Q := λ p w', p = (if Z.of_nat n =? 1 then Loc b 0 else Loc ib 0) ∧ w' = w).
  { destruct (Z.of_nat n =? 1); [apply wp_bind; eapply wp_get_iov; [apply Hih|done|]|];
      by apply wp_ret. }
  intros p ? [-> ->].
  apply wp_bind, wp_conseq with (Q := λ p w', p = (if Z.of_nat n =? 1 then Z.of_nat len else Z.of_nat n) ∧ w' = w).
  { destruct (Z.of_nat n =? 1); [apply wp_bind; eapply wp_get_iov; [apply Hih|done|]|];
      by apply wp_ret. }
  intros l ? [-> ->].
  apply wp_bind. eapply wp_update_cell; [by rewrite (ih_frame _ _ _ _ _ _ _ Hih cb)|done|].
  apply wp_ret. apply HQ; [done| |].
  - by apply iov_heap_frame.
  - intros b' Hb'. simpl. rewrite lookup_insert_ne; [done|].
    intros <-. apply Hcb2. by right.
Qed.

(** The message is ready (and filled, for a client), or nothing is left of it. *)
Lemma fill_request_param_ok E h0 ib es n len c cb ck cc Q w :
  cs_conf n len (glob w) → wf_mem w → length es = n →
  h0 !! cb = Some (Cell ck (CReq cc)) →
  iov_heap h0 (heap w) ib [] es (kind_of t) len →
  (∀ w', heap_only w h0 w' → oom w' → Q None w') →
  (∀ b bs w', glob w' = glob w → length (b :: bs) = n →
     iov_heap (<[cb := Cell ck (CReq 0)]> h0) (heap w') ib (b :: bs) [] (kind_of t) len →
     (c = true → ∀ b', b' ∈ b :: bs →
        heap w' !! b' = Some (Bytes (kind_of t) (filled len))) →
     Q (Some (msg_addr n ib b, msg_len n len, request_param (Z.of_nat n) (Loc cb 0))) w') →
  wp E (fill_request_param L (Loc ib 0) c (Loc cb 0)) Q w.
Proof.
  intros Hc Hwf Hes Hcb Hih HN HQ. pose proof (cs_conf_rounds _ _ _ Hc) as Hr.
  destruct Hc as [Hty Hlen Hcnt Hpos Hmax Hl1 Hl2]. unfold fill_request_param.
  apply wp_bind, (wp_with_keeps grows); [solve_keeps|].
  eapply buffer_malloc_ok; [done|done|by rewrite Hr|done|done|..].
  { intros w1 [Hh1 Hg1] Hoom Hgr. simpl. apply wp_bind, wp_fprintf, wp_ret.
    apply HN; [by split|]. eapply oom_grows; [done|apply grows_push]. }
  intros bs w1 Hg1 Hbs Hih1 Hgr1. simpl.
  assert (wf_mem w1) as Hwf1 by by eapply grows_wf.
  assert (∀ w2, glob w2 = glob w →
    iov_heap h0 (heap w2) ib bs [] (kind_of t) len →
    (c = true → ∀ b', b' ∈ bs → heap w2 !! b' = Some (Bytes (kind_of t) (filled len))) →
    wp E (r ← describe_message (Loc ib 0) (Loc cb 0); mret (Some r)) Q w2) as Hend.
  { intros w2 Hg2 Hih2 Hf. destruct bs as [|b bs]; [simpl in *; lia|].
    apply wp_bind. eapply describe_message_ok; [by rewrite Hg2|by rewrite Hbs|done..|].
    intros w3 Hg3 Hih3 Hs. apply wp_ret. eapply HQ; [by rewrite Hg3|by rewrite Hbs|done|].
    intros Hct b' Hb'. rewrite Hs by done. by apply Hf. }
  destruct c; simpl.
  - apply wp_bind. eapply fill_buffer_ok;
      [by rewrite Hg1|by rewrite Hg1, Hr, Hbs|done|done|done|exact Hih1|..].
    + intros w2 Hg2 Hih2 Hoom. simpl. apply wp_bind.
      apply (wp_with_keeps grows); [solve_keeps|].
      eapply buffer_free_ok;
        [by rewrite Hg2, Hg1|exact Hih2|rewrite Hg2, Hg1, Hr; simpl; lia|].
      intros w3 [Hh3 Hg3] Hgr3. apply wp_ret. apply HN; [|by eapply oom_grows].
      split; [done|]. by rewrite Hg3, Hg2.
    + intros w2 Hg2 Hih2 Hf. apply Hend; [by rewrite Hg2|done|done].
  - apply wp_bind, wp_ret. by apply Hend.
Qed.

(** What a message occupies: its buffers, in order. *)
Definition buf_segs (len : nat) (bs : list N) : list (ptr * Z) :=
  (λ b, (Loc b 0, Z.of_nat len)) <$> bs.

Lemma segments_ok E h0 ib b bs n len cb Q w :
  length (b :: bs) = n →
  iov_heap h0 (heap w) ib (b :: bs) [] (kind_of t) len →
  Q (buf_segs len (b :: bs)) w →
  wp E (segments (msg_addr n ib b) (msg_len n len)
          (request_param (Z.of_nat n) (Loc cb 0))) Q w.
Proof.
  intros Hn Hih HQ. unfold segments, msg_addr, msg_len. simpl rp_datatype. cbv iota.
  destruct (Z.eqb_spec (Z.of_nat n) 1) as [Hn1|Hne].
  - destruct bs; [|simpl in Hn; lia]. rewrite Z.mul_1_l. by apply wp_ret.
  - apply wp_bind. unfold read_iov. apply wp_bind.
    eapply wp_read_cell; [apply Hih|]. cbv beta iota. apply wp_ret. cbv zeta.
    rewrite Nat2Z.id, <-Hn, entries_length, bool_decide_eq_true_2 by (simpl; lia).
    apply wp_ret. unfold entries. rewrite app_nil_r, take_ge by by rewrite length_fmap.
    rewrite <-list_fmap_compose. exact HQ.
Qed.

(** The payload of a filled message is the test string, [n] times. *)
Lemma gather_ok E (bs : list N) len d Q w :
  (∀ b, b ∈ bs → ∃ k, heap w !! b = Some (Bytes k d)) → length d = len →
  Q (mjoin (replicate (length bs) d)) w →
  wp E (gather (buf_segs len bs)) Q w.
Proof.
  intros Hb Hd. revert Q. induction bs as [|b bs IH]; intros Q HQ.
  { by apply wp_ret. }
  destruct (Hb b) as [k Hk]; [left|]. unfold buf_segs. rewrite fmap_cons. cbn [gather].
  apply wp_bind. eapply wp_read_mem; [done|done|by apply slice_all; rewrite Hd|].
  apply wp_bind, IH; [intros b' ?; apply Hb; by right|]. by apply wp_ret.
Qed.
End iov_specs.

(** ** CUDA memory that is not there *)

Section cuda_missing.
Context `{!Ucs, !Ucp, !Cuda} (L : cs_lib).
Implicit Types (w : cs_world) (E : halt → cs_world → Prop).

Definition is_cuda (t : ucs_memory_type_t) : Prop :=
  t = UCS_MEMORY_TYPE_CUDA ∨ t = UCS_MEMORY_TYPE_CUDA_MANAGED.

(** A program that was not built with CUDA cannot allocate CUDA memory. *)
Lemma mem_type_malloc_unbuilt E n Q w :
  HAVE_CUDA = false → is_cuda (g_test_mem_type (glob w)) →
  (∀ w', Q Null w') → wp E (mem_type_malloc L n) Q w.
Proof.
  intros Hc Ht HQ. unfold mem_type_malloc. apply wp_bind, wp_get_glob.
  cbn [test_mem_type cs_hello].
  destruct Ht as [-> | ->]; rewrite Hc; by apply wp_bind, wp_fprintf, wp_ret.
Qed.

(** Nothing here assigns a static variable. *)
Lemma wp_same_glob {A} (m : CM A) (Q : A → cs_world → Prop) w :
  keeps (same (λ w : cs_world, glob w)) m → (∀ a w', glob w' = glob w → Q a w') →
  wp (λ _ _, True) m Q w.
Proof.
  intros Hm HQ. specialize (Hm w). unfold wp. destruct (m w) as [[a|h] w']; [by apply HQ|done].
Qed.

#[export] Instance same_glob_hello : HelloQuiet (same (λ w : cs_world, glob w)).
Proof. split; [apply (same_glob_interactive (λ g : cs_glob, g))|done]. Qed.

Lemma buffer_malloc_unbuilt iov w :
  HAVE_CUDA = false → is_cuda (g_test_mem_type (glob w)) →
  (1 ≤ iov_rounds (g_iov_cnt (glob w)))%nat →
  wp (λ _ _, True) (buffer_malloc L iov) (λ r _, r = -1) w.
Proof.
  intros Hc Ht Hn. unfold buffer_malloc. apply wp_bind, wp_glb, wp_bind.
  destruct (iov_rounds _) as [|m]; [lia|]. cbn [for_break].
  apply wp_bind, wp_bind, wp_same_glob; [solve_keeps|]. intros e w1 Hg1.
  apply wp_bind, wp_glb, wp_bind, wp_same_glob; [solve_keeps|]. intros [] w2 Hg2.
  apply wp_bind, mem_type_malloc_unbuilt; [done|by rewrite Hg2, Hg1|]. intros w3.
  apply wp_bind, wp_same_glob; [solve_keeps|]. intros [] w4 _.
  rewrite bool_decide_eq_true_2 by done.
  apply wp_bind, wp_same_glob; [solve_keeps|]. intros [] w5 _. by do 3 apply wp_ret.
Qed.

(** A failed cudaMalloc leaves the variable behind the result unassigned. *)
Lemma mem_type_malloc_failed E n Q w :
  HAVE_CUDA = true → is_cuda (g_test_mem_type (glob w)) →
  (∀ h op, l_ret L h (Cuda_call op) ≠ cudaSuccess) →
  (∀ w', heap_only w (heap w) w' → Q Indet w') → wp E (mem_type_malloc L n) Q w.
Proof.
  intros Hc Ht Hf HQ. unfold mem_type_malloc. apply wp_bind, wp_get_glob.
  cbn [test_mem_type cs_hello].
  destruct Ht as [-> | ->]; rewrite Hc; unfold cuda_malloc, CUDA_FUNC;
    apply wp_bind, wp_bind, wp_ext0; cbv zeta; cbn [cuda_res cs_hello cuda_call];
    match goal with |- context [?x =? cudaSuccess] =>
      destruct (Z.eqb_spec x cudaSuccess) as [He|_]; [by destruct (Hf _ _ He)|] end;
    cbn [negb when];
    apply wp_bind, wp_fprintf, wp_ret;
    rewrite (proj2 (Z.eqb_neq _ _)) by apply Hf; by apply wp_ret, HQ.
Qed.

Lemma buffer_malloc_failed E ib k l w Q :
  HAVE_CUDA = true → is_cuda (g_test_mem_type (glob w)) →
  (∀ h op, l_ret L h (Cuda_call op) ≠ cudaSuccess) →
  heap w !! ib = Some (Cell k (CIov l)) → length l = iov_rounds (g_iov_cnt (glob w)) →
  (∀ w' l', heap w' !! ib = Some (Cell k (CIov l')) → length l' = length l →
     Forall (λ e, iov_buffer e = Indet) l' → Q 0 w') →
  wp E (buffer_malloc L (Loc ib 0)) Q w.
Proof.
  intros Hc Ht Hf Hl Hn HQ. unfold buffer_malloc. apply wp_bind, wp_glb, wp_bind.
  rewrite <-Hn.
  apply wp_for_break with (I := λ i w', glob w' = glob w ∧ ∃ l',
    heap w' !! ib = Some (Cell k (CIov l')) ∧ length l' = length l ∧
    Forall (λ e, iov_buffer e = Indet) (take i l')).
  - split; [done|]. exists l. by rewrite take_0.
  - intros i w1 Hi (Hg1 & l1 & Hl1 & Hlen & HF).
    destruct (lookup_lt_is_Some_2 l1 i) as [e He]; [lia|].
    apply wp_bind. eapply wp_get_iov; [exact Hl1|exact He|].
    apply wp_bind, wp_glb, wp_bind. eapply wp_set_iov; [exact Hl1|exact He|].
    apply wp_bind, mem_type_malloc_failed; [done|by rewrite <-Hg1 in Ht|done|].
    intros w2 [Hh2 Hg2]. simpl in Hh2.
    apply wp_bind. eapply wp_set_iov; [by rewrite Hh2, lookup_insert_eq|
      apply list_lookup_insert_eq; lia|].
    rewrite bool_decide_eq_false_2 by done. apply wp_ret. split; [by simpl; rewrite Hg2|].
    eexists. split; [simpl; apply lookup_insert_eq|].
    rewrite list_insert_insert_eq, length_insert. split; [done|].
    erewrite take_S_r by (apply list_lookup_insert_eq; lia).
    rewrite take_insert_ge by lia. apply Forall_app. by split; [|constructor].
  - intros w1 (_ & l1 & Hl1 & Hlen & HF). apply wp_ret. eapply HQ; [exact Hl1|done|].
    simpl in HF. by rewrite take_ge in HF by lia.
Qed.
End cuda_missing.
