(* ===== verification/SockAddr.v ===== *)
(** * ucp_client_server.c: socket addresses

    set_sock_addr, sockaddr_get_ip_str and sockaddr_get_port_str, over a
    sockaddr_storage that is a record of its members in network byte order. *)

From S2P Require Import Prelude CRuntime CLib Ucx HelloUtil CsApi Iov.
From stdpp Require Import pretty.
Open Scope Z_scope.

Section sockaddr.
Context `{!Ucs, !Ucp, !Cuda} (L : cs_lib).

(** memset(saddr, 0, sizeof( *saddr)) *)
Definition zero_sockaddr : sockaddr_storage :=
  SockAddr 0 0 (replicate 4 0) (replicate 16 0).
Definition INADDR_ANY : list Z := replicate 4 0.
Definition in6addr_any : list Z := replicate 16 0.

(** The result of inet_pton is not examined: on failure the address stays 0. *)
Definition set_sock_addr (address_str : option string) : CM sockaddr_storage :=
  ai_family ← glb g_ai_family;
  server_port ← glb g_server_port;
  let saddr := zero_sockaddr in
  if ai_family =? AF_INET then
    addr ← match address_str with
           | Some s => r ← call0 L (inet_pton AF_INET s); mret (default (sin_addr saddr) r)
           | None => mret INADDR_ANY
           end;
    mret (SockAddr AF_INET (htons server_port) addr (sin6_addr saddr))
  else if ai_family =? AF_INET6 then
    addr ← match address_str with
           | Some s => r ← call0 L (inet_pton AF_INET6 s); mret (default (sin6_addr saddr) r)
           | None => mret in6addr_any
           end;
    mret (SockAddr AF_INET6 (htons server_port) (sin_addr saddr) addr)
  else
    eprintf "Invalid address family" [];;
    mret saddr.

Definition sockaddr_get_ip_str (sock_addr : sockaddr_storage) (max_size : Z) : CM string :=
  if ss_family sock_addr =? AF_INET then
    call0 L (inet_ntop AF_INET (sin_addr sock_addr) max_size)
  else if ss_family sock_addr =? AF_INET6 then
    call0 L (inet_ntop AF_INET6 (sin6_addr sock_addr) max_size)
  else mret "Invalid address family".

(** snprintf(port_str, max_size, "%d", z) *)
Definition snprintf_d (max_size : Z) (z : Z) : string :=
  String.substring 0 (Z.to_nat (max_size - 1)) (pretty z).

Definition sockaddr_get_port_str (sock_addr : sockaddr_storage) (max_size : Z) : string :=
  if ss_family sock_addr =? AF_INET then snprintf_d max_size (ntohs (ss_port sock_addr))
  else if ss_family sock_addr =? AF_INET6
  then snprintf_d max_size (ntohs (ss_port sock_addr))
  else "Invalid address family".
End sockaddr.

(** ** Ports *)

(** [f] holds on [z, z + n). *)
Fixpoint all_from (f : Z → bool) (n : nat) (z : Z) : bool :=
  match n with O => true | S n' => f z && all_from f n' (z + 1) end.

Lemma all_from_spec f n z p : all_from f n z = true → z ≤ p < z + Z.of_nat n → f p = true.
Proof.
  revert z. induction n as [|n IH]; intros z H Hp; [lia|].
  simpl in H. apply andb_true_iff in H as [Hz H].
  destruct (decide (p = z)) as [->|]; [done|]. apply (IH (z + 1)); [done|lia].
Qed.

(** No 16-bit port has more than 5 digits. *)
Lemma port_digits p : 0 ≤ p < 65536 → (String.length (pretty p) ≤ 5)%nat.
Proof.
  intros Hp. apply Nat.leb_le.
  apply (all_from_spec (λ z, Nat.leb (String.length (pretty z)) 5) (Z.to_nat 65536) 0);
    [by vm_compute|lia].
Qed.

Lemma substring_all n s : (String.length s ≤ n)%nat → String.substring 0 n s = s.
Proof.
  revert n. induction s as [|c s IH]; intros [|n] Hn; simpl in *; try done; [lia|].
  f_equal. apply IH. lia.
Qed.

Lemma snprintf_port p : 0 ≤ p < 65536 → snprintf_d PORT_STRING_LEN p = pretty p.
Proof.
  intros Hp. unfold snprintf_d. apply substring_all.
  pose proof (port_digits p Hp). unfold PORT_STRING_LEN. lia.
Qed.

Section sockaddr_specs.
Context `{!Ucs, !Ucp, !Cuda} (L : cs_lib).
Implicit Types (w : cs_world) (E : halt → cs_world → Prop).

Lemma keeps_set_sock_addr R `{!HelloQuiet R} s :
  (∀ w af a r, R w (push (ECall (A := cs_api) (inet_pton af a) r) w)) →
  keeps R (set_sock_addr L s).
Proof. intros. unfold set_sock_addr, call0. solve_keeps. Qed.

Lemma keeps_get_ip_str R `{!HelloQuiet R} s n :
  (∀ w af a k r, R w (push (ECall (A := cs_api) (inet_ntop af a k) r) w)) →
  keeps R (sockaddr_get_ip_str L s n).
Proof. intros. unfold sockaddr_get_ip_str, call0. solve_keeps. Qed.

(** The address has the configured family and port, and the address the
    resolver gave; it is all zero when there is none. *)
Lemma set_sock_addr_ok E s Q w :
  g_ai_family (glob w) = AF_INET ∨ g_ai_family (glob w) = AF_INET6 →
  (∀ sa w', heap_only w (heap w) w' →
     ss_family sa = g_ai_family (glob w) →
     ss_port sa = htons (g_server_port (glob w)) →
     (s = None → sin_addr sa = INADDR_ANY ∧ sin6_addr sa = in6addr_any) →
     Q sa w') →
  wp E (set_sock_addr L s) Q w.
Proof.
  intros Hf HQ. unfold set_sock_addr. apply wp_bind, wp_glb, wp_bind, wp_glb.
  destruct Hf as [Hf|Hf]; rewrite Hf; simpl; apply wp_bind;
    destruct s as [s|]; try apply wp_bind, wp_ext0; apply wp_ret, wp_ret, HQ;
    simpl; try done; by rewrite Hf.
Qed.
End sockaddr_specs.
