(* ===== verification/Callbacks.v ===== *)
(** * ucp_client_server.c: the callbacks

    What the library runs inside a call of the program: completion callbacks,
    the error handler, the connection handler and the active message handler.
    [handler] is the dispatch from the library to them. [listeners] reads off a history
    which listeners exist; [conn_callbacks] is what their handler may rely on. *)

From S2P Require Import Prelude CRuntime CLib Ucx HelloUtil CsApi Iov SockAddr.
Open Scope Z_scope.

Section callbacks.
Context `{!Ucs, !Ucp, !Cuda} (L : cs_lib).

(** *context of a ucx_server_ctx_t. *)
Definition read_srv (context : ptr) : CM (option Z * option Z) :=
  c ← read_cell context;
  match c with
  | CSrv conn_request listener => mret (conn_request, listener)
  | _ => stop (UB "wrong type")
  end.

Definition set_conn_request (context : ptr) (conn_request : Z) : CM unit :=
  update_cell "wrong type" context (λ c,
    match c with CSrv _ listener => Some (CSrv (Some conn_request) listener) | _ => None end).

Definition common_cb (user_data : ptr) (type_str : string) : CM unit :=
  if bool_decide (user_data = Null) then
    eprintf "user_data passed to %s mustn't be NULL\n" [AStr type_str]
  else write_req user_data 1.

Definition tag_recv_cb (status : Z) (user_data : ptr) : CM unit :=
  common_cb user_data "tag_recv_cb".
Definition stream_recv_cb (status length : Z) (user_data : ptr) : CM unit :=
  common_cb user_data "stream_recv_cb".
Definition am_recv_cb (status length : Z) (user_data : ptr) : CM unit :=
  common_cb user_data "am_recv_cb".
Definition send_cb (status : Z) (user_data : ptr) : CM unit :=
  common_cb user_data "send_cb".

Definition err_cb (status : Z) : CM unit :=
  printf "error handling callback was invoked with status %d (%s)\n" [AZ status];;
  set_glb (with_connection_closed 1).

(** Assignments to the members of am_data_desc. *)
Definition set_am (f : am_data_desc_t → am_data_desc_t) : CM unit :=
  set_glb (λ g, with_am_data_desc (f (g_am_data_desc g)) g).
Definition am_with_complete v d := AmDataDesc v (am_is_rndv d) (am_desc d) (am_recv_buf d).
Definition am_with_is_rndv v d := AmDataDesc (am_complete d) v (am_desc d) (am_recv_buf d).
Definition am_with_desc v d := AmDataDesc (am_complete d) (am_is_rndv d) v (am_recv_buf d).
Definition am_with_recv_buf v d := AmDataDesc (am_complete d) (am_is_rndv d) (am_desc d) v.

(** The loop that copies an eager message into the buffers. *)
Definition am_copy (iov data : ptr) (n : nat) : CM Z :=
  for_fold 0 n (λ idx offset,
    e ← get_iov iov idx;
    mem_type_memcpy L (iov_buffer e) (ptr_add data offset) (iov_length e);;
    mret (u64 (offset + iov_length e))) 0.

Definition ucp_am_data_cb (header_length : Z) (data : ptr) (length recv_attr : Z) : CM Z :=
  iov_cnt ← glb g_iov_cnt;
  test_string_length ← glb g_test_string_length;
  expected ← c_long (iov_cnt * test_string_length);
  if negb (length =? u64 expected) then
    eprintf "received wrong data length %ld (expected %ld)" [AZ length; AZ expected];;
    mret UCS_OK
  else
    when (negb (header_length =? 0))
      (eprintf "received unexpected header, length %ld" [AZ header_length]);;
    set_am (am_with_complete 1);;
    if has_flag recv_attr UCP_AM_RECV_ATTR_FLAG_RNDV then
      set_am (am_with_is_rndv 1);;
      set_am (am_with_desc data);;
      mret UCS_INPROGRESS
    else
      set_am (am_with_is_rndv 0);;
      d ← glb g_am_data_desc;
      iov_cnt ← glb g_iov_cnt;
      am_copy (am_recv_buf d) data (iov_rounds iov_cnt);;
      mret UCS_OK.

(** context->conn_request is the first request until it is reset; the others
    are rejected. A conn_request of 0 stands for NULL. *)
Definition server_conn_handle_cb (conn_request : Z) (arg : ptr) : CM unit :=
  '(status, client_address) ←
    call0 L (ucp_conn_request_query conn_request UCP_CONN_REQUEST_ATTR_FIELD_CLIENT_ADDR);
  (if status =? UCS_OK then
     ip ← sockaddr_get_ip_str L client_address IP_STRING_LEN;
     printf "Server received a connection request from client at address %s:%s\n"
       [AStr ip; AStr (sockaddr_get_port_str client_address PORT_STRING_LEN)]
   else when (negb (status =? UCS_ERR_UNSUPPORTED))
     (eprintf "failed to query the connection request (%s)\n" [AZ status]));;
  '(pending, listener) ← read_srv arg;
  pending ← the "uninitialised conn_request" pending;
  if pending =? 0 then set_conn_request arg conn_request
  else
    printf "Rejecting a connection request. Only one client at a time is supported.\n" [];;
    listener ← the "uninitialised listener" listener;
    st ← call0 L (ucp_listener_reject listener conn_request);
    when (negb (st =? UCS_OK))
      (eprintf "server failed to reject a connection request: (%s)\n" [AZ st]).

(** The library calls back. The data of an eager message live in a buffer of
    the library until the callback returns. *)
Definition handler (cb : cs_cbk) : CM Z :=
  match cb with
  | Cb_send st ud => send_cb st ud;; mret 0
  | Cb_tag_recv st ud => tag_recv_cb st ud;; mret 0
  | Cb_stream_recv st len ud => stream_recv_cb st len ud;; mret 0
  | Cb_am_recv st len ud => am_recv_cb st len ud;; mret 0
  | Cb_err st => err_cb st;; mret 0
  | Cb_conn req arg => server_conn_handle_cb req arg;; mret 0
  | Cb_am_data hl (Eager bytes) len attr =>
      local (Bytes KStack (Some <$> bytes)) (λ data, ucp_am_data_cb hl data len attr)
  | Cb_am_data hl (Rndv d) len attr => ucp_am_data_cb hl (Abs d) len attr
  end.

(** A call of the library, callbacks included. *)
Definition call (c : cs_call) : CM (cs_ret c) := ext L handler c.
End callbacks.

(** ** Listeners *)

Section listeners.
Context `{!Ucs}.

(** The listeners: worker, argument of the connection callback, handle. *)
Definition opened (c : cs_call) : cs_ret c → list (Z * ptr * Z) :=
  match c with
  | ucp_listener_create w _ _ arg => λ r, if r.1 =? UCS_OK then [(w, arg, r.2)] else []
  | _ => λ _, []
  end.
Fixpoint listeners (h : history cs_api) : list (Z * ptr * Z) :=
  match h with
  | [] => []
  | ECall c r :: h' =>
      match c with
      | ucp_listener_destroy l => filter (λ x, x.2 ≠ l) (listeners h')
      | _ => opened c r ++ listeners h'
      end
  | _ :: h' => listeners h'
  end.

(** The handler of a listener runs only while the listener exists, with the argument
    the listener was created with. *)
Definition conn_callbacks (L : cs_lib) : Prop :=
  ∀ h c req arg, Callback (Cb_conn req arg) ∈ l_acts L h c →
    ∃ w l, (w, arg, l) ∈ listeners h.
End listeners.

(** ** Preserved relations *)

(** The calls that callbacks and the handling of buffers and addresses make. *)
Definition service_call (c : cs_call) : bool :=
  match c with
  | Cuda_call _ | inet_pton _ _ | inet_ntop _ _ _ | gettimeofday
  | ucp_conn_request_query _ _ | ucp_listener_reject _ _ => true
  | _ => false
  end.

(** Those that use no UCX object. *)
Definition local_call (c : cs_call) : bool :=
  match c with ucp_listener_reject _ _ => false | _ => service_call c end.

(** The calls that neither create nor destroy a UCX object. *)
Definition data_call (c : cs_call) : bool :=
  match c with
  | ucp_init _ _ _ | ucp_cleanup _ | ucp_worker_create _ _ | ucp_worker_destroy _
  | ucp_listener_create _ _ _ _ | ucp_listener_destroy _
  | ucp_ep_create _ _ | ucp_ep_close_nbx _ _ _ => false
  | _ => true
  end.

(** [LocalQuiet R]: [R] ignores what a callback does besides writing memory and
    rejecting a connection. *)
Class LocalQuiet (R : cs_world → cs_world → Prop) : Prop := {
  lq_inter :: Interactive R;
  lq_call w c r : local_call c = true → R w (push (ECall (A := cs_api) c r) w);
  lq_closed w v : R w (set_glob (with_connection_closed v (glob w)) w);
  lq_am w v : R w (set_glob (with_am_data_desc v (glob w)) w);
}.

(** [CbQuiet R]: [R] ignores all a callback does besides writing memory. *)
Class CbQuiet (R : cs_world → cs_world → Prop) : Prop := {
  cq_inter :: Interactive R;
  cq_call w c r : service_call c = true → R w (push (ECall (A := cs_api) c r) w);
  cq_closed w v : R w (set_glob (with_connection_closed v (glob w)) w);
  cq_am w v : R w (set_glob (with_am_data_desc v (glob w)) w);
}.

(** [DataQuiet R]: moreover [R] ignores the calls that exchange data. *)
Class DataQuiet (R : cs_world → cs_world → Prop) : Prop := {
  dq_cb :: CbQuiet R;
  dq_call w c r : data_call c = true → R w (push (ECall (A := cs_api) c r) w);
}.
#[export] Instance cb_local R `{!CbQuiet R} : LocalQuiet R.
Proof.
  split; [apply cq_inter| |apply cq_closed|apply cq_am].
  intros w c r Hc. apply cq_call. by destruct c.
Qed.
#[export] Hint Extern 1 (LocalQuiet _) => typeclasses eauto : keeps.
#[export] Hint Extern 1 (CbQuiet _) => typeclasses eauto : keeps.
#[export] Hint Extern 1 (DataQuiet _) => typeclasses eauto : keeps.

#[export] Instance local_quiet_hello R `{!LocalQuiet R} : HelloQuiet R.
Proof. split; [apply lq_inter|]. intros w op r. by apply lq_call. Qed.

(** Several relations at once. *)
Lemma all_local {I} (R : I → cs_world → cs_world → Prop) :
  (∀ i, LocalQuiet (R i)) → LocalQuiet (λ w w', ∀ i, R i w w').
Proof.
  intros HR. split; [apply all_interactive; intros i; apply lq_inter|..].
  - intros w c r Hc i. by apply lq_call.
  - intros w v i. apply lq_closed.
  - intros w v i. apply lq_am.
Qed.

Lemma all_data {I} (R : I → cs_world → cs_world → Prop) :
  (∀ i, DataQuiet (R i)) → DataQuiet (λ w w', ∀ i, R i w w').
Proof.
  intros HR. split; [split; [apply all_interactive; intros i; apply cq_inter|..]|].
  - intros w c r Hc i. by apply cq_call.
  - intros w v i. apply cq_closed.
  - intros w v i. apply cq_am.
  - intros w c r Hc i. by apply dq_call.
Qed.

(** A relation that ignores every event. *)
Lemma event_blind_data (R : cs_world → cs_world → Prop) :
  Interactive R → (∀ w c r, R w (push (ECall (A := cs_api) c r) w)) →
  (∀ w v, R w (set_glob (with_connection_closed v (glob w)) w)) →
  (∀ w v, R w (set_glob (with_am_data_desc v (glob w)) w)) → DataQuiet R.
Proof. intros. split; [split|]; intros; auto. Qed.

#[export] Instance grows_data : DataQuiet grows.
Proof.
  apply event_blind_data; [typeclasses eauto|..]; intros;
    [apply grows_push|apply grows_set_glob..].
Qed.

Section local_keeps.
Context `{!Ucs, !Ucp, !Cuda} (L : cs_lib).
Context (R : cs_world → cs_world → Prop) `{!LocalQuiet R}.

Lemma keeps_local_call c : local_call c = true → keeps R (call0 L c).
Proof. intros Hc. apply keeps_ext0. intros. by apply lq_call. Qed.

Lemma keeps_read_srv p : keeps R (read_srv p).
Proof. unfold read_srv. solve_keeps. Qed.
Lemma keeps_set_conn_request p v : keeps R (set_conn_request p v).
Proof. unfold set_conn_request. solve_keeps. Qed.
Hint Resolve keeps_read_srv keeps_set_conn_request : keeps.
Lemma keeps_common_cb p s : keeps R (common_cb p s).
Proof. unfold common_cb. solve_keeps. Qed.
Hint Resolve keeps_common_cb : keeps.
Lemma keeps_set_am f : keeps R (set_am f).
Proof. apply keeps_mod_glob. intros. apply lq_am. Qed.
Hint Resolve keeps_set_am : keeps.
Lemma keeps_ucp_am_data_cb hl d n a : keeps R (ucp_am_data_cb L hl d n a).
Proof. unfold ucp_am_data_cb, am_copy. solve_keeps. Qed.
Hint Resolve keeps_ucp_am_data_cb : keeps.

Lemma keeps_set_closed v : keeps R (set_glb (with_connection_closed v)).
Proof. apply keeps_mod_glob. intros. apply lq_closed. Qed.
Hint Resolve keeps_set_closed : keeps.
Lemma keeps_ip_str sa n : keeps R (sockaddr_get_ip_str L sa n).
Proof. eapply keeps_get_ip_str; [typeclasses eauto|]. intros. by apply lq_call. Qed.
Hint Resolve keeps_ip_str : keeps.

(** Every callback but that of a listener. *)
Lemma keeps_other_handler cb :
  (∀ req arg, cb ≠ Cb_conn req arg) → keeps R (handler L cb).
Proof.
  intros Hcb. unfold handler, send_cb, tag_recv_cb, stream_recv_cb, am_recv_cb, err_cb, printf.
  destruct cb; try solve_keeps. by destruct (Hcb conn_request arg).
Qed.
End local_keeps.

#[export] Hint Resolve keeps_read_srv keeps_set_conn_request keeps_common_cb keeps_set_am
  keeps_ucp_am_data_cb keeps_set_closed keeps_ip_str : keeps.

Section callbacks_keeps.
Context `{!Ucs, !Ucp, !Cuda} (L : cs_lib).
Context (R : cs_world → cs_world → Prop) `{!CbQuiet R}.

Lemma keeps_service c : service_call c = true → keeps R (call0 L c).
Proof. intros Hc. apply keeps_ext0. intros. by apply cq_call. Qed.

Lemma keeps_server_conn_handle_cb r p : keeps R (server_conn_handle_cb L r p).
Proof.
  unfold server_conn_handle_cb, printf.
  apply keeps_bind; [typeclasses eauto|by apply keeps_service|]. intros [st sa].
  apply keeps_bind; [typeclasses eauto|solve_keeps|]. intros _.
  apply keeps_bind; [typeclasses eauto|solve_keeps|]. intros [pending l].
  apply keeps_bind; [typeclasses eauto|solve_keeps|]. intros pending'.
  destruct (pending' =? 0); [solve_keeps|].
  apply keeps_bind; [typeclasses eauto|solve_keeps|]. intros _.
  apply keeps_bind; [typeclasses eauto|solve_keeps|]. intros l'.
  apply keeps_bind; [typeclasses eauto|by apply keeps_service|]. solve_keeps.
Qed.
Hint Resolve keeps_server_conn_handle_cb : keeps.

Lemma keeps_handler cb : keeps R (handler L cb).
Proof.
  destruct cb; try (apply keeps_other_handler; [typeclasses eauto|done]).
  unfold handler. solve_keeps.
Qed.

(** Any call whose own event [R] ignores. *)
Lemma keeps_call_of c :
  (∀ w r, R w (push (ECall (A := cs_api) c r) w)) → keeps R (call L c).
Proof. intros Hc. apply keeps_ext; [typeclasses eauto|apply keeps_handler|done]. Qed.

Lemma keeps_call0_of c :
  (∀ w r, R w (push (ECall (A := cs_api) c r) w)) → keeps R (call0 L c).
Proof. intros Hc. by apply keeps_ext0. Qed.
End callbacks_keeps.

Section data_keeps.
Context `{!Ucs, !Ucp, !Cuda} (L : cs_lib).
Context (R : cs_world → cs_world → Prop) `{!DataQuiet R}.

Lemma keeps_call0 c : data_call c = true → keeps R (call0 L c).
Proof. intros Hc. apply keeps_ext0. intros. by apply dq_call. Qed.

Lemma keeps_call c : data_call c = true → keeps R (call L c).
Proof. intros Hc. apply keeps_call_of; [typeclasses eauto|]. intros. by apply dq_call. Qed.
End data_keeps.

#[export] Hint Resolve keeps_server_conn_handle_cb keeps_handler : keeps.
#[export] Hint Extern 2 (keeps ?R (call0 ?L ?c)) =>
  first [refine (keeps_local_call L R c eq_refl) | refine (keeps_service L R c eq_refl)
        | refine (keeps_call0 L R c eq_refl)] : keeps.
#[export] Hint Extern 2 (keeps ?R (call ?L ?c)) =>
  refine (keeps_call L R c eq_refl) : keeps.

(** ** The connection handler *)

Section connection.
Context `{!Ucs, !Ucp, !Cuda} (L : cs_lib).
Implicit Types (w : cs_world) (E : halt → cs_world → Prop).

(** The reject calls of a history, newest first. *)
Fixpoint rejected_requests (h : history cs_api) : list (Z * Z) :=
  match h with
  | [] => []
  | ECall (ucp_listener_reject l r) _ :: h' => (l, r) :: rejected_requests h'
  | _ :: h' => rejected_requests h'
  end.

(** The part that only looks at the request and reports. *)
Lemma report_request_ok E req (k : CM unit) (Q : unit → cs_world → Prop) w :
  (∀ w', heap w' = heap w → glob w' = glob w → rejected_requests (trace w') = rejected_requests (trace w) →
     wp E k Q w') →
  wp E ('(status, client_address) ←
          call0 L (ucp_conn_request_query req UCP_CONN_REQUEST_ATTR_FIELD_CLIENT_ADDR);
        (if status =? UCS_OK then
           ip ← sockaddr_get_ip_str L client_address IP_STRING_LEN;
           printf "Server received a connection request from client at address %s:%s\n"
             [AStr ip; AStr (sockaddr_get_port_str client_address PORT_STRING_LEN)]
         else when (negb (status =? UCS_ERR_UNSUPPORTED))
           (eprintf "failed to query the connection request (%s)\n" [AZ status]));;
        k) Q w.
Proof.
  intros Hk. apply wp_bind, (wp_ext0 L _ (ucp_conn_request_query _ _)).
  match goal with |- context [l_ret ?L ?h ?c] => destruct (l_ret L h c) as [st sa] end.
  cbv beta iota. apply wp_bind. destruct (st =? UCS_OK).
  - apply wp_bind. unfold sockaddr_get_ip_str. repeat case_match.
    + apply (wp_ext0 L _ (inet_ntop _ _ _)), wp_fprintf, Hk; done.
    + apply (wp_ext0 L _ (inet_ntop _ _ _)), wp_fprintf, Hk; done.
    + apply wp_ret, wp_fprintf, Hk; done.
  - apply wp_when; intros _; [apply wp_fprintf|]; by apply Hk.
Qed.

Lemma conn_first_ok E req b k l (Q : unit → cs_world → Prop) w :
  heap w !! b = Some (Cell k (CSrv (Some 0) l)) →
  (∀ w', heap w' = <[b := Cell k (CSrv (Some req) l)]> (heap w) → glob w' = glob w →
     rejected_requests (trace w') = rejected_requests (trace w) → Q tt w') →
  wp E (server_conn_handle_cb L req (Loc b 0)) Q w.
Proof.
  intros Hb HQ. apply report_request_ok. intros w1 Hh1 Hg1 Hr1.
  apply wp_bind, wp_bind. eapply wp_read_cell; [by rewrite Hh1|]. cbv beta iota.
  apply wp_ret. apply wp_bind, wp_ret. cbn [Z.eqb].
  eapply wp_update_cell; [by rewrite Hh1|done|]. apply HQ; simpl; [by rewrite Hh1|done|done].
Qed.

Lemma conn_other_ok E req b k c l (Q : unit → cs_world → Prop) w :
  heap w !! b = Some (Cell k (CSrv (Some c) (Some l))) → c ≠ 0 →
  (∀ w', heap w' = heap w → glob w' = glob w →
     rejected_requests (trace w') = (l, req) :: rejected_requests (trace w) → Q tt w') →
  wp E (server_conn_handle_cb L req (Loc b 0)) Q w.
Proof.
  intros Hb Hc HQ. apply report_request_ok. intros w1 Hh1 Hg1 Hr1.
  apply wp_bind, wp_bind. eapply wp_read_cell; [by rewrite Hh1|]. cbv beta iota.
  apply wp_ret. apply wp_bind, wp_ret. rewrite (proj2 (Z.eqb_neq _ _)) by done.
  apply wp_bind, wp_fprintf, wp_bind, wp_ret, wp_bind,
    (wp_ext0 L _ (ucp_listener_reject _ _)), wp_when; intros _;
    [apply wp_fprintf|]; apply HQ; simpl; congruence.
Qed.
End connection.
