(* ===== verification/Request.v ===== *)
(** * ucp_client_server.c, ucp_util.h: waiting for requests

    request_wait, request_finalize and ep_close progress the worker until a
    request is complete. [fuel] bounds the rounds of each of these loops. *)

From S2P Require Import Prelude CRuntime CLib Ucx HelloUtil CsApi Iov SockAddr.
From S2P Require Import Callbacks.
Open Scope Z_scope.

Section request.
Context `{!Ucs, !Ucp, !Cuda} (L : cs_lib) (fuel : nat).

Definition request_wait (ucp_worker request : Z) (ctx : ptr) : CM Z :=
  if request =? 0 then mret UCS_OK
  else if UCS_PTR_IS_ERR request then mret (UCS_PTR_STATUS request)
  else
    while fuel
      (complete ← read_req ctx; mret (complete =? 0))
      (_ ← call L (ucp_worker_progress ucp_worker); mret tt);;
    status ← call L (ucp_request_check_status request);
    call L (ucp_request_free request);;
    mret status.

(** (current_iter == 0) || (current_iter == (num_iterations - 1)) ||
    !((current_iter + 1) % PRINT_INTERVAL) *)
Definition to_print (current_iter : Z) : CM bool :=
  num_iterations ← glb g_num_iterations;
  if current_iter =? 0 then mret true
  else
    last ← c_int (num_iterations - 1);
    if current_iter =? last then mret true
    else
      n ← c_int (current_iter + 1);
      mret (Z.rem n PRINT_INTERVAL =? 0).

Definition request_finalize (ucp_worker request : Z) (ctx : ptr) (is_server : bool)
    (iov : ptr) (current_iter : Z) : CM Z :=
  status ← request_wait ucp_worker request ctx;
  ret ←
    (if negb (status =? UCS_OK) then
       eprintf "unable to %s UCX message (%s)\n"
         [AStr (if is_server then "receive" else "send"); AZ status];;
       mret (-1)
     else
       p ← to_print current_iter;
       when p (print_result L is_server iov current_iter);;
       mret 0);
  buffer_free L iov;;
  mret ret.

Definition ep_close (ucp_worker ep flags : Z) : CM unit :=
  close_req ← call L (ucp_ep_close_nbx ep UCP_OP_ATTR_FIELD_FLAGS flags);
  status ←
    (if UCS_PTR_IS_PTR close_req then
       st ← do_while fuel
              (_ ← call L (ucp_worker_progress ucp_worker);
               call L (ucp_request_check_status close_req))
              (λ st, st =? UCS_INPROGRESS);
       call L (ucp_request_free close_req);;
       mret st
     else mret (UCS_PTR_STATUS close_req));
  when (negb (status =? UCS_OK))
    (eprintf "failed to close ep %p: %s\n" [AZ ep; AZ status]).
End request.

Lemma keeps_to_print R `{!HelloQuiet R} i : keeps R (to_print i).
Proof. unfold to_print. solve_keeps. Qed.
#[export] Hint Resolve keeps_to_print : keeps.

Section request_keeps.
Context `{!Ucs, !Ucp, !Cuda} (L : cs_lib) (fuel : nat).
Context (R : cs_world → cs_world → Prop) `{!DataQuiet R}.

Lemma keeps_request_wait w r c : keeps R (request_wait L fuel w r c).
Proof. unfold request_wait. solve_keeps. Qed.
Hint Resolve keeps_request_wait : keeps.
Lemma keeps_request_finalize w r c s iov i :
  keeps R (request_finalize L fuel w r c s iov i).
Proof. unfold request_finalize. solve_keeps. Qed.

(** Closing an endpoint is the one call here that destroys an object. *)
Lemma keeps_ep_close w ep flags :
  (∀ w m r, R w (push (ECall (A := cs_api) (ucp_ep_close_nbx ep m flags) r) w)) →
  keeps R (ep_close L fuel w ep flags).
Proof.
  intros Hc. unfold ep_close.
  apply keeps_bind; [typeclasses eauto| |].
  { apply (keeps_call_of L R (ucp_ep_close_nbx ep UCP_OP_ATTR_FIELD_FLAGS flags)).
    intros. apply Hc. }
  solve_keeps.
Qed.
End request_keeps.

#[export] Hint Resolve keeps_request_wait keeps_request_finalize : keeps.

(** ** Which iterations are printed *)

(** The first, the last, and every [PRINT_INTERVAL]-th one. *)
Definition prints (n i : Z) : bool :=
  (i =? 0) || (i =? n - 1) || ((i + 1) `mod` PRINT_INTERVAL =? 0).

Lemma to_print_ok (i : Z) (w : cs_world) :
  0 ≤ i < 2 ^ 31 - 1 → - 2 ^ 31 < g_num_iterations (glob w) < 2 ^ 31 →
  to_print i w = (Ok (prints (g_num_iterations (glob w)) i), w).
Proof.
  intros Hi Hn.
  assert (wp (λ _ _, False) (to_print i)
    (λ b w', b = prints (g_num_iterations (glob w)) i ∧ w' = w) w) as H.
  { unfold to_print, prints. apply wp_bind, wp_glb. destruct (i =? 0); [by apply wp_ret|].
    apply wp_bind, wp_c_int; [lia|]. cbn [orb]. destruct (i =? _); [by apply wp_ret|].
    apply wp_bind, wp_c_int; [lia|]. apply wp_ret. split; [|done].
    by rewrite Z.rem_mod_nonneg by (unfold PRINT_INTERVAL; lia). }
  by destruct (wp_returns _ _ _ H) as (b & w' & -> & -> & ->).
Qed.
