(* ===== verification/SendRecv.v ===== *)
(** * ucp_client_server.c: one message in either direction

    send_recv_stream, send_recv_tag, send_recv_am and their dispatch. A local
    variable whose address is given away (ctx) is an object of the memory that
    lives until the function returns. *)

From S2P Require Import Prelude CRuntime CLib Ucx HelloUtil CsApi Iov SockAddr.
From S2P Require Import Callbacks Request.
Open Scope Z_scope.

Section send_recv.
Context `{!Ucs, !Ucp, !Cuda} (L : cs_lib) (fuel : nat).

(** param.cb.x = f; param.op_attr_mask |= bits; param.flags = v *)
Definition with_cb (f : cs_cb_name) (p : ucp_request_param_t) :=
  RequestParam (op_attr_mask p) (Some f) (rp_datatype p) (rp_user_data p) (rp_flags p).
Definition or_mask (bits : Z) (p : ucp_request_param_t) :=
  RequestParam (Z.lor (op_attr_mask p) bits) (rp_cb p) (rp_datatype p) (rp_user_data p)
    (rp_flags p).
Definition with_flags (v : Z) (p : ucp_request_param_t) :=
  RequestParam (op_attr_mask p) (rp_cb p) (rp_datatype p) (rp_user_data p) (Some v).

(** The message of a send (with its bytes) and of a receive. *)
Definition out_message (msg : ptr) (len : Z) (p : ucp_request_param_t) : CM message :=
  segs ← segments msg len p;
  d ← gather segs;
  mret (Message msg len segs d).
Definition in_message (msg : ptr) (len : Z) (p : ucp_request_param_t) : CM message :=
  segs ← segments msg len p;
  mret (Message msg len segs []).

Definition send_recv_stream (ucp_worker ep : Z) (is_server : bool) (current_iter : Z) : CM Z :=
  local (Cell KStack (CReq 0)) (λ ctx,
  iov ← malloc_iov L;
  memset_iov iov;;
  r ← fill_request_param L iov (negb is_server) ctx;
  match r with
  | None => mret (-1)
  | Some (msg, msg_length, param) =>
      request ←
        (if negb is_server then
           let param := with_cb F_send_cb param in
           m ← out_message msg msg_length param;
           call L (ucp_stream_send_nbx ep m param)
         else
           let param := or_mask UCP_OP_ATTR_FIELD_FLAGS param in
           let param := with_flags UCP_STREAM_RECV_FLAG_WAITALL param in
           let param := with_cb F_stream_recv_cb param in
           m ← in_message msg msg_length param;
           '(request, msg_length) ← call L (ucp_stream_recv_nbx ep m param);
           mret request);
      request_finalize L fuel ucp_worker request ctx is_server iov current_iter
  end).

Definition send_recv_tag (ucp_worker ep : Z) (is_server : bool) (current_iter : Z) : CM Z :=
  local (Cell KStack (CReq 0)) (λ ctx,
  iov ← malloc_iov L;
  memset_iov iov;;
  r ← fill_request_param L iov (negb is_server) ctx;
  match r with
  | None => mret (-1)
  | Some (msg, msg_length, param) =>
      request ←
        (if negb is_server then
           let param := with_cb F_send_cb param in
           m ← out_message msg msg_length param;
           call L (ucp_tag_send_nbx ep m TAG param)
         else
           let param := with_cb F_tag_recv_cb param in
           m ← in_message msg msg_length param;
           call L (ucp_tag_recv_nbx ucp_worker m TAG 0 param));
      request_finalize L fuel ucp_worker request ctx is_server iov current_iter
  end).

Definition send_recv_am (ucp_worker ep : Z) (is_server : bool) (current_iter : Z) : CM Z :=
  local (Cell KStack (CReq 0)) (λ ctx,
  iov ← malloc_iov L;
  memset_iov iov;;
  r ← fill_request_param L iov (negb is_server) ctx;
  match r with
  | None => mret (-1)
  | Some (msg, msg_length, params) =>
      request ←
        (if is_server then
           set_am (am_with_recv_buf iov);;
           while fuel
             (d ← glb g_am_data_desc; mret (am_complete d =? 0))
             (_ ← call L (ucp_worker_progress ucp_worker); mret tt);;
           set_am (am_with_complete 0);;
           d ← glb g_am_data_desc;
           if negb (am_is_rndv d =? 0) then
             let params := or_mask UCP_OP_ATTR_FLAG_NO_IMM_CMPL params in
             let params := with_cb F_am_recv_cb params in
             m ← in_message msg msg_length params;
             call L (ucp_am_recv_data_nbx ucp_worker (am_desc d) m params)
           else mret 0
         else
           let params := with_cb F_send_cb params in
           m ← out_message msg msg_length params;
           call L (ucp_am_send_nbx ep TEST_AM_ID 0 m params));
      request_finalize L fuel ucp_worker request ctx is_server iov current_iter
  end).

Definition client_server_communication (worker ep : Z) (send_recv_type : send_recv_type_t)
    (is_server : bool) (current_iter : Z) : CM Z :=
  match send_recv_type with
  | CLIENT_SERVER_SEND_RECV_STREAM => send_recv_stream worker ep is_server current_iter
  | CLIENT_SERVER_SEND_RECV_TAG => send_recv_tag worker ep is_server current_iter
  | CLIENT_SERVER_SEND_RECV_AM => send_recv_am worker ep is_server current_iter
  | OTHER_SEND_RECV n =>
      eprintf "unknown send-recv type %d\n" [AZ n];; mret (-1)
  end.
End send_recv.

Section message_keeps.
Context (R : cs_world → cs_world → Prop) `{!HelloQuiet R}.

Lemma keeps_out_message m n p : keeps R (out_message m n p).
Proof. unfold out_message. solve_keeps. Qed.
Lemma keeps_in_message m n p : keeps R (in_message m n p).
Proof. unfold in_message. solve_keeps. Qed.
Hint Resolve keeps_out_message keeps_in_message : keeps.
End message_keeps.
#[export] Hint Resolve keeps_out_message keeps_in_message : keeps.

Section send_recv_keeps.
Context `{!Ucs, !Ucp, !Cuda} (L : cs_lib) (fuel : nat).
Context (R : cs_world → cs_world → Prop) `{!DataQuiet R}.

Lemma keeps_send_recv_stream w ep s i : keeps R (send_recv_stream L fuel w ep s i).
Proof. unfold send_recv_stream. solve_keeps. Qed.
Lemma keeps_send_recv_tag w ep s i : keeps R (send_recv_tag L fuel w ep s i).
Proof. unfold send_recv_tag. solve_keeps. Qed.
Lemma keeps_send_recv_am w ep s i : keeps R (send_recv_am L fuel w ep s i).
Proof. unfold send_recv_am. solve_keeps. Qed.
Hint Resolve keeps_send_recv_stream keeps_send_recv_tag keeps_send_recv_am : keeps.

Lemma keeps_client_server_communication w ep t s i :
  keeps R (client_server_communication L fuel w ep t s i).
Proof. unfold client_server_communication. solve_keeps. Qed.
End send_recv_keeps.

#[export] Hint Resolve keeps_send_recv_stream keeps_send_recv_tag
  keeps_send_recv_am keeps_client_server_communication : keeps.

(** ** Without the memory type *)

Section unbuilt.
Context `{!Ucs, !Ucp, !Cuda} (L : cs_lib) (fuel : nat).

Lemma exchange_unbuilt client (k : ptr → ptr → ptr * Z * ucp_request_param_t → CM Z) w :
  HAVE_CUDA = false → is_cuda (g_test_mem_type (glob w)) →
  (1 ≤ iov_rounds (g_iov_cnt (glob w)))%nat →
  wp (λ _ _, True)
     (local (Cell KStack (CReq 0)) (λ ctx,
        iov ← malloc_iov L;
        memset_iov iov;;
        r ← fill_request_param L iov client ctx;
        match r with None => mret (-1) | Some x => k ctx iov x end))
     (λ r _, r = -1) w.
Proof.
  intros Hc Ht Hn. apply wp_local_raw, wp_bind, wp_same_glob; [solve_keeps|].
  intros iov w1 Hg1. apply wp_bind, wp_same_glob; [solve_keeps|]. intros [] w2 Hg2.
  assert (glob w2 = glob w) as Hg by by rewrite Hg2, Hg1.
  apply wp_bind. unfold fill_request_param. apply wp_bind.
  eapply wp_conseq; [by apply buffer_malloc_unbuilt; rewrite ?Hg|]. intros r w3 ->.
  by apply wp_bind, wp_fprintf, wp_ret, wp_ret.
Qed.

Lemma communication_unbuilt wk ep ty s i w :
  HAVE_CUDA = false → is_cuda (g_test_mem_type (glob w)) →
  (1 ≤ iov_rounds (g_iov_cnt (glob w)))%nat →
  wp (λ _ _, True) (client_server_communication L fuel wk ep ty s i) (λ r _, r = -1) w.
Proof.
  intros Hc Ht Hn. destruct ty; simpl.
  - by apply (exchange_unbuilt (negb s) (λ ctx iov '(msg, msg_length, param), _)).
  - by apply (exchange_unbuilt (negb s) (λ ctx iov '(msg, msg_length, param), _)).
  - by apply (exchange_unbuilt (negb s) (λ ctx iov '(msg, msg_length, params), _)).
  - by apply wp_bind, wp_fprintf, wp_ret.
Qed.
End unbuilt.
