(* ===== verification/Options.v ===== *)
(** * ucp_client_server.c: the command line

    usage and parse_cmd: the answers of getopt are handled one by one
    ([parse_opt]); the variables of main that parse_cmd assigns are a record.
    [rejected] is the specification of its answer: that of the first option that is
    rejected. *)

From S2P Require Import Prelude CRuntime CLib Ucx HelloUtil CsApi Iov SockAddr.
From S2P Require Import Callbacks.
From stdpp Require Import pretty.
From Stdlib Require Import Ascii.
Open Scope Z_scope.

Definition UINT16_MAX : Z := 65535.

(** The variables of main that parse_cmd assigns. *)
Record options : Type := Options {
  server_addr : option string;
  listen_addr : option string;
  send_recv_type : send_recv_type_t;
}.
Definition default_options : options := Options None None CLIENT_SERVER_SEND_RECV_DEFAULT.

Section options.
Context `{!Ucs, !Ucp, !Cuda}.

Definition usage : CM unit :=
  eprintf "Usage: ucp_client_server [parameters]\n" [];;
  eprintf "UCP client-server example utility\n" [];;
  eprintf "\nParameters are:\n" [];;
  eprintf "  -a Set IP address of the server (required for client and should not be specified for the server)\n" [];;
  eprintf "  -l Set IP address where server listens (If not specified, server uses INADDR_ANY; Irrelevant at client)\n" [];;
  eprintf "  -p Port number to listen/connect to (default = %d). 0 on the server side means select a random port and print it\n" [AZ DEFAULT_PORT];;
  eprintf "  -c Communication type for the client and server.   Valid values are:\n      'stream' : Stream API\n      'tag'    : Tag API\n      'am'     : AM API\n     If not specified, %s API will be used.\n" [AStr COMM_TYPE_DEFAULT];;
  num_iterations ← glb g_num_iterations;
  eprintf "  -i Number of iterations to run. Client and server must have the same value. (default = %d).\n" [AZ num_iterations];;
  iov_cnt ← glb g_iov_cnt;
  eprintf "  -v Number of buffers in a single data transfer function call. (default = %ld).\n" [AZ iov_cnt];;
  print_common_help;;
  eprintf "\n" [].

Definition parse_type (optarg : string) : CM send_recv_type_t :=
  if strcaseeq optarg "stream" then mret CLIENT_SERVER_SEND_RECV_STREAM
  else if strcaseeq optarg "tag" then mret CLIENT_SERVER_SEND_RECV_TAG
  else if strcaseeq optarg "am" then mret CLIENT_SERVER_SEND_RECV_AM
  else
    eprintf "Wrong communication type %s. Using %s as default\n"
      [AStr optarg; AStr COMM_TYPE_DEFAULT];;
    mret CLIENT_SERVER_SEND_RECV_DEFAULT.

(** One round of the loop: [inr ret] leaves the function with [ret]. *)
Definition parse_opt (o : ascii * string) (s : options) : CM (options + Z) :=
  let '(c, optarg) := o in
  if char_eqb c "a"%char then mret (inl (Options (Some optarg) (listen_addr s) (send_recv_type s)))
  else if char_eqb c "c"%char then
      ty ← parse_type optarg;
      mret (inl (Options (server_addr s) (listen_addr s) ty))
  else if char_eqb c "l"%char then mret (inl (Options (server_addr s) (Some optarg) (send_recv_type s)))
  else if char_eqb c "p"%char then
      let port := atoi optarg in
      (if (port <? 0) || (UINT16_MAX <? port) then
         eprintf "Wrong server port number %d\n" [AZ port];; mret (inr (-1))
       else
         set_glb (with_server_port (u16 port));; mret (inl s))
  else if char_eqb c "6"%char then set_glb (with_ai_family AF_INET6);; mret (inl s)
  else if char_eqb c "i"%char then set_glb (with_num_iterations (atoi optarg));; mret (inl s)
  else if char_eqb c "s"%char then
      set_glb (with_string_length (atol optarg));;
      test_string_length ← glb g_test_string_length;
      if test_string_length <? 0 then
        eprintf "Wrong string size %ld\n" [AZ test_string_length];;
        mret (inr UCS_ERR_UNSUPPORTED)
      else mret (inl s)
  else if char_eqb c "v"%char then
      set_glb (with_iov_cnt (atol optarg));;
      iov_cnt ← glb g_iov_cnt;
      if iov_cnt <=? 0 then
        eprintf "Wrong iov count %ld\n" [AZ iov_cnt];;
        mret (inr UCS_ERR_UNSUPPORTED)
      else mret (inl s)
  else if char_eqb c "m"%char then
      ty ← parse_mem_type optarg;
      set_glb (with_mem_type ty);;
      if bool_decide (ty = UCS_MEMORY_TYPE_LAST)
      then mret (inr UCS_ERR_UNSUPPORTED) else mret (inl s)
  else (usage;; mret (inr (-1))).

Fixpoint parse_opts (os : list (ascii * string)) (s : options) : CM (Z * options) :=
  match os with
  | [] => mret (0, s)
  | o :: os' =>
      r ← parse_opt o s;
      match r with
      | inl s' => parse_opts os' s'
      | inr ret => mret (ret, s)
      end
  end.

Definition parse_cmd (argv : list string) : CM (Z * options) :=
  parse_opts (getopt "a:l:p:c:6i:s:v:m:h" argv) default_options.
End options.

(** ** Preserved relations *)

Section options_keeps.
Context `{!Ucs, !Ucp, !Cuda}.
Context (R : cs_world → cs_world → Prop) `{!HelloQuiet R}.
Context (Hg : ∀ w g, R w (set_glob g w)).

Lemma keeps_usage : keeps R usage.
Proof using All. unfold usage. solve_keeps. Qed.
Hint Resolve keeps_usage keeps_parse_mem_type : keeps.

Lemma keeps_set_glb f : keeps R (set_glb f).
Proof using All. apply keeps_mod_glob. auto. Qed.
Hint Resolve keeps_set_glb : keeps.

Lemma keeps_parse_opt o s : keeps R (parse_opt o s).
Proof using All. unfold parse_opt, parse_type. solve_keeps. Qed.
Hint Resolve keeps_parse_opt : keeps.

Lemma keeps_parse_cmd argv : keeps R (parse_cmd argv).
Proof using All.
  unfold parse_cmd. generalize (getopt "a:l:p:c:6i:s:v:m:h" argv) default_options.
  intros os. induction os as [|o os IH]; intros s; simpl; solve_keeps.
Qed.
End options_keeps.

(** ** What the command line leaves behind *)

(** Nothing happened but output. *)
Record silent (w w' : cs_world) : Prop := {
  si_glob : glob w' = glob w;
  si_heap : heap w' = heap w;
  si_next : next w' = next w;
}.

Lemma silent_refl w : silent w w.
Proof. done. Qed.

Lemma silent_trans w1 w2 w3 : silent w1 w2 → silent w2 w3 → silent w1 w3.
Proof. intros [] []. split; congruence. Qed.

(** [talks g P m]: with the static variables [g], [m] returns a result in [P]
    and does nothing but output. *)
Definition talks {A} (g : cs_glob) (P : A → Prop) (m : CM A) : Prop :=
  ∀ w, glob w = g → ∃ a w', m w = (Ok a, w') ∧ silent w w' ∧ P a.

Lemma talks_ret {A} g (P : A → Prop) a : P a → talks g P (mret a).
Proof. intros HP w Hw. by exists a, w. Qed.

Lemma talks_bind {A B} g (P : A → Prop) (Q : B → Prop) (m : CM A) f :
  talks g P m → (∀ a, P a → talks g Q (f a)) → talks g Q (m ≫= f).
Proof.
  intros Hm Hf w Hw. destruct (Hm w Hw) as (a & w1 & H1 & Hs1 & HP).
  destruct (Hf a HP w1) as (b & w2 & H2 & Hs2 & HQ).
  { rewrite (si_glob _ _ Hs1). exact Hw. }
  exists b, w2. split_and!; [|by eapply silent_trans|done].
  unfold mbind, M_bind. by rewrite H1.
Qed.

Lemma talks_glb {X} g (f : cs_glob → X) : talks g (λ a, a = f g) (glb f).
Proof. intros w <-. by exists (f (glob w)), w. Qed.

Lemma talks_eprintf g s l : talks g (λ _, True) (eprintf s l : CM unit).
Proof. intros w Hw. by eexists _, _. Qed.

Lemma talks_wp {A} E g (P : A → Prop) (m : CM A) Q w :
  talks g P m → glob w = g → (∀ a w', silent w w' → P a → Q a w') → wp E m Q w.
Proof.
  intros Hm Hw HQ. destruct (Hm w Hw) as (a & w' & Heq & Hs & HP).
  unfold wp. rewrite Heq. by apply HQ.
Qed.

Lemma talks_mono {A} g (P Q : A → Prop) (m : CM A) :
  talks g P m → (∀ a, P a → Q a) → talks g Q m.
Proof.
  intros Hm HPQ w Hw. destruct (Hm w Hw) as (a & w' & ? & ? & ?). eauto 6.
Qed.

Section options_specs.
Context `{!Ucs, !Ucp, !Cuda}.
Implicit Types (w : cs_world) (E : halt → cs_world → Prop).

(** The answer depends on the variable test_mem_type alone. *)
Definition supported (t : ucs_memory_type_t) : bool :=
  match t with
  | UCS_MEMORY_TYPE_HOST => true
  | UCS_MEMORY_TYPE_CUDA | UCS_MEMORY_TYPE_CUDA_MANAGED => HAVE_CUDA
  | UCS_MEMORY_TYPE_LAST => false
  end.

Lemma talks_support g mt :
  talks g (λ b, b = supported (g_test_mem_type g)) (check_mem_type_support mt).
Proof.
  intros w Hw. unfold check_mem_type_support, mbind, M_bind, get_glob, gets.
  cbn [test_mem_type cs_hello]. rewrite Hw.
  destruct (g_test_mem_type g); [by exists true, w|by exists HAVE_CUDA, w..|].
  by eexists _, _.
Qed.

Lemma talks_when g b m : talks g (λ _, True) m → talks g (λ _, True) (when b m).
Proof. destruct b; [done|]. intros _. by apply talks_ret. Qed.

(** One more line of output. *)
Lemma talks_line {B} g s l (P : B → Prop) (m : CM B) :
  talks g P m → talks g P (eprintf s l;; m).
Proof. intros Hm. by eapply talks_bind; [apply talks_eprintf|]. Qed.

Lemma talks_print_common_help g : talks g (λ _, True) print_common_help.
Proof.
  unfold print_common_help. do 5 apply talks_line.
  eapply talks_bind; [apply talks_support|]. intros c _.
  eapply talks_bind; [apply talks_when, talks_eprintf|]. intros _ _.
  eapply talks_bind; [apply talks_support|]. intros m _. apply talks_when, talks_eprintf.
Qed.

Lemma talks_usage g : talks g (λ _, True) usage.
Proof.
  unfold usage. do 7 apply talks_line. eapply talks_bind; [apply talks_glb|]. intros n _.
  apply talks_line. eapply talks_bind; [apply talks_glb|]. intros c _. apply talks_line.
  eapply talks_bind; [apply talks_print_common_help|]. intros _ _. apply talks_eprintf.
Qed.

Lemma talks_parse_type g s : talks g (λ ty, ∀ k, ty ≠ OTHER_SEND_RECV k) (parse_type s).
Proof.
  unfold parse_type. repeat case_match; try by apply talks_ret.
  eapply talks_bind; [apply talks_eprintf|]. intros. by apply talks_ret.
Qed.

(** The memory type an argument selects, given what is supported. *)
Definition mem_type_named (ok : bool) (s : string) : ucs_memory_type_t :=
  if bool_decide (s = "host") then UCS_MEMORY_TYPE_HOST
  else if ok && bool_decide (s = "cuda") then UCS_MEMORY_TYPE_CUDA
  else if ok && bool_decide (s = "cuda-managed") then UCS_MEMORY_TYPE_CUDA_MANAGED
  else UCS_MEMORY_TYPE_LAST.

Lemma talks_parse_mem_type g s :
  talks g (λ ty, ty = mem_type_named (supported (g_test_mem_type g)) s) (parse_mem_type s).
Proof.
  unfold parse_mem_type, mem_type_named.
  assert (∀ t, t = UCS_MEMORY_TYPE_LAST →
    talks g (λ ty, ty = t)
      (eprintf "Unsupported memory type: '%s'.\n" [AStr s];; mret UCS_MEMORY_TYPE_LAST)) as Hu.
  { intros t ->. eapply talks_bind; [apply talks_eprintf|]. intros. by apply talks_ret. }
  case_bool_decide as Hh; [by apply talks_ret|].
  case_bool_decide as Hcu.
  - eapply talks_bind; [apply talks_support|]. intros ok ->.
    destruct (supported _); cbn [andb]; [by apply talks_ret|]. subst s.
    case_bool_decide; [done|]. by apply Hu.
  - rewrite andb_false_r. case_bool_decide as Hma; [|rewrite andb_false_r; by apply Hu].
    eapply talks_bind; [apply talks_support|]. intros ok ->.
    destruct (supported _); cbn [andb]; [by apply talks_ret|]. by apply Hu.
Qed.

(** What a successful parse guarantees of the static variables. *)
Record conf_ok (g : cs_glob) : Prop := {
  co_type : g_test_mem_type g ≠ UCS_MEMORY_TYPE_LAST;
  co_len : 0 ≤ g_test_string_length g ≤ LONG_MAX;
  co_cnt : 1 ≤ g_iov_cnt g ≤ LONG_MAX;
  co_port : 0 ≤ g_server_port g < 65536;
  co_family : g_ai_family g = AF_INET ∨ g_ai_family g = AF_INET6;
  co_iter : - 2 ^ 31 ≤ g_num_iterations g < 2 ^ 31;
}.

Lemma init_conf_ok : conf_ok cs_init_glob.
Proof. split; simpl; unfold LONG_MAX, DEFAULT_PORT, DEFAULT_NUM_ITERATIONS; auto; lia. Qed.

Definition error_code (ret : Z) : Prop := ret = -1 ∨ ret = UCS_ERR_UNSUPPORTED.

Lemma error_code_nonzero ret : error_code ret → ret ≠ 0.
Proof.
  pose proof ucs_errors_neg as Hn.
  assert (UCS_ERR_UNSUPPORTED < 0).
  { rewrite List.Forall_forall in Hn. apply Hn. simpl. tauto. }
  intros [->| ->]; lia.
Qed.

(** One option: the type of the message is a known one, memory and the other
    variables are as before. *)
Definition known_type (o : options) : Prop := ∀ k, send_recv_type o ≠ OTHER_SEND_RECV k.

Lemma parse_opt_ok E o s w (Q : options + Z → cs_world → Prop) :
  conf_ok (glob w) → known_type s →
  (∀ s' w', heap w' = heap w → next w' = next w → conf_ok (glob w') → known_type s' →
     Q (inl s') w') →
  (∀ ret w', heap w' = heap w → error_code ret → Q (inr ret) w') →
  wp E (parse_opt o s) Q w.
Proof.
  intros Hc Hk HQ HX. unfold parse_opt. destruct o as [c optarg].
  pose proof (atol_range optarg) as Hatol. pose proof (atoi_range optarg) as Hatoi.
  destruct (char_eqb c "a"); [by apply wp_ret, HQ|].
  destruct (char_eqb c "c").
  { apply wp_bind. eapply talks_wp; [apply talks_parse_type|done|].
    intros ty w' [] Hty. apply wp_ret, HQ; [done|done|by rewrite si_glob0|done]. }
  destruct (char_eqb c "l"); [by apply wp_ret, HQ|].
  destruct (char_eqb c "p").
  { cbv zeta. unfold UINT16_MAX. destruct ((_ <? 0) || _) eqn:Hp.
    { apply wp_bind, wp_fprintf, wp_ret, HX; [done|by left]. }
    apply orb_false_iff in Hp as [?%Z.ltb_ge ?%Z.ltb_ge].
    apply wp_bind, wp_mod_glob, wp_ret, HQ; [done|done| |done].
    destruct Hc. split; simpl; try done. rewrite u16_small; lia. }
  destruct (char_eqb c "6").
  { apply wp_bind, wp_mod_glob, wp_ret, HQ; [done|done| |done].
    destruct Hc. split; simpl; auto. }
  destruct (char_eqb c "i").
  { apply wp_bind, wp_mod_glob, wp_ret, HQ; [done|done| |done].
    destruct Hc. split; simpl; auto. }
  destruct (char_eqb c "s").
  { apply wp_bind, wp_mod_glob, wp_bind, wp_glb. simpl.
    destruct (Z.ltb_spec (atol optarg) 0).
    { apply wp_bind, wp_fprintf, wp_ret, HX; [done|by right]. }
    apply wp_ret, HQ; [done|done| |done]. destruct Hc. split; simpl; auto. lia. }
  destruct (char_eqb c "v").
  { apply wp_bind, wp_mod_glob, wp_bind, wp_glb. simpl.
    destruct (Z.leb_spec (atol optarg) 0).
    { apply wp_bind, wp_fprintf, wp_ret, HX; [done|by right]. }
    apply wp_ret, HQ; [done|done| |done]. destruct Hc. split; simpl; auto. lia. }
  destruct (char_eqb c "m").
  { apply wp_bind. eapply talks_wp; [apply talks_parse_mem_type|done|].
    intros ty w' [Hg Hh Hn] _. apply wp_bind, wp_mod_glob.
    case_bool_decide; apply wp_ret; [by apply HX; [|right]|]. apply HQ; [done|done| |done].
    destruct Hc. split; simpl; rewrite ?Hg; auto. }
  apply wp_bind. eapply talks_wp; [apply talks_usage|done|].
  intros [] w' [Hg Hh Hn] _. apply wp_ret, HX; [done|by left].
Qed.

Lemma parse_opts_ok E os s w (Q : Z * options → cs_world → Prop) :
  conf_ok (glob w) → known_type s →
  (∀ s' w', heap w' = heap w → next w' = next w → conf_ok (glob w') → known_type s' →
     Q (0, s') w') →
  (∀ ret s' w', heap w' = heap w → error_code ret → Q (ret, s') w') →
  wp E (parse_opts os s) Q w.
Proof.
  revert s w. induction os as [|o os IH]; intros s w Hc Hk HQ HX; [by apply wp_ret, HQ|].
  simpl. apply wp_bind, parse_opt_ok; [done..| |].
  - intros s' w' Hh Hn Hc' Hk'. apply IH; [done|done| |]; intros.
    + apply HQ; [congruence|congruence|done|done].
    + apply HX; [congruence|done].
  - intros ret w' Hh He. apply wp_ret. by apply HX.
Qed.

Lemma parse_cmd_ok E argv w (Q : Z * options → cs_world → Prop) :
  conf_ok (glob w) →
  (∀ s' w', heap w' = heap w → next w' = next w → conf_ok (glob w') → known_type s' →
     Q (0, s') w') →
  (∀ ret s' w', heap w' = heap w → error_code ret → Q (ret, s') w') →
  wp E (parse_cmd argv) Q w.
Proof. intros. by apply parse_opts_ok. Qed.
End options_specs.

(** ** Which command lines are rejected

    What an option does to the memory type that is selected ([t]), or the answer with
    which it is rejected. The answer depends on the option: -1 for a port number that
    is out of range, for -h and for what getopt does not know; UCS_ERR_UNSUPPORTED for
    the sizes and the memory type. *)

Section rejection.
Context `{!Ucs, !Ucp, !Cuda}.

Definition rejection (t : ucs_memory_type_t) (o : ascii * string) : ucs_memory_type_t + Z :=
  let '(c, optarg) := o in
  let unless (bad : bool) (ret : Z) := if bad then inr ret else inl t in
  match c with
  | "a" | "c" | "l" | "6" | "i" => inl t
  | "p" => unless ((atoi optarg <? 0) || (65535 <? atoi optarg))%Z (-1)%Z
  | "s" => unless (atol optarg <? 0)%Z UCS_ERR_UNSUPPORTED
  | "v" => unless (atol optarg <=? 0)%Z UCS_ERR_UNSUPPORTED
  | "m" =>
      match mem_type_named (supported t) optarg with
      | UCS_MEMORY_TYPE_LAST => inr UCS_ERR_UNSUPPORTED
      | t' => inl t'
      end
  | _ => inr (-1)%Z
  end%char.

(** The answer of the first option that is rejected. *)
Fixpoint rejected (t : ucs_memory_type_t) (os : list (ascii * string)) : option Z :=
  match os with
  | [] => None
  | o :: os' => match rejection t o with inl t' => rejected t' os' | inr ret => Some ret end
  end.

(** Is there an option -a? *)
Definition names_server (os : list (ascii * string)) : bool :=
  existsb (λ o, char_eqb o.1 "a"%char) os.

Lemma rejected_error t os ret : rejected t os = Some ret → error_code ret.
Proof.
  revert t. induction os as [|[c s] os IH]; intros t; [done|]. unfold error_code in *.
  cbn [rejected]. destruct (rejection t (c, s)) as [t'|ret'] eqn:Hr; [apply IH|].
  intros [= ->]. revert Hr. unfold rejection.
  repeat case_match; intros; simplify_eq; auto.
Qed.

(** The answer of a round: the memory type is the one that is left selected, and only
    -a assigns the address of the server. *)
Definition round_is (v : ucs_memory_type_t + Z) (c : ascii) (s : options)
    (r : options + Z) (w : cs_world) : Prop :=
  match v with
  | inl t => ∃ s', r = inl s' ∧ g_test_mem_type (glob w) = t ∧
      (char_eqb c "a"%char = false → server_addr s' = server_addr s)
  | inr ret => r = inr ret
  end.

Lemma rejection_eqb t c optarg :
  rejection t (c, optarg) =
    (let unless (bad : bool) (ret : Z) := if bad then inr ret else inl t in
     if char_eqb c "a"%char then inl t else if char_eqb c "c"%char then inl t
     else if char_eqb c "l"%char then inl t
     else if char_eqb c "p"%char then
       unless ((atoi optarg <? 0) || (65535 <? atoi optarg)) (-1)
     else if char_eqb c "6"%char then inl t else if char_eqb c "i"%char then inl t
     else if char_eqb c "s"%char then unless (atol optarg <? 0) UCS_ERR_UNSUPPORTED
     else if char_eqb c "v"%char then unless (atol optarg <=? 0) UCS_ERR_UNSUPPORTED
     else if char_eqb c "m"%char then
       let t' := mem_type_named (supported t) optarg in
       if bool_decide (t' = UCS_MEMORY_TYPE_LAST) then inr UCS_ERR_UNSUPPORTED else inl t'
     else inr (-1)).
Proof.
  destruct c as [[] [] [] [] [] [] [] []]; try reflexivity.
  simpl. cbv zeta. by destruct (mem_type_named _ _).
Qed.

Lemma parse_opt_round E o s w :
  wp E (parse_opt o s) (round_is (rejection (g_test_mem_type (glob w)) o) o.1 s) w.
Proof.
  destruct o as [c optarg]. rewrite rejection_eqb. unfold parse_opt, UINT16_MAX. cbv zeta.
  cbn [fst].
  destruct (char_eqb c "a"%char) eqn:Ha.
  { apply wp_ret. eexists. split_and!; [done|done|]. by rewrite Ha. }
  destruct (char_eqb c "c"%char).
  { apply wp_bind. eapply talks_wp; [apply talks_parse_type|done|].
    intros ty w' [] _. apply wp_ret. eexists. split_and!; [done|by rewrite si_glob0|done]. }
  destruct (char_eqb c "l"%char); [apply wp_ret; by eexists|].
  destruct (char_eqb c "p"%char).
  { destruct (_ || _); [by apply wp_bind, wp_fprintf, wp_ret|].
    apply wp_bind, wp_mod_glob, wp_ret. by eexists. }
  destruct (char_eqb c "6"%char); [apply wp_bind, wp_mod_glob, wp_ret; by eexists|].
  destruct (char_eqb c "i"%char); [apply wp_bind, wp_mod_glob, wp_ret; by eexists|].
  destruct (char_eqb c "s"%char).
  { apply wp_bind, wp_mod_glob, wp_bind, wp_glb. simpl.
    destruct (_ <? 0); [by apply wp_bind, wp_fprintf, wp_ret|]. apply wp_ret. by eexists. }
  destruct (char_eqb c "v"%char).
  { apply wp_bind, wp_mod_glob, wp_bind, wp_glb. simpl.
    destruct (_ <=? 0); [by apply wp_bind, wp_fprintf, wp_ret|]. apply wp_ret. by eexists. }
  destruct (char_eqb c "m"%char).
  { apply wp_bind. eapply talks_wp; [apply talks_parse_mem_type|done|].
    intros ty w' [Hg _ _] ->. apply wp_bind, wp_mod_glob. rewrite Hg.
    case_bool_decide; apply wp_ret; [done|]. by eexists. }
  apply wp_bind. eapply talks_wp; [apply talks_usage|done|]. intros [] w' _ _. by apply wp_ret.
Qed.

(** The whole command line. *)
Lemma parse_opts_rejected E os s w :
  wp E (parse_opts os s) (λ r _, match rejected (g_test_mem_type (glob w)) os with
    | Some ret => r.1 = ret
    | None => r.1 = 0 ∧ (names_server os = false → server_addr r.2 = server_addr s)
    end) w.
Proof.
  revert s w. induction os as [|o os IH]; intros s w; simpl; [by apply wp_ret|].
  apply wp_bind. eapply wp_conseq; [apply parse_opt_round|]. intros r w1 Hr.
  destruct (rejection _ o) as [t|ret]; simpl in Hr; [|subst r; by apply wp_ret].
  destruct Hr as (s' & -> & <- & Hs'). eapply wp_conseq; [apply IH|].
  intros [r s''] w2 Hr. simpl in *. destruct (rejected _ os); [done|].
  destruct Hr as [-> Hr]. split; [done|]. intros [Hne Hni]%orb_false_iff.
  rewrite Hr by done. by apply Hs'.
Qed.
End rejection.

(** ** Numbers on the command line *)

Section numbers.
Context `{!Ucs, !Ucp, !Cuda}.

(** One option with an argument. *)
Lemma parse_port s z w :
  0 ≤ z < 2 ^ 31 →
  parse_opt ("p"%char, pretty z) s w =
    (if z <? 65536 then (Ok (inl s), set_glob (with_server_port z (glob w)) w)
     else (Ok (inr (-1)), push (EOut Stderr "Wrong server port number %d\n" [AZ z]) w)).
Proof.
  intros Hz. unfold parse_opt. cbn -[atoi pretty Z.ltb u16 Z.pow]. rewrite atoi_pretty by done.
  unfold UINT16_MAX. rewrite (proj2 (Z.ltb_ge z 0)) by lia. cbn [orb].
  destruct (Z.ltb_spec 65535 z), (Z.ltb_spec z 65536); try lia; [done|].
  rewrite u16_small by lia. done.
Qed.

Lemma parse_iterations s z w :
  0 ≤ z < 2 ^ 31 →
  parse_opt ("i"%char, pretty z) s w =
    (Ok (inl s), set_glob (with_num_iterations z (glob w)) w).
Proof.
  intros Hz. unfold parse_opt. cbn -[atoi pretty Z.pow]. by rewrite atoi_pretty.
Qed.

Lemma parse_size s z w :
  0 ≤ z ≤ LONG_MAX →
  parse_opt ("s"%char, pretty z) s w =
    (Ok (inl s), set_glob (with_string_length z (glob w)) w).
Proof.
  intros Hz. unfold parse_opt. cbn -[atol pretty Z.ltb]. rewrite atol_pretty by done.
  unfold mbind, M_bind, set_glb, glb, mod_glob, modify, get_glob, gets. simpl.
  by rewrite (proj2 (Z.ltb_ge z 0)) by lia.
Qed.

Lemma parse_count s z w :
  1 ≤ z ≤ LONG_MAX →
  parse_opt ("v"%char, pretty z) s w =
    (Ok (inl s), set_glob (with_iov_cnt z (glob w)) w).
Proof.
  intros Hz. unfold parse_opt. cbn -[atol pretty Z.leb]. rewrite atol_pretty by lia.
  unfold mbind, M_bind, set_glb, glb, mod_glob, modify, get_glob, gets. simpl.
  by rewrite (proj2 (Z.leb_gt z 0)) by lia.
Qed.

(** Options one after the other. *)
Lemma parse_opts_cons o os s s' w w' :
  parse_opt o s w = (Ok (inl s'), w') → parse_opts (o :: os) s w = parse_opts os s' w'.
Proof. intros Ho. simpl. unfold mbind, M_bind. by rewrite Ho. Qed.

Lemma parse_opts_stop o os s ret w w' :
  parse_opt o s w = (Ok (inr ret), w') → parse_opts (o :: os) s w = (Ok (ret, s), w').
Proof. intros Ho. simpl. unfold mbind, M_bind. by rewrite Ho. Qed.

Lemma parse_cmd_opts argv os w :
  getopt "a:l:p:c:6i:s:v:m:h" argv = os → parse_cmd argv w = parse_opts os default_options w.
Proof. by intros <-. Qed.
End numbers.
