(* ===== verification/ClientServer.v ===== *)
(** * ucp_client_server.c: connection, work loop, server, client, main

    An out parameter of a function is part of its result. A goto to a cleanup
    label is a value of [label], and [cleanup] is the code from the labels on. *)

From S2P Require Import Prelude CRuntime CLib Ucx HelloUtil CsApi Iov SockAddr.
From S2P Require Import Callbacks Request SendRecv Options.
Open Scope Z_scope.

Section client_server.
Context `{!Ucs, !Ucp, !Cuda} (L : cs_lib) (fuel : nat).

Definition init_worker (ucp_context : Z) : CM (Z * Z) :=
  '(status, ucp_worker) ←
    call L (ucp_worker_create ucp_context UCP_WORKER_PARAM_FIELD_THREAD_MODE);
  if negb (status =? UCS_OK) then
    eprintf "failed to ucp_worker_create (%s)\n" [AZ status];;
    mret (-1, ucp_worker)
  else mret (0, ucp_worker).

Definition start_client (ucp_worker : Z) (address_str : option string) : CM (Z * Z) :=
  connect_addr ← set_sock_addr L address_str;
  let ep_params := {|
    ep_field_mask :=
      Z.lor (Z.lor (Z.lor UCP_EP_PARAM_FIELD_FLAGS UCP_EP_PARAM_FIELD_SOCK_ADDR)
               UCP_EP_PARAM_FIELD_ERR_HANDLER) UCP_EP_PARAM_FIELD_ERR_HANDLING_MODE;
    ep_err_mode_peer := true;
    ep_err_handler_cb := true;
    ep_flags := Some UCP_EP_PARAMS_FLAGS_CLIENT_SERVER;
    ep_sockaddr := Some connect_addr;
    ep_conn_request := None;
  |} in
  '(status, client_ep) ← call L (ucp_ep_create ucp_worker ep_params);
  when (negb (status =? UCS_OK))
    (eprintf "failed to connect to %s (%s)\n" [AStr (default "" address_str); AZ status]);;
  mret (status, client_ep).

Definition server_create_ep (data_worker conn_request : Z) : CM (Z * Z) :=
  let ep_params := {|
    ep_field_mask := Z.lor UCP_EP_PARAM_FIELD_ERR_HANDLER UCP_EP_PARAM_FIELD_CONN_REQUEST;
    ep_err_mode_peer := false;
    ep_err_handler_cb := true;
    ep_flags := None;
    ep_sockaddr := None;
    ep_conn_request := Some conn_request;
  |} in
  '(status, server_ep) ← call L (ucp_ep_create data_worker ep_params);
  when (negb (status =? UCS_OK))
    (eprintf "failed to create an endpoint on the server: (%s)\n" [AZ status]);;
  mret (status, server_ep).

(** context->listener = listener *)
Definition set_listener (context : ptr) (listener : Z) : CM unit :=
  update_cell "wrong type" context (λ c,
    match c with CSrv conn_request _ => Some (CSrv conn_request (Some listener)) | _ => None end).

(** The caller passes &context.listener as listener_p. *)
Definition start_server (ucp_worker : Z) (context : ptr) (address_str : option string) : CM Z :=
  listen_addr ← set_sock_addr L address_str;
  '(status, listener) ←
    call L (ucp_listener_create ucp_worker
              (Z.lor UCP_LISTENER_PARAM_FIELD_SOCK_ADDR UCP_LISTENER_PARAM_FIELD_CONN_HANDLER)
              listen_addr context);
  if negb (status =? UCS_OK) then
    eprintf "failed to listen (%s)\n" [AZ status];; mret status
  else
    set_listener context listener;;
    '(status, sockaddr) ← call L (ucp_listener_query listener UCP_LISTENER_ATTR_FIELD_SOCKADDR);
    if negb (status =? UCS_OK) then
      eprintf "failed to query the listener (%s)\n" [AZ status];;
      call L (ucp_listener_destroy listener);;
      mret status
    else
      ip ← sockaddr_get_ip_str L sockaddr IP_STRING_LEN;
      eprintf "server is listening on IP %s port %s\n"
        [AStr ip; AStr (sockaddr_get_port_str sockaddr PORT_STRING_LEN)];;
      printf "Waiting for connection...\n" [];;
      mret status.

Definition register_am_recv_callback (worker : Z) : CM Z :=
  call L (ucp_worker_set_am_recv_handler worker
            (Z.lor (Z.lor UCP_AM_HANDLER_PARAM_FIELD_ID UCP_AM_HANDLER_PARAM_FIELD_CB)
               UCP_AM_HANDLER_PARAM_FIELD_ARG) TEST_AM_ID).

(** diff, in microseconds. *)
Definition elapsed (timestart timeend : Z * Z) : CM Z :=
  s ← c_long (timeend.1 - timestart.1);
  us ← c_long (1000000 * s);
  us ← c_long (us + timeend.2);
  c_long (us - timestart.2).

Definition the_peer (is_server : bool) : arg := AStr (if is_server then "server" else "client").

(** for (i = 0; i < num_iterations; i++): no round changes num_iterations. *)
Definition iterations (ucp_worker ep : Z) (send_recv_type : send_recv_type_t)
    (is_server : bool) : CM (option Z) :=
  num_iterations ← glb g_num_iterations;
  for_break 0 (Z.to_nat num_iterations) (λ i,
    ret ← client_server_communication L fuel ucp_worker ep send_recv_type is_server
            (Z.of_nat i);
    if negb (ret =? 0) then
      eprintf "%s failed on iteration #%d\n" [the_peer is_server; AZ (Z.of_nat i + 1)];;
      mret (Some ret)
    else mret None).

Definition client_server_do_work (ucp_worker ep : Z) (send_recv_type : send_recv_type_t)
    (is_server : bool) : CM Z :=
  timestart ← (if negb is_server then call0 L gettimeofday else mret (0, 0));
  set_glb (with_connection_closed 0);;
  failed ← iterations ucp_worker ep send_recv_type is_server;
  match failed with
  | Some ret => mret ret
  | None =>
      printf "%s FIN message\n" [AStr (if is_server then "sent" else "received")];;
      when (negb is_server)
        (timeend ← call0 L gettimeofday;
         diff ← elapsed timestart timeend;
         printf "Total time = %lf ms\n" [AZ diff]);;
      status ←
        (if negb is_server && bool_decide (send_recv_type = CLIENT_SERVER_SEND_RECV_AM)
         then register_am_recv_callback ucp_worker else mret UCS_OK);
      if negb (status =? UCS_OK) then mret (-1)
      else
        num_iterations ← glb g_num_iterations;
        fin ← c_int (Z.max 0 num_iterations + 1);
        ret ← client_server_communication L fuel ucp_worker ep send_recv_type
                (negb is_server) fin;
        if negb (ret =? 0) then
          eprintf "%s failed on FIN message\n" [the_peer is_server];; mret ret
        else
          when is_server
            (while fuel
               (connection_closed ← glb g_connection_closed; mret (connection_closed =? 0))
               (_ ← call L (ucp_worker_progress ucp_worker); mret tt));;
          mret ret
  end.

(** The labels of run_server, with the variables the code behind them reads. *)
Inductive label : Type :=
  | err_ep (server_ep : Z) (context : ptr)
  | err_listener (context : ptr)
  | err_worker
  | err.

Definition destroy_listener (context : ptr) : CM unit :=
  '(_, listener) ← read_srv context;
  listener ← the "uninitialised listener" listener;
  call L (ucp_listener_destroy listener).

Definition cleanup (ucp_data_worker : Z) (l : label) : CM unit :=
  let at_err_worker := call L (ucp_worker_destroy ucp_data_worker) in
  let at_err_listener context := destroy_listener context;; at_err_worker in
  match l with
  | err_ep server_ep context =>
      ep_close L fuel ucp_data_worker server_ep UCP_EP_CLOSE_FLAG_FORCE;;
      at_err_listener context
  | err_listener context => at_err_listener context
  | err_worker => at_err_worker
  | err => mret tt
  end.

(** One client: wait for its request, serve it, disconnect. [inr]: a goto. *)
Definition serve (ucp_worker ucp_data_worker : Z) (context : ptr)
    (send_recv_type : send_recv_type_t) : CM (unit + Z * label) :=
  while fuel
    ('(conn_request, _) ← read_srv context;
     c ← the "uninitialised conn_request" conn_request;
     mret (c =? 0))
    (_ ← call L (ucp_worker_progress ucp_worker); mret tt);;
  '(conn_request, _) ← read_srv context;
  c ← the "uninitialised conn_request" conn_request;
  '(status, server_ep) ← server_create_ep ucp_data_worker c;
  if negb (status =? UCS_OK) then mret (inr (-1, err_listener context))
  else
    ret ← client_server_do_work ucp_data_worker server_ep send_recv_type true;
    if negb (ret =? 0) then mret (inr (ret, err_ep server_ep context))
    else
      ep_close L fuel ucp_data_worker server_ep UCP_EP_CLOSE_FLAG_FORCE;;
      set_conn_request context 0;;
      printf "Waiting for connection...\n" [];;
      mret (inl tt).

Definition run_server (ucp_context ucp_worker : Z) (listen_addr : option string)
    (send_recv_type : send_recv_type_t) : CM Z :=
  local (Cell KStack (CSrv None None)) (λ context,
  '(ret, ucp_data_worker) ← init_worker ucp_context;
  '(ret, l) ←
    (if negb (ret =? 0) then mret (ret, err)
     else
       status ←
         (if bool_decide (send_recv_type = CLIENT_SERVER_SEND_RECV_AM)
          then register_am_recv_callback ucp_data_worker else mret UCS_OK);
       if negb (status =? UCS_OK) then mret (-1, err_worker)
       else
         set_conn_request context 0;;
         status ← start_server ucp_worker context listen_addr;
         if negb (status =? UCS_OK) then mret (-1, err_worker)
         else loop fuel (λ _, serve ucp_worker ucp_data_worker context send_recv_type) tt);
  cleanup ucp_data_worker l;;
  mret ret).

Definition run_client (ucp_worker : Z) (server_addr : option string)
    (send_recv_type : send_recv_type_t) : CM Z :=
  '(status, client_ep) ← start_client ucp_worker server_addr;
  if negb (status =? UCS_OK) then
    eprintf "failed to start client (%s)\n" [AZ status];; mret (-1)
  else
    ret ← client_server_do_work ucp_worker client_ep send_recv_type false;
    ep_close L fuel ucp_worker client_ep UCP_EP_CLOSE_FLAG_FORCE;;
    mret ret.

Definition features_of (send_recv_type : send_recv_type_t) : Z :=
  match send_recv_type with
  | CLIENT_SERVER_SEND_RECV_STREAM => UCP_FEATURE_STREAM
  | CLIENT_SERVER_SEND_RECV_TAG => UCP_FEATURE_TAG
  | _ => UCP_FEATURE_AM
  end.

(** [inl ret]: an error; otherwise *ucp_context and *ucp_worker. *)
Definition init_context (send_recv_type : send_recv_type_t) : CM (Z + Z * Z) :=
  '(status, ucp_context) ←
    call L (ucp_init (Z.lor UCP_PARAM_FIELD_FEATURES UCP_PARAM_FIELD_NAME)
              (features_of send_recv_type) "client_server");
  if negb (status =? UCS_OK) then
    eprintf "failed to ucp_init (%s)\n" [AZ status];; mret (inl (-1))
  else
    '(ret, ucp_worker) ← init_worker ucp_context;
    if negb (ret =? 0) then
      call L (ucp_cleanup ucp_context);; mret (inl ret)
    else mret (inr (ucp_context, ucp_worker)).

(** [argv] is the argument vector without the program name. *)
Definition main (argv : list string) : CM Z :=
  '(ret, o) ← parse_cmd argv;
  if negb (ret =? 0) then mret ret
  else
    r ← init_context (send_recv_type o);
    match r with
    | inl ret => mret ret
    | inr (ucp_context, ucp_worker) =>
        ret ← match server_addr o with
              | None => run_server ucp_context ucp_worker (listen_addr o) (send_recv_type o)
              | Some _ => run_client ucp_worker (server_addr o) (send_recv_type o)
              end;
        call L (ucp_worker_destroy ucp_worker);;
        call L (ucp_cleanup ucp_context);;
        mret ret
    end.
End client_server.

(** ** Preserved relations *)

Lemma keeps_elapsed R `{!PreOrder R} a b : keeps R (elapsed a b).
Proof. unfold elapsed. solve_keeps. Qed.
#[export] Hint Resolve keeps_elapsed : keeps.

Section client_server_keeps.
Context `{!Ucs, !Ucp, !Cuda} (L : cs_lib) (fuel : nat).
Context (R : cs_world → cs_world → Prop) `{!DataQuiet R}.

Lemma keeps_iterations w ep ty s : keeps R (iterations L fuel w ep ty s).
Proof. unfold iterations. solve_keeps. Qed.
Hint Resolve keeps_iterations : keeps.
Lemma keeps_register w : keeps R (register_am_recv_callback L w).
Proof. unfold register_am_recv_callback. solve_keeps. Qed.
Hint Resolve keeps_register : keeps.
Lemma keeps_do_work w ep ty s : keeps R (client_server_do_work L fuel w ep ty s).
Proof.
  assert (∀ v, keeps R (set_glb (with_connection_closed v))).
  { intros. apply keeps_mod_glob. intros. apply cq_closed. }
  unfold client_server_do_work, printf. solve_keeps.
Qed.
End client_server_keeps.

#[export] Hint Resolve keeps_iterations keeps_register keeps_do_work : keeps.
