(* ===== verification/Protocol.v ===== *)
(** * The life cycle of UCX objects

    The specification of the program's use of UCX: a stack automaton over the
    history of calls. A context, worker, listener, endpoint or request is pushed
    when the library hands it out; it must be on the stack when a call uses it,
    and on its top when a call gives it back. So nothing is used after it was
    destroyed, nothing is destroyed twice, and every object dies before the
    object it was created from. The calls of the callbacks count like any other:
    the handler of a listener rejects connections on the listener it finds in the
    context.

    [main_lawful] in Program.v: the program follows it, and ends with an empty
    stack, under every behaviour of a library that runs the handler of a listener
    only while the listener exists ([conn_callbacks]). *)

From S2P Require Import Prelude CRuntime CLib Ucx HelloUtil CsApi Iov SockAddr.
From S2P Require Import Callbacks Request SendRecv Options ClientServer.
Open Scope Z_scope.

Inductive resource : Type :=
  | RContext (h : Z)
  | RWorker (h : Z)
  | RListener (h : Z)
  | REp (h : Z)
  | RRequest (h : Z).

#[export] Instance resource_eq_dec : EqDecision resource.
Proof. solve_decision. Defined.

Section protocol.
Context `{!Ucs}.

(** A request the caller has to free. *)
Definition request_of (r : Z) : list resource :=
  if UCS_PTR_IS_PTR r then [RRequest r] else [].

Definition opens (c : cs_call) : cs_ret c → list resource :=
  match c with
  | ucp_init _ _ _ => λ r, if r.1 =? UCS_OK then [RContext r.2] else []
  | ucp_worker_create _ _ => λ r, if r.1 =? UCS_OK then [RWorker r.2] else []
  | ucp_listener_create _ _ _ _ => λ r, if r.1 =? UCS_OK then [RListener r.2] else []
  | ucp_ep_create _ _ => λ r, if r.1 =? UCS_OK then [REp r.2] else []
  | ucp_stream_recv_nbx _ _ _ => λ r, request_of r.1
  | ucp_ep_close_nbx _ _ _ | ucp_stream_send_nbx _ _ _ | ucp_tag_send_nbx _ _ _ _
  | ucp_tag_recv_nbx _ _ _ _ _ | ucp_am_send_nbx _ _ _ _ _
  | ucp_am_recv_data_nbx _ _ _ _ => λ r, request_of r
  | _ => λ _, []
  end.

Definition closes (c : cs_call) : option resource :=
  match c with
  | ucp_cleanup h => Some (RContext h)
  | ucp_worker_destroy h => Some (RWorker h)
  | ucp_listener_destroy h => Some (RListener h)
  | ucp_ep_close_nbx h _ _ => Some (REp h)
  | ucp_request_free h => Some (RRequest h)
  | _ => None
  end.

Definition uses (c : cs_call) : option resource :=
  match c with
  | ucp_worker_create h _ => Some (RContext h)
  | ucp_worker_progress h | ucp_worker_set_am_recv_handler h _ _
  | ucp_listener_create h _ _ _ | ucp_ep_create h _ | ucp_tag_recv_nbx h _ _ _ _
  | ucp_am_recv_data_nbx h _ _ _ => Some (RWorker h)
  | ucp_listener_query h _ | ucp_listener_reject h _ => Some (RListener h)
  | ucp_stream_send_nbx h _ _ | ucp_stream_recv_nbx h _ _ | ucp_tag_send_nbx h _ _ _
  | ucp_am_send_nbx h _ _ _ _ => Some (REp h)
  | ucp_request_check_status h => Some (RRequest h)
  | _ => None
  end.

Definition close (x : option resource) (st : list resource) : option (list resource) :=
  match x, st with
  | None, _ => Some st
  | Some x, y :: st' => if bool_decide (x = y) then Some st' else None
  | Some _, [] => None
  end.

Definition protocol_call (c : cs_call) (r : cs_ret c) (st : list resource)
  : option (list resource) :=
  let live := match uses c with Some x => bool_decide (x ∈ st) | None => true end in
  if live then (λ st', opens c r ++ st') <$> close (closes c) st else None.

(** The stack after a history, or [None] if a call broke the rules. *)
Fixpoint protocol (h : history cs_api) : option (list resource) :=
  match h with
  | [] => Some []
  | ECall c r :: h' => protocol h' ≫= protocol_call c r
  | _ :: h' => protocol h'
  end.
End protocol.

(** ** The listener of the server

    The handle in context.listener stays what start_server stored there,
    whatever callbacks run. *)

Definition pin (b : N) (listener : option Z) (w : cs_world) : Prop :=
  (b < next w)%N ∧ ∃ c, heap w !! b = Some (Cell KStack (CSrv c listener)).

Definition pins (b : N) (w w' : cs_world) : Prop :=
  (next w ≤ next w')%N ∧ ∀ l, pin b l w → pin b l w'.

#[export] Instance pins_preorder b : PreOrder (pins b).
Proof.
  split; [by intros w; split|]. intros x y z [? H1] [? H2]. split; [lia|auto].
Qed.

#[export] Instance pins_data b : DataQuiet (pins b).
Proof.
  apply event_blind_data; [|by intros; split; [|intros ? []]..].
  split; [split|..]; [|by intros; split; [|intros ? []]..].
  split; [typeclasses eauto|..].
  - intros o _ w. split; simpl; [lia|]. intros l [Hb [c Hc]]. split; simpl; [lia|].
    exists c. by rewrite lookup_insert_ne by lia.
  - intros acc p bs w.
    destruct (write_mem_cases acc p bs w) as [->|(b' & k & d & d' & Hb' & _ & ->)];
      [reflexivity|].
    split; [done|]. intros l [Hb [c Hc]]. split; [done|]. exists c. simpl.
    rewrite lookup_insert_ne; [done|]. intros ->.
    by pose proof (option_agree _ _ _ Hc Hb').
  - intros w b' k c c' Hb' Hcc. split; [done|]. intros l [Hb [x Hx]]. split; [done|].
    destruct (decide (b' = b)) as [->|]; simpl.
    + pose proof (option_agree _ _ _ Hx Hb') as Heq. simplify_eq.
      destruct c' as [| |y l']; try done.
      simpl in Hcc. exists y. by rewrite lookup_insert_eq, Hcc.
    + exists x. by rewrite lookup_insert_ne.
  - intros w b' o Hb' Hk. split; [done|]. intros l [Hb [x Hx]]. split; [done|].
    exists x. simpl. rewrite lookup_delete_ne; [done|]. intros ->.
    pose proof (option_agree _ _ _ Hx Hb') as <-. by apply Hk.
  - intros w o w' _ [Hn Hp]. simpl in Hn. split; simpl; [lia|]. intros l [Hb [x Hx]].
    destruct (Hp l) as [Hb2 [y Hy]].
    { split; simpl; [lia|]. exists x. by rewrite lookup_insert_ne by lia. }
    split; [done|]. exists y. simpl. by rewrite lookup_delete_ne by lia.
Qed.

(** The listeners and the contexts stay what they are. *)
Definition moved `{!Ucs} (w w' : cs_world) : Prop := ∀ i : option N,
  match i with
  | Some b => pins b w w'
  | None => same (λ w : cs_world, listeners (trace w)) w w'
  end.

#[export] Instance moved_data `{!Ucs} : DataQuiet moved.
Proof.
  apply (all_data (λ (i : option N) w w', match i with
    | Some b => pins b w w'
    | None => same (λ w : cs_world, listeners (trace w)) w w' end)).
  intros [b|]; [typeclasses eauto|].
  split; [split; [by apply same_trace_interactive; intros []|..]|]; try done;
    intros w c r Hc; unfold same; simpl; by destruct c.
Qed.

(** And the stack too. *)
Definition kept `{!Ucs} (w w' : cs_world) : Prop := ∀ i : bool,
  if i then moved w w' else same (λ w : cs_world, protocol (trace w)) w w'.

#[export] Instance kept_local `{!Ucs} : LocalQuiet kept.
Proof.
  apply (all_local (λ (i : bool) w w', if i then moved w w'
    else same (λ w : cs_world, protocol (trace w)) w w')).
  intros []; [typeclasses eauto|].
  split; [by apply same_trace_interactive; intros []| |done|done].
  intros w c r Hc. unfold same. simpl.
  destruct (protocol (trace w)) as [st|]; [|done]. by destruct c.
Qed.

Lemma kept_glob `{!Ucs} w g : kept w (set_glob g w).
Proof. intros []; [|done]. by intros [b|]; [split|]. Qed.

(** Every listener of the history is on the stack. *)
Lemma listeners_alive `{!Ucs} h st x arg l :
  protocol h = Some st → (x, arg, l) ∈ listeners h → RListener l ∈ st.
Proof.
  revert st. induction h as [|e h IH]; intros st Hst Hl; [by apply elem_of_nil in Hl|].
  destruct e as [c r| | | |]; try by eauto. simpl in Hst.
  destruct (protocol h) as [st0|]; [|done]. simpl in Hst. unfold protocol_call in Hst.
  destruct (match uses c with Some _ => _ | None => _ end); [|done].
  destruct (close (closes c) st0) as [st1|] eqn:Hcl; [|done]. simpl in Hst.
  injection Hst as <-.
  assert (∀ l', RListener l' ∈ st0 → closes c ≠ Some (RListener l') → RListener l' ∈ st1) as Hkeep.
  { intros l' Hl' Hne. destruct (closes c) as [y|]; simpl in Hcl; [|by simplify_eq].
    destruct st0 as [|z st0]; [done|]. case_bool_decide as Hyz; [|done]. injection Hcl as <-.
    apply elem_of_cons in Hl' as [Heq|?]; [|done]. destruct Hne. congruence. }
  assert ((x, arg, l) ∈ opened c r ∨
    (x, arg, l) ∈ listeners h ∧ closes c ≠ Some (RListener l)) as [Ho|[Ho Hne]].
  { destruct c; simpl in Hl |- *; try (right; split; [exact Hl|done]).
    - apply elem_of_app in Hl as [?|?]; [by left|by right].
    - apply list_elem_of_filter in Hl as [Hne Hl]. right. split; [done|].
      intros [= ->]. by apply Hne. }
  - apply elem_of_app. left. destruct c; try by apply elem_of_nil in Ho. simpl in Ho |- *.
    destruct (_ =? _); [|by apply elem_of_nil in Ho].
    apply list_elem_of_singleton in Ho. simplify_eq. left.
  - apply elem_of_app. right. apply Hkeep; [by eapply IH|done].
Qed.

(** ** Triples over the stack *)

Section holds.
Context `{!Ucs}.
Implicit Types (w : cs_world) (st : list resource).

Definition lawful w : Prop := is_Some (protocol (trace w)).

(** The argument of a listener is a context that holds its handle. *)
Definition tied w : Prop := ∀ x arg l, (x, arg, l) ∈ listeners (trace w) →
  ∃ b, arg = Loc b 0 ∧ pin b (Some l) w.

Definition holds st w : Prop := protocol (trace w) = Some st ∧ tied w.

Lemma holds_lawful st w : holds st w → lawful w.
Proof. intros [Hw _]. unfold lawful. rewrite Hw. by eauto. Qed.

Lemma moved_tied w w' : moved w w' → tied w → tied w'.
Proof.
  intros Hm Ht x arg l Hl. pose proof (Hm None) as Hls. unfold same in Hls. cbv beta in Hls.
  rewrite Hls in Hl. destruct (Ht x arg l Hl) as (b & -> & Hp). exists b. split; [done|].
  by apply (Hm (Some b)).
Qed.

Lemma kept_holds st w w' : kept w w' → holds st w → holds st w'.
Proof.
  intros Hk [Hw Ht]. split; [|by eapply moved_tied; [exact (Hk true)|]].
  pose proof (Hk false) as Hs. unfold same in Hs. cbv beta in Hs. by rewrite Hs.
Qed.

(** The end of a call. *)
Lemma tied_call w c (r : cs_ret c) :
  (∀ h, listeners (ECall (A := cs_api) c r :: h) ⊆ listeners h) → tied w →
  tied (push (ECall (A := cs_api) c r) w).
Proof. intros Hs Ht x arg l Hl. apply (Ht x arg l), (Hs (trace w)), Hl. Qed.
End holds.

Section lawful.
Context `{!Ucs, !Ucp, !Cuda} (L : cs_lib) (fuel : nat).
Hypothesis Hconn : conn_callbacks L.
Implicit Types (w : cs_world) (st : list resource).

(** From the stack [st], [m] follows the rules; its result determines the
    stack it leaves. *)
Definition steps {A} st (m : CM A) (Q : A → list resource) : Prop :=
  ∀ w, holds st w → wp (λ _ w', lawful w') m (λ a w', holds (Q a) w') w.

Lemma wp_kept {A} st (m : CM A) (Q : A → cs_world → Prop) w :
  keeps kept m → holds st w → (∀ a w', holds st w' → Q a w') →
  wp (λ _ w', lawful w') m Q w.
Proof using.
  intros Hm Hw HQ. specialize (Hm w). unfold wp. destruct (m w) as [[a|h] w']; simpl in Hm.
  - by apply HQ, (kept_holds st w).
  - by eapply holds_lawful, kept_holds.
Qed.

Lemma steps_neutral {A} st (m : CM A) : keeps kept m → steps st m (λ _, st).
Proof using. intros Hm w Hw. by eapply wp_kept. Qed.

Lemma steps_ret {A} st (a : A) Q : Q a = st → steps st (mret a) Q.
Proof using. intros <- w Hw. exact Hw. Qed.

Lemma steps_stop {A} st h (Q : A → list resource) : steps st (stop h) Q.
Proof using. intros w Hw. by eapply wp_stop, holds_lawful. Qed.

Lemma steps_bind {A B} st (m : CM A) (f : A → CM B) Q Q' :
  steps st m Q → (∀ a, steps (Q a) (f a) Q') → steps st (m ≫= f) Q'.
Proof using.
  intros Hm Hf w Hw. apply wp_bind. eapply wp_conseq; [by apply Hm|].
  intros a w' Ha. by apply Hf.
Qed.

Lemma steps_post {A} st (m : CM A) Q Q' :
  steps st m Q → (∀ a, Q a = Q' a) → steps st m Q'.
Proof using.
  intros Hm HQ w Hw. wp_use Hm; [done|]. intros a w' Ha. cbv beta in *. by rewrite <-HQ.
Qed.

Lemma steps_the {A} st why (o : option A) : steps st (the why o) (λ _, st).
Proof using. apply steps_neutral. solve_keeps. Qed.

Lemma steps_loop {S A} st n (body : S → CM (S + A)) s Q :
  (∀ s, steps st (body s) (λ x, match x with inl _ => st | inr a => Q a end)) →
  steps st (loop n body s) Q.
Proof using.
  intros Hb w Hw.
  apply wp_loop with (I := λ _ w, holds st w); [done| |].
  - intros _ w' Hw'. by eapply holds_lawful.
  - intros s' w' Hw'. eapply wp_conseq; [by apply Hb|]. by intros [].
Qed.

Lemma steps_while st n c b :
  steps st c (λ _, st) → steps st b (λ _, st) → steps st (while n c b) (λ _, st).
Proof.
  intros Hc Hb. apply steps_loop. intros ?. eapply steps_bind; [done|].
  intros []; [eapply steps_bind; [done|]; intros ?|]; by intros w Hw.
Qed.

Lemma steps_do_while {A} st n (b : CM A) again :
  steps st b (λ _, st) → steps st (do_while n b again) (λ _, st).
Proof.
  intros Hb. apply steps_loop. intros ?. eapply steps_bind; [done|].
  intros a. destruct (again a); by intros w Hw.
Qed.

Lemma steps_for_break {A} st s n (body : nat → CM (option A)) :
  (∀ k, steps st (body k) (λ _, st)) → steps st (for_break s n body) (λ _, st).
Proof.
  intros Hb. revert s. induction n as [|n IH]; intros s; simpl; [by intros w Hw|].
  eapply steps_bind; [done|]. intros [a|]; [by intros w Hw|apply IH].
Qed.

Lemma steps_when st b m : steps st m (λ _, st) → steps st (when b m) (λ _, st).
Proof. destruct b; [done|]. by intros _ w Hw. Qed.

(** The handler of a listener that is alive. *)
Lemma conn_handle_holds st req b l w :
  holds st w → RListener l ∈ st → pin b (Some l) w →
  wp (λ _ w', lawful w') (server_conn_handle_cb L req (Loc b 0)) (λ _ w', holds st w') w.
Proof using.
  intros Hw Hl Hp. unfold server_conn_handle_cb.
  apply wp_bind, (wp_with_keeps kept).
  { by apply keeps_local_call; [typeclasses eauto|]. }
  eapply wp_kept; [by apply keeps_local_call; [typeclasses eauto|]|exact Hw|].
  intros [st1 sa] w1 Hw1 Hk1. pose proof (Hk1 true (Some b)) as [_ Hp1].
  specialize (Hp1 _ Hp). cbv beta iota. apply wp_bind, (wp_with_keeps kept).
  { unfold printf. solve_keeps. }
  eapply wp_kept; [unfold printf; solve_keeps|exact Hw1|].
  intros [] w2 Hw2 Hk2. pose proof (Hk2 true (Some b)) as [_ Hp2].
  destruct (Hp2 _ Hp1) as (_ & c & Hc). apply wp_bind. unfold read_srv. apply wp_bind.
  eapply wp_read_cell; [exact Hc|]. cbv beta iota. apply wp_ret.
  apply wp_bind. eapply wp_kept; [solve_keeps|exact Hw2|]. intros pending w3 Hw3.
  destruct (pending =? 0); [eapply wp_kept; [solve_keeps|exact Hw3|done]|].
  apply wp_bind, wp_fprintf. assert (holds st (push (EOut Stdout "Rejecting a connection request. Only one client at a time is supported.\n" []) w3)) as Hw4 by exact Hw3.
  apply wp_bind, wp_ret, wp_bind, (wp_ext0 L _ (ucp_listener_reject l req)).
  match goal with |- wp _ _ _ ?w => assert (holds st w) as Hw5 end.
  { destruct Hw4 as [Hpr Ht]. split; [|by apply tied_call].
    simpl in *. rewrite Hpr. simpl. unfold protocol_call. simpl.
    by rewrite bool_decide_eq_true_2. }
  eapply wp_kept; [solve_keeps|exact Hw5|done].
Qed.

(** What the outside does during a call. *)
Lemma run_act_holds st h c x w :
  x ∈ l_acts L h c → listeners (trace w) = listeners h → holds st w →
  wp (λ _ w', lawful w') (run_act (handler L) x)
     (λ _ w', holds st w' ∧ listeners (trace w') = listeners h) w.
Proof using Hconn.
  intros Hx Hls Hw.
  assert (keeps moved (run_act (handler L) x)) as Hmv.
  { apply keeps_run_act; [apply cq_inter|]. intros. apply keeps_handler. typeclasses eauto. }
  apply (wp_with_keeps moved); [done|].
  apply wp_conseq with (Q := λ _ w', holds st w').
  2:{ intros [] w' Hw' Hm. split; [done|]. pose proof (Hm None) as He. unfold same in He.
      cbv beta in He. by rewrite He. }
  assert ((∃ req arg, x = Callback (Cb_conn req arg)) ∨
    ∀ req arg, x ≠ Callback (Cb_conn req arg)) as [(req & arg & ->)|Hno].
  { destruct x as [[]|]; try (right; by intros). left. eauto. }
  - destruct (Hconn _ _ _ _ Hx) as (wk & l & Hl). rewrite <-Hls in Hl.
    destruct (proj2 Hw _ _ _ Hl) as (b & -> & Hp).
    cbn [run_act]. apply wp_bind. unfold handler. apply wp_bind.
    eapply wp_conseq; [eapply conn_handle_holds; [exact Hw| |exact Hp]|].
    { eapply listeners_alive; [apply Hw|exact Hl]. }
    intros [] w1 Hw1. apply wp_ret. exact Hw1.
  - eapply wp_kept; [|exact Hw|done]. destruct x as [cb|p bs].
    + cbn [run_act]. apply keeps_bind; [typeclasses eauto| |].
      * apply keeps_other_handler; [typeclasses eauto|]. intros req arg ->. by destruct (Hno req arg).
      * intros r. apply keeps_emit; intros; apply inter_cb.
    + cbn [run_act]. apply keeps_bind; [typeclasses eauto|apply ms_write_mem|].
      intros r. apply keeps_emit; intros; apply inter_store.
Qed.

Lemma acts_holds st c (Q : unit → cs_world → Prop) w :
  holds st w → (∀ w', holds st w' → moved w w' → Q tt w') →
  wp (λ _ w', lawful w') (run_acts (handler L) (l_acts L (trace w) c)) Q w.
Proof using Hconn.
  intros Hw HQ. apply (wp_with_keeps moved).
  { apply keeps_run_acts; [apply cq_inter|]. intros. apply keeps_handler. typeclasses eauto. }
  apply wp_run_acts with (P := λ xs w', holds st w' ∧
    listeners (trace w') = listeners (trace w) ∧ Forall (λ x, x ∈ l_acts L (trace w) c) xs).
  - split_and!; [done|done|]. apply List.Forall_forall. intros x Hx. by apply list_elem_of_In.
  - intros x xs w1 (Hw1 & Hls & Hxs). apply Forall_cons_1 in Hxs as [Hx Hxs].
    eapply wp_conseq; [by eapply run_act_holds|]. by intros [] w2 [? ?].
  - intros w1 (Hw1 & _) Hm. by apply HQ.
Qed.

(** A call: what callbacks do keeps the stack, and the event makes one step. *)
Lemma call_holds st c (Q : cs_ret c → cs_world → Prop) w :
  holds st w → (∀ r w', holds st w' → moved w w' → Q r (push (ECall (A := cs_api) c r) w')) →
  wp (λ _ w', lawful w') (call L c) Q w.
Proof using Hconn.
  intros Hw HQ. unfold call. apply wp_ext. apply (acts_holds st); [done|].
  intros w' Hw' Hm. by apply HQ.
Qed.

Lemma steps_call st c Q :
  (∀ r h, listeners (ECall (A := cs_api) c r :: h) ⊆ listeners h) →
  (∀ r, protocol_call c r st = Some (Q r)) → steps st (call L c) Q.
Proof using Hconn.
  intros Hls Hc w Hw. apply (call_holds st); [done|].
  intros r w' [Hw' Ht] _. split; [|by apply tied_call]. simpl. rewrite Hw'. apply Hc.
Qed.

(** The instances of [steps_call], for calls that leave the listeners alone. *)
Definition no_listener (c : cs_call) : Prop :=
  ∀ r h, listeners (ECall (A := cs_api) c r :: h) = listeners h.

Lemma steps_use st c x :
  uses c = Some x → closes c = None → (∀ r, opens c r = []) → no_listener c → x ∈ st →
  steps st (call L c) (λ _, st).
Proof using Hconn.
  intros Hu Hc Ho Hl Hx. apply steps_call; [intros r h; by rewrite Hl|].
  intros r. unfold protocol_call.
  rewrite Hu, Hc, Ho, bool_decide_eq_true_2 by done. done.
Qed.

Lemma steps_open st c x :
  uses c = Some x → closes c = None → no_listener c → x ∈ st →
  steps st (call L c) (λ r, opens c r ++ st).
Proof using Hconn.
  intros Hu Hc Hl Hx. apply steps_call; [intros r h; by rewrite Hl|].
  intros r. unfold protocol_call.
  rewrite Hu, Hc, bool_decide_eq_true_2 by done. done.
Qed.

Lemma steps_close st c x :
  uses c = None → closes c = Some x → no_listener c →
  steps (x :: st) (call L c) (λ r, opens c r ++ st).
Proof using Hconn.
  intros Hu Hc Hl. apply steps_call; [intros r h; by rewrite Hl|].
  intros r. unfold protocol_call.
  rewrite Hu, Hc. simpl. by rewrite bool_decide_eq_true_2.
Qed.
End lawful.

(** One step of a [steps] proof along the program. *)
Ltac step_neutral :=
  solve [eapply steps_neutral; solve_keeps | apply steps_the | by apply steps_ret].
Ltac step_when :=
  lazymatch goal with
  | |- steps _ (if ?b then _ else _) _ => destruct b eqn:?
  | |- steps _ (when _ _) _ => apply steps_when
  end.

Section program.
Context `{!Ucs, !Ucp, !Cuda} (L : cs_lib) (fuel : nat).
Hypothesis Hconn : conn_callbacks L.
Implicit Types (st : list resource).

Lemma request_of_ptr r : UCS_PTR_IS_PTR r = true → request_of r = [RRequest r].
Proof. unfold request_of. by intros ->. Qed.

(** A call on a live object that neither opens nor closes anything. *)
Lemma steps_progress st w : RWorker w ∈ st →
  steps st (_ ← call L (ucp_worker_progress w); mret tt) (λ _, st).
Proof.
  intros Hw. eapply steps_bind; [by apply (steps_use L Hconn st (ucp_worker_progress w) (RWorker w))|].
  intros ?. by apply steps_ret.
Qed.

Lemma steps_free st r :
  steps (RRequest r :: st) (call L (ucp_request_free r)) (λ _, st).
Proof. by apply (steps_close L Hconn st (ucp_request_free r) (RRequest r)). Qed.

Lemma steps_check st r : RRequest r ∈ st →
  steps st (call L (ucp_request_check_status r)) (λ _, st).
Proof. intros Hr. by apply (steps_use L Hconn st (ucp_request_check_status r) (RRequest r)). Qed.

(** Waiting for a request frees it, if there is one. *)
Lemma steps_request_wait st w r ctx : RWorker w ∈ st →
  steps (request_of r ++ st) (request_wait L fuel w r ctx) (λ _, st).
Proof.
  intros Hw. unfold request_wait. destruct ucs_ptr_null as (Herr & Hptr & _).
  destruct (Z.eqb_spec r 0) as [->|Hr].
  { unfold request_of. rewrite Hptr. by apply steps_ret. }
  pose proof (ucs_ptr_nonnull r Hr) as Hp. unfold request_of. rewrite Hp.
  destruct (UCS_PTR_IS_ERR r) eqn:He; cbn [negb app]; [by apply steps_ret|].
  eapply steps_bind.
  { apply steps_while; [step_neutral|]. apply steps_progress. by right. }
  intros ?. eapply steps_bind; [apply steps_check; left|].
  intros s. eapply steps_bind; [apply steps_free|]. intros ?. by apply steps_ret.
Qed.

Lemma steps_request_finalize st w r ctx s iov i : RWorker w ∈ st →
  steps (request_of r ++ st) (request_finalize L fuel w r ctx s iov i) (λ _, st).
Proof.
  intros Hw. unfold request_finalize. eapply steps_bind; [by apply steps_request_wait|].
  intros status. step_neutral.
Qed.

Lemma steps_ep_close st w ep flags : RWorker w ∈ st →
  steps (REp ep :: st) (ep_close L fuel w ep flags) (λ _, st).
Proof.
  intros Hw. unfold ep_close. eapply steps_bind.
  { by apply (steps_close L Hconn st (ucp_ep_close_nbx ep UCP_OP_ATTR_FIELD_FLAGS flags) (REp ep)). }
  intros r. cbn [opens]. unfold request_of.
  eapply steps_bind with (Q := λ _, st); [|intros; step_neutral].
  destruct (UCS_PTR_IS_PTR r); cbn [app]; [|by apply steps_ret].
  eapply steps_bind; [apply steps_do_while|].
  { eapply steps_bind; [apply (steps_use L Hconn _ (ucp_worker_progress w) (RWorker w)); try done; by right|].
    intros ?. apply steps_check. left. }
  intros s. eapply steps_bind; [apply steps_free|]. intros ?. by apply steps_ret.
Qed.


Lemma steps_register st w : RWorker w ∈ st →
  steps st (register_am_recv_callback L w) (λ _, st).
Proof.
  intros Hw. by apply (steps_use L Hconn st (ucp_worker_set_am_recv_handler w _ TEST_AM_ID) (RWorker w)).
Qed.

(** A local variable of a function that creates or destroys no listener. *)
Lemma steps_local {X} st o (body : ptr → CM X) Q :
  ordinary_obj o → keeps moved (local o body) → (∀ p, steps st (body p) Q) → steps st (local o body) Q.
Proof using.
  intros Ho Hk Hb w Hw. apply (wp_with_keeps moved); [done|]. apply wp_local_raw.
  eapply wp_conseq.
  - apply Hb. destruct Hw as [Hp Ht]. split; [exact Hp|].
    eapply moved_tied; [|exact Ht]. exact (ms_alloc (R := moved) o Ho w).
  - intros r w' [Hp _] Hm. split; [exact Hp|]. eapply moved_tied; [exact Hm|apply Hw].
Qed.

Context (st : list resource) (w ep : Z) (Hw : RWorker w ∈ st) (Hep : REp ep ∈ st).

Local Hint Resolve Hw Hep : core.

(** The three ways of exchanging a message leave no request behind. *)

Lemma steps_send_recv_stream s i : steps st (send_recv_stream L fuel w ep s i) (λ _, st).
Proof using All.
  apply steps_local; [done|solve_keeps|]. intros ctx.
  do 2 (eapply steps_bind with (Q := λ _, st); [step_neutral|]; intros ?).
  eapply steps_bind with (Q := λ _, st); [step_neutral|]. intros [[[msg len] p]|]; [|step_neutral].
  eapply steps_bind with (Q := λ r, request_of r ++ st);
    [|intros r; by apply steps_request_finalize].
  destruct s; cbn [negb]; cbv zeta; (eapply steps_bind with (Q := λ _, st); [step_neutral|]);
    intros m.
  - eapply steps_bind; [by apply (steps_open L Hconn st (ucp_stream_recv_nbx ep m _) (REp ep))|].
    intros [r n]. by apply steps_ret.
  - by apply (steps_open L Hconn st (ucp_stream_send_nbx ep m _) (REp ep)).
Qed.

Lemma steps_send_recv_tag s i : steps st (send_recv_tag L fuel w ep s i) (λ _, st).
Proof using All.
  apply steps_local; [done|solve_keeps|]. intros ctx.
  do 2 (eapply steps_bind with (Q := λ _, st); [step_neutral|]; intros ?).
  eapply steps_bind with (Q := λ _, st); [step_neutral|]. intros [[[msg len] p]|]; [|step_neutral].
  eapply steps_bind with (Q := λ r, request_of r ++ st);
    [|intros r; by apply steps_request_finalize].
  destruct s; cbn [negb]; cbv zeta; (eapply steps_bind with (Q := λ _, st); [step_neutral|]);
    intros m.
  - by apply (steps_open L Hconn st (ucp_tag_recv_nbx w m TAG 0 _) (RWorker w)).
  - by apply (steps_open L Hconn st (ucp_tag_send_nbx ep m TAG _) (REp ep)).
Qed.

Lemma steps_send_recv_am s i : steps st (send_recv_am L fuel w ep s i) (λ _, st).
Proof using All.
  apply steps_local; [done|solve_keeps|]. intros ctx.
  do 2 (eapply steps_bind with (Q := λ _, st); [step_neutral|]; intros ?).
  eapply steps_bind with (Q := λ _, st); [step_neutral|]. intros [[[msg len] p]|]; [|step_neutral].
  eapply steps_bind with (Q := λ r, request_of r ++ st);
    [|intros r; by apply steps_request_finalize].
  destruct s; cbn [negb]; cbv zeta.
  - eapply steps_bind with (Q := λ _, st); [step_neutral|]. intros ?.
    eapply steps_bind with (Q := λ _, st).
    { apply steps_while; [step_neutral|by apply steps_progress]. }
    intros ?. do 2 (eapply steps_bind with (Q := λ _, st); [step_neutral|]; intros ?).
    destruct (negb _).
    + eapply steps_bind with (Q := λ _, st); [step_neutral|]. intros m.
      by apply (steps_open L Hconn st (ucp_am_recv_data_nbx w _ m _) (RWorker w)).
    + apply steps_ret. unfold request_of. by destruct ucs_ptr_null as (_&->&_).
  - eapply steps_bind with (Q := λ _, st); [step_neutral|]. intros m.
    by apply (steps_open L Hconn st (ucp_am_send_nbx ep TEST_AM_ID 0 m _) (REp ep)).
Qed.

Lemma steps_communication ty s i :
  steps st (client_server_communication L fuel w ep ty s i) (λ _, st).
Proof using All.
  unfold client_server_communication. destruct ty;
    [apply steps_send_recv_stream|apply steps_send_recv_tag|apply steps_send_recv_am|].
  step_neutral.
Qed.

Lemma steps_do_work ty s : steps st (client_server_do_work L fuel w ep ty s) (λ _, st).
Proof using All.
  unfold client_server_do_work.
  do 2 (eapply steps_bind with (Q := λ _, st); [step_neutral|]; intros ?).
  eapply steps_bind with (Q := λ _, st).
  { unfold iterations. eapply steps_bind with (Q := λ _, st); [step_neutral|]. intros n.
    apply steps_for_break. intros i.
    eapply steps_bind; [apply steps_communication|]. intros r. step_neutral. }
  intros [ret|]; [by apply steps_ret|].
  do 2 (eapply steps_bind with (Q := λ _, st); [step_neutral|]; intros ?).
  eapply steps_bind with (Q := λ _, st).
  { destruct (_ && _); [by apply steps_register|by apply steps_ret]. }
  intros status. destruct (negb _); [by apply steps_ret|].
  do 2 (eapply steps_bind with (Q := λ _, st); [step_neutral|]; intros ?).
  eapply steps_bind; [apply steps_communication|]. intros ret.
  destruct (negb _); [step_neutral|].
  eapply steps_bind; [|intros; by apply steps_ret].
  apply steps_when, steps_while; [step_neutral|by apply steps_progress].
Qed.
End program.

(** ** The server *)

Section run_server.
Context `{!Ucs, !Ucp, !Cuda} (L : cs_lib) (fuel : nat).
Hypothesis Hconn : conn_callbacks L.
Implicit Types (st : list resource).

(** [steps] while the context at [b] holds [listener]. *)
Definition psteps b listener {A} st (m : CM A) (Q : A → list resource) : Prop :=
  ∀ w, holds st w → pin b listener w →
    wp (λ _ w', lawful w') m (λ a w', holds (Q a) w' ∧ pin b listener w') w.

Lemma psteps_of {A} b l st (m : CM A) Q :
  steps st m Q → keeps (pins b) m → psteps b l st m Q.
Proof.
  intros Hm Hk w Hw Hp. apply (wp_with_keeps (pins b)); [done|].
  wp_use Hm; [done|]. intros a w' Ha [_ Hr]. split; [done|]. by apply Hr.
Qed.

(** One step of a proof about the server. *)
Lemma psteps_wp {A B} b l st (m : CM A) (f : A → CM B) Q Q' w :
  psteps b l st m Q → holds st w → pin b l w →
  (∀ a w', holds (Q a) w' → pin b l w' →
     wp (λ _ w', lawful w') (f a) Q' w') →
  wp (λ _ w', lawful w') (m ≫= f) Q' w.
Proof.
  intros Hm Hw Hp HQ. apply wp_bind. eapply wp_conseq; [by apply Hm|].
  intros a w' []. by apply HQ.
Qed.

Lemma psteps_bind {A B} b l st (m : CM A) (f : A → CM B) Q Q' :
  psteps b l st m Q → (∀ a, psteps b l (Q a) (f a) Q') → psteps b l st (m ≫= f) Q'.
Proof.
  intros Hm Hf w Hw Hp. apply wp_bind. eapply wp_conseq; [by apply Hm|].
  intros a w' [Ha Hp']. by apply Hf.
Qed.

Lemma psteps_ret {A} b l st (a : A) Q : Q a = st → psteps b l st (mret a) Q.
Proof. intros <- w Hw Hp. by apply wp_ret. Qed.

Lemma psteps_loop {S A} b l st n (body : S → CM (S + A)) s Q :
  (∀ s, psteps b l st (body s) (λ x, match x with inl _ => st | inr a => Q a end)) →
  psteps b l st (loop n body s) Q.
Proof.
  intros Hb w Hw Hp.
  apply wp_loop with (I := λ _ w, holds st w ∧ pin b l w); [done| |].
  - intros _ w' [Hw' _]. by eapply holds_lawful.
  - intros s' w' [Hw' Hp']. eapply wp_conseq; [by apply Hb|]. by intros [] ? [].
Qed.

Lemma steps_init_worker st ctx : RContext ctx ∈ st →
  steps st (init_worker L ctx) (λ r, if r.1 =? 0 then RWorker r.2 :: st else st).
Proof.
  intros Hc. unfold init_worker. eapply steps_bind.
  { by apply (steps_open L Hconn st (ucp_worker_create ctx _) (RContext ctx)). }
  intros [status w]. cbn [opens fst snd].
  destruct (status =? UCS_OK); cbn [negb app]; [by apply steps_ret|].
  eapply steps_bind; [step_neutral|]. intros ?. by apply steps_ret.
Qed.

(** Creating an endpoint, then reporting a failure. *)
Lemma steps_ep_create st w p (f : Z → CM unit) : RWorker w ∈ st →
  (∀ status, keeps kept (f status)) →
  steps st ('(status, ep) ← call L (ucp_ep_create w p);
            when (negb (status =? UCS_OK)) (f status);; mret (status, ep))
        (λ r, if r.1 =? UCS_OK then REp r.2 :: st else st).
Proof.
  intros Hw Hf. eapply steps_bind; [by apply (steps_open L Hconn st (ucp_ep_create w p) (RWorker w))|].
  intros [status ep]. cbn [opens fst snd].
  eapply steps_bind; [apply steps_neutral, keeps_when; [typeclasses eauto|apply Hf]|].
  intros ?. apply steps_ret. cbn [fst snd]. by destruct (status =? UCS_OK).
Qed.

Lemma steps_start_client st w s : RWorker w ∈ st →
  steps st (start_client L w s) (λ r, if r.1 =? UCS_OK then REp r.2 :: st else st).
Proof.
  intros Hw. unfold start_client. eapply steps_bind with (Q := λ _, st).
  { apply steps_neutral. apply keeps_set_sock_addr; [typeclasses eauto|].
    intros. by apply lq_call. }
  intros sa. apply steps_ep_create; [done|]. intros. solve_keeps.
Qed.

Lemma steps_run_client st w s ty : RWorker w ∈ st →
  steps st (run_client L fuel w s ty) (λ _, st).
Proof.
  intros Hw. unfold run_client. eapply steps_bind; [by apply steps_start_client|].
  intros [status ep]. cbn [fst snd]. destruct (status =? UCS_OK); cbn [negb].
  - eapply steps_bind; [apply steps_do_work; [done|by right|left]|]. intros ret.
    eapply steps_bind; [by apply steps_ep_close|]. intros ?. by apply steps_ret.
  - step_neutral.
Qed.

(** The end of a listener: there is one less. *)
Lemma steps_listener_destroy l st :
  steps (RListener l :: st) (call L (ucp_listener_destroy l)) (λ _, st).
Proof.
  apply (steps_call L Hconn); [|].
  - intros r h x Hx. by apply list_elem_of_filter in Hx as [_ Hx].
  - intros r. unfold protocol_call. simpl. by rewrite bool_decide_eq_true_2.
Qed.

(** The listener that is destroyed is the one start_server created. *)
Lemma destroy_listener_lawful b l st w (Q : unit → list resource) :
  holds (RListener l :: st) w → pin b (Some l) w →
  wp (λ _ w', lawful w') (destroy_listener L (Loc b 0)) (λ _ w', holds st w') w.
Proof.
  intros Hw [Hb [c Hc]]. unfold destroy_listener, read_srv. apply wp_bind, wp_bind.
  eapply wp_read_cell; [exact Hc|]. cbv beta iota. apply wp_ret. apply wp_bind, wp_ret.
  by apply steps_listener_destroy.
Qed.

(** Resolving and printing addresses, creating and asking the listener. *)
Lemma psteps_sock_addr b o st s : psteps b o st (set_sock_addr L s) (λ _, st).
Proof.
  apply psteps_of; [apply steps_neutral|];
    (apply keeps_set_sock_addr; [typeclasses eauto|]; intros; by apply lq_call).
Qed.

Lemma psteps_ip_str b o st sa n : psteps b o st (sockaddr_get_ip_str L sa n) (λ _, st).
Proof.
  apply psteps_of; [apply steps_neutral|];
    (apply keeps_get_ip_str; [typeclasses eauto|]; intros; by apply lq_call).
Qed.

Lemma psteps_call b o st c Q :
  steps st (call L c) Q → psteps b o st (call L c) Q.
Proof.
  intros Hs. apply psteps_of; [done|]. apply keeps_call_of; [typeclasses eauto|].
  intros. by split.
Qed.

Definition listening b st (status : Z) (w : cs_world) : Prop :=
  if status =? UCS_OK
  then ∃ l, holds (RListener l :: st) w ∧ pin b (Some l) w
  else holds st w.

(** From the successful creation on. *)
Lemma listening_lawful b st l w :
  holds (RListener l :: st) w → pin b (Some l) w →
  wp (λ _ w', lawful w')
     ('(status, sockaddr) ← call L (ucp_listener_query l UCP_LISTENER_ATTR_FIELD_SOCKADDR);
      if negb (status =? UCS_OK) then
        eprintf "failed to query the listener (%s)\n" [AZ status];;
        call L (ucp_listener_destroy l);;
        mret status
      else
        ip ← sockaddr_get_ip_str L sockaddr IP_STRING_LEN;
        eprintf "server is listening on IP %s port %s\n"
          [AStr ip; AStr (sockaddr_get_port_str sockaddr PORT_STRING_LEN)];;
        printf "Waiting for connection...\n" [];;
        mret status) (listening b st) w.
Proof.
  intros Hw Hp.
  eapply psteps_wp; [apply (psteps_call _ _ _ (ucp_listener_query l _))|exact Hw|exact Hp|].
  { apply (steps_use L Hconn _ (ucp_listener_query l _) (RListener l)); [done..|left]. }
  intros [status sa] w1 Hw1 Hp1. cbv beta iota.
  destruct (status =? UCS_OK) eqn:Hs; cbn [negb].
  - eapply psteps_wp; [apply psteps_ip_str|exact Hw1|exact Hp1|]. intros ip w2 Hw2 Hp2.
    apply wp_bind, wp_fprintf, wp_bind, wp_fprintf, wp_ret.
    unfold listening. rewrite Hs. exists l. by split.
  - apply wp_bind, wp_fprintf, wp_bind.
    eapply wp_conseq; [by apply steps_listener_destroy|].
    intros [] w2 Hw2. apply wp_ret. unfold listening. by rewrite Hs.
Qed.

Lemma start_server_lawful b st uw s w :
  RWorker uw ∈ st → holds st w → pin b None w →
  wp (λ _ w', lawful w') (start_server L uw (Loc b 0) s) (listening b st) w.
Proof.
  intros Hu Hw Hp. unfold start_server.
  eapply psteps_wp; [apply psteps_sock_addr|exact Hw|exact Hp|]. intros sa w1 Hw1 Hp1.
  apply wp_bind.
  eapply (call_holds L Hconn st (ucp_listener_create uw _ sa (Loc b 0))); [exact Hw1|].
  intros [status l] w2 [Hpr2 Ht2] Hm. destruct (Hm (Some b)) as [_ Hp2]. specialize (Hp2 _ Hp1).
  cbv beta iota.
  destruct (status =? UCS_OK) eqn:Hs; cbn [negb].
  - destruct Hp2 as [Hb [c Hc]]. apply wp_bind.
    eapply wp_update_cell; [exact Hc|done|]. apply listening_lawful; [split|].
    + simpl. rewrite Hpr2. simpl. unfold protocol_call. simpl.
      by rewrite Hs, bool_decide_eq_true_2.
    + intros x arg l' Hl'. simpl in Hl'. rewrite Hs in Hl'.
      apply elem_of_cons in Hl' as [Heq|Hl'].
      { simplify_eq. exists b. split; [done|]. split; [done|]. exists c. apply lookup_insert_eq. }
      destruct (Ht2 x arg l' Hl') as (b' & -> & Hb' & c' & Hc'). exists b'. split; [done|].
      split; [done|]. exists c'. simpl. rewrite lookup_insert_ne; [done|].
      intros <-. rewrite Hc in Hc'. by simplify_eq.
    + split; [done|]. exists c. apply lookup_insert_eq.
  - apply wp_bind, wp_fprintf, wp_ret. unfold listening. rewrite Hs. split.
    + simpl. rewrite Hpr2. simpl. unfold protocol_call. simpl.
      by rewrite Hs, bool_decide_eq_true_2.
    + intros x arg l' Hl'. apply (Ht2 x arg l'). simpl in Hl'. by rewrite Hs in Hl'.
Qed.

(** What is alive when control reaches a label. *)
Definition at_label b dw st (lab : label) (w : cs_world) : Prop :=
  let listening ctx above :=
    ctx = Loc b 0 ∧ ∃ l, pin b (Some l) w ∧
    holds (above ++ RListener l :: RWorker dw :: st) w in
  match lab with
  | err_ep ep ctx => listening ctx [REp ep]
  | err_listener ctx => listening ctx []
  | err_worker => holds (RWorker dw :: st) w
  | err => holds st w
  end.

(** An assignment that keeps the listener of a context. *)
Lemma holds_update b k c c' st w :
  heap w !! b = Some (Cell k c) → compat c c' → holds st w →
  holds st (set_heap (<[b := Cell k c']> (heap w)) w).
Proof using. intros Hb Hc. apply kept_holds. by eapply (ms_update (R := kept)). Qed.

(** One client, from connection to disconnection. *)
Lemma serve_lawful b st0 uw dw l ty w (st := RListener l :: RWorker dw :: st0) :
  RWorker uw ∈ st0 → holds st w → pin b (Some l) w →
  wp (λ _ w', lawful w') (serve L fuel uw dw (Loc b 0) ty)
     (λ x w', match x with
              | inl _ => holds st w' ∧ pin b (Some l) w'
              | inr (_, lab) => at_label b dw st0 lab w'
              end) w.
Proof.
  intros Hu0 Hw Hp. unfold serve.
  assert (RWorker uw ∈ st) as Hu by by do 2 right.
  assert (RWorker dw ∈ st) as Hd by (right; left).
  eapply psteps_wp with (Q := λ _, st); [apply psteps_of|exact Hw|exact Hp|].
  { apply steps_while; [step_neutral|by apply steps_progress]. }
  { solve_keeps. }
  intros ? w1 Hw1 Hp1.
  eapply psteps_wp with (Q := λ _, st); [apply psteps_of; [step_neutral|solve_keeps]|exact Hw1|exact Hp1|].
  intros [c o] w2 Hw2 Hp2. cbv beta iota.
  eapply psteps_wp with (Q := λ _, st); [apply psteps_of; [step_neutral|solve_keeps]|exact Hw2|exact Hp2|].
  intros c' w3 Hw3 Hp3.
  eapply psteps_wp; [eapply psteps_of|exact Hw3|exact Hp3|].
  { apply steps_ep_create; [exact Hd|]. intros. solve_keeps. }
  { apply keeps_bind; [typeclasses eauto| |intros [? ?]; solve_keeps].
    apply (keeps_call_of L (pins b) (ucp_ep_create dw _)). intros. by split. }
  intros [status ep] w4 Hw4 Hp4. cbv beta iota. cbn [fst snd] in Hw4.
  destruct (status =? UCS_OK); cbn [negb].
  2:{ apply wp_ret. split; [done|by exists l]. }
  eapply psteps_wp with (Q := λ _, REp ep :: st); [apply psteps_of|exact Hw4|exact Hp4|].
  { apply steps_do_work; [done|by right|left]. }
  { solve_keeps. }
  intros ret w5 Hw5 Hp5. destruct (negb (ret =? 0)).
  { apply wp_ret. split; [done|by exists l]. }
  eapply psteps_wp; [eapply psteps_of; [by apply steps_ep_close|]|exact Hw5|exact Hp5|].
  { apply keeps_ep_close; [typeclasses eauto|]. intros. by split. }
  intros ? w6 Hw6 [Hb [c6 Hc6]]. apply wp_bind. eapply wp_update_cell; [exact Hc6|done|].
  apply wp_bind, wp_fprintf, wp_ret. split.
  - exact (holds_update b _ _ (CSrv (Some 0) (Some l)) st w6 Hc6 eq_refl Hw6).
  - split; [done|]. eexists. apply lookup_insert_eq.
Qed.

(** From a label on. *)
Lemma cleanup_lawful b dw st lab w :
  at_label b dw st lab w →
  wp (λ _ w', lawful w') (cleanup L fuel dw lab) (λ _ w', holds st w') w.
Proof.
  assert (∀ l w, holds (RListener l :: RWorker dw :: st) w →
    pin b (Some l) w →
    wp (λ _ w', lawful w')
       (destroy_listener L (Loc b 0);; call L (ucp_worker_destroy dw))
       (λ _ w', holds st w') w) as Hend.
  { intros l w1 Hw1 Hp1. apply wp_bind. wp_use destroy_listener_lawful; [done..|].
    intros [] w2 Hw2. by apply (steps_close L Hconn st (ucp_worker_destroy dw) (RWorker dw)). }
  destruct lab as [ep p|p| |]; cbn [at_label].
  - intros (-> & l & Hp & Hw).
    eapply psteps_wp; [eapply psteps_of; [apply steps_ep_close| ]|exact Hw|exact Hp|].
    + done.
    + right. left.
    + apply keeps_ep_close; [typeclasses eauto|]. intros. by split.
    + intros ? w1 Hw1 Hp1. by apply (Hend l).
  - intros (-> & l & Hp & Hw). by apply (Hend l).
  - intros Hw. by apply (steps_close L Hconn st (ucp_worker_destroy dw) (RWorker dw)).
  - intros Hw. by apply wp_ret.
Qed.

(** The context is released: there is no listener any more. *)
Lemma steps_run_server st ctx uw s ty : RContext ctx ∈ st → RWorker uw ∈ st →
  (∀ l, RListener l ∉ st) → steps st (run_server L fuel ctx uw s ty) (λ _, st).
Proof.
  intros Hc Hu Hnl w Hw. apply wp_local_raw.
  match goal with |- wp _ _ _ ?w => set (w0 := w) in * end.
  assert (holds st w0) as Hw0.
  { destruct Hw as [Hp Ht]. split; [exact Hp|]. eapply moved_tied; [|exact Ht].
    exact (ms_alloc (R := moved) (Cell KStack (CSrv None None)) I w). }
  assert (∀ w', holds st w' → ∀ h, holds st (set_heap h w')) as Hfree.
  { intros w' [Hp Ht] h'. split; [exact Hp|]. intros x arg l Hl.
    destruct (Hnl l). by eapply listeners_alive. }
  assert (pin (next w) None w0) as Hp0.
  { split; simpl; [lia|]. exists None. apply lookup_insert_eq. }
  clearbody w0. set (b := next w) in *. clearbody b.
  eapply psteps_wp; [apply psteps_of; [by apply steps_init_worker|]|exact Hw0|exact Hp0|].
  { unfold init_worker. apply keeps_bind; [typeclasses eauto| |intros [? ?]; solve_keeps].
    apply (keeps_call_of L (pins b) (ucp_worker_create ctx _)). intros. by split. }
  intros [ret dw] w1 Hw1 Hp1. cbv beta iota. cbn [fst snd] in Hw1.
  apply wp_bind, wp_conseq with (Q := λ x w', at_label b dw st (snd x) w').
  2:{ intros [r lab] w2 Hl. apply wp_bind. eapply wp_conseq; [by eapply cleanup_lawful|].
      intros [] w3 Hw3. by apply wp_ret, Hfree. }
  destruct (ret =? 0); cbn [negb]; [|by apply wp_ret].
  eapply psteps_wp with (Q := λ _, RWorker dw :: st); [apply psteps_of|exact Hw1|exact Hp1|].
  { case_bool_decide; [|by apply steps_ret]. apply steps_register; [done|left]. }
  { case_bool_decide; solve_keeps. }
  intros status w2 Hw2 Hp2. destruct (status =? UCS_OK); cbn [negb]; [|by apply wp_ret].
  destruct Hp2 as [Hb [c2 Hc2]]. apply wp_bind. eapply wp_update_cell; [exact Hc2|done|].
  apply wp_bind. eapply wp_conseq;
    [apply start_server_lawful; [by right|by eapply holds_update
      |split; [done|by eexists; apply lookup_insert_eq]]|].
  intros status2 w3 Hl. unfold listening in Hl.
  destruct (status2 =? UCS_OK); cbn [negb]; [|by apply wp_ret].
  destruct Hl as (l & Hw3 & Hp3).
  apply wp_loop with (I := λ _ w, holds (RListener l :: RWorker dw :: st) w
                                  ∧ pin b (Some l) w); [done| |].
  - intros _ w' [Hw' _]. by eapply holds_lawful.
  - intros [] w' [Hw' Hp']. eapply wp_conseq; [by apply serve_lawful|].
    by intros [[]|[r lab]] w''.
Qed.

Lemma steps_init_context st ty :
  steps st (init_context L ty)
    (λ r, match r with inl _ => st | inr (ctx, uw) => RWorker uw :: RContext ctx :: st end).
Proof.
  unfold init_context. eapply steps_bind with
    (Q := λ r, (if r.1 =? UCS_OK then [RContext r.2] else []) ++ st).
  { by apply (steps_call L Hconn st (ucp_init _ _ _)). }
  intros [status ctx]. cbn [fst snd]. destruct (status =? UCS_OK); cbn [negb app].
  2:{ eapply steps_bind; [step_neutral|]. intros ?. by apply steps_ret. }
  eapply steps_bind; [apply steps_init_worker; left|]. intros [ret uw]. cbn [fst snd].
  destruct (ret =? 0); cbn [negb]; [by apply steps_ret|].
  eapply steps_bind; [by apply (steps_close L Hconn st (ucp_cleanup ctx) (RContext ctx))|].
  intros ?. by apply steps_ret.
Qed.

Lemma steps_main argv : steps [] (main L fuel argv) (λ _, []).
Proof.
  unfold main. eapply steps_bind with (Q := λ _, []).
  { apply steps_neutral, keeps_parse_cmd; [typeclasses eauto|apply kept_glob]. }
  intros [ret o]. destruct (negb _); [by apply steps_ret|].
  eapply steps_bind; [apply steps_init_context|]. intros [r|[ctx uw]]; [by apply steps_ret|].
  eapply steps_bind with (Q := λ _, [RWorker uw; RContext ctx]).
  { destruct (server_addr o); [apply steps_run_client; left|].
    apply steps_run_server; [right; left|left|]. intros l Hl.
    apply elem_of_cons in Hl as [|[|?%elem_of_nil]%elem_of_cons]; done. }
  intros ret'.
  eapply steps_bind; [by apply (steps_close L Hconn _ (ucp_worker_destroy uw) (RWorker uw))|].
  intros ?. eapply steps_bind; [by apply (steps_close L Hconn _ (ucp_cleanup ctx) (RContext ctx))|].
  intros ?. by apply steps_ret.
Qed.
End run_server.
