(* ===== verification/Messages.v ===== *)
(** * Counting messages

    How many messages a run sends and how many receives it posts, by counting
    calls in the history; and what the functions return. Both hold for every
    behaviour of the library. The transcript of a history lists what is sent and
    awaited. *)

From S2P Require Import Prelude CRuntime CLib Ucx HelloUtil CsApi Iov SockAddr.
From S2P Require Import Callbacks Request SendRecv Options ClientServer.
Open Scope Z_scope.

Definition is_send (c : cs_call) : bool :=
  match c with
  | ucp_stream_send_nbx _ _ _ | ucp_tag_send_nbx _ _ _ _ | ucp_am_send_nbx _ _ _ _ _ => true
  | _ => false
  end.
Definition is_recv (c : cs_call) : bool :=
  match c with
  | ucp_stream_recv_nbx _ _ _ | ucp_tag_recv_nbx _ _ _ _ _ => true
  | _ => false
  end.

(** The calls of a history that satisfy [f]. *)
Fixpoint calls (f : cs_call → bool) (h : history cs_api) : nat :=
  match h with
  | [] => 0
  | ECall c _ :: h' => (if f c then 1 else 0) + calls f h'
  | _ :: h' => calls f h'
  end.

(** ** What is sent and awaited *)

(** The bytes there is room for in a message that is received. *)
Definition msg_room (m : message) : Z := foldr (λ s k, s.2 + k) 0 (msg_segs m).

(** A transfer of data, as the side that starts it sees it: the bytes that go
    out, or the room for those that come in. *)
Inductive transfer : Type :=
  | Outgoing (bytes : list mbyte)
  | Incoming (room : Z).

Definition transfer_of (c : cs_call) : option transfer :=
  match c with
  | ucp_stream_send_nbx _ m _ | ucp_tag_send_nbx _ m _ _
  | ucp_am_send_nbx _ _ _ m _ => Some (Outgoing (msg_payload m))
  | ucp_stream_recv_nbx _ m _ | ucp_tag_recv_nbx _ m _ _ _ => Some (Incoming (msg_room m))
  | _ => None
  end.

Definition event_transfer (e : event cs_api) : option transfer :=
  match e with ECall c _ => transfer_of c | _ => None end.

(** The transfers of a history, the last one first. *)
Definition transcript (h : history cs_api) : list transfer := omap event_transfer h.

Lemma transcript_app h h' : transcript (h ++ h') = transcript h ++ transcript h'.
Proof. apply omap_app. Qed.

Lemma calls_app f h h' : calls f (h ++ h') = (calls f h + calls f h')%nat.
Proof. induction h as [|[] h IH]; simpl; rewrite ?IH; try done. lia. Qed.

(** A transfer is a send or a receive. *)
Lemma transcript_length h :
  length (transcript h) = (calls is_send h + calls is_recv h)%nat.
Proof.
  induction h as [|[c r| | | |] h IH]; [done| |done..].
  trans (length (if transfer_of c is Some x then x :: transcript h else transcript h)); [done|].
  destruct c; simpl; rewrite IH; lia.
Qed.

(** If there is only one, it is the one that is known. *)
Lemma transcript_singleton h c (r : cs_ret c) x :
  (calls is_send h + calls is_recv h = 1)%nat → ECall (A := cs_api) c r ∈ h →
  transfer_of c = Some x → transcript h = [x].
Proof.
  rewrite <-transcript_length. intros Hl Hin Hx.
  assert (x ∈ transcript h) as Hin' by (apply list_elem_of_omap; by exists (ECall (A := cs_api) c r)).
  destruct (transcript h) as [|y [|]]; [done| |done].
  by apply list_elem_of_singleton in Hin' as ->.
Qed.

Section counts.
Context (f : cs_call → bool).

(** If [m] returns [a], then [Q a k] for the number [k] of calls it made. *)
Definition counts {A} (m : CM A) (Q : A → nat → Prop) : Prop :=
  ∀ w, wp (λ _ _, True) m
    (λ a w', ∃ k, calls f (trace w') = (k + calls f (trace w))%nat ∧ Q a k) w.

Abbreviation uncounted := (same (λ w : cs_world, calls f (trace w))).

Lemma counts_neutral {A} (m : CM A) : keeps uncounted m → counts m (λ _ k, k = 0%nat).
Proof.
  intros Hm w. specialize (Hm w). unfold wp. unfold same in Hm.
  destruct (m w) as [[a|h] w']; [|done]. exists 0%nat. by split.
Qed.

Lemma counts_ret {A} (a : A) (Q : A → nat → Prop) : Q a 0%nat → counts (mret a) Q.
Proof. intros HQ w. apply wp_ret. by exists 0%nat. Qed.

Lemma counts_stop {A} h (Q : A → nat → Prop) : counts (stop h) Q.
Proof. by intros w. Qed.

Lemma counts_bind {A B} (m : CM A) (g : A → CM B) Q Q' :
  counts m Q → (∀ a k, Q a k → counts (g a) (λ b k', Q' b (k' + k)%nat)) →
  counts (m ≫= g) Q'.
Proof.
  intros Hm Hg w. apply wp_bind. eapply wp_conseq; [apply Hm|].
  intros a w' (k & Hk & HQ). eapply wp_conseq; [by apply Hg|].
  intros b w'' (k' & Hk' & HQ'). exists (k' + k)%nat. split; [lia|done].
Qed.

(** A first part that makes no such call. *)
Lemma counts_skip {A B} (m : CM A) (g : A → CM B) Q :
  keeps uncounted m → (∀ a, counts (g a) Q) → counts (m ≫= g) Q.
Proof.
  intros Hm Hg. eapply counts_bind; [by apply counts_neutral|].
  intros a k -> w. eapply wp_conseq; [apply Hg|]. intros b w' (k & Hk & HQ).
  exists k. split; [done|]. by rewrite Nat.add_0_r.
Qed.

Lemma counts_mono {A} (m : CM A) (Q Q' : A → nat → Prop) :
  counts m Q → (∀ a k, Q a k → Q' a k) → counts m Q'.
Proof.
  intros Hm HQ w. eapply wp_conseq; [apply Hm|]. intros a w' (k & Hk & H). eauto.
Qed.

(** A last part that makes no such call. *)
Lemma counts_last {A B} (m : CM A) (g : A → CM B) (Q : nat → Prop) :
  counts m (λ _, Q) → (∀ a, keeps uncounted (g a)) → counts (m ≫= g) (λ _, Q).
Proof.
  intros Hm Hg. eapply counts_bind; [done|]. intros a k HQ.
  eapply counts_mono; [by apply counts_neutral|]. by intros ? ? ->.
Qed.

Lemma counts_local {X} o (body : ptr → CM X) Q :
  (∀ p, counts (body p) Q) → counts (local o body) Q.
Proof.
  intros Hb w. apply wp_local_raw. eapply wp_conseq; [apply Hb|]. done.
Qed.

Lemma counts_wp {A} (m : CM A) Q (Q' : A → cs_world → Prop) w :
  counts m Q →
  (∀ a w' k, calls f (trace w') = (k + calls f (trace w))%nat → Q a k → Q' a w') →
  wp (λ _ _, True) m Q' w.
Proof. intros Hm HQ. eapply wp_conseq; [apply Hm|]. intros a w' (k & Hk & Ha). eauto. Qed.

Context `{!Ucs, !Ucp, !Cuda} (L : cs_lib) (fuel : nat).
Context (Hs : ∀ c, service_call c = true → f c = false).

Lemma uncounted_cb : CbQuiet uncounted.
Proof using Hs.
  split; [by apply same_trace_interactive; intros []| |done|done].
  intros w c r Hc. unfold same. simpl. by rewrite (Hs c Hc).
Qed.

Lemma uncounted_call c : f c = false → keeps uncounted (call L c).
Proof using Hs.
  intros Hc. pose proof uncounted_cb. apply keeps_call_of; [done|].
  intros w r. unfold same. simpl. by rewrite Hc.
Qed.

(** A call counts as what [f] says. *)
Lemma counts_call c : counts (call L c) (λ _ k, k = if f c then 1 else 0)%nat.
Proof using Hs.
  intros w. unfold call. apply wp_ext. eapply wp_mono.
  { apply (keeps_wp uncounted). pose proof uncounted_cb.
    apply keeps_run_acts; [apply cq_inter|]. intros. by apply keeps_handler. }
  - intros [] w' Hw'. unfold same in Hw'. simpl. eexists. split; [by rewrite Hw'|done].
  - done.
Qed.

Context (Hprog : ∀ w, f (ucp_worker_progress w) = false).
Context (Hcheck : ∀ r, f (ucp_request_check_status r) = false).
Context (Hfree : ∀ r, f (ucp_request_free r) = false).
Context (Hreg : ∀ w m i, f (ucp_worker_set_am_recv_handler w m i) = false).

Lemma uncounted_progress w : keeps uncounted (_ ← call L (ucp_worker_progress w); mret tt).
Proof using Hs Hprog.
  apply keeps_bind; [typeclasses eauto|by apply uncounted_call|]. intros. solve_keeps.
Qed.

Lemma uncounted_request_finalize w r ctx s iov i :
  keeps uncounted (request_finalize L fuel w r ctx s iov i).
Proof using Hs Hprog Hcheck Hfree.
  pose proof uncounted_cb. pose proof (uncounted_progress w).
  unfold request_finalize, request_wait.
  apply keeps_bind; [typeclasses eauto| |intros; solve_keeps].
  destruct (r =? 0); [solve_keeps|]. destruct (UCS_PTR_IS_ERR r); [solve_keeps|].
  apply keeps_bind; [typeclasses eauto|solve_keeps|]. intros _.
  apply keeps_bind; [typeclasses eauto|by apply uncounted_call|]. intros st.
  apply keeps_bind; [typeclasses eauto|by apply uncounted_call|]. intros _. solve_keeps.
Qed.
End counts.

(** ** One message *)

Definition counted (sends : bool) : cs_call → bool := if sends then is_send else is_recv.

Lemma counted_service sends c : service_call c = true → counted sends c = false.
Proof. by destruct sends, c. Qed.

Section messages.
Context `{!Ucs, !Ucp, !Cuda} (L : cs_lib) (fuel : nat) (sends : bool).
Abbreviation uncounted := (same (λ w : cs_world, calls (counted sends) (trace w))).

(** A successful send_recv_* that plays the part of the server iff
    [is_server] makes one receive or one send. *)
Definition one_message (is_server : bool) (ret : Z) (k : nat) : Prop :=
  ret = 0 → k = if eqb sends is_server then 0%nat else 1%nat.

Lemma finalize_keeps w r ctx s iov i :
  keeps uncounted (request_finalize L fuel w r ctx s iov i).
Proof.
  apply uncounted_request_finalize;
    [apply counted_service|intros; by destruct sends..].
Qed.

#[local] Instance uncounted_quiet : CbQuiet uncounted :=
  uncounted_cb (counted sends) (counted_service sends).

(** The part the three functions share: local variable, buffers. *)
Lemma counts_buffers b (k : ptr → ptr → option (ptr * Z * ucp_request_param_t) → CM Z) Q :
  (∀ ctx iov, counts (counted sends) (k ctx iov None) Q) →
  (∀ ctx iov msg len p, counts (counted sends) (k ctx iov (Some (msg, len, p))) Q) →
  counts (counted sends)
    (local (Cell KStack (CReq 0)) (λ ctx,
       iov ← malloc_iov L;
       memset_iov iov;;
       r ← fill_request_param L iov b ctx;
       k ctx iov r)) Q.
Proof.
  intros Hn Hs. apply counts_local. intros ctx.
  do 3 (apply counts_skip; [solve_keeps|]; intros ?).
  match goal with |- counts _ (k _ _ ?r) _ => destruct r as [[[msg len] p]|] end; auto.
Qed.

Lemma counts_finalize (m : CM Z) w ctx s iov i n :
  counts (counted sends) m (λ _ k, k = n) →
  counts (counted sends)
    (request ← m; request_finalize L fuel w request ctx s iov i)
    (λ r k, r = 0 → k = n).
Proof.
  intros Hm. eapply counts_mono.
  { apply counts_last; [exact Hm|]. intros. apply finalize_keeps. }
  done.
Qed.

Lemma counts_one c n :
  (if counted sends c then 1 else 0)%nat = n → counts (counted sends) (call L c) (λ _ k, k = n).
Proof.
  intros <-. apply counts_call, counted_service.
Qed.

Lemma counts_send_recv_stream w ep s i :
  counts (counted sends) (send_recv_stream L fuel w ep s i) (one_message s).
Proof.
  apply counts_buffers with (k := λ ctx iov r, match r with None => _ | Some _ => _ end).
  { intros. by apply counts_ret. }
  intros ctx iov msg len p. apply counts_finalize.
  destruct s; cbn [negb]; cbv zeta; (apply counts_skip; [solve_keeps|]; intros m).
  - apply counts_last; [|intros [? ?]; solve_keeps].
    apply (counts_one (ucp_stream_recv_nbx ep m _)). by destruct sends.
  - apply (counts_one (ucp_stream_send_nbx ep m _)). by destruct sends.
Qed.

Lemma counts_send_recv_tag w ep s i :
  counts (counted sends) (send_recv_tag L fuel w ep s i) (one_message s).
Proof.
  apply counts_buffers with (k := λ ctx iov r, match r with None => _ | Some _ => _ end).
  { intros. by apply counts_ret. }
  intros ctx iov msg len p. apply counts_finalize.
  destruct s; cbn [negb]; cbv zeta; (apply counts_skip; [solve_keeps|]; intros m).
  - apply (counts_one (ucp_tag_recv_nbx w m TAG 0 _)). by destruct sends.
  - apply (counts_one (ucp_tag_send_nbx ep m TAG _)). by destruct sends.
Qed.

(** An active message is received without posting a receive. *)
Lemma counts_send_recv_am w ep s i : sends = true ∨ s = false →
  counts (counted sends) (send_recv_am L fuel w ep s i) (one_message s).
Proof.
  intros Hs. apply counts_buffers with (k := λ ctx iov r, match r with None => _ | Some _ => _ end).
  { intros. by apply counts_ret. }
  intros ctx iov msg len p. apply counts_finalize.
  destruct s; cbn [negb]; cbv zeta; (apply counts_skip; [solve_keeps|]; intros m).
  - apply counts_skip.
    { apply keeps_while; [typeclasses eauto|solve_keeps|].
      apply uncounted_progress; [apply counted_service|]. intros. by destruct sends. }
    intros ?. do 2 (apply counts_skip; [solve_keeps|]; intros ?). destruct (negb _).
    + apply counts_skip; [solve_keeps|]. intros m'.
      apply (counts_one (ucp_am_recv_data_nbx w _ m' _)). by destruct Hs as [-> | ?].
    + apply counts_ret. by destruct Hs as [-> | ?].
  - apply (counts_one (ucp_am_send_nbx ep TEST_AM_ID 0 m _)). by destruct sends.
Qed.

Lemma counts_communication w ep ty s i :
  ty ≠ CLIENT_SERVER_SEND_RECV_AM ∨ sends = true ∨ s = false →
  counts (counted sends) (client_server_communication L fuel w ep ty s i) (one_message s).
Proof.
  intros Hty. unfold client_server_communication. destruct ty.
  - apply counts_send_recv_stream.
  - apply counts_send_recv_tag.
  - apply counts_send_recv_am. by destruct Hty.
  - apply counts_skip; [solve_keeps|]. intros ?. by apply counts_ret.
Qed.

(** The loop makes one message per iteration, or stops at the first failure. *)
Definition per_message (is_server : bool) : nat := if eqb sends is_server then 0 else 1.

Lemma counts_iterations w ep ty s :
  ty ≠ CLIENT_SERVER_SEND_RECV_AM ∨ sends = true → ∀ w0,
  wp (λ _ _, True) (iterations L fuel w ep ty s)
    (λ r w', match r with
             | Some ret => ret ≠ 0
             | None => calls (counted sends) (trace w') =
                 (per_message s * Z.to_nat (g_num_iterations (glob w0))
                  + calls (counted sends) (trace w0))%nat
             end) w0.
Proof.
  intros Hty w0. unfold iterations. apply wp_bind, wp_glb.
  apply wp_for_break with (I := λ k w', calls (counted sends) (trace w') =
    (per_message s * k + calls (counted sends) (trace w0))%nat); [simpl; lia| |done].
  intros k w1 Hk Hw1. apply wp_bind. eapply wp_conseq; [apply counts_communication; tauto|].
  intros ret w2 (n & Hn & Hone). destruct (Z.eqb_spec ret 0) as [->|Hne]; cbn [negb].
  - apply wp_ret. unfold one_message, per_message in *. rewrite Hn, Hw1, (Hone eq_refl). lia.
  - apply wp_bind, wp_fprintf, wp_ret. done.
Qed.

Lemma counts_do_work w ep ty s w0 :
  ty ≠ CLIENT_SERVER_SEND_RECV_AM ∨ sends = true →
  wp (λ _ _, True) (client_server_do_work L fuel w ep ty s)
    (λ r w', r = 0 → calls (counted sends) (trace w') =
       (per_message s * Z.to_nat (g_num_iterations (glob w0)) + per_message (negb s)
        + calls (counted sends) (trace w0))%nat) w0.
Proof.
  intros Hty. unfold client_server_do_work.
  apply wp_bind, wp_conseq with (Q := λ _ w', glob w' = glob w0 ∧
    calls (counted sends) (trace w') = calls (counted sends) (trace w0)).
  { destruct s; cbn [negb]; [by apply wp_ret|].
    apply (wp_ext0 L _ gettimeofday). split; [done|]. simpl. by destruct sends. }
  intros t0 w1 [Hg1 Hc1]. apply wp_bind, wp_mod_glob.
  apply wp_bind. eapply wp_conseq; [by apply counts_iterations|].
  intros [ret|] w2 Hit; [by apply wp_ret|]. cbn [glob set_glob] in Hit.
  change (trace (set_glob _ w1)) with (trace w1) in Hit. rewrite Hg1, Hc1 in Hit. simpl in Hit.
  eapply counts_wp with (f := counted sends) (Q := one_message (negb s)).
  2:{ intros r w' k Hk Hone Hr. rewrite Hk, Hit, (Hone Hr). unfold per_message. lia. }
  do 2 (apply counts_skip; [solve_keeps|]; intros ?).
  apply counts_skip.
  { destruct (_ && _); [|solve_keeps].
    apply (uncounted_call _ L (counted_service sends) (ucp_worker_set_am_recv_handler w _ TEST_AM_ID)).
    by destruct sends. }
  intros status. destruct (negb _); [by apply counts_ret|].
  do 2 (apply counts_skip; [solve_keeps|]; intros ?).
  eapply counts_bind; [apply counts_communication; tauto|]. intros ret k Hk.
  destruct (Z.eqb_spec ret 0) as [->|Hne]; cbn [negb].
  - eapply counts_mono; [apply counts_neutral|].
    + apply keeps_bind; [typeclasses eauto| |intros; solve_keeps].
      apply keeps_when; [typeclasses eauto|]. apply keeps_while; [typeclasses eauto|solve_keeps|].
      apply uncounted_progress; [apply counted_service|]. intros. by destruct sends.
    + intros r k' -> _. by apply Hk.
  - apply counts_skip; [solve_keeps|]. intros ?. by apply counts_ret.
Qed.
End messages.

(** ** What functions return *)

(** If [m] returns, its result satisfies [P]. *)
Definition yields {A} (P : A → Prop) (m : CM A) : Prop :=
  ∀ w, wp (λ _ _, True) m (λ a _, P a) w.

Lemma yields_ret {A} (P : A → Prop) a : P a → yields P (mret a).
Proof. intros HP w. by apply wp_ret. Qed.

Lemma yields_bind {A B} (Q : A → Prop) (P : B → Prop) (m : CM A) f :
  yields Q m → (∀ a, Q a → yields P (f a)) → yields P (m ≫= f).
Proof.
  intros Hm Hf w. apply wp_bind. eapply wp_conseq; [apply Hm|]. intros a w' Ha. by apply Hf.
Qed.

Lemma yields_any {A} (m : CM A) : yields (λ _, True) m.
Proof. intros w. unfold wp. by destruct (m w) as [[]]. Qed.

Lemma yields_skip {A B} (P : B → Prop) (m : CM A) f :
  (∀ a, yields P (f a)) → yields P (m ≫= f).
Proof. intros Hf. eapply yields_bind; [apply yields_any|]. auto. Qed.

Lemma yields_local {X} (P : X → Prop) o (body : ptr → CM X) :
  (∀ p, yields P (body p)) → yields P (local o body).
Proof. intros Hb w. apply wp_local_raw. apply Hb. Qed.

Lemma yields_loop {S A} (P : A → Prop) n (body : S → CM (S + A)) s :
  (∀ s, yields (λ x, match x with inl _ => True | inr a => P a end) (body s)) →
  yields P (loop n body s).
Proof.
  intros Hb w. apply wp_loop with (I := λ _ _, True); [done|done|].
  intros s' w' _. eapply wp_conseq; [apply Hb|]. by intros [].
Qed.

Lemma yields_for_break {A} (P : A → Prop) s n (body : nat → CM (option A)) :
  (∀ k, yields (λ x, match x with None => True | Some a => P a end) (body k)) →
  yields (λ x, match x with None => True | Some a => P a end) (for_break s n body).
Proof.
  intros Hb w. apply wp_for_break with (I := λ _ _, True); [done| |done].
  intros k w' _ _. eapply wp_conseq; [apply Hb|]. by intros [].
Qed.

Ltac yields_step :=
  cbv zeta;
  match goal with
  | |- yields _ (mret _) => apply yields_ret; auto; done
  | |- yields _ (mbind _ _) => apply yields_skip; intros ?
  | |- yields _ (local _ _) => apply yields_local; intros ?
  | |- yields _ (match ?x with _ => _ end) => destruct x
  end.

Section results.
Context `{!Ucs, !Ucp, !Cuda} (L : cs_lib) (fuel : nat).

(** 0 on success, -1 on failure. *)
Definition success_or_failure (r : Z) : Prop := r = 0 ∨ r = -1.

Lemma finalize_result w r ctx s iov i :
  yields success_or_failure (request_finalize L fuel w r ctx s iov i).
Proof.
  unfold request_finalize. apply yields_skip. intros status.
  eapply yields_bind with (Q := success_or_failure).
  - unfold success_or_failure. repeat yields_step.
  - intros ret Hret. apply yields_skip. intros _. by apply yields_ret.
Qed.

Lemma communication_result w ep ty s i :
  yields success_or_failure (client_server_communication L fuel w ep ty s i).
Proof.
  pose proof (yields_ret success_or_failure (-1) (or_intror eq_refl)).
  unfold client_server_communication, send_recv_stream, send_recv_tag, send_recv_am.
  destruct ty; repeat first [done | apply finalize_result | yields_step].
Qed.

Lemma do_work_result w ep ty s :
  yields success_or_failure (client_server_do_work L fuel w ep ty s).
Proof.
  unfold client_server_do_work. do 2 (apply yields_skip; intros ?).
  eapply yields_bind with
    (Q := λ x, match x with None => True | Some r => success_or_failure r end).
  { unfold iterations. apply yields_skip. intros n. apply yields_for_break. intros i.
    eapply yields_bind; [apply communication_result|]. intros r Hr.
    destruct (negb _); [apply yields_skip; intros ?|]; by apply yields_ret. }
  intros [ret|] Hret; [by apply yields_ret|].
  do 3 (apply yields_skip; intros ?). destruct (negb _); [by apply yields_ret; right|].
  do 2 (apply yields_skip; intros ?).
  eapply yields_bind; [apply communication_result|]. intros r Hr.
  destruct (negb _); apply yields_skip; intros ?; by apply yields_ret.
Qed.

(** The loop over the clients is left by a goto only, with a failure. *)
Lemma serve_result uw dw ctx ty :
  yields (λ x, match x with inl _ => True | inr (r, _) => r = -1 end)
    (serve L fuel uw dw ctx ty).
Proof.
  unfold serve. apply yields_skip. intros ?. apply yields_skip. intros [c o].
  apply yields_skip. intros c'. apply yields_skip. intros [status ep].
  destruct (negb _); [by apply yields_ret|].
  eapply yields_bind; [apply do_work_result|]. intros r Hr.
  destruct (Z.eqb_spec r 0); cbn [negb]; [|by apply yields_ret; destruct Hr].
  do 3 (apply yields_skip; intros ?). by apply yields_ret.
Qed.

Lemma run_server_result ctx uw s ty :
  yields (λ r, r = -1) (run_server L fuel ctx uw s ty).
Proof.
  apply yields_local. intros p.
  eapply yields_bind with (Q := λ x, x.1 = 0 ∨ x.1 = -1).
  { unfold init_worker. apply yields_skip. intros [status w].
    destruct (negb _); [apply yields_skip; intros ?|]; apply yields_ret; auto. }
  intros [ret dw] Hret.
  eapply yields_bind with (Q := λ x, x.1 = -1).
  2:{ intros [r lab] Hr. apply yields_skip. intros ?. by apply yields_ret. }
  cbn [fst] in Hret. destruct (Z.eqb_spec ret 0) as [->|Hne]; cbn [negb].
  2:{ apply yields_ret. by destruct Hret. }
  apply yields_skip. intros status. destruct (negb _); [by apply yields_ret|].
  do 2 (apply yields_skip; intros ?). destruct (negb _); [by apply yields_ret|].
  apply yields_loop. intros []. intros w. eapply wp_conseq; [apply serve_result|].
  by intros [|[]].
Qed.

Lemma run_client_result w s ty : yields success_or_failure (run_client L fuel w s ty).
Proof.
  unfold run_client. apply yields_skip. intros [status ep].
  destruct (negb _); [apply yields_skip; intros ?; by apply yields_ret; right|].
  eapply yields_bind; [apply do_work_result|]. intros r Hr.
  apply yields_skip. intros ?. by apply yields_ret.
Qed.

Lemma init_context_result ty :
  yields (λ x, match x with inl r => r = -1 | inr _ => True end) (init_context L ty).
Proof.
  unfold init_context. apply yields_skip. intros [status ctx].
  destruct (negb _); [apply yields_skip; intros ?; by apply yields_ret|].
  eapply yields_bind with (Q := λ x, x.1 = 0 ∨ x.1 = -1).
  { unfold init_worker. apply yields_skip. intros [st w].
    destruct (negb _); [apply yields_skip; intros ?|]; apply yields_ret; auto. }
  intros [ret w] Hret. cbn [fst] in Hret.
  destruct Hret as [-> | ->]; cbn [Z.eqb negb]; [by apply yields_ret|].
  apply yields_skip. intros ?. by apply yields_ret.
Qed.

(** The exit code: an error of the command line, -1, or what the client
    returns. *)
Lemma main_result argv w : conf_ok (glob w) →
  wp (λ _ _, True) (main L fuel argv)
    (λ r _, success_or_failure r ∨ error_code r) w.
Proof.
  intros Hc. unfold main. apply wp_bind, parse_cmd_ok; [done| |].
  - intros o w' _ _ _ _. cbn [Z.eqb negb]. apply wp_bind.
    eapply wp_conseq; [apply init_context_result|]. intros [r|[ctx uw]] w1 Hr.
    { apply wp_ret. left. by right. }
    revert w1 Hr. intros w1 _.
    eapply wp_conseq with (Q := λ r _, success_or_failure r); [|by left].
    match goal with |- wp _ ?m _ _ => assert (yields success_or_failure m) as Hy end.
    { eapply yields_bind with (Q := success_or_failure).
      - destruct (server_addr o); [apply run_client_result|].
        intros w2. eapply wp_conseq; [apply run_server_result|]. by intros r ? ->; right.
      - intros r Hr. do 2 (apply yields_skip; intros ?). by apply yields_ret. }
    apply Hy.
  - intros ret s w' _ He. rewrite (proj2 (Z.eqb_neq _ _)) by by apply error_code_nonzero.
    apply wp_ret. by right.
Qed.
End results.
