(* ===== verification/Outside.v ===== *)
(** * A well-behaved library

    What the documentation of UCX promises about what happens inside a call:
    which callbacks may run and which memory may be written. [polite] states it
    over the history of calls; memory safety is proved for polite libraries. *)

From S2P Require Import Prelude CRuntime CLib Ucx HelloUtil CsApi Iov SockAddr.
From S2P Require Import Callbacks.
Open Scope Z_scope.

(** ** What the history entitles the library to *)

(** An unfinished operation: its request, its user data, the memory lent to it. *)
Record operation : Type := Operation {
  o_request : Z;
  o_user_data : ptr;
  o_memory : list (ptr * Z);
}.

Section history.
Context `{!Ucs}.

Definition started (r : Z) (p : ucp_request_param_t) (segs : list (ptr * Z)) : list operation :=
  if UCS_PTR_IS_PTR r then [Operation r (rp_user_data p) segs] else [].

(** The operations a call starts. *)
Definition starts (c : cs_call) : cs_ret c → list operation :=
  match c with
  | ucp_stream_send_nbx _ _ p | ucp_tag_send_nbx _ _ _ p | ucp_am_send_nbx _ _ _ _ p =>
      λ r, started r p []
  | ucp_stream_recv_nbx _ m p => λ r, started r.1 p (msg_segs m)
  | ucp_tag_recv_nbx _ m _ _ p | ucp_am_recv_data_nbx _ _ m p =>
      λ r, started r p (msg_segs m)
  | _ => λ _, []
  end.

(** The operations whose request was not freed. *)
Fixpoint pending (h : history cs_api) : list operation :=
  match h with
  | [] => []
  | ECall c r :: h' =>
      match c with
      | ucp_request_free q =>
          filter (λ o, o_request o ≠ q) (pending h')
      | _ => starts c r ++ pending h'
      end
  | _ :: h' => pending h'
  end.

(** Was an active message handler installed? *)
Fixpoint registered (h : history cs_api) : bool :=
  match h with
  | [] => false
  | ECall (ucp_worker_set_am_recv_handler _ _ _) _ :: _ => true
  | _ :: h' => registered h'
  end.

(** The memory a receive lends to the library while it is being started. *)
Definition lends (c : cs_call) : list (ptr * Z) :=
  match c with
  | ucp_stream_recv_nbx _ m _ | ucp_tag_recv_nbx _ m _ _ _
  | ucp_am_recv_data_nbx _ _ m _ => msg_segs m
  | _ => []
  end.
End history.

(** [len] bytes from [p] lie in one of the lent pieces. *)
Definition inside (p : ptr) (len : Z) (segs : list (ptr * Z)) : Prop :=
  ∃ b base n k, (Loc b base, n) ∈ segs ∧ p = Loc b (base + k) ∧ 0 ≤ k ∧ k + len ≤ n.

Section polite.
Context `{!Ucs, !Ucp}.

(** What the library may do inside the call [c] after the history [h]. *)
Definition legal (h : history cs_api) (c : cs_call) (x : act cs_api) : Prop :=
  match x with
  | Store p bs =>
      inside p (Z.of_nat (length bs)) (lends c) ∨
      ∃ o, o ∈ pending h ∧ inside p (Z.of_nat (length bs)) (o_memory o)
  | Callback cb =>
      match cb with
      | Cb_send _ ud | Cb_tag_recv _ ud | Cb_stream_recv _ _ ud | Cb_am_recv _ _ ud =>
          ∃ o, o ∈ pending h ∧ o_user_data o = ud
      | Cb_err _ => True
      | Cb_conn req arg =>
          ∃ w l, c = ucp_worker_progress w ∧ (w, arg, l) ∈ listeners h ∧ req ≠ 0
      | Cb_am_data _ data len attr =>
          registered h = true ∧ (∃ w, c = ucp_worker_progress w) ∧
          match data with
          | Eager bytes =>
              has_flag attr UCP_AM_RECV_ATTR_FLAG_RNDV = false ∧
              len = Z.of_nat (length bytes)
          | Rndv _ => has_flag attr UCP_AM_RECV_ATTR_FLAG_RNDV = true
          end
      end
  end.

Definition polite (L : cs_lib) : Prop :=
  ∀ h c, Forall (legal h c) (l_acts L h c).

(** In particular the handler of a listener runs while the listener exists. *)
Lemma polite_conn (L : cs_lib) : polite L → conn_callbacks L.
Proof.
  intros HL h c req arg Hx. specialize (HL h c). rewrite List.Forall_forall in HL.
  destruct (HL _ (proj1 (list_elem_of_In _ _) Hx)) as (w & l & _ & Hl & _). eauto.
Qed.

(** A completion callback with the user data [ud]. *)
Definition completes (ud : ptr) (x : act cs_api) : bool :=
  match x with
  | Callback (Cb_send _ u) | Callback (Cb_tag_recv _ u) | Callback (Cb_stream_recv _ _ u)
  | Callback (Cb_am_recv _ _ u) => bool_decide (u = ud)
  | _ => false
  end.

(** [ρ] bounds the work the library has left, never above [N]: a progress call
    completes every pending operation or reduces it, and so does asking a
    request that is still in progress for its status after progress. What
    else happens in the meantime ([l], [l']) does not matter. *)
Record responsive (L : cs_lib) (ρ : history cs_api → nat) (N : nat) : Prop := {
  re_bound : ∀ h, (ρ h ≤ N)%nat;
  re_complete : ∀ h wk o (r : Z) l, o ∈ pending h →
    existsb (completes (o_user_data o)) (l_acts L h (ucp_worker_progress wk)) = true ∨
    (ρ (ECall (A := cs_api) (ucp_worker_progress wk) r :: l ++ h) < ρ h)%nat;
  re_status : ∀ h wk q (r : Z) l l',
    let h1 := ECall (A := cs_api) (ucp_worker_progress wk) r :: l ++ h in
    let st : Z := l_ret L (l' ++ h1) (ucp_request_check_status q) in
    st ≠ UCS_INPROGRESS ∨
    (ρ (ECall (A := cs_api) (ucp_request_check_status q) st :: l' ++ h1) < ρ h)%nat;
}.

(** The entitlements do not change while callbacks run. *)
Definition entitled (h : history cs_api) := (pending h, registered h, listeners h).

#[export] Instance entitled_quiet : CbQuiet (same (λ w : cs_world, entitled (trace w))).
Proof.
  split; [by apply same_trace_interactive; intros []| |done|done].
  intros w c r Hc. unfold same. simpl. by destruct c.
Qed.

(** ** Workers *)

(** The workers that were created and not destroyed. *)
Definition created (c : cs_call) : cs_ret c → list Z :=
  match c with
  | ucp_worker_create _ _ => λ r, if r.1 =? UCS_OK then [r.2] else []
  | _ => λ _, []
  end.
Fixpoint live_workers (h : history cs_api) : list Z :=
  match h with
  | [] => []
  | ECall c r :: h' =>
      match c with
      | ucp_worker_destroy w => filter (λ w', w' ≠ w) (live_workers h')
      | _ => created c r ++ live_workers h'
      end
  | _ :: h' => live_workers h'
  end.

Lemma below_max z (zs : list Z) : z ∈ zs → z ≤ foldr Z.max 0 zs.
Proof.
  induction zs as [|y zs IH]; [by intros ?%not_elem_of_nil|].
  intros [->|Hz]%elem_of_cons; simpl; [lia|]. specialize (IH Hz). lia.
Qed.

(** The handle of a new worker is not that of one that exists. *)
Definition fresh_workers (L : cs_lib) : Prop :=
  ∀ h ctx mask, let r : Z * Z := l_ret L h (ucp_worker_create ctx mask) in
    r.2 ∉ live_workers h.

#[export] Instance live_workers_quiet :
  CbQuiet (same (λ w : cs_world, live_workers (trace w))).
Proof.
  split; [by apply same_trace_interactive; intros []| |done|done].
  intros w c r Hc. unfold same. simpl. by destruct c.
Qed.

(** What a call answers, and what callbacks leave of the history. *)
Lemma wp_call_answer `{!Cuda} {X} (L : cs_lib) (f : history cs_api → X) E c w
    (Q : cs_ret c → cs_world → Prop) :
  CbQuiet (same (λ w : cs_world, f (trace w))) →
  wp E (call L c) (λ r w', (∃ h, f h = f (trace w) ∧ r = l_ret L h c ∧
    trace w' = ECall (A := cs_api) c r :: h) → Q r w') w →
  wp E (call L c) Q w.
Proof.
  intros HR. unfold call, ext, ext0, mbind, M_bind, gets. simpl. unfold wp.
  pose proof (keeps_run_acts (same (λ w : cs_world, f (trace w))) (handler L)
    (l_acts L (trace w) c) (λ cb, keeps_handler L _ cb) w) as Hf.
  destruct (run_acts _ _ w) as [[u|h] w2]; simpl in *; [|done].
  intros Hw. apply Hw. by exists (trace w2).
Qed.
End polite.

Ltac answering f :=
  lazymatch goal with
  | |- wp _ (call ?L ?c) _ _ => apply (wp_call_answer L f _ c); [typeclasses eauto|]
  end.

(** ** Active messages *)

(** The [i]-th piece of [len] elements. *)
Definition piece {X} (len i : nat) (l : list X) : list X := take len (drop (i * len) l).

Lemma piece_length {X} len i n (l : list X) :
  length l = (n * len)%nat → (i < n)%nat → length (piece len i l) = len.
Proof. intros Hl Hi. unfold piece. rewrite length_take, length_drop. nia. Qed.

(** The pieces in order are the whole. *)
Lemma pieces_join {X} len n (l : list X) :
  length l = (n * len)%nat → mjoin ((λ i, piece len i l) <$> seq 0 n) = l.
Proof.
  revert l. induction n as [|n IH]; intros l Hl.
  { by destruct l. }
  cbn [seq fmap list_fmap mjoin list_join]. rewrite <-fmap_S_seq, <-list_fmap_compose.
  unfold piece at 1. simpl. rewrite drop_0.
  rewrite <-(take_drop len l) at 2. f_equal.
  rewrite <-(IH (drop len l)) by (rewrite length_drop; lia). f_equal.
  apply list_fmap_ext. intros i x _. unfold piece. simpl. by rewrite drop_drop.
Qed.

Section am.
Context `{!Ucs, !Ucp, !Cuda} (L : cs_lib) (t : ucs_memory_type_t).
Context (Hm : mem_usable L t).
Implicit Types (w : cs_world) (E : halt → cs_world → Prop).

(** An eager message fills the buffers, one piece each. *)
Lemma am_copy_ok E h0 ib bs len db (bytes : list Z) Q w :
  g_test_mem_type (glob w) = t →
  iov_heap h0 (heap w) ib bs [] (kind_of t) len →
  h0 !! db = Some (Bytes KStack (Some <$> bytes)) →
  length bytes = (length bs * len)%nat →
  Z.of_nat (length bytes) < 2 ^ 64 →
  (∀ w', glob w' = glob w →
     iov_heap h0 (heap w') ib bs [] (kind_of t) len →
     (∀ i b, bs !! i = Some b →
        heap w' !! b = Some (Bytes (kind_of t) (Some <$> piece len i bytes))) →
     Q (Z.of_nat (length bytes)) w') →
  wp E (am_copy L (Loc ib 0) (Loc db 0) (length bs)) Q w.
Proof.
  intros Hg Hih Hdb Hlen Hmax HQ. unfold am_copy.
  apply wp_for_fold with (I := λ i offset w', offset = Z.of_nat (i * len) ∧
    glob w' = glob w ∧ iov_heap h0 (heap w') ib bs [] (kind_of t) len ∧
    ∀ j b, (j < i)%nat → bs !! j = Some b →
      heap w' !! b = Some (Bytes (kind_of t) (Some <$> piece len j bytes))).
  { split_and!; [done..|]. intros j b Hj. lia. }
  - intros i offset w1 Hi (-> & Hg1 & Hih1 & Hf).
    destruct (lookup_lt_is_Some_2 bs i) as [b Hb]; [lia|].
    assert (b ∈ bs) as Hin by by eapply list_elem_of_lookup_2.
    destruct (ih_bufs _ _ _ _ _ _ _ Hih1 b Hin) as (d & Hd & Hdl).
    assert (db ∉ ib :: bs) as Hdbn.
    { intros Hx. eapply option_clash; [|exact Hdb]. by apply Hih1. }
    assert (length (piece len i bytes) = len) as Hpl by (eapply piece_length; [done|lia]).
    apply wp_bind. eapply wp_get_iov; [apply Hih1|by apply entries_buf|].
    cbn [iov_buffer iov_length ptr_add]. apply wp_bind.
    eapply mem_type_memcpy_ok with (t := t) (r := Some <$> piece len i bytes)
      (dd' := Some <$> piece len i bytes);
      [done|by rewrite Hg1|by rewrite (ih_frame _ _ _ _ _ _ _ Hih1 db Hdbn)|exact Hd|..].
    + intros ->. done.
    + rewrite Z.add_0_l, slice_some; [|lia|lia|rewrite length_fmap; nia].
      rewrite !Nat2Z.id. unfold piece. by rewrite fmap_take, fmap_drop.
    + apply splice_all. rewrite length_fmap. congruence.
    + intros w2 [Hh2 Hg2]. apply wp_ret. split_and!.
      * rewrite u64_small by nia. lia.
      * by rewrite Hg2.
      * rewrite Hh2. apply iov_heap_write; [done|done|]. rewrite length_fmap. lia.
      * intros j b' Hj Hb'. rewrite Hh2. destruct (decide (j = i)) as [->|Hne].
        { assert (b' = b) as -> by congruence. by rewrite lookup_insert_eq. }
        rewrite lookup_insert_ne; [apply Hf; [lia|done]|].
        intros <-. apply Hne.
        pose proof (ih_nodup _ _ _ _ _ _ _ Hih1) as [_ Hnd]%list.NoDup_cons.
        by eapply NoDup_lookup.
  - intros offset w1 (-> & Hg1 & Hih1 & Hf). simpl. rewrite <-Hlen. apply HQ; [done|done|].
    intros i b Hb. apply Hf; [|done]. by eapply lookup_lt_Some.
Qed.

(** The length the program expects of an active message. *)
Definition am_expected n len : Z := Z.of_nat n * Z.of_nat len.

Lemma am_data_cb_wrong_length E n len hl data length attr Q w :
  g_iov_cnt (glob w) = Z.of_nat n → g_test_string_length (glob w) = Z.of_nat len →
  am_expected n len ≤ LONG_MAX → length ≠ am_expected n len →
  Q UCS_OK (push (EOut Stderr "received wrong data length %ld (expected %ld)"
                    [AZ length; AZ (am_expected n len)]) w) →
  wp E (ucp_am_data_cb L hl data length attr) Q w.
Proof.
  intros Hn Hl Hmax Hne HQ. unfold ucp_am_data_cb. unfold LONG_MAX in *.
  apply wp_bind, wp_glb, wp_bind, wp_glb, wp_bind. rewrite Hn, Hl.
  apply wp_c_long; [unfold LONG_MIN, LONG_MAX, am_expected in *; nia|].
  unfold am_expected in *. rewrite u64_small by nia.
  rewrite (proj2 (Z.eqb_neq _ _)) by done. by apply wp_bind, wp_fprintf, wp_ret.
Qed.

(** am_data_desc after a message was announced. *)
Definition am_announced (desc : ptr) (d : am_data_desc_t) : am_data_desc_t :=
  AmDataDesc 1 1 desc (am_recv_buf d).
Definition am_received (d : am_data_desc_t) : am_data_desc_t :=
  AmDataDesc 1 0 (am_desc d) (am_recv_buf d).

(** The common prefix of the two deliveries of a message of the right length. *)
Lemma am_data_cb_right_length E n len hl data attr Q w :
  g_iov_cnt (glob w) = Z.of_nat n → g_test_string_length (glob w) = Z.of_nat len →
  am_expected n len ≤ LONG_MAX →
  (∀ w1, heap w1 = heap w → next w1 = next w → trace w `suffix_of` trace w1 →
     glob w1 = with_am_data_desc (am_with_complete 1 (g_am_data_desc (glob w))) (glob w) →
     wp E (if has_flag attr UCP_AM_RECV_ATTR_FLAG_RNDV then
             set_am (am_with_is_rndv 1);;
             set_am (am_with_desc data);;
             mret UCS_INPROGRESS
           else
             set_am (am_with_is_rndv 0);;
             d ← glb g_am_data_desc;
             iov_cnt ← glb g_iov_cnt;
             am_copy L (am_recv_buf d) data (iov_rounds iov_cnt);;
             mret UCS_OK) Q w1) →
  wp E (ucp_am_data_cb L hl data (am_expected n len) attr) Q w.
Proof.
  intros Hn Hl Hmax HQ. unfold ucp_am_data_cb, LONG_MAX in *.
  apply wp_bind, wp_glb, wp_bind, wp_glb, wp_bind. rewrite Hn, Hl.
  apply wp_c_long; [unfold LONG_MIN, LONG_MAX, am_expected in *; nia|].
  unfold am_expected in *. rewrite u64_small by nia. rewrite Z.eqb_refl. cbn [negb].
  apply wp_bind, wp_when; intros _; [apply wp_fprintf|];
    apply wp_bind, wp_mod_glob, HQ; try done. by apply suffix_cons_r.
Qed.

Lemma am_data_cb_rndv E n len hl data attr Q w :
  g_iov_cnt (glob w) = Z.of_nat n → g_test_string_length (glob w) = Z.of_nat len →
  am_expected n len ≤ LONG_MAX → has_flag attr UCP_AM_RECV_ATTR_FLAG_RNDV = true →
  (∀ w', heap w' = heap w → next w' = next w →
     glob w' = with_am_data_desc (am_announced data (g_am_data_desc (glob w))) (glob w) →
     Q UCS_INPROGRESS w') →
  wp E (ucp_am_data_cb L hl data (am_expected n len) attr) Q w.
Proof.
  intros Hn Hl Hmax Ha HQ. apply am_data_cb_right_length; [done..|].
  intros w1 Hh1 Hn1 _ Hg1. rewrite Ha.
  apply wp_bind, wp_mod_glob, wp_bind, wp_mod_glob, wp_ret, HQ; [done..|].
  simpl. by rewrite Hg1.
Qed.

Lemma am_data_cb_eager E h0 ib bs n len db (bytes : list Z) hl attr Q w :
  cs_conf t n len (glob w) → am_expected n len ≤ LONG_MAX →
  has_flag attr UCP_AM_RECV_ATTR_FLAG_RNDV = false →
  am_recv_buf (g_am_data_desc (glob w)) = Loc ib 0 →
  length bs = n → length bytes = (n * len)%nat →
  iov_heap h0 (heap w) ib bs [] (kind_of t) len →
  h0 !! db = Some (Bytes KStack (Some <$> bytes)) →
  (∀ w',
     glob w' = with_am_data_desc (am_received (g_am_data_desc (glob w))) (glob w) →
     iov_heap h0 (heap w') ib bs [] (kind_of t) len →
     (∀ i b, bs !! i = Some b →
        heap w' !! b = Some (Bytes (kind_of t) (Some <$> piece len i bytes))) →
     Q UCS_OK w') →
  wp E (ucp_am_data_cb L hl (Loc db 0) (Z.of_nat (length bytes)) attr) Q w.
Proof.
  intros Hc Hmax Ha Hbuf Hbs Hlen Hih Hdb HQ.
  assert (Z.of_nat (length bytes) = am_expected n len) as -> by (unfold am_expected; lia).
  apply am_data_cb_right_length; [apply Hc|apply Hc|done|].
  intros w1 Hh1 Hn1 _ Hg1. rewrite Ha.
  apply wp_bind, wp_mod_glob, wp_bind, wp_glb, wp_bind, wp_glb, wp_bind.
  cbn [glob set_glob g_am_data_desc with_am_data_desc am_with_is_rndv am_recv_buf g_iov_cnt].
  rewrite Hg1. cbn [g_am_data_desc with_am_data_desc am_with_complete am_recv_buf g_iov_cnt].
  rewrite Hbuf, (cs_conf_rounds _ _ _ _ Hc), <-Hbs.
  eapply am_copy_ok with (h0 := h0); simpl; [apply Hc|by rewrite Hh1|done|by rewrite Hbs| |].
  { unfold LONG_MAX, am_expected in *. rewrite Hlen. nia. }
  intros w' Hg' Hih' Hf. apply wp_ret, HQ; [|done|done]. by rewrite Hg'.
Qed.
End am.

(** ** An eager message through the dispatch *)

Section eager.
Context `{!Ucs, !Ucp, !Cuda} (L : cs_lib) (t : ucs_memory_type_t).
Context (Hm : mem_usable L t).
Implicit Types (w : cs_world) (E : halt → cs_world → Prop).

(** Buffer by buffer, the memory of the message holds [bytes]. *)
Definition holds (len : nat) (bs : list N) (bytes : list Z) w : Prop :=
  ∀ i b, bs !! i = Some b → heap w !! b = Some (Bytes (kind_of t) (Some <$> piece len i bytes)).

(** [receiving]: the buffers of the message are where the handler looks. *)
Record receiving n len ib bs (h0 : gmap N (obj (a_cell cs_api))) w : Prop := {
  rc_conf : cs_conf t n len (glob w);
  rc_max : am_expected n len ≤ LONG_MAX;
  rc_wf : wf_mem w;
  rc_buf : am_recv_buf (g_am_data_desc (glob w)) = Loc ib 0;
  rc_bs : length bs = n;
  rc_heap : iov_heap h0 (heap w) ib bs [] (kind_of t) len;
}.

Lemma handler_eager_ok E n len ib bs h0 (bytes : list Z) hl attr (Q : Z → cs_world → Prop) w :
  receiving n len ib bs h0 w → length bytes = (n * len)%nat →
  has_flag attr UCP_AM_RECV_ATTR_FLAG_RNDV = false →
  (∀ w', receiving n len ib bs h0 w' →
     glob w' = with_am_data_desc (am_received (g_am_data_desc (glob w))) (glob w) →
     holds len bs bytes w' → Q UCS_OK w') →
  wp E (handler L (Cb_am_data hl (Eager bytes) (Z.of_nat (length bytes)) attr)) Q w.
Proof using Hm.
  intros [Hc Hmax Hwf Hbuf Hbs Hih] Hlen Ha HQ.
  apply (wp_with_keeps grows); [apply keeps_handler; typeclasses eauto|].
  apply wp_local; [done|]. intros db Hdb Hn.
  match goal with |- wp _ _ _ ?w => set (w1 := w) end.
  assert (db ∉ ib :: bs) as Hdbn by (intros Hin; by eapply iov_heap_owned).
  assert (h0 !! db = None) as Hfr by (rewrite <-Hn; symmetry; by apply Hih).
  eapply am_data_cb_eager with (t := t) (h0 := <[db := Bytes KStack (Some <$> bytes)]> h0);
    [done|exact Hc|done|done|exact Hbuf|done|done|by apply iov_heap_frame
    |by apply lookup_insert_eq|].
  intros w2 Hg2 Hih2 Hf Hgr. apply HQ; [|exact Hg2|].
  - split; simpl; [| |by eapply grows_wf| |done|]; rewrite ?Hg2; try done.
    + destruct Hc. by split.
    + rewrite <-(delete_insert_id h0 db (Bytes KStack (Some <$> bytes)) Hfr).
      by apply iov_heap_frame_delete.
  - intros i b Hb. simpl. rewrite lookup_delete_ne; [by apply Hf|].
    intros <-. apply Hdbn. right. by eapply list_elem_of_lookup_2.
Qed.

(** What the buffers hold is the message. *)
Lemma holds_join n len bs bytes w :
  length bs = n → length bytes = (n * len)%nat → holds len bs bytes w →
  ∃ ds, mjoin ds = Some <$> bytes ∧
    Forall2 (λ b d, heap w !! b = Some (Bytes (kind_of t) d)) bs ds.
Proof.
  intros Hbs Hlen Hh. exists ((λ i, Some <$> piece len i bytes) <$> seq 0 n). split.
  - rewrite <-(pieces_join len n (Some <$> bytes)) by by rewrite length_fmap.
    f_equal. apply list_fmap_ext. intros i x _. unfold piece. by rewrite fmap_take, fmap_drop.
  - apply Forall2_same_length_lookup_2; [by rewrite length_fmap, length_seq|].
    intros i b d Hb Hd. apply list_lookup_fmap_Some in Hd as (j & -> & Hj).
    apply lookup_seq in Hj as [-> _]. by apply Hh.
Qed.

(** The buffers of an earlier message: the array of descriptors is gone. *)
Lemma handler_late_ok E n len ib (bytes : list Z) hl attr (Q : Z → cs_world → Prop) w :
  cs_conf t n len (glob w) → am_expected n len ≤ LONG_MAX →
  has_flag attr UCP_AM_RECV_ATTR_FLAG_RNDV = false → length bytes = (n * len)%nat →
  am_recv_buf (g_am_data_desc (glob w)) = Loc ib 0 →
  heap w !! ib = None → (ib < next w)%N →
  (∀ w', E (UB "read of a dead object") w') →
  wp E (handler L (Cb_am_data hl (Eager bytes) (Z.of_nat (length bytes)) attr)) Q w.
Proof using Hm.
  intros Hc Hmax Ha Hlen Hbuf Hib Hlt HE. apply wp_local_raw.
  assert (Z.of_nat (length bytes) = am_expected n len) as -> by (unfold am_expected; lia).
  apply am_data_cb_right_length; [apply Hc|apply Hc|done|]. simpl.
  intros w1 Hh1 _ _ Hg1. rewrite Ha.
  apply wp_bind, wp_mod_glob, wp_bind, wp_glb, wp_bind, wp_glb, wp_bind. simpl. rewrite Hg1. simpl.
  rewrite Hbuf, (cs_conf_rounds _ _ _ _ Hc).
  pose proof (cc_cnt_pos _ _ _ _ Hc). destruct n as [|m]; [lia|].
  unfold am_copy. cbn [iov_rounds for_fold]. apply wp_bind, wp_bind.
  unfold get_iov, read_iov. apply wp_bind, wp_bind. unfold read_cell. apply wp_bind.
  unfold lookup_obj. apply wp_bind, (wp_gets E (λ w : cs_world, heap w !! ib)). cbn [heap set_glob].
  rewrite Hh1, lookup_insert_ne by lia. rewrite Hib. apply wp_stop, HE.
Qed.
End eager.
