(* ===== verification/Exchange.v ===== *)
(** * Memory safety of one exchange

    While a message is exchanged the program owns its array of descriptors, its
    buffers and the request context on its stack; a polite library touches
    nothing else. [emem] is that invariant; it is kept by everything that can
    happen inside a call, so send_recv_* leave the heap as they found it. *)

From S2P Require Import Prelude CRuntime CLib Ucx HelloUtil CsApi Iov SockAddr.
From S2P Require Import Callbacks Request SendRecv Options ClientServer Messages.
From S2P Require Import Outside.
Open Scope Z_scope.

(** The configuration: the static variables parse_cmd assigns. *)
Definition conf (g : cs_glob) :=
  (g_test_mem_type g, g_test_string_length g, g_iov_cnt g, g_server_port g,
   g_ai_family g, g_num_iterations g).

Definition rest `{!Ucs} (h : history cs_api) := (registered h, listeners h).

(** The call that sends a message. *)
Definition send_call (ty : send_recv_type_t) (ep : Z) (m : message)
    (p : ucp_request_param_t) : cs_call :=
  match ty with
  | CLIENT_SERVER_SEND_RECV_STREAM => ucp_stream_send_nbx ep m p
  | CLIENT_SERVER_SEND_RECV_TAG => ucp_tag_send_nbx ep m TAG p
  | _ => ucp_am_send_nbx ep TEST_AM_ID 0 m p
  end.

Section memory.
Context `{!Ucs, !Ucp, !Cuda} (L : cs_lib) (t : ucs_memory_type_t).
Context (Hm : mem_usable L t).
Context (n len : nat) (g0 : cs_glob) (Hc : cs_conf t n len g0).
Context (h0 : gmap N (obj (a_cell cs_api))) (ib cb : N) (bs : list N).
Context (Hbs : length bs = n).
Implicit Types (w : cs_world) (E : halt → cs_world → Prop).

Definition with_ctx (x : Z) := <[cb := Cell KStack (CReq x)]> h0.

(** [fin]: the operation is known to be complete. *)
Record emem (fin : bool) w : Prop := {
  em_wf : wf_mem w;
  em_conf : conf (glob w) = conf g0;
  em_buf : am_recv_buf (g_am_data_desc (glob w)) = am_recv_buf (g_am_data_desc g0);
  em_heap : ∃ x, (fin = true → x ≠ 0) ∧
    iov_heap (with_ctx x) (heap w) ib bs [] (kind_of t) len;
}.

Lemma cs_conf_conf g : conf g = conf g0 → cs_conf t n len g.
Proof using Hc.
  clear Hbs. unfold conf. intros [= E1 E2 E3 _ _ _]. destruct Hc. split; congruence.
Qed.

(** The memory an operation of this exchange may be given. *)
Definition our_operation (o : operation) : Prop :=
  o_user_data o = Loc cb 0 ∧ o_memory o ⊆ buf_segs len bs.

(** A history that entitles the library to this exchange only: the pending
    operations are ours, an active message can be stored, and no connection
    callback runs inside [c]. *)
Record our_history (h : history cs_api) (c : cs_call) : Prop := {
  oh_pending : Forall our_operation (pending h);
  oh_lends : lends c ⊆ buf_segs len bs;
  oh_am : registered h = true →
    am_recv_buf (g_am_data_desc g0) = Loc ib 0 ∧ am_expected n len ≤ LONG_MAX;
  oh_conn : ∀ wk arg l, c = ucp_worker_progress wk → (wk, arg, l) ∉ listeners h;
}.

Lemma inside_buf p k :
  inside p k (buf_segs len bs) →
  ∃ b off, b ∈ bs ∧ p = Loc b off ∧ 0 ≤ off ∧ off + k ≤ Z.of_nat len.
Proof.
  intros (b & base & m & j & Hin & -> & Hj & Hk).
  apply list_elem_of_fmap in Hin as (b' & Heq & Hb'). simplify_eq.
  exists b', (0 + j). split_and!; [done|done|lia|lia].
Qed.

Lemma inside_mono p k l l' : inside p k l → l ⊆ l' → inside p k l'.
Proof. intros (b & base & m & j & Hin & ?) Hl. exists b, base, m, j. split; [by apply Hl|done]. Qed.

(** A completion callback of ours. *)
Lemma complete_ok E s fin w Q :
  emem fin w → (∀ w', emem true w' → Q tt w') → wp E (common_cb (Loc cb 0) s) Q w.
Proof using All.
  intros [Hwf Hcf Hbuf [x [Hx Hih]]] HQ. unfold common_cb. rewrite bool_decide_eq_false_2 by done.
  assert (with_ctx x !! cb = Some (Cell KStack (CReq x))) as Hcb by apply lookup_insert_eq.
  destruct (iov_heap_other _ _ _ _ _ _ _ _ _ Hih Hcb) as [Hcbn Hcbw].
  apply (wp_with_keeps grows); [solve_keeps|].
  eapply wp_update_cell; [exact Hcbw|done|]. intros Hgr. apply HQ.
  split; [by eapply grows_wf|done|done|]. exists 1. split; [done|]. simpl.
  unfold with_ctx in *. rewrite <-(insert_insert_eq h0 cb (Cell KStack (CReq 1)) (Cell KStack (CReq x))).
  by apply iov_heap_frame.
Qed.

(** A write of the library into one of our buffers. *)
Lemma store_ok E p (ds : list Z) fin w Q :
  emem fin w → inside p (Z.of_nat (length ds)) (buf_segs len bs) →
  (∀ w', emem fin w' → Q tt w') → wp E (write_mem by_lib p (Some <$> ds)) Q w.
Proof using All.
  intros [Hwf Hcf Hbuf [x [Hx Hih]]] Hin HQ.
  destruct (inside_buf _ _ Hin) as (b & off & Hb & -> & Hoff & Hlen).
  destruct (ih_bufs _ _ _ _ _ _ _ Hih b Hb) as (d & Hd & Hdl).
  apply (wp_with_keeps grows); [solve_keeps|].
  destruct (splice off (Some <$> ds) d) as [d'|] eqn:Hs.
  2:{ rewrite splice_some in Hs; [done|lia|rewrite length_fmap; lia]. }
  eapply wp_write_mem; [exact Hd|done|exact Hs|]. intros Hgr. apply HQ.
  split; [by eapply grows_wf|done|done|]. exists x. split; [done|].
  apply iov_heap_write; [done|done|]. apply splice_length in Hs. lia.
Qed.

(** An active message. *)
Lemma am_ok E h c hl data length attr fin w Q :
  our_history h c → legal h c (Callback (Cb_am_data hl data length attr)) → emem fin w →
  (∀ r w', emem fin w' → Q r w') →
  wp E (handler L (Cb_am_data hl data length attr)) Q w.
Proof using All.
  intros Hh (Hreg & _ & Hd) He HQ. destruct (oh_am _ _ Hh Hreg) as [Hbuf0 Hmax].
  pose proof (cs_conf_conf _ (em_conf _ _ He)) as Hcw.
  destruct He as [Hwf Hcf Hbuf [x [Hx Hih]]].
  apply (wp_with_keeps grows); [by apply keeps_handler; typeclasses eauto|].
  assert (∀ d, am_recv_buf d = am_recv_buf (g_am_data_desc (glob w)) → ∀ w1,
    glob w1 = with_am_data_desc d (glob w) →
    iov_heap (with_ctx x) (heap w1) ib bs [] (kind_of t) len →
    wf_mem w1 → emem fin w1) as Hend.
  { intros d Hb w1 Hg1 Hih1 Hwf1. split; [done|by rewrite Hg1| |by exists x].
    rewrite Hg1. simpl. by rewrite Hb. }
  destruct data as [bytes|desc]; simpl.
  - destruct Hd as [Ha ->]. apply wp_local; [done|]. intros db Hdb Hn.
    match goal with |- wp _ _ _ ?w => set (w1 := w) end.
    assert (db ∉ ib :: bs) as Hdbn.
    { intros Hin. by eapply iov_heap_owned. }
    assert (iov_heap (<[db := Bytes KStack (Some <$> bytes)]> (with_ctx x)) (heap w1)
              ib bs [] (kind_of t) len) as Hih1 by by apply iov_heap_frame.
    assert (with_ctx x !! db = None) as Hfr.
    { rewrite <-Hn. symmetry. by apply Hih. }
    destruct (decide (List.length bytes = n * len)%nat) as [Hl|Hl].
    + eapply am_data_cb_eager with (t := t) (h0 := <[db := Bytes KStack (Some <$> bytes)]> (with_ctx x));
        [done|done|done|done|by rewrite <-Hbuf0|done|done|exact Hih1|by apply lookup_insert_eq|].
      intros w2 Hg2 Hih2 _ Hgr. apply HQ. eapply Hend; [|simpl; by rewrite Hg2| |by eapply grows_wf].
      * done.
      * simpl. rewrite <-(delete_insert_id (with_ctx x) db (Bytes KStack (Some <$> bytes)) Hfr).
        by apply iov_heap_frame_delete.
    + eapply am_data_cb_wrong_length with (n := n) (len := len);
        [apply Hcw|apply Hcw|done|unfold am_expected; nia|].
      intros Hgr. apply HQ. split; [by eapply grows_wf|done|done|]. exists x. split; [done|]. simpl.
      by rewrite delete_insert_id.
  - destruct (decide (length = am_expected n len)) as [->|Hl].
    + eapply am_data_cb_rndv; [apply Hcw|apply Hcw|done|done|].
      intros w2 Hh2 _ Hg2 Hgr. apply HQ.
      eapply Hend; [|by rewrite Hg2|by rewrite Hh2|by eapply grows_wf]. done.
    + eapply am_data_cb_wrong_length with (n := n) (len := len);
        [apply Hcw|apply Hcw|done|done|].
      intros Hgr. apply HQ. split; [by eapply grows_wf|done|done|]. by exists x.
Qed.

(** Whatever a polite library does inside a call. *)
Lemma act_ok E h c x fin w Q :
  our_history h c → legal h c x → emem fin w →
  (∀ w', emem (fin || completes (Loc cb 0) x) w' → Q tt w') →
  wp E (run_act (handler L) x) Q w.
Proof using All.
  intros Hh Hl He HQ.
  pose proof (oh_pending _ _ Hh) as Hours. rewrite List.Forall_forall in Hours.
  assert (∀ f cb r w', emem f w' → emem f (push (ECb cb r) w')) as Hpush.
  { intros f cb' r w' []. by split. }
  assert (∀ w' ud s o, emem fin w' → o ∈ pending h ∧ o_user_data o = ud →
    wp E (common_cb ud s;; mret 0)
      (λ r w', emem (fin || bool_decide (ud = Loc cb 0)) w') w') as Hcomp.
  { intros w' ud s o He' [Ho <-]. apply wp_bind.
    destruct (Hours o (proj1 (list_elem_of_In _ _) Ho)) as [-> _].
    rewrite bool_decide_eq_true_2, orb_true_r by done.
    eapply complete_ok; [done|]. intros w'' ?. by apply wp_ret. }
  destruct x as [cb'|p ds]; cbn [run_act].
  - apply wp_bind, wp_conseq with
      (Q := λ _ w', emem (fin || completes (Loc cb 0) (Callback cb')) w').
    2:{ intros r w' He'. apply wp_emit, HQ. by apply Hpush. }
    destruct cb' as [st ud|st ud|st ln ud|st ln ud|st|req arg|hl d ln attr];
      cbn [legal] in Hl; cbn [completes].
    1-4: destruct Hl as [o Ho]; by eapply Hcomp.
    all: rewrite orb_false_r.
    + apply wp_bind, wp_bind, wp_fprintf, wp_mod_glob, wp_ret. destruct He. by split.
    + exfalso. destruct Hl as (wk & l & -> & Hin & _). by eapply (oh_conn _ _ Hh).
    + by eapply am_ok.
  - cbn [completes] in HQ. rewrite orb_false_r in HQ. apply wp_bind. eapply store_ok; [done| |].
    + destruct Hl as [Hl|(o & Ho & Hl)]; (eapply inside_mono; [exact Hl|]).
      * apply Hh.
      * by apply (Hours o (proj1 (list_elem_of_In _ _) Ho)).
    + intros w' [? ? ? ?]. apply wp_emit, HQ. by split.
Qed.

Context (HL : polite L).

(** A call in the middle of the exchange. *)
Lemma call_ok E c w (Q : cs_ret c → cs_world → Prop) :
  our_history (trace w) c → emem false w →
  (∀ r w', emem (existsb (completes (Loc cb 0)) (l_acts L (trace w) c)) w' →
     entitled (trace w') = entitled (trace w) → grows w w' →
     Q r (push (ECall (A := cs_api) c r) w')) →
  wp E (call L c) Q w.
Proof using All.
  intros Hh He HQ. unfold call. apply wp_ext.
  apply (wp_with_keeps grows).
  { apply keeps_run_acts; [typeclasses eauto|]. intros. apply keeps_handler. typeclasses eauto. }
  apply (wp_with_keeps (same (λ w : cs_world, entitled (trace w)))).
  { apply keeps_run_acts; [typeclasses eauto|]. intros. apply keeps_handler.
    typeclasses eauto. }
  set (all := existsb _ _) in HQ.
  apply wp_run_acts with (P := λ xs w', Forall (legal (trace w) c) xs ∧
    ∃ f, f || existsb (completes (Loc cb 0)) xs = all ∧ emem f w').
  - split; [apply HL|]. by exists false.
  - intros x xs w' [[Hx Hxs]%Forall_cons_1 (f & Hf & He')]. eapply act_ok; [done..|].
    intros w'' He''. split; [done|]. eexists; split; [|exact He'']. rewrite <-Hf. simpl.
    by rewrite orb_assoc.
  - intros w' [_ (f & Hf & He')] Hs. rewrite orb_false_r in Hf. subst f. intros. by apply HQ.
Qed.

(** ** Waiting *)

(** The worker that is progressed has no listener; if an active message
    handler is installed, am_data_desc.recv_buf is our array. *)
Context (fuel : nat) (wk : Z) (R : bool * list (Z * ptr * Z)).
Context (Ham : R.1 = true →
  am_recv_buf (g_am_data_desc g0) = Loc ib 0 ∧ am_expected n len ≤ LONG_MAX).
Context (Hconn : ∀ arg l, (wk, arg, l) ∉ R.2).

(** In the middle of the exchange, with the operations [P] unfinished. *)
Record exch (P : list operation) w : Prop := {
  x_mem : emem false w;
  x_pending : pending (trace w) = P;
  x_ours : Forall our_operation P;
  x_rest : (registered (trace w), listeners (trace w)) = R;
}.

Lemma exch_history P w c :
  exch P w → lends c ⊆ buf_segs len bs → (∀ k, c = ucp_worker_progress k → k = wk) →
  our_history (trace w) c.
Proof using Ham Hconn.
  intros [He Hp Ho Hr] Hlc Hw. split; [by rewrite Hp|done|..].
  - intros Hreg. apply Ham. by rewrite <-Hr.
  - intros k arg l Heq. rewrite (Hw k Heq). pose proof (Hconn arg l) as Hn.
    by rewrite <-Hr in Hn.
Qed.

(** The world after a call, by what the call does to the operations. *)
Lemma exch_call E P c w (Q : cs_ret c → cs_world → Prop) :
  exch P w → lends c ⊆ buf_segs len bs → (∀ k, c = ucp_worker_progress k → k = wk) →
  (∀ r w', emem (existsb (completes (Loc cb 0)) (l_acts L (trace w) c)) w' →
     entitled (trace w') = entitled (trace w) → grows w w' →
     Q r (push (ECall (A := cs_api) c r) w')) →
  wp E (call L c) Q w.
Proof using All.
  intros Hx Hlc Hw HQ. apply call_ok; [by eapply exch_history|apply Hx|done].
Qed.

Lemma emem_weaken fin w : emem fin w → emem false w.
Proof. intros [? ? ? (x & _ & ?)]. split; [done..|]. by exists x. Qed.

Lemma exch_push P P' c (r : cs_ret c) fin w w' :
  exch P w → emem fin w' → entitled (trace w') = entitled (trace w) →
  pending (ECall c r :: trace w') = P' → Forall our_operation P' →
  registered (ECall c r :: trace w') = registered (trace w') →
  listeners (ECall c r :: trace w') = listeners (trace w') →
  exch P' (push (ECall (A := cs_api) c r) w').
Proof.
  intros [He Hp Ho Hre] He'%emem_weaken [= E1 E2 E3] HP' Ho' Hr Hli.
  split; [by destruct He'|done|done|]. simpl trace. by rewrite Hr, Hli, E2, E3.
Qed.

Lemma exch_ctx P w : exch P w →
  ∃ x, heap w !! cb = Some (Cell KStack (CReq x)).
Proof.
  intros [[_ _ _ (x & _ & Hih)] _ _ _]. exists x.
  apply (iov_heap_other _ _ _ _ _ _ _ _ _ Hih). apply lookup_insert_eq.
Qed.

Lemma progress_ok E P w (Q : unit → cs_world → Prop) :
  exch P w → (∀ w', exch P w' → Q tt w') →
  wp E (_ ← call L (ucp_worker_progress wk); mret tt) Q w.
Proof using All.
  intros Hx HQ. apply wp_bind. eapply exch_call; [exact Hx|apply list_subseteq_nil|by intros ? [= ->]|].
  intros r w' He' Hent _. apply wp_ret, HQ.
  pose proof Hx as [_ Hp Ho _]. injection Hent as E1 E2 E3.
  eapply exch_push; [exact Hx|done|unfold entitled; congruence| |done|done|done].
  simpl. by rewrite E1.
Qed.

(** Starting an operation on our buffers. *)
Lemma start_ok E c p segs (req : cs_ret c → Z) w (Q : cs_ret c → cs_world → Prop) :
  exch [] w → lends c ⊆ buf_segs len bs →
  (∀ k, c ≠ ucp_worker_progress k) →
  rp_user_data p = Loc cb 0 → segs ⊆ buf_segs len bs →
  (∀ r h, pending (ECall c r :: h) = started (req r) p segs ++ pending h) →
  (∀ r h, rest (ECall c r :: h) = rest h) →
  (∀ r w', exch (started (req r) p segs) w' →
     (∃ l, trace w' = ECall c r :: l ++ trace w) → Q r w') →
  wp E (call L c) Q w.
Proof using All.
  intros Hx Hlc Hnp Hud Hsegs Hpend Hrest HQ.
  eapply exch_call; [exact Hx|done|by intros k Hk; destruct (Hnp k)|].
  intros r w' He' Hent (_ & _ & l & Hl). apply HQ; [|exists l; simpl; by rewrite Hl]. pose proof Hent as [= E1 E2 E3].
  pose proof (Hrest r (trace w')) as [= R1 R2].
  eapply exch_push; [exact Hx|done|done| | |done|done].
  - by rewrite Hpend, E1, (x_pending _ _ Hx), app_nil_r.
  - unfold started. destruct (UCS_PTR_IS_PTR _); [|done]. by repeat constructor.
Qed.

(** Waiting may be cut short by the bound of the model, or the library is
    responsive and the bound is large enough. *)
Definition waits E : Prop :=
  (∀ w, E NoFuel w) ∨ ∃ ρ N, responsive L ρ N ∧ (N + 2 ≤ fuel)%nat.

Definition completed w : bool :=
  match heap w !! cb with Some (Cell _ (CReq x)) => negb (x =? 0) | _ => false end.

Lemma completed_eq w x :
  heap w !! cb = Some (Cell KStack (CReq x)) → completed w = negb (x =? 0).
Proof. unfold completed. by intros ->. Qed.

(** A round of the waiting loop completes the request or leaves less to do. *)
Lemma progress_total E ρ N o w (Q : unit → cs_world → Prop) :
  responsive L ρ N → exch [o] w → o_user_data o = Loc cb 0 →
  (∀ w', exch [o] w' → completed w' = true ∨ (ρ (trace w') < ρ (trace w))%nat → Q tt w') →
  wp E (_ ← call L (ucp_worker_progress wk); mret tt) Q w.
Proof using All.
  intros Hre Hx Ho HQ. apply wp_bind.
  eapply exch_call; [exact Hx|apply list_subseteq_nil|by intros ? [= ->]|].
  intros r w' He' Hent (_ & _ & tr & Htr). apply wp_ret, HQ.
  - pose proof Hx as [_ Hp Hours _]. injection Hent as E1 E2 E3.
    eapply exch_push; [exact Hx|done|unfold entitled; congruence| |done|done|done].
    simpl. by rewrite E1.
  - simpl. rewrite Htr.
    destruct (re_complete _ _ _ Hre (trace w) wk o r tr) as [Hc'|Hc']; [|..].
    + rewrite (x_pending _ _ Hx). left.
    + left. rewrite Ho in Hc'. rewrite Hc' in He'. destruct He' as [_ _ _ (x & Hx0 & Hih)].
      assert (with_ctx x !! cb = Some (Cell KStack (CReq x))) as Hcb by apply lookup_insert_eq.
      destruct (iov_heap_other _ _ _ _ _ _ _ _ _ Hih Hcb) as [_ Hw].
      rewrite (completed_eq (push _ w') x Hw). apply negb_true_iff, Z.eqb_neq. by apply Hx0.
    + by right.
Qed.

(** The test of the waiting loop. *)
Lemma read_ctx_ok E P w (Q : bool → cs_world → Prop) :
  exch P w → Q (negb (completed w)) w →
  wp E (complete ← read_req (Loc cb 0); mret (complete =? 0)) Q w.
Proof.
  intros Hx HQ. destruct (exch_ctx _ _ Hx) as [x Hcx].
  apply wp_bind. unfold read_req. apply wp_bind. eapply wp_read_cell; [exact Hcx|].
  cbv beta iota. apply wp_ret, wp_ret. unfold completed in HQ. rewrite Hcx in HQ.
  by rewrite negb_involutive in HQ.
Qed.

Lemma wait_loop_ok E o w (Q : unit → cs_world → Prop) :
  waits E → exch [o] w → o_user_data o = Loc cb 0 →
  (∀ w', exch [o] w' → Q tt w') →
  wp E (while fuel
          (complete ← read_req (Loc cb 0); mret (complete =? 0))
          (_ ← call L (ucp_worker_progress wk); mret tt)) Q w.
Proof using All.
  intros [HE|(ρ & N & Hre & Hf)] Hx Ho HQ.
  - apply wp_while with (I := λ w, exch [o] w); [done|auto|].
    intros w1 Hx1. eapply read_ctx_ok; [done|]. destruct (completed w1); simpl; [by apply HQ|].
    by eapply progress_ok.
  - apply wp_while_total with (I := λ w, exch [o] w)
      (μ := λ w, if completed w then 0%nat else S (ρ (trace w))); [done| |].
    { pose proof (re_bound _ _ _ Hre (trace w)). destruct (completed w); lia. }
    intros w1 Hx1. eapply read_ctx_ok; [done|].
    destruct (completed w1) eqn:Hc1; simpl; [by apply HQ|].
    eapply progress_total; [done..|]. intros w2 Hx2 Hd. split; [done|].
    destruct Hd as [->|Hd]; [lia|]. destruct (completed w2); lia.
Qed.

Lemma request_wait_ok E r p segs w (Q : Z → cs_world → Prop) :
  rp_user_data p = Loc cb 0 →
  exch (started r p segs) w → waits E →
  (∀ st w', exch [] w' → Q st w') →
  wp E (request_wait L fuel wk r (Loc cb 0)) Q w.
Proof using All.
  intros Hud Hx HE HQ. unfold request_wait, started in *.
  destruct ucs_ptr_null as (_ & Hnull & _).
  destruct (Z.eqb_spec r 0) as [->|Hr]; [rewrite Hnull in Hx; by apply wp_ret, HQ|].
  rewrite (ucs_ptr_nonnull r Hr) in Hx.
  destruct (UCS_PTR_IS_ERR r) eqn:Herr; cbn [negb] in Hx; [by apply wp_ret, HQ|].
  apply wp_bind. eapply wait_loop_ok; [done|exact Hx|done|]. intros w1 Hx1.
  apply wp_bind. eapply exch_call; [exact Hx1|apply list_subseteq_nil|done|].
  intros st w2 He2 Hent2 _. pose proof Hent2 as [= E1 E2 E3].
  assert (exch [Operation r (rp_user_data p) segs]
    (push (ECall (A := cs_api) (ucp_request_check_status r) st) w2)) as Hx2.
  { eapply exch_push; [exact Hx1|done|done| |apply Hx1|done|done].
    simpl. rewrite E1. apply Hx1. }
  apply wp_bind. eapply exch_call; [exact Hx2|apply list_subseteq_nil|done|].
  intros u w3 He3 Hent3 _. pose proof Hent3 as [= F1 F2 F3]. apply wp_ret, HQ.
  eapply exch_push; [exact Hx2|done|done| |done|done|done].
  simpl. rewrite F1. simpl. rewrite E1, (x_pending _ _ Hx1).
  rewrite filter_cons_False; [done|]. simpl. tauto.
Qed.

(** ** The end of the exchange *)

(** Nothing is left of it but the request context. *)
Record over w : Prop := {
  ov_heap : ∃ x, heap w = with_ctx x;
  ov_wf : wf_mem w;
  ov_conf : conf (glob w) = conf g0;
  ov_pending : pending (trace w) = [];
  ov_rest : (registered (trace w), listeners (trace w)) = R;
}.

Lemma exch_keep P w w' :
  exch P w → emem false w' → entitled (trace w') = entitled (trace w) → exch P w'.
Proof.
  intros [He Hp Ho Hr] He' [= E1 E2 E3].
  split; [done|by rewrite E1|done|by rewrite E2, E3].
Qed.

(** Releasing the buffers. *)
Lemma release_ok E w (Q : unit → cs_world → Prop) :
  exch [] w → (∀ w', over w' → Q tt w') → wp E (buffer_free L (Loc ib 0)) Q w.
Proof using All.
  intros [He Hp _ Hr] HQ. pose proof (cs_conf_conf _ (em_conf _ _ He)) as Hcw.
  pose proof (cs_conf_rounds _ _ _ _ Hcw) as Hrounds.
  destruct He as [Hwf Hcf Hbuf (x & _ & Hih)].
  apply (wp_with_keeps grows); [solve_keeps|].
  apply (wp_with_keeps (same (λ w : cs_world, entitled (trace w)))); [solve_keeps|].
  eapply buffer_free_ok with (t := t); [done|apply Hcw|exact Hih|rewrite Hrounds; simpl; lia|].
  intros w' [Hh Hg] [= E1 E2 E3] Hgr. apply HQ.
  split; [by exists x|by eapply grows_wf|by rewrite Hg|by rewrite E1|by rewrite E2, E3].
Qed.

(** Printing. *)
Lemma print_ok E s i w (Q : unit → cs_world → Prop) :
  exch [] w → (16 ≤ len)%nat → 0 ≤ i < 2 ^ 31 - 1 →
  (∀ w', oom w' → E (UB "write through an invalid pointer") w') →
  (∀ w', exch [] w' → Q tt w') → wp E (print_result L s (Loc ib 0) i) Q w.
Proof using All.
  intros Hx Hl Hi HE HQ. pose proof (x_mem _ _ Hx) as He.
  pose proof (cs_conf_conf _ (em_conf _ _ He)) as Hcw.
  pose proof (cs_conf_rounds _ _ _ _ Hcw) as Hrounds.
  destruct He as [Hwf Hcf Hbuf (x & _ & Hih)].
  apply (wp_with_keeps grows); [solve_keeps|].
  apply (wp_with_keeps (same (λ w : cs_world, entitled (trace w)))); [solve_keeps|].
  eapply print_result_ok with (t := t);
    [done|apply Hcw|apply Hcw|by rewrite Hrounds|done|done|exact Hih|done|done|].
  intros w' [Hh Hg] Hent Hgr. apply HQ. eapply exch_keep; [done| |done].
  split; [by eapply grows_wf|by rewrite Hg|by rewrite Hg|]. exists x. split; [done|]. by rewrite Hh.
Qed.

Lemma request_finalize_ok E r p segs s i w (Q : Z → cs_world → Prop) :
  rp_user_data p = Loc cb 0 →
  exch (started r p segs) w → (16 ≤ len)%nat → 0 ≤ i < 2 ^ 31 - 1 →
  - 2 ^ 31 < g_num_iterations g0 < 2 ^ 31 →
  waits E →
  (∀ w', oom w' → E (UB "write through an invalid pointer") w') →
  (∀ ret w', over w' → Q ret w') →
  wp E (request_finalize L fuel wk r (Loc cb 0) s (Loc ib 0) i) Q w.
Proof using All.
  intros Hud Hx Hl Hi Hit HE HO HQ. unfold request_finalize.
  apply wp_bind. eapply request_wait_ok; [exact Hud|exact Hx|done|]. intros st w1 Hx1.
  apply wp_bind, wp_conseq with (Q := λ _ w', exch [] w').
  - destruct (st =? UCS_OK); cbn [negb].
    2:{ apply wp_bind, wp_fprintf, wp_ret. by destruct Hx1 as [[] ? ? ?]. }
    apply wp_bind, wp_conseq with (Q := λ _ w', w' = w1).
    + unfold to_print. apply wp_bind, wp_glb.
      assert (g_num_iterations (glob w1) = g_num_iterations g0) as ->.
      { pose proof (em_conf _ _ (x_mem _ _ Hx1)) as Hcf. unfold conf in Hcf.
        by injection Hcf. }
      destruct (i =? 0); [by apply wp_ret|]. apply wp_bind, wp_c_int; [lia|].
      destruct (_ =? _); [by apply wp_ret|]. apply wp_bind, wp_c_int; [lia|].
      by apply wp_ret.
    + intros pr ? ->. apply wp_bind, wp_when; intros _; [|by apply wp_ret].
      eapply print_ok; [done..|]. intros w' Hx'. by apply wp_ret.
  - intros ret w2 Hx2. apply wp_bind. eapply release_ok; [done|].
    intros w3 Ho. by apply wp_ret, HQ.
Qed.
End memory.

(** ** send_recv_stream, send_recv_tag, send_recv_am *)

Section exchange.
Context `{!Ucs, !Ucp, !Cuda} (L : cs_lib) (t : ucs_memory_type_t).
Context (Hm : mem_usable L t) (HL : polite L) (fuel : nat) (wk : Z).
Implicit Types (w : cs_world) (E : halt → cs_world → Prop).

(** The program between two exchanges. *)
Record idle (n len : nat) w : Prop := {
  id_conf : cs_conf t n len (glob w);
  id_print : (16 ≤ len)%nat;
  id_iter : - 2 ^ 31 < g_num_iterations (glob w) < 2 ^ 31 - 2;
  id_wf : wf_mem w;
  id_pending : pending (trace w) = [];
  id_conn : ∀ arg l, (wk, arg, l) ∉ listeners (trace w);
}.

(** An exchange leaves no trace in the memory. *)
Record unchanged w w' : Prop := {
  un_heap : heap w' = heap w;
  un_wf : wf_mem w';
  un_conf : conf (glob w') = conf (glob w);
  un_pending : pending (trace w') = [];
  un_rest : rest (trace w') = rest (trace w);
}.

Lemma idle_unchanged n len w w' : idle n len w → unchanged w w' → idle n len w'.
Proof.
  intros [Hc Hp Hi Hwf Hpe Hco] [Hh Hwf' Hcf Hpe' Hr].
  pose proof (cs_conf_conf t n len (glob w) Hc _ Hcf) as Hc'.
  split; [done|done| |done|done|].
  - unfold conf in Hcf. injection Hcf as _ _ _ _ _ ->. done.
  - unfold rest in Hr. injection Hr as _ ->. done.
Qed.

(** The only ways an exchange can stop the program. *)
Definition bounded_or_oom E : Prop :=
  waits L fuel E ∧ (∀ w, oom w → E (UB "write through an invalid pointer") w).

(** A failed allocation that the program does not check; this, or a waiting
    loop that reached its bound. *)
Definition unchecked_oom (h : halt) w : Prop :=
  h = UB "write through an invalid pointer" ∧ oom w.
Definition gave_up (h : halt) w : Prop := h = NoFuel ∨ unchecked_oom h w.

Lemma gave_up_bounded : bounded_or_oom gave_up.
Proof. split; [left; by left|]. by right. Qed.

(** With a responsive library and enough fuel the bound is not reached. *)
Lemma unchecked_oom_bounded ρ N :
  responsive L ρ N → (N + 2 ≤ fuel)%nat → bounded_or_oom unchecked_oom.
Proof. intros. split; [right; by exists ρ, N|done]. Qed.

(** The message of a new exchange is ready. *)
Record ready (n len : nat) (client : bool) w (cb ib b : N) (bs : list N) w1 : Prop := {
  rd_fresh : heap w !! cb = None;
  rd_bufs : length (b :: bs) = n;
  rd_glob : glob w1 = glob w;
  rd_wf : wf_mem w1;
  rd_pending : pending (trace w1) = [];
  rd_rest : rest (trace w1) = rest (trace w);
  rd_heap : iov_heap (with_ctx (heap w) cb 0) (heap w1) ib (b :: bs) [] (kind_of t) len;
  rd_filled : client = true → ∀ b', b' ∈ b :: bs →
    heap w1 !! b' = Some (Bytes (kind_of t) (filled len));
  rd_trace : trace w `suffix_of` trace w1;
}.

(** The bytes of the client's message: the test string, [n] times. *)
Definition test_message (n len : nat) : list mbyte := mjoin (replicate n (filled len)).

(** Since [w], the call [mk m p] was made with the test message [m]. *)
Definition sent n len (mk : message → ucp_request_param_t → cs_call) w w' : Prop :=
  ∃ l l' m p r, trace w' = l ++ ECall (mk m p) r :: l' ++ trace w ∧
    msg_payload m = test_message n len ∧ rp_cb p = Some F_send_cb.

(** Since [w], the call [mk m p] was made with buffers for a whole message. *)
Definition awaited n len (mk : message → ucp_request_param_t → cs_call) w w' : Prop :=
  ∃ l l' m p r, trace w' = l ++ ECall (mk m p) r :: l' ++ trace w ∧
    msg_room m = Z.of_nat (n * len).

(** The request was started. *)
Definition underway (n len : nat) w (cb ib b : N) (bs : list N) (r : Z) w' : Prop :=
  ∃ g p segs, conf g = conf (glob w) ∧ rp_user_data p = Loc cb 0 ∧
    exch t len g (heap w) ib cb (b :: bs) (rest (trace w)) (started r p segs) w' ∧
    (registered (trace w) = true →
       am_recv_buf (g_am_data_desc g) = Loc ib 0 ∧ am_expected n len ≤ LONG_MAX).

(** [G]: what the start of the operation establishes for good. *)
Lemma exchange_ok E n len client s i w Q (G : cs_world → Prop)
    (body : ptr → ptr → ptr → Z → ucp_request_param_t → CM Z) :
  (∀ w1 w2, trace w1 `suffix_of` trace w2 → G w1 → G w2) →
  idle n len w → 0 ≤ i < 2 ^ 31 - 1 → bounded_or_oom E →
  (∀ cb ib b bs w1, ready n len client w cb ib b bs w1 →
     wp E (body (Loc cb 0) (Loc ib 0) (msg_addr n ib b) (msg_len n len)
             (request_param (Z.of_nat n) (Loc cb 0)))
        (λ r w', underway n len w cb ib b bs r w' ∧ G w') w1) →
  (∀ ret w', unchanged w w' → (ret = 0 → G w') → Q ret w') →
  wp E (local (Cell KStack (CReq 0)) (λ ctx,
          iov ← malloc_iov L;
          memset_iov iov;;
          r ← fill_request_param L iov client ctx;
          match r with
          | None => mret (-1)
          | Some (msg, msg_length, param) =>
              request ← body ctx iov msg msg_length param;
              request_finalize L fuel wk request ctx s iov i
          end)) Q w.
Proof using Hm HL.
  intros HG [Hc Hp Hi Hwf Hpe Hco] Hit [HE HO] Hbody HQ.
  apply wp_local; [done|]. intros cb Hcb Hn.
  match goal with |- wp _ _ _ ?w => set (w0 := w) end.
  assert (heap w0 = with_ctx (heap w) cb 0) as Hh0 by done.
  assert (wf_mem w0) as Hwf0.
  { intros b Hb. simpl in *. rewrite lookup_insert_ne by lia. apply Hwf. lia. }
  assert (∀ x, delete cb (with_ctx (heap w) cb x) = heap w) as Hdel.
  { intros x. unfold with_ctx. by apply delete_insert_id. }
  assert (∀ ret g w', conf g = conf (glob w) → over g (heap w) cb (rest (trace w)) w' →
    (ret = 0 → G w') → Q ret (set_heap (delete cb (heap w')) w')) as Hend.
  { intros ret g w' Hg [[x Hh] Hwf' Hcf Hpe' Hr] HG'.
    apply HQ; [|intros Hr0; by eapply HG, HG']. split; [| |simpl; by rewrite Hcf|done|done].
    - simpl. by rewrite Hh.
    - intros b Hb. simpl in *. rewrite lookup_delete_None. right. by apply Hwf'. }
  assert (∀ w', heap_only w0 (heap w0) w' → wf_mem w' →
    entitled (trace w') = entitled (trace w0) →
    Q (-1) (set_heap (delete cb (heap w')) w')) as Hfail.
  { intros w' [Hh Hg] Hwf' [= E1 E2 E3]. apply Hend with (g := glob w); [done| |done].
    split; [|done|by rewrite Hg|by rewrite E1|by rewrite E2, E3].
    exists 0. by rewrite Hh. }
  assert (glob w0 = glob w) as Hg0 by done.
  assert (pending (trace w0) = [] ∧ rest (trace w0) = rest (trace w) ∧ trace w0 = trace w)
    as (Hpe0 & Hr0 & Htr0) by done.
  clearbody w0. rewrite <-Hg0 in Hc.
  eapply new_iov_ok with (t := t); [exact Hc|exact Hwf0|exact HO|].
  intros ib es m w1 Hg1 Ht1 Hwf1 Hes Hib Hih1.
  assert (entitled (trace w1) = entitled (trace w0)) as Hent1 by by rewrite Ht1.
  apply wp_bind, (wp_with_keeps grows); [solve_keeps|].
  apply (wp_with_keeps (same (λ w : cs_world, entitled (trace w)))); [solve_keeps|].
  eapply fill_request_param_ok with (t := t) (h0 := heap w0);
    [done|by rewrite Hg1|done|done|by rewrite Hh0; apply lookup_insert_eq|exact Hih1|..].
  - intros w2 [Hh2 Hg2] _ Hent Hgr. apply wp_ret, Hfail.
    + split; [done|]. by rewrite Hg2.
    + by eapply grows_wf.
    + unfold same in Hent. congruence.
  - intros b bs w2 Hg2 Hbs Hih2 Hf Hent Hgr. unfold same in Hent.
    assert (ready n len client w cb ib b bs w2) as Hrd.
    { rewrite Hent1 in Hent. injection Hent as E1 E2 E3.
      split; [done|done|congruence|by eapply grows_wf|by rewrite E1| | |done|].
      - rewrite <-Hr0. unfold rest. by rewrite E2, E3.
      - unfold with_ctx. rewrite Hh0 in Hih2. unfold with_ctx in Hih2.
        by rewrite insert_insert_eq in Hih2.
      - rewrite <-Htr0. destruct Hgr as (_ & _ & Hsuf). rewrite Ht1 in Hsuf.
        etrans; [by apply suffix_cons_r|exact Hsuf]. }
    apply wp_bind. eapply wp_conseq; [by apply Hbody|].
    intros r w3 [(g & p & segs & Hg & Hud & Hx & Ham) HG3].
    assert (cs_conf t n len g) as Hcg.
    { eapply cs_conf_conf; [exact Hc|]. by rewrite Hg0. }
    assert (g_num_iterations g = g_num_iterations (glob w)) as Hit'.
    { unfold conf in Hg. by injection Hg. }
    apply (wp_with_keeps grows); [solve_keeps|].
    eapply (request_finalize_ok L t Hm n len g Hcg (heap w) ib cb (b :: bs) Hbs HL fuel wk
              (rest (trace w)) Ham Hco);
      [exact Hud|exact Hx|done|done|rewrite Hit'; lia|done|done|].
    intros ret w4 Hov Hgr4. eapply Hend; [done|done|]. intros _. eapply HG; [|done]. apply Hgr4.
Qed.

Lemma segments_datatype msg l p p' :
  rp_datatype p = rp_datatype p' → segments msg l p = segments msg l p'.
Proof. unfold segments. by intros ->. Qed.

Lemma ready_exch n len client w cb ib b bs w1 :
  ready n len client w cb ib b bs w1 →
  exch t len (glob w1) (heap w) ib cb (b :: bs) (rest (trace w)) [] w1.
Proof.
  intros [? ? ? ? ? ? Hih ? ?]. split; [|done|done|done].
  split; [done|done|done|]. exists 0. by split.
Qed.

Lemma in_message_ok E n len client w cb ib b bs w1 p Q :
  ready n len client w cb ib b bs w1 →
  rp_datatype p = rp_datatype (request_param (Z.of_nat n) (Loc cb 0)) →
  Q (Message (msg_addr n ib b) (msg_len n len) (buf_segs len (b :: bs)) []) w1 →
  wp E (in_message (msg_addr n ib b) (msg_len n len) p) Q w1.
Proof.
  intros [? Hbs ? ? ? ? Hih ? ?] Hp HQ. unfold in_message.
  rewrite (segments_datatype _ _ _ _ Hp). apply wp_bind.
  eapply segments_ok with (t := t); [exact Hbs|exact Hih|]. by apply wp_ret.
Qed.

Lemma out_message_ok E n len w cb ib b bs w1 p Q :
  idle n len w → ready n len true w cb ib b bs w1 →
  rp_datatype p = rp_datatype (request_param (Z.of_nat n) (Loc cb 0)) →
  Q (Message (msg_addr n ib b) (msg_len n len) (buf_segs len (b :: bs))
       (test_message n len)) w1 →
  wp E (out_message (msg_addr n ib b) (msg_len n len) p) Q w1.
Proof.
  intros [Hc ? ? ? ? ?] [? Hbs ? ? ? ? Hih Hf ?] Hp HQ. unfold out_message.
  rewrite (segments_datatype _ _ _ _ Hp). apply wp_bind.
  eapply segments_ok with (t := t); [exact Hbs|exact Hih|].
  apply wp_bind. eapply gather_ok with (d := filled len).
  - intros b' Hb'. eexists. by apply Hf.
  - apply filled_length, Hc.
  - rewrite Hbs. by apply wp_ret.
Qed.

Context (n len : nat) (E : halt → cs_world → Prop) (HE : bounded_or_oom E).

(** Starting the operation of an exchange, when no active message can come. *)
Lemma underway_ok client w cb ib b bs w1 c p segs (req : cs_ret c → Z)
    (Q : cs_ret c → cs_world → Prop) :
  idle n len w → registered (trace w) = false → ready n len client w cb ib b bs w1 →
  lends c ⊆ buf_segs len (b :: bs) → (∀ k, c ≠ ucp_worker_progress k) →
  rp_user_data p = Loc cb 0 → segs ⊆ buf_segs len (b :: bs) →
  (∀ r h, pending (ECall c r :: h) = started (req r) p segs ++ pending h) →
  (∀ r h, rest (ECall c r :: h) = rest h) →
  (∀ r w', underway n len w cb ib b bs (req r) w' →
     (∃ l, trace w' = ECall c r :: l ++ trace w) → Q r w') →
  wp E (call L c) Q w1.
Proof using All.
  intros Hid Hreg Hrd Hlc Hnp Hud Hsegs Hpend Hrest HQ.
  assert (cs_conf t n len (glob w1)) as Hc1.
  { rewrite (rd_glob _ _ _ _ _ _ _ _ _ Hrd). apply Hid. }
  eapply (start_ok L t Hm n len (glob w1) Hc1 (heap w) ib cb (b :: bs)
            (rd_bufs _ _ _ _ _ _ _ _ _ Hrd) HL fuel wk (rest (trace w)));
    [simpl; by rewrite Hreg|apply Hid|by eapply ready_exch|done..|].
  intros r w' Hx [l Hl]. apply HQ.
  - exists (glob w1), p, segs. split_and!; [|done|done|by rewrite Hreg].
    by rewrite (rd_glob _ _ _ _ _ _ _ _ _ Hrd).
  - destruct (rd_trace _ _ _ _ _ _ _ _ _ Hrd) as [l' Hl'].
    exists (l ++ l'). by rewrite Hl, Hl', app_assoc.
Qed.

(** What an exchange leaves in the history: [out] is the call of the side that
    sends, [inn] that of the side that receives. *)
Definition exchanged (s : bool) out inn w w' : Prop :=
  if s then awaited n len inn w w' else sent n len out w w'.

Lemma exchanged_grows s out inn w w1 w2 :
  trace w1 `suffix_of` trace w2 → exchanged s out inn w w1 → exchanged s out inn w w2.
Proof.
  intros [l0 Hl0]. destruct s; intros (l & l' & m & p & r & Ht & Hmp);
    exists (l0 ++ l), l', m, p, r; by rewrite Hl0, Ht, app_assoc.
Qed.

Lemma sent_now (mk : message → ucp_request_param_t → cs_call) m p r w w' :
  (∃ l, trace w' = ECall (mk m p) r :: l ++ trace w) →
  msg_payload m = test_message n len → rp_cb p = Some F_send_cb → sent n len mk w w'.
Proof. intros [l Hl] ? ?. by exists [], l, m, p, r. Qed.

Lemma buf_segs_room bs a k : length bs = n →
  msg_room (Message a k (buf_segs len bs) []) = Z.of_nat (n * len).
Proof.
  intros <-. unfold msg_room, buf_segs. cbn [msg_segs].
  induction bs as [|b bs IH]; [done|]. rewrite fmap_cons. cbn [foldr snd length]. lia.
Qed.

Lemma awaited_now (mk : message → ucp_request_param_t → cs_call) a k bs p r w w' :
  (∃ l, trace w' = ECall (mk (Message a k (buf_segs len bs) []) p) r :: l ++ trace w) →
  length bs = n → awaited n len mk w w'.
Proof.
  intros [l Hl] Hbs. exists [], l. do 3 eexists. split; [exact Hl|]. by apply buf_segs_room.
Qed.

(** The side conditions of [underway_ok] for a concrete call. *)
Ltac start_side :=
  try done;
  first [ reflexivity | apply list_subseteq_nil
        | intros ? ? ? ?; split; [eassumption|]; cbn [exchanged];
          first [by eapply sent_now
                |eapply awaited_now; [eassumption|by eapply rd_bufs; eassumption]] ].

Lemma send_recv_tag_ok ep s i w (Q : Z → cs_world → Prop) :
  idle n len w → 0 ≤ i < 2 ^ 31 - 1 → registered (trace w) = false →
  (∀ ret w', unchanged w w' →
     (ret = 0 → exchanged s (λ m p, ucp_tag_send_nbx ep m TAG p)
       (λ m p, ucp_tag_recv_nbx wk m TAG 0 p) w w') → Q ret w') →
  wp E (send_recv_tag L fuel wk ep s i) Q w.
Proof using All.
  intros Hid Hi Hreg HQ.
  eapply exchange_ok with (G := exchanged s (λ m p, ucp_tag_send_nbx ep m TAG p)
       (λ m p, ucp_tag_recv_nbx wk m TAG 0 p) w) (client := negb s) (body := λ ctx iov msg msg_length param,
    if negb s then
      let param := with_cb F_send_cb param in
      m ← out_message msg msg_length param;
      call L (ucp_tag_send_nbx ep m TAG param)
    else
      let param := with_cb F_tag_recv_cb param in
      m ← in_message msg msg_length param;
      call L (ucp_tag_recv_nbx wk m TAG 0 param)); [by apply exchanged_grows|exact Hid|done|done| |done].
  intros cb ib b bs w1 Hrd. destruct s; cbn [negb] in *; cbv zeta; apply wp_bind.
  - eapply in_message_ok; [exact Hrd|done|]. eapply (underway_ok _ w) with
      (c := ucp_tag_recv_nbx wk _ TAG 0 _) (req := λ r, r); start_side.
  - eapply out_message_ok; [exact Hid|exact Hrd|done|]. eapply (underway_ok _ w) with
      (c := ucp_tag_send_nbx ep _ TAG _) (req := λ r, r) (segs := []); start_side.
Qed.

Lemma send_recv_stream_ok ep s i w (Q : Z → cs_world → Prop) :
  idle n len w → 0 ≤ i < 2 ^ 31 - 1 → registered (trace w) = false →
  (∀ ret w', unchanged w w' →
     (ret = 0 → exchanged s (λ m p, ucp_stream_send_nbx ep m p)
       (λ m p, ucp_stream_recv_nbx ep m p) w w') → Q ret w') →
  wp E (send_recv_stream L fuel wk ep s i) Q w.
Proof using All.
  intros Hid Hi Hreg HQ.
  eapply exchange_ok with (G := exchanged s (λ m p, ucp_stream_send_nbx ep m p)
       (λ m p, ucp_stream_recv_nbx ep m p) w) (client := negb s) (body := λ ctx iov msg msg_length param,
    if negb s then
      let param := with_cb F_send_cb param in
      m ← out_message msg msg_length param;
      call L (ucp_stream_send_nbx ep m param)
    else
      let param := or_mask UCP_OP_ATTR_FIELD_FLAGS param in
      let param := with_flags UCP_STREAM_RECV_FLAG_WAITALL param in
      let param := with_cb F_stream_recv_cb param in
      m ← in_message msg msg_length param;
      '(request, msg_length) ← call L (ucp_stream_recv_nbx ep m param);
      mret request); [by apply exchanged_grows|exact Hid|done|done| |done].
  intros cb ib b bs w1 Hrd. destruct s; cbn [negb] in *; cbv zeta; apply wp_bind.
  - eapply in_message_ok; [exact Hrd|done|]. apply wp_bind. eapply (underway_ok _ w) with
      (c := ucp_stream_recv_nbx ep _ _) (req := λ r, r.1); try done; [reflexivity|].
    intros [r m] w' Hu Hl. apply wp_ret. split; [exact Hu|].
    by eapply awaited_now; [exact Hl|eapply rd_bufs].
  - eapply out_message_ok; [exact Hid|exact Hrd|done|]. eapply (underway_ok _ w) with
      (c := ucp_stream_send_nbx ep _ _) (req := λ r, r) (segs := []); start_side.
Qed.

(** The sender of an active message: none can arrive. *)
Lemma send_am_ok ep i w (Q : Z → cs_world → Prop) :
  idle n len w → 0 ≤ i < 2 ^ 31 - 1 → registered (trace w) = false →
  (∀ ret w', unchanged w w' →
     (ret = 0 → sent n len (λ m p, ucp_am_send_nbx ep TEST_AM_ID 0 m p) w w') → Q ret w') →
  wp E (send_recv_am L fuel wk ep false i) Q w.
Proof using All.
  intros Hid Hi Hreg HQ.
  eapply exchange_ok with (G := exchanged false (λ m p, ucp_am_send_nbx ep TEST_AM_ID 0 m p) (λ m p, ucp_am_send_nbx ep TEST_AM_ID 0 m p) w) (client := true) (body := λ ctx iov msg msg_length params,
      let params := with_cb F_send_cb params in
      m ← out_message msg msg_length params;
      call L (ucp_am_send_nbx ep TEST_AM_ID 0 m params)); [by apply exchanged_grows|exact Hid|done|done| |done].
  intros cb ib b bs w1 Hrd. cbv zeta. apply wp_bind.
  eapply out_message_ok; [exact Hid|exact Hrd|done|]. eapply (underway_ok _ w) with
      (c := ucp_am_send_nbx ep TEST_AM_ID 0 _ _) (req := λ r, r) (segs := []); start_side.
Qed.

(** Assignments to the other members of am_data_desc are not seen. *)
Lemma exch_set_am g h0 ib cb bs R P d w :
  exch t len g h0 ib cb bs R P w →
  am_recv_buf d = am_recv_buf (g_am_data_desc (glob w)) →
  exch t len g h0 ib cb bs R P (set_glob (with_am_data_desc d (glob w)) w).
Proof.
  intros [[Hwf Hcf Hbuf Hih] Hp Ho Hr] Hd. split; [|done..].
  split; [done|done| |done]. simpl. by rewrite Hd.
Qed.

Lemma in_message_exch g h0 ib cb b bs R P w p Q :
  exch t len g h0 ib cb (b :: bs) R P w → length (b :: bs) = n →
  rp_datatype p = rp_datatype (request_param (Z.of_nat n) (Loc cb 0)) →
  Q (Message (msg_addr n ib b) (msg_len n len) (buf_segs len (b :: bs)) []) w →
  wp E (in_message (msg_addr n ib b) (msg_len n len) p) Q w.
Proof.
  intros [[_ _ _ (x & _ & Hih)] _ _ _] Hbs Hp HQ. unfold in_message.
  rewrite (segments_datatype _ _ _ _ Hp). apply wp_bind.
  eapply segments_ok with (t := t); [exact Hbs|exact Hih|]. by apply wp_ret.
Qed.

(** The receiver of an active message: any number of messages may arrive while
    it waits, of any length; they only ever touch its own buffers. *)
Lemma recv_am_ok ep i w (Q : Z → cs_world → Prop) :
  idle n len w → 0 ≤ i < 2 ^ 31 - 1 → am_expected n len ≤ LONG_MAX →
  (∀ w', E NoFuel w') →
  (∀ ret w', unchanged w w' → Q ret w') →
  wp E (send_recv_am L fuel wk ep true i) Q w.
Proof using All.
  intros Hid Hi Hmax HF HQ. unfold send_recv_am.
  eapply exchange_ok with (G := λ _, True) (client := false) (body := λ ctx iov msg msg_length params,
    set_am (am_with_recv_buf iov);;
    while fuel
      (d ← glb g_am_data_desc; mret (am_complete d =? 0))
      (_ ← call L (ucp_worker_progress wk); mret tt);;
    set_am (am_with_complete 0);;
    d ← glb g_am_data_desc;
    if negb (am_is_rndv d =? 0) then
      let params := or_mask UCP_OP_ATTR_FLAG_NO_IMM_CMPL params in
      let params := with_cb F_am_recv_cb params in
      m ← in_message msg msg_length params;
      call L (ucp_am_recv_data_nbx wk (am_desc d) m params)
    else mret 0); [done|exact Hid|done|done| |auto].
  intros cb ib b bs w1 Hrd. apply wp_bind, wp_mod_glob.
  match goal with |- wp _ _ _ ?w => set (w2 := w) end.
  pose proof (rd_bufs _ _ _ _ _ _ _ _ _ Hrd) as Hbs.
  assert (cs_conf t n len (glob w2)) as Hc2.
  { destruct (id_conf _ _ _ Hid). simpl. rewrite (rd_glob _ _ _ _ _ _ _ _ _ Hrd). by split. }
  assert ((rest (trace w)).1 = true → am_recv_buf (g_am_data_desc (glob w2)) = Loc ib 0 ∧
    am_expected n len ≤ LONG_MAX) as Ham by done.
  assert (exch t len (glob w2) (heap w) ib cb (b :: bs) (rest (trace w)) [] w2) as Hx2.
  { destruct (ready_exch _ _ _ _ _ _ _ _ _ Hrd) as [[? ? ? ?] ? ? ?]. by split. }
  assert (conf (glob w2) = conf (glob w)) as Hcf2.
  { unfold w2, set_am. simpl. by rewrite (rd_glob _ _ _ _ _ _ _ _ _ Hrd). }
  clearbody w2. set (g := glob w2) in *. clearbody g.
  apply wp_bind, wp_while with
    (I := λ w', exch t len g (heap w) ib cb (b :: bs) (rest (trace w)) [] w');
    [done|by intros; apply HF|].
  intros w3 Hx3. apply wp_bind, wp_bind, wp_glb, wp_ret.
  destruct (_ =? 0).
  { eapply (progress_ok L t Hm n len g Hc2 (heap w) ib cb (b :: bs) Hbs HL fuel wk
              (rest (trace w)) Ham (id_conn _ _ _ Hid)); [exact Hx3|done]. }
  apply wp_bind, wp_mod_glob.
  pose proof (exch_set_am _ _ _ _ _ _ _ (am_with_complete 0 (g_am_data_desc (glob w3))) _
                Hx3 eq_refl) as Hx4.
  match goal with |- wp _ _ _ ?w => set (w4 := w) in * end. clearbody w4.
  apply wp_bind, wp_glb. destruct (negb _).
  - apply wp_bind. eapply (in_message_exch g); [exact Hx4|exact Hbs|done|].
    eapply (start_ok L t Hm n len g Hc2 (heap w) ib cb (b :: bs) Hbs HL fuel wk
              (rest (trace w)) Ham (id_conn _ _ _ Hid)) with
      (c := ucp_am_recv_data_nbx wk _ _ _) (req := λ r, r); try done; [reflexivity|].
    intros r w' Hx' _. split; [|done].
    eexists g, _, _. split_and!; [done| |exact Hx'|done]. done.
  - apply wp_ret. split; [|done]. exists g, (request_param 0 (Loc cb 0)), []. split_and!; [done|done| |done].
    unfold started. by destruct ucs_ptr_null as (_&->&_).
Qed.
End exchange.
