(* ===== verification/Client.v ===== *)
(** * Memory safety of the client

    The client over stream or tag matching, from the command line to the exit:
    with a polite library the heap at the end is the heap at the start, and the
    only ways to stop early are the bound of the waiting loops and a failed
    allocation that the program does not check; and if it succeeds, the transcript
    of its transfers is known. *)

From S2P Require Import Prelude CRuntime CLib Ucx HelloUtil CsApi Iov SockAddr.
From S2P Require Import Callbacks Request SendRecv Options ClientServer Messages.
From S2P Require Import Outside Exchange.
Open Scope Z_scope.

(** gettimeofday answers a time: its microseconds are below a second, and its
    seconds do not come near the end of the type. *)
Definition sane_clock (L : cs_lib) : Prop :=
  ∀ h, let r : Z * Z := l_ret L h gettimeofday in
       0 ≤ r.1 < 2 ^ 40 ∧ 0 ≤ r.2 < 1000000.

(** What the library and the callbacks do in a call is no transfer. *)
Abbreviation quiet := (same (λ w : cs_world, transcript (trace w))).

#[export] Instance transcript_cb : CbQuiet quiet.
Proof.
  split; [by apply same_trace_interactive; intros []| |done|done].
  intros w c r Hc. unfold same. simpl. by destruct c.
Qed.

(** The loop of client_server_do_work by an invariant of its rounds. *)
Lemma iterations_by `{!Ucs, !Ucp, !Cuda} (L : cs_lib) fuel wk E ty ep s
    (I : nat → cs_world → Prop) (Q : option Z → cs_world → Prop) w :
  I 0%nat w →
  (∀ k w', Z.of_nat k < g_num_iterations (glob w) → I k w' →
     wp E (client_server_communication L fuel wk ep ty s (Z.of_nat k))
       (λ ret w'', (ret = 0 → I (S k) w'') ∧
          (ret ≠ 0 → ∀ f l, Q (Some ret) (push (EOut Stderr f l) w''))) w') →
  (∀ w', I (Z.to_nat (g_num_iterations (glob w))) w' → Q None w') →
  wp E (iterations L fuel wk ep ty s) Q w.
Proof.
  intros HI Hround HQ. unfold iterations. apply wp_bind, wp_glb.
  apply wp_for_break with (I := I); [done| |done].
  intros k w1 Hk HIk. apply wp_bind. eapply wp_conseq; [apply Hround; [lia|done]|].
  intros ret w2 [Hok Hbad]. destruct (Z.eqb_spec ret 0) as [->|Hne]; cbn [negb].
  - apply wp_ret. by apply Hok.
  - by apply wp_bind, wp_fprintf, wp_ret, Hbad.
Qed.

Section client.
Context `{!Ucs, !Ucp, !Cuda} (L : cs_lib) (t : ucs_memory_type_t).
Context (Hm : mem_usable L t) (HL : polite L) (fuel : nat) (wk : Z) (n len : nat).
Implicit Types (w : cs_world) (E : halt → cs_world → Prop).

(** Between two exchanges, and no active message handler. *)
Definition idle0 w : Prop := idle t wk n len w ∧ registered (trace w) = false.

(** A call between two exchanges: the library owns nothing. *)
Lemma idle_call_raw E c w (Q : cs_ret c → cs_world → Prop) :
  idle0 w → lends c = [] → (∀ k, c = ucp_worker_progress k → k = wk) →
  (∀ r w', heap w' = heap w → wf_mem w' → conf (glob w') = conf (glob w) →
     entitled (trace w') = entitled (trace w) → Q r (push (ECall (A := cs_api) c r) w')) →
  wp E (call L c) Q w.
Proof using All.
  intros [Hid Hreg] Hlend Hk HQ. unfold call. apply wp_ext.
  apply (wp_with_keeps (same (λ w : cs_world, entitled (trace w)))).
  { apply keeps_run_acts; [typeclasses eauto|]. intros. apply keeps_handler.
    typeclasses eauto. }
  apply wp_run_acts with (P := λ xs w', Forall (legal (trace w) c) xs ∧
    heap w' = heap w ∧ wf_mem w' ∧ conf (glob w') = conf (glob w)).
  - split_and!; [apply HL|done|apply Hid|done].
  - intros x xs w' [[Hx Hxs]%Forall_cons_1 (Hh & Hwf & Hcf)].
    assert (pending (trace w) = []) as Hp by apply Hid.
    destruct x as [cb|p bs]; simpl in Hx; rewrite ?Hlend, ?Hp in Hx.
    + destruct cb as [st ud|st ud|st ln ud|st ln ud|st|req arg|hl d ln attr];
        try by destruct Hx as (o & Ho%not_elem_of_nil & _).
      * by apply wp_bind, wp_bind, wp_bind, wp_fprintf, wp_mod_glob, wp_ret, wp_emit.
      * destruct Hx as (k & l & -> & Hin & _). exfalso.
        rewrite (Hk k eq_refl) in Hin. by eapply (id_conn _ _ _ _ _ Hid).
      * destruct Hx as [Hr _]. congruence.
    + exfalso. destruct Hx as [(b & base & m & k & Hin & _)|(o & Ho & _)];
        by eapply not_elem_of_nil.
  - intros w' (_ & Hh & Hwf & Hcf) Hent. by apply HQ.
Qed.

Lemma idle_call E c w (Q : cs_ret c → cs_world → Prop) :
  idle0 w → lends c = [] → (∀ k, c = ucp_worker_progress k → k = wk) →
  (∀ r h, pending h = [] → pending (ECall c r :: h) = []) →
  (∀ r h, rest (ECall c r :: h) = rest h) →
  (∀ r w', unchanged w w' → Q r w') → wp E (call L c) Q w.
Proof using All.
  intros Hid Hlend Hk Hpend Hrest HQ. apply idle_call_raw; [done..|].
  intros r w' Hh Hwf Hcf [= E1 E2 E3]. apply HQ. split; [done|done|done|..]; simpl.
  - apply Hpend. rewrite E1. apply Hid.
  - rewrite Hrest. unfold rest. by rewrite E2, E3.
Qed.

Lemma unchanged_refl w : wf_mem w → pending (trace w) = [] → unchanged w w.
Proof. by split. Qed.

Lemma unchanged_trans w1 w2 w3 : unchanged w1 w2 → unchanged w2 w3 → unchanged w1 w3.
Proof. intros [] []. split; [congruence|done|congruence|done|congruence]. Qed.

Lemma idle0_unchanged w w' : idle0 w → unchanged w w' → idle0 w'.
Proof.
  intros [Hid Hr] Hu. split; [by eapply idle_unchanged|].
  destruct Hu as [_ _ _ _ Hre]. unfold rest in Hre. injection Hre as -> _. done.
Qed.

Context (ty : send_recv_type_t).
Context (Hty : ty = CLIENT_SERVER_SEND_RECV_STREAM ∨ ty = CLIENT_SERVER_SEND_RECV_TAG).
Context (E : halt → cs_world → Prop) (HE : bounded_or_oom L fuel E).

(** From here on [w0] is the world at the start; so far nothing changed. *)
Context (w0 : cs_world) (Hw0 : idle0 w0).

Lemma unchanged_out w s f l : unchanged w0 w → unchanged w0 (push (EOut s f l) w).
Proof. by intros []. Qed.

Lemma unchanged_closed w v :
  unchanged w0 w → unchanged w0 (set_glob (with_connection_closed v (glob w)) w).
Proof. by intros []. Qed.

Lemma call_idle c w (Q : cs_ret c → cs_world → Prop) :
  unchanged w0 w → lends c = [] → (∀ k, c = ucp_worker_progress k → k = wk) →
  (∀ r h, pending h = [] → pending (ECall c r :: h) = []) →
  (∀ r h, rest (ECall c r :: h) = rest h) →
  (∀ r w', unchanged w0 w' → Q r w') → wp E (call L c) Q w.
Proof using All.
  intros Hu ? ? ? ? HQ. apply idle_call; [by apply (idle0_unchanged w0)|done..|].
  intros r w' Hu'. apply HQ. by eapply unchanged_trans.
Qed.

Lemma transcript_call c : transfer_of c = None → keeps quiet (call L c).
Proof using.
  intros Hc. apply keeps_call_of; [typeclasses eauto|].
  intros w r. unfold same, transcript. simpl. by rewrite Hc.
Qed.

Ltac solve_quiet :=
  match goal with |- keeps _ (call _ ?c) => exact (transcript_call c eq_refl) end.

(** So far nothing changed, and the transcript is [T]. *)
Definition talk T w : Prop := unchanged w0 w ∧ transcript (trace w) = T.

Lemma talk_quiet {A} T (m : CM A) w (Q : A → cs_world → Prop) :
  talk T w → keeps quiet m →
  wp E m (λ a w', transcript (trace w') = T → Q a w') w → wp E m Q w.
Proof using.
  intros [_ HT] Hq Hw. apply (wp_with_keeps quiet); [done|].
  eapply wp_conseq; [exact Hw|]. unfold same. intros a w' Ha Hs. apply Ha. congruence.
Qed.

Lemma talk_out T w s f l : talk T w → talk T (push (EOut s f l) w).
Proof using. intros [? ?]. split; [by apply unchanged_out|done]. Qed.

Lemma progress_talk T w (Q : unit → cs_world → Prop) :
  talk T w → (∀ w', talk T w' → Q tt w') →
  wp E (_ ← call L (ucp_worker_progress wk); mret tt) Q w.
Proof using All.
  intros HT HQ. apply wp_bind. eapply talk_quiet; [exact HT|solve_quiet|].
  destruct HT as [Hu _]. apply call_idle; [done|done|by intros k [= ->]|done|done|].
  intros r w' ? ?. by apply wp_ret, HQ.
Qed.

(** The message of a side, as this side sees it. *)
Definition test_transfer (s : bool) : transfer :=
  if s then Incoming (Z.of_nat (n * len)) else Outgoing (test_message n len).

(** A single transfer of the known kind. *)
Lemma exchanged_transcript s out inn w w' :
  (∀ m p, transfer_of (out m p) = Some (Outgoing (msg_payload m))) →
  (∀ m p, transfer_of (inn m p) = Some (Incoming (msg_room m))) →
  exchanged n len s out inn w w' →
  (∀ sends, calls (counted sends) (trace w') =
     (per_message sends s + calls (counted sends) (trace w))%nat) →
  transcript (trace w') = test_transfer s :: transcript (trace w).
Proof using.
  intros Hout Hinn Hx Hn. pose proof (Hn true) as Ht. pose proof (Hn false) as Hf.
  unfold per_message, counted in *.
  destruct s; destruct Hx as (l & l' & m & p & r & Htr & Hm'); rewrite Htr in *; cbn [eqb] in *;
    rewrite !app_comm_cons, app_assoc, calls_app in Ht, Hf;
    rewrite !app_comm_cons, app_assoc, transcript_app;
    (erewrite transcript_singleton;
       [|lia|apply elem_of_app; right; by apply list_elem_of_here|]); try done.
  - rewrite Hinn. simpl. by rewrite Hm'.
  - rewrite Hout. simpl. by destruct Hm' as [-> _].
Qed.

Lemma communication_ok ep s i w (Q : Z → cs_world → Prop) :
  unchanged w0 w → 0 ≤ i < 2 ^ 31 - 1 →
  (∀ ret w', unchanged w0 w' →
     (ret = 0 → talk (test_transfer s :: transcript (trace w)) w') → Q ret w') →
  wp E (client_server_communication L fuel wk ep ty s i) Q w.
Proof using All.
  intros Hu Hi HQ. destruct (idle0_unchanged _ _ Hw0 Hu) as [Hid Hr].
  assert (∀ sends, ty ≠ CLIENT_SERVER_SEND_RECV_AM ∨ sends = true ∨ s = false) as Hna
    by (intros; left; by destruct Hty as [-> | ->]).
  do 2 (eapply wp_also; [by eapply counts_communication|]).
  assert (∀ out inn ret w', 
    (∀ m p, transfer_of (out m p) = Some (Outgoing (msg_payload m))) →
    (∀ m p, transfer_of (inn m p) = Some (Incoming (msg_room m))) →
    unchanged w w' → (ret = 0 → exchanged n len s out inn w w') →
    (∃ k, calls (counted true) (trace w') = (k + calls (counted true) (trace w))%nat ∧
       one_message true s ret k) →
    (∃ k, calls (counted false) (trace w') = (k + calls (counted false) (trace w))%nat ∧
       one_message false s ret k) → Q ret w') as HQ'.
  { intros out inn ret w' Ho Hn Hu' Hx (k & Hk & Hone) (k' & Hk' & Hone').
    pose proof (unchanged_trans _ _ _ Hu Hu') as Hu0. apply HQ; [done|].
    intros Hz. split; [done|]. eapply exchanged_transcript; eauto.
    intros []; [rewrite Hk, (Hone Hz)|rewrite Hk', (Hone' Hz)]; done. }
  destruct Hty as [-> | ->]; simpl;
    [eapply send_recv_stream_ok|eapply send_recv_tag_ok]; eauto;
    intros; eapply HQ'; eauto; done.
Qed.

Lemma num_iterations_kept w : unchanged w0 w →
  g_num_iterations (glob w) = g_num_iterations (glob w0).
Proof using. intros [_ _ Hcf _ _]. unfold conf in Hcf. by injection Hcf. Qed.

Lemma iterations_ok ep s T w (Q : option Z → cs_world → Prop) :
  talk T w →
  (∀ r w', unchanged w0 w' →
     match r with
     | Some ret => ret ≠ 0
     | None => talk (replicate (Z.to_nat (g_num_iterations (glob w0))) (test_transfer s) ++ T) w'
     end → Q r w') →
  wp E (iterations L fuel wk ep ty s) Q w.
Proof using All.
  intros HT HQ. pose proof HT as [Hu _]. destruct (idle0_unchanged _ _ Hw0 Hu) as [Hid _].
  pose proof (id_iter _ _ _ _ _ Hid) as Hit.
  apply iterations_by with (I := λ k w', talk (replicate k (test_transfer s) ++ T) w'); [done| |].
  - intros k w1 Hk [Hu1 HT1]. eapply communication_ok; [done|lia|].
    intros ret w2 Hu2 Hok. split.
    + intros Hz. destruct (Hok Hz) as [_ HT2]. split; [done|]. by rewrite HT2, HT1.
    + intros Hne f l. apply HQ; [by apply unchanged_out|done].
  - rewrite (num_iterations_kept w Hu). intros w1 [Hu1 HT1]. by apply HQ.
Qed.

Context (Hclock : sane_clock L).

(** A time, and the difference of two of them, fit in a long. *)
Definition sane (x : Z * Z) : Prop := 0 ≤ x.1 < 2 ^ 40 ∧ 0 ≤ x.2 < 1000000.

Lemma gettimeofday_ok T w (Q : Z * Z → cs_world → Prop) :
  talk T w → (∀ x w', sane x → talk T w' → Q x w') →
  wp E (call0 L gettimeofday) Q w.
Proof using All.
  intros [Hu HT] HQ. apply (wp_ext0 L _ gettimeofday), HQ; [apply Hclock|].
  split; [by destruct Hu|done].
Qed.

Lemma elapsed_ok a b w (Q : Z → cs_world → Prop) :
  sane a → sane b → (∀ d, Q d w) → wp E (elapsed a b) Q w.
Proof.
  intros [] [] HQ. unfold elapsed.
  repeat (apply wp_bind, wp_c_long; [unfold LONG_MIN, LONG_MAX; lia|]).
  apply wp_c_long; [unfold LONG_MIN, LONG_MAX; lia|]. apply HQ.
Qed.

(** What a successful work adds to the transcript: the messages of the
    iterations, and the FIN message, which goes the other way. *)
Definition work_transcript (s : bool) (N : Z) : list transfer :=
  test_transfer (negb s) :: replicate (Z.to_nat N) (test_transfer s).

(** The work of either role. *)
Lemma do_work_ok ep s T w (Q : Z → cs_world → Prop) :
  talk T w → (s = true → ∀ w', unchanged w0 w' → E NoFuel w') →
  (∀ r w', unchanged w0 w' →
     (r = 0 → talk (work_transcript s (g_num_iterations (glob w0)) ++ T) w') → Q r w') →
  wp E (client_server_do_work L fuel wk ep ty s) Q w.
Proof using All.
  intros HT HF HQ. unfold client_server_do_work.
  apply wp_bind, wp_conseq with (Q := λ x w', sane x ∧ talk T w').
  { destruct s; cbn [negb]; [apply wp_ret; split; [unfold sane; simpl; lia|done]|].
    by eapply gettimeofday_ok. }
  intros t0 w1 [Ht0 [Hu1 HT1]]. apply wp_bind, wp_mod_glob.
  apply (unchanged_closed _ 0) in Hu1.
  apply wp_bind. eapply (iterations_ok ep s T); [by split|].
  intros [ret|] w2 Hu2 HT2; [by apply wp_ret, HQ|]. apply wp_bind, wp_fprintf.
  set (T2 := replicate _ _ ++ T) in *.
  match goal with |- wp _ _ _ ?w => assert (talk T2 w) as HT2' by by apply talk_out end.
  apply wp_bind, wp_conseq with (Q := λ _ w', talk T2 w').
  { destruct s; cbn [negb when]; [apply wp_ret; exact HT2'|].
    apply wp_bind. eapply gettimeofday_ok; [exact HT2'|]. intros t1 w3 Ht1 Hu3.
    apply wp_bind. eapply elapsed_ok; [done..|]. intros d. apply wp_fprintf.
    by apply talk_out. }
  intros [] w3 [Hu3 HT3]. rewrite bool_decide_eq_false_2 by (by destruct Hty as [-> | ->]).
  rewrite andb_false_r. apply wp_bind, wp_ret. rewrite Z.eqb_refl. cbn [negb].
  destruct (idle0_unchanged _ _ Hw0 Hu3) as [Hid _].
  pose proof (id_iter _ _ _ _ _ Hid) as Hit.
  apply wp_bind, wp_glb, wp_bind, wp_c_int; [lia|].
  apply wp_bind. eapply communication_ok; [exact Hu3|lia|]. rewrite HT3.
  intros ret w4 Hu4 Hfin. destruct (Z.eqb_spec ret 0) as [->|Hne]; cbn [negb].
  2:{ apply wp_bind, wp_fprintf, wp_ret, HQ; [by apply unchanged_out|done]. }
  specialize (Hfin eq_refl).
  apply wp_bind, wp_when; intros Hs; [|by apply wp_ret, HQ].
  apply wp_while with (I := talk (test_transfer (negb s) :: T2)); [exact Hfin|by intros w5 []; apply HF|].
  intros w5 HT5. apply wp_bind, wp_glb, wp_ret.
  destruct (_ =? 0); [by eapply progress_talk|].
  apply wp_ret, HQ; [by destruct HT5|done].
Qed.

(** Calls that start no operation and change no entitlement. *)
Ltac idle_side := first [done | by intros ? [= ->] | (intros ? ? Hp; simpl; by rewrite Hp)].
Ltac idle_call Hu :=
  lazymatch goal with
  | |- wp _ (call _ ?c) _ _ => eapply (call_idle c); [exact Hu|idle_side..|]
  end.

(** One round of the loop that waits for the endpoint to close. *)
Lemma close_round q w (Q : Z → cs_world → Prop) :
  unchanged w0 w →
  (∀ st w', unchanged w0 w' →
     (∀ ρ N, responsive L ρ N →
        st ≠ UCS_INPROGRESS ∨ (ρ (trace w') < ρ (trace w))%nat) → Q st w') →
  wp E (_ ← call L (ucp_worker_progress wk); call L (ucp_request_check_status q)) Q w.
Proof using All.
  intros Hu HQ.
  assert (∀ c, keeps grows (call L c)) as Hk.
  { intros c. apply keeps_call_of; [typeclasses eauto|]. intros. apply grows_push. }
  assert (∀ c (w : cs_world) (Q : cs_ret c → cs_world → Prop),
    wp E (call L c) (λ r w', (∃ l, trace w' = ECall c r :: l ++ trace w ∧
      r = l_ret L (l ++ trace w) c) → Q r w') w → wp E (call L c) Q w) as Htr.
  { intros c w1 Q1 Hw. unfold call, ext, ext0, mbind, M_bind, gets in *. simpl in *.
    unfold wp in *. revert Hw.
    pose proof (keeps_run_acts grows (handler L) (l_acts L (trace w1) c)
      (λ cb, keeps_handler L grows cb) w1) as (_ & _ & l & Hl).
    destruct (run_acts _ _ w1) as [[u|h] w2]; simpl in *; [|done].
    intros Hw. apply Hw. exists l. by rewrite <-Hl. }
  apply wp_bind, Htr. idle_call Hu. intros r w1 Hu1 (l & Hl & _).
  apply Htr. idle_call Hu1. intros st w2 Hu2 (l' & Hl' & Hst).
  apply HQ; [done|]. intros ρ N Hre.
  pose proof (re_status _ _ _ Hre (trace w) wk q r l l') as Hs. cbv zeta in Hs.
  rewrite <-Hl, <-Hst, <-Hl' in Hs. exact Hs.
Qed.

Lemma close_loop_ok q w (Q : Z → cs_world → Prop) :
  unchanged w0 w → (∀ st w', unchanged w0 w' → Q st w') →
  wp E (do_while fuel
          (_ ← call L (ucp_worker_progress wk); call L (ucp_request_check_status q))
          (λ st, st =? UCS_INPROGRESS)) Q w.
Proof using All.
  intros Hu HQ. destruct HE as [[HF|(ρ & N & Hre & Hf)] _].
  - apply wp_loop with (I := λ _ w', unchanged w0 w'); [done|auto|].
    intros [] w2 Hu2. apply wp_bind, close_round; [done|]. intros st w3 Hu3 _.
    destruct (_ =? _); apply wp_ret; auto.
  - apply wp_loop_total with (I := λ _ w', unchanged w0 w') (μ := λ _ w', ρ (trace w'));
      [done|pose proof (re_bound _ _ _ Hre (trace w)); lia|].
    intros [] w2 Hu2. apply wp_bind, close_round; [done|]. intros st w3 Hu3 Hd.
    destruct (Z.eqb_spec st UCS_INPROGRESS) as [->|Hne]; apply wp_ret; [|auto].
    split; [done|]. by destruct (Hd ρ N Hre).
Qed.

Lemma ep_close_ok ep flags w (Q : unit → cs_world → Prop) :
  unchanged w0 w → (∀ w', unchanged w0 w' → Q tt w') →
  wp E (ep_close L fuel wk ep flags) Q w.
Proof using All.
  intros Hu HQ. unfold ep_close.
  apply wp_bind. idle_call Hu. intros r w1 Hu1.
  apply wp_bind, wp_conseq with (Q := λ _ w', unchanged w0 w').
  - destruct (UCS_PTR_IS_PTR r); [|by apply wp_ret].
    apply wp_bind, close_loop_ok; [done|]. intros st w4 Hu4.
    apply wp_bind. idle_call Hu4. intros y w5 Hu5. by apply wp_ret.
  - intros st w2 Hu2. apply wp_when; intros _; [|by apply HQ].
    apply wp_fprintf, HQ. by apply unchanged_out.
Qed.

Lemma transcript_ep_close ep flags : keeps quiet (ep_close L fuel wk ep flags).
Proof using. unfold ep_close. solve_keeps; solve_quiet. Qed.

Lemma sock_addr_idle s w (Q : sockaddr_storage → cs_world → Prop) :
  unchanged w0 w → (g_ai_family (glob w0) = AF_INET ∨ g_ai_family (glob w0) = AF_INET6) →
  (∀ sa w', unchanged w0 w' → Q sa w') → wp E (set_sock_addr L s) Q w.
Proof using All.
  intros Hu Hf HQ. pose proof Hu as [Hh Hwf Hcf Hp Hr].
  apply (wp_with_keeps grows); [apply keeps_set_sock_addr; [typeclasses eauto|]; intros; apply grows_push|].
  apply (wp_with_keeps (same (λ w : cs_world, entitled (trace w)))).
  { apply keeps_set_sock_addr; [typeclasses eauto|]. intros. by apply cq_call. }
  apply set_sock_addr_ok.
  { assert (g_ai_family (glob w) = g_ai_family (glob w0)) as -> by (unfold conf in Hcf; by injection Hcf).
    done. }
  intros sa w' [Hh' Hg'] _ _ _ [= E1 E2 E3] Hgr. apply HQ. unfold rest in *.
  split; [congruence|by eapply grows_wf|by rewrite Hg'|by rewrite E1|unfold rest; by rewrite E2, E3].
Qed.

Lemma run_client_ok s T w (Q : Z → cs_world → Prop) :
  talk T w → (g_ai_family (glob w0) = AF_INET ∨ g_ai_family (glob w0) = AF_INET6) →
  (∀ r w', unchanged w0 w' →
     (r = 0 → talk (work_transcript false (g_num_iterations (glob w0)) ++ T) w') → Q r w') →
  wp E (run_client L fuel wk s ty) Q w.
Proof using All.
  intros HT Hf HQ. unfold run_client, start_client. apply wp_bind, wp_bind.
  eapply talk_quiet; [exact HT|apply keeps_set_sock_addr; [typeclasses eauto|]; intros; by apply cq_call|].
  eapply sock_addr_idle; [by destruct HT|exact Hf|]. intros sa w1 Hu1 HT1. cbv zeta. apply wp_bind.
  eapply talk_quiet; [by split|solve_quiet|].
  idle_call Hu1. intros [status ep] w2 Hu2 HT2.
  apply wp_bind, wp_conseq with (Q := λ _ w', talk T w').
  { apply wp_when; intros _; [apply wp_fprintf; by apply talk_out|by split]. }
  intros [] w3 [Hu3 HT3]. apply wp_ret. destruct (negb _).
  { apply wp_bind, wp_fprintf, wp_ret, HQ; [by apply unchanged_out|done]. }
  apply wp_bind. eapply do_work_ok; [by split|done|]. intros r w4 Hu4 Hr.
  apply wp_bind. apply (wp_with_keeps quiet); [apply transcript_ep_close|].
  eapply ep_close_ok; [exact Hu4|]. intros w5 Hu5 HT5. apply wp_ret, HQ; [done|].
  intros Hz. destruct (Hr Hz) as [_ HT4]. split; [done|]. unfold same in HT5. congruence.
Qed.
End client.

(** ** Two transcripts that fit *)

(** One side sends exactly what the other has room for. *)
Definition answers (a b : transfer) : Prop :=
  match a, b with
  | Outgoing bytes, Incoming room | Incoming room, Outgoing bytes =>
      Z.of_nat (length bytes) = room
  | _, _ => False
  end.

Lemma test_message_length n len : (1 ≤ len)%nat → length (test_message n len) = (n * len)%nat.
Proof.
  intros Hl. unfold test_message. induction n as [|n IH]; [done|].
  simpl. by rewrite length_app, filled_length, IH.
Qed.

Lemma test_transfer_answers n len s : (1 ≤ len)%nat →
  answers (test_transfer n len (negb s)) (test_transfer n len s).
Proof. intros Hl. destruct s; simpl; by rewrite test_message_length. Qed.

Lemma work_answers n len N : (1 ≤ len)%nat →
  Forall2 answers (work_transcript n len false N) (work_transcript n len true N).
Proof.
  intros Hl. constructor; [by apply (test_transfer_answers n len false)|].
  apply Forall2_replicate. by apply (test_transfer_answers n len true).
Qed.

(** ** The whole program as a client *)

Definition cs_init_world : cs_world := World cs_init_glob ∅ 0%N [].

Section main.
Context `{!Ucs, !Ucp, !Cuda} (L : cs_lib) (t : ucs_memory_type_t).
Context (Hm : mem_usable L t) (HL : polite L) (Hclock : sane_clock L).
Context (fuel n len : nat) (E : halt → cs_world → Prop) (HE : bounded_or_oom L fuel E).

(** No listener: any worker may be progressed. *)
Lemma idle0_worker wk wk' w :
  listeners (trace w) = [] → idle0 t wk n len w → idle0 t wk' n len w.
Proof.
  intros Hl [[] Hr]. split; [|done]. split; try done. intros arg l. rewrite Hl.
  apply not_elem_of_nil.
Qed.

Ltac do_call H HT :=
  lazymatch goal with |- wp _ (call _ ?c) _ _ => eapply (H c); [exact HT|done..|] end.

(** What surrounds the two roles. [K] may assume that its worker exists, and has
    to leave everything as it was; [U] is the transcript of its success. *)
Lemma around_role_ok (ty : send_recv_type_t) (K : Z → Z → CM Z) U w (Q : Z → cs_world → Prop) :
  ty = CLIENT_SERVER_SEND_RECV_STREAM ∨ ty = CLIENT_SERVER_SEND_RECV_TAG →
  idle0 t 0 n len w → listeners (trace w) = [] →
  (∀ ctx uw w1 (Q1 : Z → cs_world → Prop),
     talk w (transcript (trace w)) w1 → uw ∈ live_workers (trace w1) →
     (∀ r w', unchanged w w' → (r = 0 → transcript (trace w') = U) → Q1 r w') →
     wp E (K ctx uw) Q1 w1) →
  (∀ r w', unchanged w w' → (r = 0 → transcript (trace w') = U) → Q r w') →
  wp E (r ← init_context L ty;
        match r with
        | inl ret => mret ret
        | inr (ucp_context, ucp_worker) =>
            ret ← K ucp_context ucp_worker;
            call L (ucp_worker_destroy ucp_worker);;
            call L (ucp_cleanup ucp_context);;
            mret ret
        end) Q w.
Proof using Hm HL HE.
  intros Hty Hid Hl HK HQ. set (T := transcript (trace w)) in *.
  assert (talk w T w) as HT by (split; [split; try done; apply Hid|done]).
  assert (∀ wk, idle0 t wk n len w) as Hany by (intros; by eapply idle0_worker).
  assert (∀ c T w1 (Q : cs_ret c → cs_world → Prop), talk w T w1 → lends c = [] →
    (∀ k, c ≠ ucp_worker_progress k) → transfer_of c = None →
    (∀ r h, pending h = [] → pending (ECall c r :: h) = []) →
    (∀ r h, rest (ECall c r :: h) = rest h) →
    (∀ r w', talk w T w' → Q r w') → wp E (call L c) Q w1) as Hcall.
  { intros c T1 w1 Q1 HT1 Hle Hpr Htr Hpe Hre HQ1.
    eapply talk_quiet; [exact HT1|by apply transcript_call|]. destruct HT1 as [Hu1 _].
    eapply (call_idle L t Hm HL fuel 0 n len ty Hty E HE w (Hany 0)); try done.
    - intros k Hk. by destruct (Hpr k).
    - intros r w' ? ?. by apply HQ1. }
  unfold init_context. do 2 apply wp_bind. do_call Hcall HT.
  intros [status ctx] w1 HT1. destruct (negb _).
  { apply wp_bind, wp_fprintf, wp_ret, wp_ret, HQ; [|done]. by destruct HT1 as [[] _]. }
  unfold init_worker. do 2 apply wp_bind. answering live_workers.
  do_call Hcall HT1. intros [status2 uw] w2 HT2 (h & _ & _ & Htr).
  destruct (status2 =? UCS_OK) eqn:Hst; cbn [negb].
  2:{ apply wp_bind, wp_fprintf, wp_ret. cbv beta iota.
    rewrite (proj2 (Z.eqb_neq _ _)) by lia. cbn [negb]. apply wp_bind.
    apply (talk_out w) with (s := Stderr) (f := "failed to ucp_worker_create (%s)\n")
      (l := [AZ status2]) in HT2.
    do_call Hcall HT2. intros x w3 [Hu3 _]. by apply wp_ret, wp_ret, HQ. }
  apply wp_ret. cbv beta iota. cbn [Z.eqb negb]. apply wp_ret. apply wp_bind, HK; [done| |].
  { rewrite Htr. simpl. rewrite Hst. by left. }
  intros r w3 Hu3 Hr. apply wp_bind. do_call Hcall (conj Hu3 (eq_refl (transcript (trace w3)))).
  intros x w4 HT4. apply wp_bind. do_call Hcall HT4. intros y w5 [Hu5 HT5]. apply wp_ret, HQ; [done|].
  intros Hz. rewrite HT5. by apply Hr.
Qed.

Lemma client_ok (o : options) w (Q : Z → cs_world → Prop) :
  idle0 t 0 n len w → listeners (trace w) = [] →
  (g_ai_family (glob w) = AF_INET ∨ g_ai_family (glob w) = AF_INET6) →
  server_addr o ≠ None →
  (send_recv_type o = CLIENT_SERVER_SEND_RECV_STREAM ∨
   send_recv_type o = CLIENT_SERVER_SEND_RECV_TAG) →
  (∀ r w', unchanged w w' →
     (r = 0 → transcript (trace w') =
        work_transcript n len false (g_num_iterations (glob w)) ++ transcript (trace w)) →
     Q r w') →
  wp E (r ← init_context L (send_recv_type o);
        match r with
        | inl ret => mret ret
        | inr (ucp_context, ucp_worker) =>
            ret ← match server_addr o with
                  | None => run_server L fuel ucp_context ucp_worker (listen_addr o) (send_recv_type o)
                  | Some _ => run_client L fuel ucp_worker (server_addr o) (send_recv_type o)
                  end;
            call L (ucp_worker_destroy ucp_worker);;
            call L (ucp_cleanup ucp_context);;
            mret ret
        end) Q w.
Proof using All.
  intros Hid Hl Hf Hsrv Hty HQ. destruct (server_addr o) as [s|]; [|done].
  eapply (around_role_ok _ (λ _ uw, run_client L fuel uw (Some s) (send_recv_type o)));
    [done..| |exact HQ].
  intros ctx uw w1 Q1 HT1 _ HQ1.
  eapply (run_client_ok L t Hm HL fuel uw n len (send_recv_type o) Hty E HE w);
    [by eapply idle0_worker|done|exact HT1|done|].
  intros r w' Hu Hr. apply HQ1; [done|]. intros Hz. by destruct (Hr Hz).
Qed.
End main.

(** ** From the command line on *)

Section program.
Context `{!Ucs, !Ucp, !Cuda}.

(** Reading the command line makes no call. *)
Lemma parse_cmd_quiet argv w r w' :
  parse_cmd argv w = (r, w') →
  wf_mem w → wf_mem w' ∧ entitled (trace w') = entitled (trace w) ∧
    transcript (trace w') = transcript (trace w).
Proof.
  intros Hp Hwf.
  assert (∀ R, HelloQuiet R → (∀ w g, R w (set_glob g w)) → R w w') as Hk.
  { intros R HR Hg. pose proof (keeps_parse_cmd R Hg argv w) as HRw. by rewrite Hp in HRw. }
  split_and!; [|apply (Hk (same (λ w : cs_world, entitled (trace w)))); [typeclasses eauto|done]
    |apply (Hk quiet); [typeclasses eauto|done]].
  eapply grows_wf; [apply (Hk grows); [typeclasses eauto|intros; apply grows_set_glob]|done].
Qed.

(** The result of the parse is the start of the rest. *)
Lemma wp_main {L fuel argv} E o w w1 Q :
  parse_cmd argv w = (Ok (0, o), w1) →
  wp E (r ← init_context L (send_recv_type o);
        match r with
        | inl ret => mret ret
        | inr (ucp_context, ucp_worker) =>
            ret ← match server_addr o with
                  | None => run_server L fuel ucp_context ucp_worker (listen_addr o) (send_recv_type o)
                  | Some _ => run_client L fuel ucp_worker (server_addr o) (send_recv_type o)
                  end;
            call L (ucp_worker_destroy ucp_worker);;
            call L (ucp_cleanup ucp_context);;
            mret ret
        end) Q w1 →
  wp E (main L fuel argv) Q w.
Proof.
  intros Hp Hw. unfold main. apply wp_bind. unfold wp at 1. rewrite Hp. exact Hw.
Qed.

(** What the command line must say for the client theorems: a server to
    connect to, stream or tag matching, buffers of at least the 16 bytes that
    are printed, counters that do not overflow. *)
Record client_setup (t : ucs_memory_type_t) (n len : nat) (o : options) (g : cs_glob) : Prop := {
  cl_addr : server_addr o ≠ None;
  cl_type : send_recv_type o = CLIENT_SERVER_SEND_RECV_STREAM ∨
            send_recv_type o = CLIENT_SERVER_SEND_RECV_TAG;
  cl_conf : cs_conf t n len g;
  cl_print : (16 ≤ len)%nat;
  cl_iter : - 2 ^ 31 < g_num_iterations g < 2 ^ 31 - 2;
}.

(** Where the rest of main starts. *)
Lemma parsed_ok argv o w1 t n len :
  parse_cmd argv cs_init_world = (Ok (0, o), w1) → cs_conf t n len (glob w1) →
  (16 ≤ len)%nat → - 2 ^ 31 < g_num_iterations (glob w1) < 2 ^ 31 - 2 →
  idle0 t 0 n len w1 ∧ listeners (trace w1) = [] ∧ heap w1 = ∅ ∧
  (g_ai_family (glob w1) = AF_INET ∨ g_ai_family (glob w1) = AF_INET6) ∧
  transcript (trace w1) = [].
Proof.
  intros Hp Hc Hpr Hit.
  assert (wf_mem cs_init_world) as Hwf0 by (intros b _; apply lookup_empty).
  destruct (parse_cmd_quiet _ _ _ _ Hp Hwf0) as (Hwf & [= E1 E2 E3] & HT).
  assert (heap w1 = ∅ ∧ conf_ok (glob w1)) as [Hh Hok].
  { pose proof (parse_cmd_ok (λ _ _, True) argv cs_init_world
      (λ r w', r.1 = 0 → heap w' = ∅ ∧ conf_ok (glob w')) init_conf_ok) as Hx.
    unfold wp in Hx. rewrite Hp in Hx. apply Hx; [by intros|..|done].
    intros ret s w' _ Hret Hz. by destruct (error_code_nonzero ret Hret). }
  split_and!; [|done|done|apply Hok|done].
  split; [|done]. split; try done. intros arg l. rewrite E3. apply not_elem_of_nil.
Qed.

Lemma main_client_ok (L : cs_lib) fuel argv o w1 t n len E :
  mem_usable L t → polite L → sane_clock L → bounded_or_oom L fuel E →
  parse_cmd argv cs_init_world = (Ok (0, o), w1) → client_setup t n len o (glob w1) →
  wp E (main L fuel argv)
     (λ r w', heap w' = ∅ ∧ pending (trace w') = [] ∧
        (r = 0 → transcript (trace w') =
           work_transcript n len false (g_num_iterations (glob w1)))) cs_init_world.
Proof.
  intros Hm HL Hcl HE Hp [Haddr Hty Hc Hpr Hit].
  destruct (parsed_ok _ _ _ _ _ _ Hp Hc Hpr Hit) as (Hid & Hls & Hh & Hf & HT).
  eapply wp_main; [exact Hp|].
  eapply (client_ok L t Hm HL Hcl fuel n len E HE o w1); [done..|].
  intros r w' [Hh' _ _ Hpe _] Hr. rewrite Hh', Hh, Hpe. split_and!; [done|done|].
  intros Hz. rewrite (Hr Hz), HT. apply app_nil_r.
Qed.
End program.
