(* ===== verification/Server.v ===== *)
(** * Memory safety of the server

    The server over stream or tag matching, from the command line on: what a
    connection request does to run_server's context, one round of the loop over
    the clients, and the whole of run_server. It has two workers: connection
    requests come in on the first, the data of a client on the second. *)

From S2P Require Import Prelude CRuntime CLib Ucx HelloUtil CsApi Iov SockAddr.
From S2P Require Import Callbacks Request SendRecv Options ClientServer Messages.
From S2P Require Import Outside Exchange Client.
Open Scope Z_scope.

(** Some worker has no listener. *)
Lemma free_worker (ls : list (Z * ptr * Z)) : ∃ k, ∀ arg l, (k, arg, l) ∉ ls.
Proof.
  exists (1 + foldr Z.max 0 ((λ y, y.1.1) <$> ls)). intros arg l Hin.
  assert (1 + foldr Z.max 0 ((λ y, y.1.1) <$> ls) ∈ (λ y, y.1.1) <$> ls) as Hin'.
  { apply list_elem_of_fmap. by exists (1 + foldr Z.max 0 ((λ y, y.1.1) <$> ls), arg, l). }
  apply below_max in Hin'. lia.
Qed.

Ltac rest_call Hrest HT :=
  lazymatch goal with
  | |- wp _ (call _ ?c) _ _ => eapply (Hrest c); [exact HT|done..|]
  end.

Section server.
Context `{!Ucs, !Ucp, !Cuda} (L : cs_lib) (t : ucs_memory_type_t).
Context (Hm : mem_usable L t) (HL : polite L) (Hclock : sane_clock L).
Context (fuel n len : nat) (E : halt → cs_world → Prop) (HE : bounded_or_oom L fuel E).
Context (ty : send_recv_type_t).
Context (Hty : ty = CLIENT_SERVER_SEND_RECV_STREAM ∨ ty = CLIENT_SERVER_SEND_RECV_TAG).
Implicit Types (w : cs_world).

(** The configuration, the rest of the heap, and the block of [context]. *)
Context (g0 : cs_glob) (Hc : cs_conf t n len g0) (Hpr : (16 ≤ len)%nat).
Context (Hit : - 2 ^ 31 < g_num_iterations g0 < 2 ^ 31 - 2).
Context (h0 : gmap N (obj (a_cell cs_api))) (sb : N).

(** The server may wait for ever between two messages. *)
Definition waiting w : Prop :=
  pending (trace w) = [] ∧ registered (trace w) = false ∧
  ∃ c l, heap w = <[sb := Cell KStack (CSrv (Some c) (Some l))]> h0.
Context (HF : ∀ w, waiting w → E NoFuel w).

(** Nothing is under way; [context] holds [x], the listeners are [ls], and the
    transfers so far are [T]. *)
Record at_rest (x : cs_cell) (ls : list (Z * ptr * Z)) (T : list transfer) w : Prop := {
  ar_heap : heap w = <[sb := Cell KStack x]> h0;
  ar_wf : wf_mem w;
  ar_conf : conf (glob w) = conf g0;
  ar_pending : pending (trace w) = [];
  ar_rest : rest (trace w) = (false, ls);
  ar_transcript : transcript (trace w) = T;
}.

Lemma at_rest_unchanged x ls T T' w w' :
  at_rest x ls T w → unchanged w w' → transcript (trace w') = T' → at_rest x ls T' w'.
Proof using. intros [] [] ?. split; first [done|congruence]. Qed.

Lemma at_rest_same x ls T w : at_rest x ls T w → unchanged w w.
Proof using. by intros []. Qed.

Lemma at_rest_out x ls T w s f l : at_rest x ls T w → at_rest x ls T (push (EOut s f l) w).
Proof using. by intros []. Qed.

Lemma at_rest_iterations x ls T w :
  at_rest x ls T w → g_num_iterations (glob w) = g_num_iterations g0.
Proof using. intros [_ _ Hcf _ _ _]. unfold conf in Hcf. by injection Hcf. Qed.

(** A worker without a listener is free for an exchange. *)
Lemma at_rest_idle k x ls T w :
  at_rest x ls T w → (∀ arg l, (k, arg, l) ∉ ls) → idle0 t k n len w.
Proof using Hc Hpr Hit.
  intros Har Hk. pose proof (at_rest_iterations _ _ _ _ Har) as Hn.
  destruct Har as [Hh Hwf Hcf Hp Hr HT]. unfold rest in Hr. injection Hr as Hr Hls.
  split; [|done]. split; [by eapply cs_conf_conf|done|by rewrite Hn|done|done|].
  by rewrite Hls.
Qed.

(** A call between two exchanges that starts nothing and makes no progress. *)
Lemma call_at_rest_raw c x ls ls' T w (Q : cs_ret c → cs_world → Prop) :
  at_rest x ls T w → lends c = [] → (∀ k, c ≠ ucp_worker_progress k) →
  transfer_of c = None →
  (∀ r h, pending h = [] → pending (ECall c r :: h) = []) →
  (∀ r h, rest h = (false, ls) → rest (ECall c r :: h) = (false, ls' r)) →
  (∀ r w', at_rest x (ls' r) T w' → Q r w') → wp E (call L c) Q w.
Proof using All.
  intros Har Hle Hk Htr Hp Hr HQ. destruct (free_worker ls) as [k Hfree].
  apply (wp_with_keeps quiet); [by apply transcript_call|].
  eapply (idle_call_raw L t Hm HL fuel k n len); [by eapply at_rest_idle|done| |].
  { intros k' ->. by destruct (Hk k'). }
  intros r w' Hh Hwf Hcf [= E1 E2 E3] Hs. apply HQ. destruct Har as [Hh0 _ Hcf0 Hp0 Hr0 HT].
  split; [by rewrite <-Hh0|done|by rewrite <-Hcf0|apply Hp; congruence| |].
  - apply Hr. unfold rest in *. congruence.
  - unfold same in Hs. by rewrite <-HT.
Qed.

Lemma call_at_rest c x ls T w (Q : cs_ret c → cs_world → Prop) :
  at_rest x ls T w → lends c = [] → (∀ k, c ≠ ucp_worker_progress k) →
  transfer_of c = None →
  (∀ r h, pending h = [] → pending (ECall c r :: h) = []) →
  (∀ r h, rest (ECall c r :: h) = rest h) →
  (∀ r w', at_rest x ls T w' → Q r w') → wp E (call L c) Q w.
Proof using All.
  intros ? ? ? ? ? Hr ?. eapply (call_at_rest_raw c x ls (λ _, ls)); try done.
  intros r h. by rewrite Hr.
Qed.

(** Opening a listener, and closing it. *)
Lemma listener_create_ok k mask sa arg x T w (Q : Z * Z → cs_world → Prop) :
  at_rest x [] T w →
  (∀ st l w', at_rest x (if st =? UCS_OK then [(k, arg, l)] else []) T w' → Q (st, l) w') →
  wp E (call L (ucp_listener_create k mask sa arg)) Q w.
Proof using All.
  intros Har HQ.
  apply (call_at_rest_raw (ucp_listener_create k mask sa arg) x []
    (λ r, if r.1 =? UCS_OK then [(k, arg, r.2)] else []) T); [done..| |].
  - unfold rest. simpl. intros r h [= -> ->]. by rewrite app_nil_r.
  - intros [st l] w' Har'. by apply HQ.
Qed.

Lemma listener_destroy_ok k arg l x T w (Q : () → cs_world → Prop) :
  at_rest x [(k, arg, l)] T w → (∀ w', at_rest x [] T w' → Q tt w') →
  wp E (call L (ucp_listener_destroy l)) Q w.
Proof using All.
  intros Har HQ.
  apply (call_at_rest_raw (ucp_listener_destroy l) x [(k, arg, l)] (λ _, []) T); [done..| |].
  - unfold rest. simpl. intros r h [= -> ->]. rewrite filter_cons_False; [done|]. by intros [].
  - intros [] w' Har'. by apply HQ.
Qed.

(** ** Connection requests *)

Context (uw dw : Z) (Hdw : dw ≠ uw).

(** The server waits for a client, [c] = 0, or serves the one of request [c]. *)
Definition serving (c l : Z) (T : list transfer) : cs_world → Prop :=
  at_rest (CSrv (Some c) (Some l)) [(uw, Loc sb 0, l)] T.

Lemma serving_waiting c l T w : serving c l T w → waiting w.
Proof using.
  intros [Hh _ _ Hp Hr _]. unfold rest in Hr. injection Hr as Hr _.
  split_and!; [done|done|by exists c, l].
Qed.

(** A connection request is kept if there was none, and rejected otherwise. *)
Lemma conn_ok req c l T w (Q : Z → cs_world → Prop) :
  serving c l T w → req ≠ 0 →
  (∀ w', serving (if c =? 0 then req else c) l T w' → Q 0 w') →
  wp E (handler L (Cb_conn req (Loc sb 0))) Q w.
Proof using All.
  intros Har Hreq HQ. pose proof Har as [Hh Hwf Hcf Hp Hr HT].
  apply wp_bind, (wp_with_keeps grows); [solve_keeps|].
  apply (wp_with_keeps (same (λ w : cs_world, entitled (trace w)))); [solve_keeps|].
  apply (wp_with_keeps quiet); [solve_keeps|].
  assert (heap w !! sb = Some (Cell KStack (CSrv (Some c) (Some l)))) as Hb
    by (rewrite Hh; apply lookup_insert_eq).
  assert (∀ w' x, heap w' = <[sb := Cell KStack x]> (heap w) → glob w' = glob w →
    transcript (trace w') = transcript (trace w) → entitled (trace w') = entitled (trace w) →
    grows w w' → at_rest x [(uw, Loc sb 0, l)] T w') as Hend.
  { intros w' x Hh' Hg' HT' [= E1 E2 E3] Hgr.
    split; [|by eapply grows_wf|by rewrite Hg'|by rewrite E1|unfold rest in *; congruence|congruence].
    by rewrite Hh', Hh, insert_insert_eq. }
  destruct (Z.eqb_spec c 0) as [->|Hne].
  - eapply conn_first_ok; [exact Hb|]. intros w' Hh' Hg' _ HT' He Hgr.
    by apply wp_ret, HQ, Hend.
  - eapply conn_other_ok; [exact Hb|done|]. intros w' Hh' Hg' _ HT' He Hgr.
    apply wp_ret, HQ, Hend; try done. by rewrite Hh', insert_id.
Qed.

(** Progress of the worker of the listener. *)
Lemma conn_progress_ok c l T w (Q : Z → cs_world → Prop) :
  serving c l T w → (∀ r c' w', serving c' l T w' → (c ≠ 0 → c' = c) → Q r w') →
  wp E (call L (ucp_worker_progress uw)) Q w.
Proof using All.
  intros Har HQ. unfold call. apply wp_ext.
  assert (pending (trace w) = [] ∧ registered (trace w) = false ∧
    listeners (trace w) = [(uw, Loc sb 0, l)]) as (Hp & Hreg & Hls).
  { destruct Har as [_ _ _ ? Hr _]. unfold rest in Hr. by injection Hr as -> ->. }
  apply wp_run_acts with (P := λ xs w', Forall (legal (trace w) (ucp_worker_progress uw)) xs ∧
    ∃ c', serving c' l T w' ∧ (c ≠ 0 → c' = c)).
  - split; [apply HL|]. by exists c.
  - intros x xs w' [[Hx Hxs]%Forall_cons_1 (c' & Hc' & Hcc)].
    destruct x as [cb|p bs]; simpl in Hx; rewrite ?Hp in Hx.
    + destruct cb as [st ud|st ud|st ln ud|st ln ud|st|req arg|hl d ln attr];
        try by destruct Hx as (o & Ho%not_elem_of_nil & _).
      * apply wp_bind, wp_bind, wp_bind, wp_fprintf, wp_mod_glob, wp_ret, wp_emit.
        split; [done|]. exists c'. split; [|done]. by destruct Hc'.
      * destruct Hx as (k & l' & Hk & Hin & Hreq). rewrite Hls in Hin.
        apply list_elem_of_singleton in Hin. simplify_eq. apply wp_bind.
        eapply conn_ok; [exact Hc'|done|]. intros w'' Hw''. apply wp_emit. split; [done|].
        eexists. split; [by destruct Hw''|]. intros Hne. rewrite (Hcc Hne).
        by rewrite (proj2 (Z.eqb_neq _ _)).
      * destruct Hx as [Hr _]. congruence.
    + exfalso. destruct Hx as [(b & base & m & k & Hin & _)|(o & Ho & _)];
        by eapply not_elem_of_nil.
  - intros w' (_ & c' & Hc' & Hcc). eapply HQ; [|exact Hcc]. by destruct Hc'.
Qed.

(** Reading and resetting context.conn_request. *)
Lemma read_srv_ok c l T w (Q : option Z * option Z → cs_world → Prop) :
  serving c l T w → Q (Some c, Some l) w → wp E (read_srv (Loc sb 0)) Q w.
Proof using.
  intros [Hh _ _ _ _ _] HQ. apply wp_bind.
  eapply wp_read_cell; [by rewrite Hh, lookup_insert_eq|]. by apply wp_ret.
Qed.

Lemma set_cell_ok x y f why ls T w (Q : () → cs_world → Prop) :
  at_rest x ls T w → f x = Some y → (∀ w', at_rest y ls T w' → Q tt w') →
  wp E (update_cell why (Loc sb 0) f) Q w.
Proof using. clear HF.
  intros Har Hf HQ. pose proof Har as [Hh Hwf Hcf Hp Hr HT].
  assert (heap w !! sb = Some (Cell KStack x)) as Hsb by (rewrite Hh; apply lookup_insert_eq).
  eapply wp_update_cell; [exact Hsb|exact Hf|]. apply HQ.
  split; [simpl; by rewrite Hh, insert_insert_eq| |done..].
  intros b Hb. simpl in *. rewrite lookup_insert_ne; [by apply Hwf|].
  intros ->. by rewrite Hwf in Hsb.
Qed.

(** ** One client *)

(** The loop that waits for a connection request. *)
Lemma accept_ok c l T w (Q : () → cs_world → Prop) :
  serving c l T w → (∀ c' w', c' ≠ 0 → serving c' l T w' → Q tt w') →
  wp E (while fuel
    ('(conn_request, _) ← read_srv (Loc sb 0);
     c ← the "uninitialised conn_request" conn_request;
     mret (c =? 0))
    (_ ← call L (ucp_worker_progress uw); mret tt)) Q w.
Proof using All.
  intros Har HQ. apply wp_while with (I := λ w', ∃ c', serving c' l T w');
    [by exists c|intros w1 [c1 H1c]; apply HF; by eapply serving_waiting|].
  intros w1 [c1 H1c]. apply wp_bind. eapply read_srv_ok; [exact H1c|].
  apply wp_bind, wp_ret, wp_ret. destruct (Z.eqb_spec c1 0) as [->|Hne].
  - apply wp_bind. eapply conn_progress_ok; [exact H1c|]. intros r c2 w2 H2c _.
    apply wp_ret. by exists c2.
  - by eapply HQ.
Qed.

(** What the data worker does in between leaves the server as it is. *)
Lemma serving_idle c l T w : serving c l T w → idle0 t dw n len w.
Proof using All.
  intros Har. eapply at_rest_idle; [exact Har|]. intros arg l' Hin.
  apply list_elem_of_singleton in Hin. congruence.
Qed.

(** The transfers with one client, from the iterations to the FIN message. *)
Definition client_transcript : list transfer :=
  work_transcript n len true (g_num_iterations g0).

Lemma served_ok ep c l T w (Q : Z → cs_world → Prop) :
  serving c l T w →
  (∀ w', serving c l (client_transcript ++ T) w' → Q 0 w') →
  (∀ T' w', serving c l T' w' → Q (-1) w') →
  wp E (client_server_do_work L fuel dw ep ty true) Q w.
Proof using All.
  intros Har Hok Hfail. eapply wp_also; [apply do_work_result|].
  eapply (do_work_ok L t Hm HL fuel dw n len ty Hty E HE w);
    [by eapply serving_idle|exact Hclock|split; [by eapply at_rest_same|by apply Har]
    |intros _ w' Hu'; apply HF; eapply serving_waiting; by eapply at_rest_unchanged|].
  intros r w' Hu Hr Hres. rewrite (at_rest_iterations _ _ _ _ Har) in Hr.
  destruct Hres as [-> | ->].
  - apply Hok. destruct (Hr eq_refl) as [_ HT]. by eapply at_rest_unchanged.
  - eapply Hfail. by eapply at_rest_unchanged.
Qed.

Lemma ep_closed_ok ep flags c l T w (Q : () → cs_world → Prop) :
  serving c l T w → (∀ w', serving c l T w' → Q tt w') →
  wp E (ep_close L fuel dw ep flags) Q w.
Proof using All.
  intros Har HQ. apply (wp_with_keeps quiet); [apply transcript_ep_close|].
  eapply (ep_close_ok L t Hm HL fuel dw n len ty Hty E HE w);
    [by eapply serving_idle|exact Hclock|by eapply at_rest_same|].
  intros w' Hu Hs. apply HQ. eapply at_rest_unchanged; [exact Har|exact Hu|].
  unfold same in Hs. rewrite Hs. apply Har.
Qed.

(** Where a round may jump to. *)
Definition goes_to (lab : label) : Prop :=
  lab = err_listener (Loc sb 0) ∨ ∃ ep, lab = err_ep ep (Loc sb 0).

Lemma serve_ok c l T w (Q : () + Z * label → cs_world → Prop) :
  serving c l T w →
  (∀ w', serving 0 l (client_transcript ++ T) w' → Q (inl tt) w') →
  (∀ lab c' T' w', goes_to lab → serving c' l T' w' → Q (inr (-1, lab)) w') →
  wp E (serve L fuel uw dw (Loc sb 0) ty) Q w.
Proof using All.
  intros Har Hok Hfail. unfold serve, server_create_ep, set_conn_request.
  apply wp_bind. eapply accept_ok; [exact Har|]. intros c1 w1 Hne H1c.
  apply wp_bind. eapply read_srv_ok; [exact H1c|]. apply wp_bind, wp_ret.
  do 2 apply wp_bind. rest_call call_at_rest H1c. intros [status ep] w2 H2c.
  apply wp_bind, wp_conseq with (Q := λ _ w', serving c1 l T w').
  { apply wp_when; intros _; [apply wp_fprintf; by apply at_rest_out|done]. }
  intros [] w3 H3c. apply wp_ret. destruct (negb (status =? UCS_OK)).
  { apply wp_ret. eapply Hfail; [by left|exact H3c]. }
  apply wp_bind. eapply served_ok; [exact H3c|..].
  - intros w4 H4c. cbn [Z.eqb negb]. apply wp_bind. eapply ep_closed_ok; [exact H4c|].
    intros w5 H5c. apply wp_bind. eapply set_cell_ok; [exact H5c|done|]. intros w6 H6c.
    apply wp_bind, wp_fprintf, wp_ret, Hok. by apply at_rest_out.
  - intros T' w4 H4c. cbn [Z.eqb negb]. apply wp_ret. eapply Hfail; [|exact H4c].
    right. by exists ep.
Qed.

(** ** From the listener to the end *)

Lemma cleanup_ok lab c l T w (Q : () → cs_world → Prop) :
  serving c l T w → goes_to lab →
  (∀ w', at_rest (CSrv (Some c) (Some l)) [] T w' → Q tt w') →
  wp E (cleanup L fuel dw lab) Q w.
Proof using All.
  intros Har Hlab HQ.
  assert (∀ w', serving c l T w' →
    wp E (destroy_listener L (Loc sb 0);; call L (ucp_worker_destroy dw)) Q w') as Hend.
  { intros w1 H1c. do 2 apply wp_bind. eapply read_srv_ok; [exact H1c|]. apply wp_bind, wp_ret.
    eapply listener_destroy_ok; [exact H1c|]. intros w2 H2r. rest_call call_at_rest H2r.
    intros [] w3 H3r. by apply HQ. }
  destruct Hlab as [->|[ep ->]]; [by apply Hend|].
  apply wp_bind. eapply ep_closed_ok; [exact Har|]. intros w1 H1c. by apply Hend.
Qed.

Lemma start_server_ok s T w (Q : Z → cs_world → Prop) :
  g_ai_family g0 = AF_INET ∨ g_ai_family g0 = AF_INET6 →
  at_rest (CSrv (Some 0) None) [] T w →
  (∀ l w', serving 0 l T w' → Q UCS_OK w') →
  (∀ st x w', st ≠ UCS_OK → at_rest x [] T w' → Q st w') →
  wp E (start_server L uw (Loc sb 0) s) Q w.
Proof using All.
  intros Hf Har Hok Hfail. unfold start_server, set_listener. apply wp_bind.
  apply (wp_with_keeps quiet).
  { apply keeps_set_sock_addr; [typeclasses eauto|]. intros. by apply cq_call. }
  assert (g_ai_family (glob w) = g_ai_family g0) as Hfw.
  { pose proof (ar_conf _ _ _ _ Har) as Hcf. unfold conf in Hcf. by injection Hcf. }
  eapply (sock_addr_idle L t Hm HL fuel dw n len ty Hty E HE w);
    [eapply at_rest_idle; [exact Har|by intros ? ? ?%not_elem_of_nil]|exact Hclock
    |by eapply at_rest_same|by rewrite Hfw|].
  intros sa w1 Hu1 Hs1.
  assert (at_rest (CSrv (Some 0) None) [] T w1) as H1r.
  { eapply at_rest_unchanged; [exact Har|exact Hu1|]. unfold same in Hs1. rewrite Hs1. apply Har. }
  apply wp_bind. eapply listener_create_ok; [exact H1r|]. intros st l w2 H2r.
  destruct (Z.eqb_spec st UCS_OK) as [->|Hst]; cbn [negb].
  2:{ apply wp_bind, wp_fprintf, wp_ret. eapply Hfail; [done|]. by apply at_rest_out. }
  apply wp_bind. eapply set_cell_ok; [exact H2r|done|]. intros w3 H3r.
  apply wp_bind. rest_call call_at_rest H3r. intros [st sockaddr] w4 H4r.
  destruct (Z.eqb_spec st UCS_OK) as [->|Hst]; cbn [negb].
  - apply wp_bind, wp_conseq with (Q := λ _ w', serving 0 l T w').
    { unfold sockaddr_get_ip_str. repeat case_match;
        try (apply wp_ret; exact H4r); apply (wp_ext0 L _ (inet_ntop _ _ _)); by destruct H4r. }
    intros ip w5 H5r. apply wp_bind, wp_fprintf, wp_bind, wp_fprintf, wp_ret, (Hok l).
    by do 2 apply at_rest_out.
  - apply wp_bind, wp_fprintf, wp_bind.
    eapply listener_destroy_ok; [apply at_rest_out; exact H4r|]. intros w5 H5r.
    apply wp_ret. by eapply Hfail.
Qed.
End server.

(** ** run_server *)

Section run.
Context `{!Ucs, !Ucp, !Cuda} (L : cs_lib) (t : ucs_memory_type_t).
Context (Hm : mem_usable L t) (HL : polite L) (Hclock : sane_clock L) (Hfresh : fresh_workers L).
Context (fuel n len : nat) (E : halt → cs_world → Prop) (HE : bounded_or_oom L fuel E).
Context (ty : send_recv_type_t).
Context (Hty : ty = CLIENT_SERVER_SEND_RECV_STREAM ∨ ty = CLIENT_SERVER_SEND_RECV_TAG).
Implicit Types (w : cs_world).

(** The server never returns 0, and gives back everything it took. *)
Lemma run_server_ok ctx uw s w0 T w (Q : Z → cs_world → Prop) :
  idle0 t 0 n len w0 → listeners (trace w0) = [] →
  g_ai_family (glob w0) = AF_INET ∨ g_ai_family (glob w0) = AF_INET6 →
  (∀ sb w', waiting (heap w0) sb w' → E NoFuel w') →
  talk w0 T w → uw ∈ live_workers (trace w) →
  (∀ w', unchanged w0 w' → Q (-1) w') →
  wp E (run_server L fuel ctx uw s ty) Q w.
Proof using All.
  intros [[Hc Hpr Hit Hwf0 Hp0 Hconn] Hreg0] Hls0 Hf HF [[Hh Hwf Hcf Hp Hr] HT] Huw HQ.
  apply wp_local; [done|]. intros sb Hnext Hsb.
  match goal with |- wp _ _ _ ?w => set (w1 := w) end.
  assert (at_rest (glob w0) (heap w0) sb (CSrv None None) [] T w1) as H1r.
  { split; [simpl; by rewrite Hh| |done..|unfold w1; simpl; by rewrite Hr; unfold rest; rewrite Hreg0, Hls0|done].
    intros b Hb. simpl in *. rewrite lookup_insert_ne by lia. apply Hwf. lia. }
  assert (uw ∈ live_workers (trace w1)) as Huw1 by done. clearbody w1.
  assert (∀ x T' w', at_rest (glob w0) (heap w0) sb x [] T' w' →
    Q (-1) (set_heap (delete sb (heap w')) w')) as Hend.
  { intros x T' w' [Hh' Hwf' Hcf' Hp' Hr' _]. apply HQ. rewrite Hh in Hsb.
    split; [simpl; by rewrite Hh', delete_insert_id| |done|done|].
    - intros b Hb. simpl in *. rewrite lookup_delete_None. right. by apply Hwf'.
    - simpl. rewrite Hr'. unfold rest. by rewrite Hreg0, Hls0. }
  clear Hh Hwf Hcf Hp Hr HT Hsb Hnext w Huw.
  pose proof (call_at_rest L t Hm HL Hclock fuel n len E HE ty Hty (glob w0) Hc Hpr Hit
                (heap w0) sb (HF sb)) as Hrest.
  unfold init_worker. do 2 apply wp_bind. answering live_workers.
  rest_call Hrest H1r.
  intros [st dw] w2 H2r (h & Hlive & Hans & _).
  destruct (st =? UCS_OK); cbn [negb].
  2:{ apply wp_bind, wp_fprintf, wp_ret. cbv beta iota.
      rewrite (proj2 (Z.eqb_neq _ _)) by lia. cbn [negb].
      apply wp_bind, wp_ret. cbn [cleanup]. apply wp_bind, wp_ret, wp_ret.
      eapply Hend. apply at_rest_out. exact H2r. }
  assert (dw ≠ uw) as Hdw.
  { pose proof (Hfresh h ctx UCP_WORKER_PARAM_FIELD_THREAD_MODE) as Hf'. cbv zeta in Hf'.
    rewrite <-Hans in Hf'. simpl in Hf'. congruence. }
  apply wp_ret. cbv beta iota. cbn [Z.eqb negb]. apply wp_bind.
  rewrite bool_decide_eq_false_2 by (by destruct Hty as [-> | ->]).
  apply wp_bind, wp_ret. rewrite Z.eqb_refl. cbn [negb].
  apply wp_bind. eapply set_cell_ok; [exact H2r|done|]. intros w3 H3r.
  apply wp_bind.
  eapply (start_server_ok L t Hm HL Hclock fuel n len E HE ty Hty (glob w0) Hc Hpr Hit
            (heap w0) sb (HF sb) uw dw Hdw); [exact Hf|exact H3r|..].
  2:{ intros st' x w4 Hst H4r. rewrite (proj2 (Z.eqb_neq _ _)) by done. cbn [negb].
      apply wp_ret. cbv beta iota. apply wp_bind. cbn [cleanup].
      rest_call Hrest H4r.
      intros [] w5 H5r. apply wp_ret. by eapply Hend. }
  intros l w4 H4c. rewrite Z.eqb_refl. cbn [negb].
  apply wp_loop with (I := λ _ w', ∃ T', serving (glob w0) (heap w0) sb uw 0 l T' w');
    [by exists T|intros _ w5 [T5 H5c]; apply (HF sb); by eapply serving_waiting|].
  intros [] w5 [T5 H5c].
  eapply (serve_ok L t Hm HL Hclock fuel n len E HE ty Hty (glob w0) Hc Hpr Hit
            (heap w0) sb (HF sb) uw dw Hdw); [exact H5c|eauto|].
  intros lab c' T' w6 Hlab H6c. apply wp_bind.
  eapply (cleanup_ok L t Hm HL Hclock fuel n len E HE ty Hty (glob w0) Hc Hpr Hit
            (heap w0) sb (HF sb) uw dw Hdw); [exact H6c|exact Hlab|].
  intros w7 H7r. apply wp_ret. by eapply Hend.
Qed.
End run.

(** ** The whole program as a server *)

Section program.
Context `{!Ucs, !Ucp, !Cuda}.

(** What the command line must say: no -a; otherwise as for the client. *)
Record server_setup (t : ucs_memory_type_t) (n len : nat) (o : options) (g : cs_glob) : Prop := {
  sv_addr : server_addr o = None;
  sv_type : send_recv_type o = CLIENT_SERVER_SEND_RECV_STREAM ∨
            send_recv_type o = CLIENT_SERVER_SEND_RECV_TAG;
  sv_conf : cs_conf t n len g;
  sv_print : (16 ≤ len)%nat;
  sv_iter : - 2 ^ 31 < g_num_iterations g < 2 ^ 31 - 2;
}.

Lemma main_server_ok (L : cs_lib) fuel argv o w1 t n len E :
  mem_usable L t → polite L → sane_clock L → fresh_workers L → bounded_or_oom L fuel E →
  (∀ sb w, waiting ∅ sb w → E NoFuel w) →
  parse_cmd argv cs_init_world = (Ok (0, o), w1) → server_setup t n len o (glob w1) →
  wp E (main L fuel argv)
     (λ _ w', heap w' = ∅ ∧ pending (trace w') = [] ∧ listeners (trace w') = [])
     cs_init_world.
Proof.
  intros Hm HL Hcl Hfr HE HF Hp [Haddr Hty Hc Hpr Hit].
  destruct (parsed_ok _ _ _ _ _ _ Hp Hc Hpr Hit) as (Hid & Hls & Hh & Hf & HT).
  eapply wp_main; [exact Hp|]. rewrite Haddr.
  eapply (around_role_ok L t Hm HL fuel n len E HE _
    (λ ctx uw, run_server L fuel ctx uw (listen_addr o) (send_recv_type o)) []);
    [exact Hty|exact Hid|exact Hls| |].
  - intros ctx uw w2 Q2 HT2 Huw HQ2.
    eapply (run_server_ok L t Hm HL Hcl Hfr fuel n len E HE _ Hty); [done..| |exact HT2|exact Huw|].
    { intros sb w'. rewrite Hh. apply HF. }
    intros w3 Hu3. by apply HQ2.
  - intros r w' [Hh' _ _ Hpe Hre] _. rewrite Hh', Hh, Hpe. split_and!; [done|done|].
    unfold rest in Hre. rewrite Hls in Hre. by injection Hre.
Qed.
End program.
