(* ===== verification/AmCount.v ===== *)
(** * Active messages that are received

    A server that receives active messages waits in each iteration until its handler
    has accepted a message of the expected length. [accepted] counts these in the
    history; for every behaviour of the library, each iteration that succeeds uses
    up one of them. Several messages that come at once use up only one iteration:
    the flag am_data_desc.complete says that there was a message, not how many. *)

From S2P Require Import Prelude CRuntime CLib Ucx HelloUtil CsApi Iov SockAddr.
From S2P Require Import Callbacks Request SendRecv Options ClientServer Client.
Open Scope Z_scope.

(** The active messages of [k] bytes that were handed to the handler. *)
Fixpoint accepted (k : Z) (h : history cs_api) : Z :=
  match h with
  | [] => 0
  | ECb cb _ :: h' =>
      match cb with
      | Cb_am_data _ _ len _ => if len =? k then accepted k h' + 1 else accepted k h'
      | _ => accepted k h'
      end
  | _ :: h' => accepted k h'
  end.

(** Is a message waiting to be used? *)
Definition am_waiting (g : cs_glob) : Z := if am_complete (g_am_data_desc g) =? 0 then 0 else 1.

Section gains.
Context `{!Ucs, !Ucp, !Cuda} (L : cs_lib) (fuel : nat) (k : Z).
Implicit Types (w : cs_world).

(** Messages of [k] bytes are the expected ones. *)
Definition tuned w : Prop := u64 (g_iov_cnt (glob w) * g_test_string_length (glob w)) = k.

(** The messages that were used. *)
Definition used w : Z := accepted k (trace w) - am_waiting (glob w).

(** [m] uses up at least [d a] messages. *)
Definition gains {A} (m : CM A) (d : A → Z) : Prop := ∀ w, tuned w →
  wp (λ _ _, True) m (λ a w', tuned w' ∧ used w + d a ≤ used w') w.

(** What is not changed by what is neither a callback nor an assignment. *)
Definition am_view w : Z * Z * (Z * Z) :=
  (accepted k (trace w), am_waiting (glob w), (g_iov_cnt (glob w), g_test_string_length (glob w))).
Abbreviation still := (same am_view).

#[export] Instance still_hello : HelloQuiet still.
Proof. split; [split; [apply mem_blind_stable; [typeclasses eauto|by intros]|done..]|done]. Qed.

Lemma still_call0 c : keeps still (call0 L c).
Proof. by apply keeps_ext0. Qed.
Hint Resolve still_call0 : keeps.

Lemma still_used w w' : still w w' → tuned w → tuned w' ∧ used w' = used w.
Proof. unfold same, am_view, tuned, used. intros [= -> -> -> ->]. done. Qed.

#[local] Ltac count := split; [done|cbv beta in *; simpl in *; lia].

Lemma wp_any {A} (m : CM A) (Q : A → cs_world → Prop) w :
  (∀ a w', Q a w') → wp (λ _ _, True) m Q w.
Proof. intros HQ. unfold wp. destruct (m w) as [[a|h] w']; [apply HQ|done]. Qed.

Lemma gains_still {A} (m : CM A) : keeps still m → gains m (λ _, 0).
Proof.
  intros Hm w Hw. specialize (Hm w). unfold wp. destruct (m w) as [[a|h] w']; [|done].
  destruct (still_used _ _ Hm Hw). count.
Qed.

Lemma gains_ret {A} (a : A) d : d a ≤ 0 → gains (mret a) d.
Proof. intros Hd w Hw. apply wp_ret. count. Qed.

Lemma gains_bind_val {A B} (m : CM A) (f : A → CM B) c d :
  gains m c → (∀ a, gains (f a) (λ b, d b - c a)) → gains (m ≫= f) d.
Proof.
  intros Hm Hf w Hw. apply wp_bind. eapply wp_conseq; [by apply Hm|].
  intros a w' [Hw' Hu]. eapply wp_conseq; [by apply Hf|]. intros b w'' [? ?]. count.
Qed.

(** A first part that uses nothing up. *)
Lemma gains_skip {A B} (m : CM A) (f : A → CM B) d :
  gains m (λ _, 0) → (∀ a, gains (f a) d) → gains (m ≫= f) d.
Proof.
  intros Hm Hf. eapply gains_bind_val; [exact Hm|]. intros a w Hw.
  eapply wp_conseq; [by apply Hf|]. intros b w' [? ?]. count.
Qed.

Lemma gains_while n c b :
  gains c (λ _, 0) → gains b (λ _, 0) → gains (while n c b) (λ _, 0).
Proof.
  intros Hc Hb w Hw. apply wp_while with (I := λ w', tuned w' ∧ used w ≤ used w').
  - count.
  - done.
  - intros w1 [Hw1 Hu1]. eapply wp_conseq; [by apply Hc|]. intros [] w2 [Hw2 Hu2].
    + eapply wp_conseq; [by apply Hb|]. intros [] w3 [? ?]. count.
    + count.
Qed.

Lemma gains_local {X} o (body : ptr → CM X) d :
  (∀ p, gains (body p) d) → gains (local o body) d.
Proof.
  intros Hb w Hw. apply wp_local_raw. eapply wp_conseq; [by apply Hb|]. done.
Qed.

(** ** Callbacks *)

(** A callback that is not the handler of active messages assigns nothing here. *)
Lemma still_handler cb :
  (∀ hl d len a, cb ≠ Cb_am_data hl d len a) → keeps still (handler L cb).
Proof.
  intros Hcb.
  assert (∀ sa n, keeps still (sockaddr_get_ip_str L sa n)).
  { intros. apply keeps_get_ip_str; [typeclasses eauto|done]. }
  unfold handler, send_cb, tag_recv_cb, stream_recv_cb, am_recv_cb, err_cb, common_cb,
    server_conn_handle_cb, read_srv, set_conn_request, set_glb, printf.
  destruct cb; try solve_keeps. all: try (apply still_call0 || by apply keeps_mod_glob).
  all: exfalso; by eapply Hcb.
Qed.

(** A world in which the flag may be set on account of one more message. *)
Definition owed w w' : Prop :=
  accepted k (trace w') = accepted k (trace w) ∧
  (g_iov_cnt (glob w'), g_test_string_length (glob w')) =
    (g_iov_cnt (glob w), g_test_string_length (glob w)).

#[local] Instance owed_preorder : PreOrder owed.
Proof. split; [done|]. intros a b c [? ?] [? ?]. split; congruence. Qed.

#[local] Instance owed_hello : HelloQuiet owed.
Proof. split; [split; [apply mem_blind_stable; [typeclasses eauto|by intros]|done..]|done]. Qed.

Lemma owed_am_data hl d len a : keeps owed (ucp_am_data_cb L hl d len a).
Proof.
  assert (∀ f, keeps owed (set_am f)) by (intros f; by apply keeps_mod_glob).
  unfold ucp_am_data_cb, am_copy. solve_keeps.
Qed.

(** The handler changes the flag only for a message of the expected length. *)
Lemma am_data_wrong hl d len a w :
  tuned w → len ≠ k → wp (λ _ _, True) (ucp_am_data_cb L hl d len a) (λ _ w', still w w') w.
Proof.
  intros Hw Hne. unfold ucp_am_data_cb.
  apply wp_bind, wp_glb, wp_bind, wp_glb, wp_bind.
  apply wp_conseq with (Q := λ x w', w' = w ∧
    x = g_iov_cnt (glob w) * g_test_string_length (glob w)).
  { unfold c_long. destruct (_ && _); [by apply wp_ret|by apply wp_stop]. }
  intros x ? [-> ->]. unfold tuned in Hw. rewrite Hw, (proj2 (Z.eqb_neq _ _)) by done. simpl.
  apply wp_bind, wp_fprintf. by apply wp_ret.
Qed.

Lemma gains_act x : gains (run_act (handler L) x) (λ _, 0).
Proof.
  destruct x as [cb|p bs]; cbn [run_act].
  2:{ apply gains_still, keeps_bind; [typeclasses eauto|apply ms_write_mem|].
      intros ?. by apply keeps_emit. }
  assert ((∀ hl d len a, cb ≠ Cb_am_data hl d len a) ∨
    ∃ hl d len a, cb = Cb_am_data hl d len a) as [Hcb|(hl & d & len & a & ->)].
  { destruct cb; try (left; by intros). right. by do 4 eexists. }
  { eapply gains_skip; [by apply gains_still, still_handler|]. intros r.
    apply gains_still, keeps_emit. intros w. unfold same, am_view. simpl.
    destruct cb; try done. exfalso; by eapply Hcb. }
  intros w Hw. apply wp_bind. destruct (Z.eqb_spec len k) as [->|Hne].
  - apply (wp_with_keeps owed).
    { pose proof owed_am_data. unfold handler. destruct d; solve_keeps. }
    apply wp_any. intros r w1 [Ha Hg]. apply wp_emit.
    split; [unfold tuned; simpl; by injection Hg as -> ->|].
    unfold used. simpl. rewrite Z.eqb_refl, Ha. unfold am_waiting. repeat case_match; lia.
  - apply wp_conseq with (Q := λ _ w', still w w').
    { unfold handler. destruct d; [|by apply am_data_wrong]. apply wp_local_raw.
      eapply wp_conseq; [apply am_data_wrong; [exact Hw|done]|]. done. }
    intros r w1 Hs. destruct (still_used _ _ Hs Hw) as [Hw1 Hu]. apply wp_emit.
    split; [exact Hw1|]. revert Hu. unfold used. simpl.
    rewrite (proj2 (Z.eqb_neq _ _)) by done. lia.
Qed.

Lemma gains_call c : gains (call L c) (λ _, 0).
Proof.
  unfold call, ext. eapply gains_skip; [apply gains_still; solve_keeps|]. intros xs.
  eapply gains_skip with (m := run_acts _ _); [|intros []; apply gains_still, still_call0].
  induction xs as [|x xs IH]; simpl; [by apply gains_ret|].
  eapply gains_skip; [apply gains_act|]. by intros _.
Qed.

Lemma gains_progress wk : gains (_ ← call L (ucp_worker_progress wk); mret tt) (λ _, 0).
Proof. eapply gains_skip; [apply gains_call|]. intros. by apply gains_ret. Qed.

(** ** An iteration *)

Lemma gains_finalize wk r ctx s iov i :
  gains (request_finalize L fuel wk r ctx s iov i) (λ _, 0).
Proof.
  unfold request_finalize, request_wait. eapply gains_skip.
  - destruct (r =? 0); [by apply gains_ret|].
    destruct (UCS_PTR_IS_ERR r); [by apply gains_ret|].
    eapply gains_skip; [apply gains_while; [apply gains_still; solve_keeps|apply gains_progress]|].
    intros _. eapply gains_skip; [apply gains_call|]. intros st.
    eapply gains_skip; [apply gains_call|]. intros _. by apply gains_ret.
  - intros st. apply gains_still. solve_keeps.
Qed.

(** The wait for a message, which is then used up. *)
Lemma gains_wait {A} wk (m : CM A) :
  gains m (λ _, 0) →
  gains (while fuel
           (d ← glb g_am_data_desc; mret (am_complete d =? 0))
           (_ ← call L (ucp_worker_progress wk); mret tt);;
         set_am (am_with_complete 0);; m) (λ _, 1).
Proof.
  intros Hm w Hw. apply wp_bind, wp_while with (I := λ w', tuned w' ∧ used w ≤ used w');
    [count|done|].
  intros w1 [Hw1 Hu1]. apply wp_bind, wp_bind, wp_glb, wp_ret.
  destruct (am_complete _ =? 0) eqn:Hc.
  - eapply wp_conseq; [by apply gains_progress|]. intros [] w2 [? ?]. count.
  - apply wp_bind, wp_mod_glob. eapply wp_conseq; [by apply Hm|]. intros r w2 [Hw2 Hu2].
    split; [exact Hw2|]. revert Hu1 Hu2. unfold used, am_waiting. simpl. rewrite Hc. lia.
Qed.

Lemma gains_recv_am wk ep i :
  gains (send_recv_am L fuel wk ep true i) (λ ret, if ret =? 0 then 1 else 0).
Proof.
  apply gains_local. intros ctx.
  do 3 (eapply gains_skip; [apply gains_still; solve_keeps|]; intros ?).
  match goal with |- gains (match ?r with _ => _ end) _ => destruct r as [[[msg len] p]|] end;
    [|by apply gains_ret].
  eapply gains_bind_val with (c := λ _, 1).
  - eapply gains_skip; [apply gains_still; by apply keeps_mod_glob|]. intros _.
    apply gains_wait. eapply gains_skip; [apply gains_still; solve_keeps|]. intros d.
    destruct (negb _); [|by apply gains_ret].
    eapply gains_skip; [apply gains_still; solve_keeps|]. intros m.
    refine (gains_call (ucp_am_recv_data_nbx _ _ _ _)).
  - intros r w Hw. eapply wp_conseq; [by apply gains_finalize|]. intros ret w' [? ?].
    split; [done|]. cbv beta in *. destruct (ret =? 0); lia.
Qed.

(** All iterations. *)
Lemma gains_iterations wk ep n :
  gains (for_break 0 n (λ i : nat,
    ret ← client_server_communication L fuel wk ep CLIENT_SERVER_SEND_RECV_AM true (Z.of_nat i);
    if negb (ret =? 0) then
      eprintf "%s failed on iteration #%d\n" [the_peer true; AZ (Z.of_nat i + 1)];;
      mret (Some ret)
    else mret None)) (λ r, match r with None => Z.of_nat n | Some _ => 0 end).
Proof.
  generalize 0%nat as i. induction n as [|n IH]; intros i; simpl for_break; [by apply gains_ret|].
  eapply gains_bind_val with (c := λ x, match x with None => 1 | Some _ => 0 end).
  - eapply gains_bind_val; [apply gains_recv_am|]. intros ret.
    destruct (ret =? 0) eqn:Hret; simpl; [apply gains_ret; by rewrite Hret|].
    eapply gains_skip; [apply gains_still; solve_keeps|]. intros ?.
    apply gains_ret. by rewrite Hret.
  - intros [x|]; [by apply gains_ret|]. intros w Hw. eapply wp_conseq; [by apply IH|].
    intros [x|] w' [? ?]; [count|]. split; [done|]. cbv beta iota in *. lia.
Qed.
End gains.
