(* ===== verification/AmWork.v ===== *)
(** * The work with active messages

    An active message is delivered by a callback, not received by a call. The
    client sends its messages while no handler is registered and then waits for
    the FIN message; the server receives with the handler registered all along,
    whatever arrives. *)

From S2P Require Import Prelude CRuntime CLib Ucx HelloUtil CsApi Iov SockAddr.
From S2P Require Import Callbacks Request SendRecv Options ClientServer Messages.
From S2P Require Import Outside Exchange Client.
Open Scope Z_scope.

Section am.
Context `{!Ucs, !Ucp, !Cuda} (L : cs_lib) (t : ucs_memory_type_t).
Context (Hm : mem_usable L t) (HL : polite L) (fuel : nat) (wk : Z) (n len : nat).
Context (E : halt → cs_world → Prop) (HE : bounded_or_oom L fuel E).
Context (HF : ∀ w, E NoFuel w) (Hmax : am_expected n len ≤ LONG_MAX).
Implicit Types (w : cs_world).
Abbreviation AM := CLIENT_SERVER_SEND_RECV_AM.

(** ** The server's messages *)

Lemma am_received ep w (Q : option Z → cs_world → Prop) :
  idle t wk n len w → (∀ r w', unchanged w w' → Q r w') →
  wp E (iterations L fuel wk ep AM true) Q w.
Proof using All.
  intros Hid HQ. pose proof (id_iter _ _ _ _ _ Hid) as Hit.
  apply iterations_by with (I := λ _ w', unchanged w w');
    [apply unchanged_refl; apply Hid| |auto].
  intros k w1 Hk Hu. eapply recv_am_ok; [exact Hm|exact HL|exact HE|by eapply idle_unchanged
    |lia|exact Hmax|exact HF|].
  intros ret w2 Hu2. pose proof (unchanged_trans _ _ _ Hu Hu2) as Hu'.
  split; [done|]. intros _ f l. apply HQ. by destruct Hu'.
Qed.

(** ** The client's messages *)

Lemma am_sent_one ep i w0 w (Q : Z → cs_world → Prop) :
  idle0 t wk n len w0 → unchanged w0 w → 0 ≤ i < 2 ^ 31 - 1 →
  (∀ ret w', unchanged w0 w' →
     (ret = 0 → transcript (trace w') = test_transfer n len false :: transcript (trace w)) →
     Q ret w') →
  wp E (client_server_communication L fuel wk ep AM false i) Q w.
Proof using All.
  intros Hid0 Hu Hi HQ. destruct (idle0_unchanged _ _ _ _ _ _ Hid0 Hu) as [Hid Hreg].
  eapply wp_also; [apply (counts_communication L fuel true); tauto|].
  eapply wp_also; [apply (counts_communication L fuel false); tauto|].
  eapply send_am_ok; [exact Hm|exact HL|exact HE|exact Hid|exact Hi|exact Hreg|].
  intros ret w' Hu' Hs (k & Hk & Hone) (k' & Hk' & Hone').
  apply HQ; [by eapply unchanged_trans|]. intros Hz.
  eapply (exchanged_transcript n len false _ (λ m p, ucp_tag_recv_nbx wk m TAG 0 p));
    [|done|by apply Hs|]; [done|].
  intros []; [rewrite Hk', (Hone' Hz)|rewrite Hk, (Hone Hz)]; done.
Qed.

(** Receiving an active message is no transfer of ours. *)
Lemma am_receive_quiet ep i : keeps quiet (send_recv_am L fuel wk ep true i).
Proof using.
  unfold send_recv_am, request_finalize, request_wait. cbn [negb].
  apply keeps_local; [typeclasses eauto|exact I|]. intros ctx. solve_keeps; match goal with |- keeps _ (call _ ?c) => exact (transcript_call L c eq_refl) end.
Qed.

(** Installing the handler. *)
Lemma register_ok w (Q : Z → cs_world → Prop) :
  idle0 t wk n len w →
  (∀ st w', heap w' = heap w → conf (glob w') = conf (glob w) → idle t wk n len w' →
     transcript (trace w') = transcript (trace w) → Q st w') →
  wp E (register_am_recv_callback L wk) Q w.
Proof using Hm HL fuel.
  intros Hid HQ. unfold register_am_recv_callback. set (c := ucp_worker_set_am_recv_handler _ _ _).
  apply (wp_with_keeps quiet); [exact (transcript_call L c eq_refl)|].
  eapply (idle_call_raw L t Hm HL fuel wk n len E c); [exact Hid|done|by intros ? [=]|].
  intros r w' Hh Hwf Hcf [= E1 E2 E3] Hs. destruct Hid as [[Hc Hpr Hit _ Hp Hconn] _].
  apply HQ; [done|done| |done].
  assert (g_num_iterations (glob w') = g_num_iterations (glob w)) as Hn
    by (unfold conf in Hcf; by injection Hcf).
  split; cbn [glob push trace];
    [by eapply cs_conf_conf|done|by rewrite Hn|done|by rewrite <-Hp|].
  intros arg l. simpl. rewrite E3. apply Hconn.
Qed.

Lemma am_client_ok ep w (Q : Z → cs_world → Prop) :
  sane_clock L → idle0 t wk n len w →
  (∀ r w', heap w' = heap w → pending (trace w') = [] →
     (r = 0 → transcript (trace w') =
        replicate (Z.to_nat (g_num_iterations (glob w))) (test_transfer n len false)
        ++ transcript (trace w)) → Q r w') →
  wp E (client_server_do_work L fuel wk ep AM false) Q w.
Proof using All.
  intros Hclock Hid HQ. unfold client_server_do_work. cbn [negb].
  pose proof (id_iter _ _ _ _ _ (proj1 Hid)) as Hit.
  apply wp_bind, (wp_ext0 L _ gettimeofday). apply wp_bind, wp_mod_glob.
  match goal with |- wp _ _ _ ?w => set (w1 := w) end.
  assert (unchanged w w1 ∧ transcript (trace w1) = transcript (trace w)) as [Hu1 HT1].
  { split; [|done]. split; try done; apply Hid. }
  assert (g_num_iterations (glob w1) = g_num_iterations (glob w)) as Hn1 by done.
  assert (∀ w', unchanged w w' → heap w' = heap w ∧ pending (trace w') = []) as Hkept
    by (by intros w' []).
  clearbody w1. apply wp_bind, iterations_by with
    (I := λ k w', unchanged w w' ∧
       transcript (trace w') = replicate k (test_transfer n len false) ++ transcript (trace w));
    [done|rewrite Hn1|rewrite Hn1].
  { intros k w2 Hk [Hu2 HT2]. eapply am_sent_one; [exact Hid|exact Hu2|lia|].
    intros ret w3 Hu3 Hs. split.
    - intros Hz. split; [done|]. by rewrite (Hs Hz), HT2.
    - intros Hne f l. destruct (Hkept _ Hu3). by apply wp_ret, HQ. }
  intros w2 [Hu2 HT2]. set (T := replicate _ _ ++ _) in *.
  apply wp_bind, wp_fprintf, wp_bind. cbn [when].
  apply wp_bind, (wp_ext0 L _ gettimeofday), wp_bind, elapsed_ok; [apply Hclock|apply Hclock|].
  intros d. apply wp_fprintf.
  match goal with |- wp _ _ _ ?w => set (w3 := w) end.
  assert (unchanged w w3) as Hu3 by by destruct Hu2.
  assert (transcript (trace w3) = T) as HT3 by done. clearbody w3.
  rewrite bool_decide_eq_true_2 by done. cbn [andb]. apply wp_bind.
  eapply register_ok; [by eapply idle0_unchanged|]. intros st w4 Hh4 Hcf4 Hid4 HT4.
  assert (heap w4 = heap w) as Hh4' by (rewrite Hh4; apply Hu3).
  destruct (negb _); [apply wp_ret, HQ; [done|apply Hid4|done]|].
  pose proof (id_iter _ _ _ _ _ Hid4) as Hit4.
  apply wp_bind, wp_glb, wp_bind, wp_c_int; [lia|]. apply wp_bind.
  apply (wp_with_keeps quiet); [apply am_receive_quiet|].
  eapply recv_am_ok; [exact Hm|exact HL|exact HE|exact Hid4|lia|exact Hmax|exact HF|].
  intros ret w5 [Hh5 _ _ Hp5 _] Hs5. unfold same in Hs5.
  assert (heap w5 = heap w ∧ transcript (trace w5) = T) as [Hh5' HT5] by (split; congruence).
  destruct (negb _); [apply wp_bind, wp_fprintf|apply wp_bind]; by apply wp_ret, HQ.
Qed.
End am.
