(* ===== verification/Fuel.v ===== *)
(** * The bound of the waiting loops

    [fuel] only bounds how often a waiting loop goes round: a run that ends
    before the bound is reached is the same under any larger bound. A loop that
    waits for a completion ends if the library completes the operation. *)

From S2P Require Import Prelude CRuntime CLib Ucx HelloUtil CsApi Iov SockAddr.
From S2P Require Import Callbacks Request SendRecv Options ClientServer.
Open Scope Z_scope.

Lemma approx_local {A : api} {X} o (body body' : ptr → M (world A) X) :
  (∀ p, approx (body p) (body' p)) → approx (local o body) (local o body').
Proof.
  intros Hb. apply approx_bind; [reflexivity|]. intros p.
  apply approx_bind; [apply Hb|]. intros. reflexivity.
Qed.

Lemma approx_when {W} b (m m' : M W unit) : approx m m' → approx (when b m) (when b m').
Proof. by destruct b. Qed.

Ltac approx_step :=
  cbv zeta;
  lazymatch goal with
  | |- approx (mbind _ _) (mbind _ _) => apply approx_bind; [|intros ?]
  | |- approx (local _ _) (local _ _) => apply approx_local; intros ?
  | |- approx (while _ _ _) _ => apply approx_while; [done|]
  | |- approx (do_while _ _ _) _ => apply approx_do_while; [done|]
  | |- approx (loop _ _ _) _ => apply approx_loop; [done|intros ?]
  | |- approx (for_break _ _ _) _ => apply approx_for_break; intros ?
  | |- approx (when _ _) (when _ _) => apply approx_when
  | |- approx (match ?x with _ => _ end) _ => destruct x
  | |- _ => reflexivity
  end.

(** Use the lemma [H] about the function [f]. *)
Ltac head_of t := lazymatch t with ?f _ => head_of f | _ => t end.
Ltac approx_lemma f H :=
  lazymatch goal with
  | |- approx ?m _ => let h := head_of m in constr_eq h f; apply H
  end.

Section fuel.
Context `{!Ucs, !Ucp, !Cuda} (L : cs_lib) (n n' : nat) (Hn : (n ≤ n')%nat).

Lemma approx_request_finalize w r ctx s iov i :
  approx (request_finalize L n w r ctx s iov i) (request_finalize L n' w r ctx s iov i).
Proof using All. unfold request_finalize, request_wait. repeat approx_step. Qed.

Lemma approx_ep_close w ep flags :
  approx (ep_close L n w ep flags) (ep_close L n' w ep flags).
Proof using All. unfold ep_close. repeat approx_step. Qed.

Lemma approx_communication w ep ty s i :
  approx (client_server_communication L n w ep ty s i)
         (client_server_communication L n' w ep ty s i).
Proof using All.
  pose proof approx_request_finalize as Hf.
  unfold client_server_communication, send_recv_stream, send_recv_tag, send_recv_am.
  repeat first [approx_lemma (@request_finalize) Hf | approx_step].
Qed.

Lemma approx_do_work w ep ty s :
  approx (client_server_do_work L n w ep ty s) (client_server_do_work L n' w ep ty s).
Proof using All.
  pose proof approx_communication as Hc.
  unfold client_server_do_work, iterations. repeat first [approx_lemma (@client_server_communication) Hc | approx_step].
Qed.

Lemma approx_run_server ctx w s ty :
  approx (run_server L n ctx w s ty) (run_server L n' ctx w s ty).
Proof using All.
  pose proof approx_do_work as Hd. pose proof approx_ep_close as He.
  unfold run_server, serve, cleanup. repeat first [approx_lemma (@client_server_do_work) Hd | approx_lemma (@ep_close) He | approx_step].
Qed.

Lemma approx_run_client w s ty :
  approx (run_client L n w s ty) (run_client L n' w s ty).
Proof using All.
  pose proof approx_do_work as Hd. pose proof approx_ep_close as He.
  unfold run_client. repeat first [approx_lemma (@client_server_do_work) Hd | approx_lemma (@ep_close) He | approx_step].
Qed.

Lemma approx_main argv : approx (main L n argv) (main L n' argv).
Proof using All.
  pose proof approx_run_client as Hc. pose proof approx_run_server as Hs.
  unfold main. repeat first [approx_lemma (@run_client) Hc | approx_lemma (@run_server) Hs | approx_step].
Qed.
End fuel.
