(* ===== verification/Demo.v ===== *)
(** * A concrete library

    The theorems quantify over the library; [demo] is one that satisfies their
    hypotheses, so that they can be applied and the program can be run. Every
    call succeeds, every operation is answered with a request, and the next
    progress call writes the awaited bytes and runs the completion callback. *)

From S2P Require Import Prelude CRuntime CLib Ucx HelloUtil CsApi Iov SockAddr.
From S2P Require Import Callbacks Request SendRecv Options ClientServer Outside.
From S2P Require Import Exchange Client Server.
Import Ucx.Reference.
Open Scope Z_scope.

(** Built without CUDA, and with it. *)
#[export] Instance no_cuda : Cuda := {|
  HAVE_CUDA := false;
  cudaSuccess := 0;
  mem_type_num t :=
    match t with
    | UCS_MEMORY_TYPE_HOST => 0
    | UCS_MEMORY_TYPE_CUDA => 1
    | UCS_MEMORY_TYPE_CUDA_MANAGED => 2
    | UCS_MEMORY_TYPE_LAST => 6
    end;
|}.
Definition with_cuda : Cuda := {|
  HAVE_CUDA := true;
  cudaSuccess := 0;
  mem_type_num := @mem_type_num no_cuda;
|}.

Definition localhost : sockaddr_storage :=
  SockAddr AF_INET (htons DEFAULT_PORT) [127; 0; 0; 1] (replicate 16 0).

Definition demo_ret (h : history cs_api) (c : cs_call) : cs_ret c :=
  match c with
  | inet_pton _ _ => Some [127; 0; 0; 1]
  | inet_ntop _ _ _ => "127.0.0.1"%string
  | gettimeofday => (Z.min (Z.of_nat (length h)) 1000000, 0)
  | ucp_init _ _ _ => (0, 1)
  | ucp_worker_create _ _ => (0, Z.of_nat (length h))
  | ucp_listener_create _ _ _ _ => (0, 3)
  | ucp_ep_create _ _ => (0, 4)
  | ucp_stream_recv_nbx _ m _ => (7, 0)
  | ucp_listener_query _ _ | ucp_conn_request_query _ _ => (0, localhost)
  | ucp_cleanup _ | ucp_worker_destroy _ | ucp_listener_destroy _
  | ucp_request_free _ => tt
  | ucp_stream_send_nbx _ _ _ | ucp_tag_send_nbx _ _ _ _ | ucp_tag_recv_nbx _ _ _ _ _
  | ucp_am_send_nbx _ _ _ _ _ | ucp_am_recv_data_nbx _ _ _ _ => 7
  | _ => 0
  end.

(** The bytes that arrive for one piece of memory: all 'x'. *)
Definition arrives (s : ptr * Z) : list (act cs_api) :=
  match s with
  | (Loc b base, n) =>
      if 0 <=? n then [Store (Loc b base) (replicate (Z.to_nat n) 120)] else []
  | _ => []
  end.

Definition completion (o : operation) : list (act cs_api) :=
  (o_memory o ≫= arrives) ++ [Callback (A := cs_api) (Cb_send 0 (o_user_data o))].

(** Each progress of a listener's worker brings one more client. *)
Definition connects (wk : Z) (x : Z * ptr * Z) : list (act cs_api) :=
  if x.1.1 =? wk then [Callback (A := cs_api) (Cb_conn 9 x.1.2)] else [].

(** [am]: the active messages that each progress call delivers. *)
Definition demo_acts (am : list (list Z)) (h : history cs_api) (c : cs_call)
  : list (act cs_api) :=
  match c with
  | ucp_worker_progress wk =>
      (pending h ≫= completion) ++ (listeners h ≫= connects wk) ++
      (if registered h
       then (λ bytes, Callback (A := cs_api)
              (Cb_am_data 0 (Eager bytes) (Z.of_nat (length bytes)) 0)) <$> am
       else [])
  | _ => []
  end.

Definition demo (am : list (list Z)) : cs_lib := {|
  l_acts := demo_acts am;
  l_ret := demo_ret;
  l_alloc _ _ := true;
|}.

(** The same library when the machine is out of memory. *)
Definition demo_oom : cs_lib := {|
  l_acts := demo_acts [];
  l_ret := demo_ret;
  l_alloc _ _ := false;
|}.

Lemma demo_polite am : polite (demo am).
Proof.
  intros h c. destruct c; try apply List.Forall_nil.
  simpl. apply Forall_app. split; [|apply Forall_app; split].
  - apply List.Forall_forall. intros x Hx%list_elem_of_In.
    apply list_elem_of_bind in Hx as (o & Hx & Ho).
    apply elem_of_app in Hx as [Hx|Hx].
    + apply list_elem_of_bind in Hx as ([[|b base| |] n] & Hx & Hn); simpl in Hx;
        try by apply elem_of_nil in Hx.
      destruct (Z.leb_spec 0 n); [|by apply elem_of_nil in Hx].
      apply list_elem_of_singleton in Hx as ->. simpl. right. exists o. split; [done|].
      rewrite length_replicate. exists b, base, n, 0. split_and!; [done|f_equal; lia|lia|lia].
    + apply list_elem_of_singleton in Hx as ->. simpl. by exists o.
  - apply List.Forall_forall. intros x Hx%list_elem_of_In.
    apply list_elem_of_bind in Hx as ([[wk arg] l] & Hx & Hl).
    unfold connects in Hx. simpl in Hx. destruct (Z.eqb_spec wk worker) as [->|]; [|by apply elem_of_nil in Hx].
    apply list_elem_of_singleton in Hx as ->. simpl. by exists worker, l.
  - destruct (registered h) eqn:Hr; [|apply List.Forall_nil].
    apply Forall_fmap, List.Forall_forall. intros bytes _. simpl.
    split_and!; [done|by eexists|done..].
Qed.

(** The same library without active messages, when the peer goes away as soon
    as the program waits. *)
Definition demo_closing : cs_lib := {|
  l_acts h c := demo_acts [] h c ++
    match c with ucp_worker_progress _ => [Callback (A := cs_api) (Cb_err (-25))] | _ => [] end;
  l_ret := demo_ret;
  l_alloc _ _ := true;
|}.

Lemma demo_closing_polite : polite demo_closing.
Proof.
  intros h c. apply Forall_app. split; [apply (demo_polite [])|].
  destruct c; try apply List.Forall_nil. by constructor.
Qed.

(** A library for servers: new workers get new handles, and the peer goes away
    as soon as the program waits. If not [ok], no endpoint can be created. *)
Definition demo_listening (ok : bool) : cs_lib := {|
  l_acts := l_acts demo_closing;
  l_ret h c :=
    match c with
    | ucp_worker_create _ _ => (0, 1 + foldr Z.max 0 (live_workers h))
    | ucp_ep_create _ _ => (if ok then 0 else -6, 4)
    | c => demo_ret h c
    end;
  l_alloc _ _ := true;
|}.

Lemma demo_listening_polite ok : polite (demo_listening ok).
Proof. exact demo_closing_polite. Qed.

Lemma demo_listening_fresh ok : fresh_workers (demo_listening ok).
Proof. intros h ctx m r Hin%below_max. simpl in Hin. lia. Qed.

(** The same with two clients at a time, one of which is rejected. *)
Definition demo_crowd : cs_lib := {|
  l_acts h c := l_acts demo_closing h c ++
    match c with ucp_worker_progress wk => listeners h ≫= connects wk | _ => [] end;
  l_ret := l_ret (demo_listening true);
  l_alloc _ _ := true;
|}.

Lemma demo_crowd_conn : conn_callbacks demo_crowd.
Proof.
  intros h c req arg Hx. apply elem_of_app in Hx as [Hx|Hx].
  { exact (polite_conn _ demo_closing_polite h c req arg Hx). }
  destruct c; try by apply elem_of_nil in Hx.
  apply list_elem_of_bind in Hx as ([[wk a] l] & Hx & Hl). unfold connects in Hx. simpl in Hx.
  destruct (_ =? _); [|by apply elem_of_nil in Hx].
  apply list_elem_of_singleton in Hx. simplify_eq. eauto.
Qed.

Lemma demo_clock am : sane_clock (demo am).
Proof. intros h. simpl. lia. Qed.

Lemma demo_responsive am : responsive (demo am) (λ _, 0%nat) 0.
Proof.
  split; [done| |].
  - intros h wk o r l Ho. left. simpl. rewrite existsb_app. apply orb_true_iff. left.
    apply existsb_exists. exists (Callback (A := cs_api) (Cb_send 0 (o_user_data o))).
    split; [|simpl; by rewrite bool_decide_eq_true_2].
    apply list_elem_of_In, list_elem_of_bind. exists o. split; [|done].
    apply elem_of_app. right. by left.
  - intros. by left.
Qed.

Lemma demo_listening_responsive ok : responsive (demo_listening ok) (λ _, 0%nat) 0.
Proof.
  pose proof (demo_responsive []) as Hre. split; [done| |].
  - intros h wk o r l Ho. left. simpl. rewrite existsb_app. apply orb_true_iff. left.
    destruct (re_complete _ _ _ Hre h wk o r l Ho) as [Hx|Hx]; [exact Hx|lia].
  - intros. by left.
Qed.

Lemma demo_host am : mem_usable (demo am) UCS_MEMORY_TYPE_HOST.
Proof. by split. Qed.
