(* ===== verification/Program.v ===== *)
(** * Properties of the program

    The theorems about whole runs of ucp_client_server: its use of UCX objects,
    the memory, the messages and the termination of the client and of the server,
    how the two fit together, and what they return. *)

From S2P Require Import Prelude CRuntime CLib Ucx HelloUtil CsApi Iov SockAddr.
From S2P Require Import Callbacks Request SendRecv Options ClientServer Protocol.
From S2P Require Import Messages Outside Exchange Client Server AmCount AmWork Fuel Demo.
Import Ucx.Reference.
Open Scope Z_scope.

(** A command line of the client, and the static variables it leaves. *)
Definition demo_argv : list string := ["-a"; "10.0.0.1"; "-c"; "tag"; "-i"; "2"]%string.
Definition demo_client : options :=
  Options (Some "10.0.0.1"%string) None CLIENT_SERVER_SEND_RECV_TAG.
Definition demo_conf (n iterations : Z) : cs_glob :=
  with_num_iterations iterations (with_iov_cnt n cs_init_glob).
Definition demo_world (g : cs_glob) : cs_world := World g ∅ 0%N [].

Definition demo_start : cs_world := demo_world (demo_conf 1 2).

(** A server with an active message handler; a message of a wrong length and two
    of the right one arrive at each progress call. *)
Definition demo_handler : cs_world :=
  World (demo_conf 1 2) ∅ 0%N [ECall (A := cs_api) (ucp_worker_set_am_recv_handler 2 0 0) 0].
Definition demo_messages : list (list Z) := [replicate 3 65; replicate 16 66; replicate 16 67].

Lemma demo_setup : client_setup UCS_MEMORY_TYPE_HOST 1 16 demo_client (demo_conf 1 2).
Proof. split; [done|by right|split; first [done|simpl; lia]|lia|simpl; lia]. Qed.

Lemma demo_idle n iterations : (1 ≤ n < 1000)%nat → 0 ≤ iterations < 1000 →
  idle UCS_MEMORY_TYPE_HOST 2 n 16 (demo_world (demo_conf (Z.of_nat n) iterations)).
Proof.
  intros. split; simpl; [split; first [done|simpl; lia]|lia|lia|..]; [|done|].
  - intros b _. apply lookup_empty.
  - intros ? ?. apply not_elem_of_nil.
Qed.

(** A call that is not one of those that use no UCX object. *)
Definition ucx_call (c : cs_call) : bool := negb (service_call c).

(** What parse_cmd answers, and that it does nothing else. *)
Lemma parse_cmd_answer `{!Ucs, !Ucp, !Cuda} E argv
    (os := getopt "a:l:p:c:6i:s:v:m:h" argv) :
  wp E (parse_cmd argv) (λ r w',
    match rejected UCS_MEMORY_TYPE_HOST os with
    | Some ret => r.1 = ret
    | None => r.1 = 0 ∧ (names_server os = false → server_addr r.2 = None)
    end ∧ heap w' = ∅ ∧ calls ucx_call (trace w') = 0%nat) cs_init_world.
Proof.
  apply (wp_with_keeps (same (λ w : cs_world, calls ucx_call (trace w)))).
  { pose proof (uncounted_cb ucx_call) as Hu. unfold ucx_call in *.
    apply keeps_parse_cmd; [|done]. apply @local_quiet_hello, @cb_local, Hu.
    intros c Hc. by rewrite Hc. }
  eapply wp_mono; [apply wp_and; [apply (parse_opts_rejected E os default_options cs_init_world)
    |apply (parse_cmd_ok E argv cs_init_world (λ _ w', heap w' = ∅)); [apply init_conf_ok|..]]|..].
  - by intros s' w' Hh _ _ _.
  - by intros ret s' w' Hh _.
  - intros r w' [Hr Hh] Hs. split_and!; [exact Hr|exact Hh|exact Hs].
  - by intros h w' [? _].
Qed.

(** After the command line. *)
Lemma started_result `{!Ucs, !Ucp, !Cuda} (L : cs_lib) fuel o w :
  wp (λ _ _, True)
    (r ← init_context L (send_recv_type o);
     match r with
     | inl ret => mret ret
     | inr (ucp_context, ucp_worker) =>
         ret ← match server_addr o with
               | Some _ => run_client L fuel ucp_worker (server_addr o) (send_recv_type o)
               | None => run_server L fuel ucp_context ucp_worker (listen_addr o) (send_recv_type o)
               end;
         call L (ucp_worker_destroy ucp_worker);;
         call L (ucp_cleanup ucp_context);;
         mret ret
     end) (λ r _, r = -1 ∨ r = 0 ∧ server_addr o ≠ None) w.
Proof.
  apply wp_bind. eapply wp_conseq; [apply init_context_result|]. intros [r|[ctx uw]] w1 Hr.
  { apply wp_ret. by left. }
  apply wp_bind. apply wp_conseq with (Q := λ r _, r = -1 ∨ r = 0 ∧ server_addr o ≠ None).
  - destruct (server_addr o).
    + eapply wp_conseq; [apply run_client_result|]. intros r w2 [-> | ->]; [by right|by left].
    + eapply wp_conseq; [apply run_server_result|]. intros r w2 ->. by left.
  - intros r w2 Hres. apply wp_bind. eapply wp_conseq; [apply yields_any|]. intros [] w3 _.
    apply wp_bind. eapply wp_conseq; [apply yields_any|]. intros [] w4 _. by apply wp_ret.
Qed.

(** The result of a server. *)
Lemma server_result `{!Ucs, !Ucp, !Cuda} (L : cs_lib) fuel argv o w w1 :
  parse_cmd argv w = (Ok (0, o), w1) → server_addr o = None →
  wp (λ _ _, True) (main L fuel argv) (λ r _, r = -1) w.
Proof.
  intros Hp Ho. eapply wp_main; [exact Hp|]. apply wp_bind.
  eapply wp_conseq; [apply init_context_result|]. intros [r|[ctx uw]] w2 Hr.
  { by apply wp_ret. }
  rewrite Ho. apply wp_bind. eapply wp_conseq; [apply run_server_result|].
  intros r w3 ->. apply wp_bind. eapply wp_conseq; [apply yields_any|]. intros [] w4 _.
  apply wp_bind. eapply wp_conseq; [apply yields_any|]. intros [] w5 _. by apply wp_ret.
Qed.

Section program.
Context `{!Ucs, !Ucp, !Cuda} (L : cs_lib) (fuel : nat).

(** C1: for every command line and every behaviour of a library that runs the handler
    of a listener only while the listener exists, with the argument it was created
    with, the program uses contexts, workers, listeners, endpoints and requests only
    while they are alive, in its own calls and in those of its callbacks, destroys
    each of them once and before the object it was created from, and when main
    returns nothing is left; this holds at every point where a run may stop. *)
Theorem main_lawful argv :
  conn_callbacks L →
  wp (λ _ w', lawful w') (main L fuel argv)
     (λ _ w', protocol (trace w') = Some []) cs_init_world.
Proof.
  intros Hconn. eapply wp_conseq; [apply (steps_main L fuel Hconn)|].
  - split; [done|]. by intros x arg l ?%elem_of_nil.
  - by intros r w' [Hp _].
Qed.

(** C2: a client over stream or tag matching whose command line is accepted, with
    buffers of at least 16 bytes (the 16 that are printed), a type of memory the
    machine has, sizes and a number of iterations that do not overflow: with a polite
    library it is memory safe. It returns with an empty heap and no unfinished operation,
    unless a waiting loop reached its bound or an allocation that the program does
    not check failed. With smaller buffers it reads out of bounds when it prints
    (print_iov_reads_beyond). *)
Theorem client_memory argv o w1 t n len :
  mem_usable L t → polite L → sane_clock L →
  parse_cmd argv cs_init_world = (Ok (0, o), w1) → client_setup t n len o (glob w1) →
  wp gave_up (main L fuel argv)
     (λ _ w', heap w' = ∅ ∧ pending (trace w') = []) cs_init_world.
Proof.
  intros. eapply wp_conseq; [eapply main_client_ok; eauto using gave_up_bounded|].
  by intros r w' (? & ? & _).
Qed.

(** C3: a client over stream or tag matching, with buffers of at least 16 bytes,
    whose exit code is 0 has sent the test message, once in each of its buffers, as
    often as -i says, and then posted one receive, for the FIN message, with room for
    just as many bytes; and it has started no other transfer. Besides returning it can
    only stop at the bound of a waiting loop or at a failed allocation that the program
    does not check. *)
Theorem client_conversation argv o w1 t n len :
  mem_usable L t → polite L → sane_clock L →
  parse_cmd argv cs_init_world = (Ok (0, o), w1) → client_setup t n len o (glob w1) →
  wp gave_up (main L fuel argv)
     (λ r w', r = 0 → transcript (trace w') =
        Incoming (Z.of_nat (n * len)) ::
        replicate (Z.to_nat (g_num_iterations (glob w1))) (Outgoing (test_message n len)))
     cs_init_world.
Proof.
  intros. eapply wp_conseq; [eapply main_client_ok; eauto using gave_up_bounded|].
  by intros r w' (_ & _ & ?).
Qed.

(** C4: a client over stream or tag matching, with buffers of at least 16 bytes, a type
    of memory the machine has, and sizes and a number of iterations that do not overflow,
    ends with a polite and responsive library: it returns, with an empty heap, or stops at
    a failed allocation that the program does not check; two rounds more than the work
    the library announces are enough fuel. *)
Theorem client_terminates argv o w1 t n len ρ N :
  mem_usable L t → polite L → sane_clock L → responsive L ρ N → (N + 2 ≤ fuel)%nat →
  parse_cmd argv cs_init_world = (Ok (0, o), w1) → client_setup t n len o (glob w1) →
  wp unchecked_oom (main L fuel argv)
     (λ r w', (r = 0 ∨ r = -1 ∨ r = UCS_ERR_UNSUPPORTED) ∧ heap w' = ∅) cs_init_world.
Proof.
  intros. eapply wp_mono; [apply wp_and|..].
  - eapply main_client_ok; eauto using unchecked_oom_bounded.
  - apply main_result, init_conf_ok.
  - intros r w' [(Hh & _) Hr]. split; [|done].
    unfold success_or_failure, error_code in Hr. tauto.
  - by intros h w' [? _].
Qed.

(** Receiving an active message is memory safe whatever arrives: any
    number of messages of any length, announced or delivered, may come while
    the program waits; the heap at the end is the heap at the start. *)
Theorem recv_am_memory wk ep i n len t w :
  mem_usable L t → polite L → idle t wk n len w → 0 ≤ i < 2 ^ 31 - 1 →
  am_expected n len ≤ LONG_MAX →
  wp gave_up (send_recv_am L fuel wk ep true i) (λ _ w', unchanged w w') w.
Proof.
  intros Hm HL Hid Hi Hmax.
  eapply recv_am_ok; eauto using gave_up_bounded. intros w'. by left.
Qed.

(** Sending or receiving one message over stream or tag matching is memory
    safe, and ends if the library is responsive. *)
Theorem exchange_memory wk ep ty s i n len t ρ N w :
  mem_usable L t → polite L → responsive L ρ N → (N + 2 ≤ fuel)%nat →
  ty = CLIENT_SERVER_SEND_RECV_STREAM ∨ ty = CLIENT_SERVER_SEND_RECV_TAG →
  idle t wk n len w → 0 ≤ i < 2 ^ 31 - 1 → registered (trace w) = false →
  wp unchecked_oom (client_server_communication L fuel wk ep ty s i)
     (λ ret w', (ret = 0 ∨ ret = -1) ∧ unchanged w w') w.
Proof.
  intros Hm HL Hre Hf Hty Hid Hi Hreg. eapply wp_mono; [apply wp_and|..].
  - instantiate (1 := λ _ w', unchanged w w'). instantiate (1 := unchecked_oom).
    destruct Hty as [-> | ->]; simpl;
      [eapply send_recv_stream_ok|eapply send_recv_tag_ok]; eauto using unchecked_oom_bounded.
  - apply communication_result.
  - by intros r w' [? ?].
  - by intros h w' [? _].
Qed.

(** When the sending side of an exchange reports success, it has called the
    send function of its type, on its endpoint, with send_cb as callback and
    with a message that consists of the test string once per buffer. *)
Theorem send_payload wk ep ty i n len t w :
  mem_usable L t → polite L →
  (∀ k, ty ≠ OTHER_SEND_RECV k) →
  idle t wk n len w → 0 ≤ i < 2 ^ 31 - 1 → registered (trace w) = false →
  wp gave_up (client_server_communication L fuel wk ep ty false i)
     (λ ret w', ret = 0 → sent n len (send_call ty ep) w w') w.
Proof.
  intros Hm HL Hty Hid Hi Hreg. destruct ty as [| | |k]; simpl.
  - eapply send_recv_stream_ok; eauto using gave_up_bounded; intros ret w' _ Hs Hr; by apply Hs.
  - eapply send_recv_tag_ok; eauto using gave_up_bounded; intros ret w' _ Hs Hr; by apply Hs.
  - eapply send_am_ok; eauto using gave_up_bounded; intros ret w' _ Hs Hr; by apply Hs.
  - by destruct (Hty k).
Qed.

(** C11: a successful client_server_do_work makes one send per iteration in the
    client and one for the FIN message in the server, and posts one receive
    for each message in the other direction. The receives of active messages
    are not calls. *)
Theorem do_work_messages sends w ep ty s w0 :
  ty ≠ CLIENT_SERVER_SEND_RECV_AM ∨ sends = true →
  wp (λ _ _, True) (client_server_do_work L fuel w ep ty s)
    (λ r w', r = 0 → calls (counted sends) (trace w') =
       ((if eqb sends s then 0 else Z.to_nat (g_num_iterations (glob w0)))
        + (if eqb sends s then 1 else 0) + calls (counted sends) (trace w0))%nat) w0.
Proof.
  intros Hty. eapply wp_conseq; [by apply counts_do_work|].
  intros r w' Hr Hz. rewrite (Hr Hz). unfold per_message. destruct sends, s; simpl; lia.
Qed.

(** The work of the server and of the client over stream or tag matching
    leaves the heap as it was, and a successful one exchanges just the messages
    of the iterations and the FIN message. *)
Lemma do_work_spec wk ep ty s n len t w :
  mem_usable L t → polite L → sane_clock L →
  ty = CLIENT_SERVER_SEND_RECV_STREAM ∨ ty = CLIENT_SERVER_SEND_RECV_TAG →
  idle t wk n len w → registered (trace w) = false →
  wp gave_up (client_server_do_work L fuel wk ep ty s)
     (λ r w', unchanged w w' ∧ (r = 0 → transcript (trace w') =
        work_transcript n len s (g_num_iterations (glob w)) ++ transcript (trace w))) w.
Proof.
  intros Hm HL Hcl Hty Hid Hreg.
  eapply do_work_ok with (w0 := w) (n := n) (len := len) (T := transcript (trace w));
    [done|done|done|apply gave_up_bounded|by split|done| |by left|].
  - split; [|done]. split; try done; apply Hid.
  - intros r w' Hu Hr. split; [done|]. intros Hz. by destruct (Hr Hz).
Qed.

(** The work of the server and of the client leaves the heap as it was. *)
Theorem do_work_memory wk ep ty s n len t w :
  mem_usable L t → polite L → sane_clock L →
  ty = CLIENT_SERVER_SEND_RECV_STREAM ∨ ty = CLIENT_SERVER_SEND_RECV_TAG →
  idle t wk n len w → registered (trace w) = false →
  wp gave_up (client_server_do_work L fuel wk ep ty s) (λ _ w', unchanged w w') w.
Proof.
  intros. eapply wp_conseq; [by eapply do_work_spec|]. by intros r w' [? _].
Qed.

(** C10: the iterations of a server with active messages, for test buffers of at
    least 16 bytes. Each iteration that succeeds has waited for a message of the
    expected length that its handler accepted, and uses it up: if all succeed, at
    least as many such messages were handed to the handler as there are iterations,
    where the flag am_data_desc.complete accounts for one from before and one left
    over. It is not one iteration per message: messages that come in the same progress
    call, or before the flag is reset, make up one iteration and the others are lost.
    This holds with every polite library, whatever arrives, messages of other lengths
    included, which do not count; memory is used safely, and in the end the heap is as it
    was; and it stops early only at the bound of a waiting loop or at an allocation the
    program does not check. *)
Theorem am_server_iterations wk ep n len t w :
  mem_usable L t → polite L → am_expected n len ≤ LONG_MAX → idle t wk n len w →
  wp gave_up (iterations L fuel wk ep CLIENT_SERVER_SEND_RECV_AM true)
     (λ r w', unchanged w w' ∧ (r = None →
        g_num_iterations (glob w) + am_waiting (glob w') ≤
          accepted (am_expected n len) (trace w') - accepted (am_expected n len) (trace w)
          + am_waiting (glob w))) w.
Proof.
  intros Hm HL Hmax Hid. eapply wp_also.
  { apply wp_bind, wp_glb. apply (gains_iterations L fuel (am_expected n len)).
    destruct (id_conf _ _ _ _ _ Hid) as [_ Hl Hc _ _ _ _]. unfold tuned. rewrite Hl, Hc.
    apply u64_small. unfold am_expected, LONG_MAX in *. lia. }
  eapply am_received; [done|done|apply gave_up_bounded|by left|done|done|].
  intros r w' Hu [_ Hused]. split; [done|]. intros ->.
  unfold used in Hused. cbv beta iota in Hused. lia.
Qed.

(** C9: the work of a client with active messages, with buffers of at least 16 bytes, is
    memory safe with a polite library, with whatever arrives once it has registered its
    handler; and if it succeeds, it has sent the test message once per iteration, and
    started no other transfer: the FIN message comes by the handler. It stops early only
    at the bound of a waiting loop or at a failed allocation that the program does not
    check. With smaller buffers it reads out of bounds when it prints the FIN message. *)
Theorem am_client_work wk ep n len t w :
  mem_usable L t → polite L → sane_clock L → am_expected n len ≤ LONG_MAX →
  idle t wk n len w → registered (trace w) = false →
  wp gave_up (client_server_do_work L fuel wk ep CLIENT_SERVER_SEND_RECV_AM false)
     (λ r w', heap w' = heap w ∧ pending (trace w') = [] ∧
        (r = 0 → transcript (trace w') =
           replicate (Z.to_nat (g_num_iterations (glob w))) (Outgoing (test_message n len))
           ++ transcript (trace w))) w.
Proof.
  intros Hm HL Hcl Hmax Hid Hreg.
  eapply (am_client_ok L t Hm HL fuel wk n len);
    [apply gave_up_bounded|by left|done|done|by split|]. by intros r w' ? ? ?.
Qed.

(** C6: the server over stream or tag matching, with buffers of at least 16 bytes, a
    type of memory the machine has, and sizes and a number of iterations that do not
    overflow, is memory safe with a polite library that gives its workers different
    handles, whatever clients come, while one is served or not: it stops early
    only at the bound of a waiting loop or at a failed allocation that the program
    does not check; and if it returns, its heap is empty, no operation is
    unfinished and no listener is left. With smaller buffers it reads out of bounds when
    it prints (print_iov_reads_beyond). *)
Theorem server_memory argv o w1 t n len :
  mem_usable L t → polite L → sane_clock L → fresh_workers L →
  parse_cmd argv cs_init_world = (Ok (0, o), w1) → server_setup t n len o (glob w1) →
  wp gave_up (main L fuel argv)
     (λ r w', r = -1 ∧ heap w' = ∅ ∧ pending (trace w') = [] ∧ listeners (trace w') = [])
     cs_init_world.
Proof.
  intros Hm HL Hcl Hfr Hp Hs. eapply wp_also; [eapply server_result; [exact Hp|apply Hs]|].
  eapply wp_conseq; [eapply main_server_ok; eauto using gave_up_bounded; by left|].
  intros r w' (Hh & Hpe & Hl) Hr. by split_and!.
Qed.

(** C7: with a polite and responsive library a server over stream or tag matching,
    with buffers of at least 16 bytes, never hangs in the middle of a message: the only
    place where it waits without a bound is between messages, for a client to come or to
    go, with no operation unfinished and nothing on the heap but run_server's context.
    Otherwise it returns -1 or stops at a failed allocation that the program does not
    check. This is not so for active messages: there the server waits for a message with
    its buffers on the heap. *)
Theorem server_waits_between_messages argv o w1 t n len ρ N :
  mem_usable L t → polite L → sane_clock L → fresh_workers L →
  responsive L ρ N → (N + 2 ≤ fuel)%nat →
  parse_cmd argv cs_init_world = (Ok (0, o), w1) → server_setup t n len o (glob w1) →
  wp (λ h w', unchecked_oom h w' ∨
        h = NoFuel ∧ ∃ context, waiting ∅ context w')
     (main L fuel argv) (λ r w', r = -1 ∧ heap w' = ∅) cs_init_world.
Proof.
  intros Hm HL Hcl Hfr Hre Hf Hp Hs.
  eapply wp_also; [eapply server_result; [exact Hp|apply Hs]|].
  eapply wp_conseq.
  - eapply main_server_ok; [exact Hm|exact HL|exact Hcl|exact Hfr| | |exact Hp|exact Hs].
    + split; [right; by exists ρ, N|]. intros w Hoom. left. by split.
    + intros sb w Hw. right. split; [done|]. by exists sb.
  - by intros r w' (Hh & _) ->.
Qed.

(** C12: the exit code follows the command line. If an option is rejected, main
    returns the answer of the first one that is: -1 for a port number out of range,
    for -h and for what is no option, UCS_ERR_UNSUPPORTED for a size below 0, a number
    of buffers below 1, a memory type that is unknown or not supported; it returns
    without a call of UCX and with an empty heap, and nothing can stop it before.
    Otherwise, if main returns, the answer is -1, or 0, which only a client gives. *)
Theorem main_exit_code argv :
  let os := getopt "a:l:p:c:6i:s:v:m:h" argv in
  match rejected UCS_MEMORY_TYPE_HOST os with
  | Some ret =>
      wp (λ _ _, False) (main L fuel argv)
         (λ r w', r = ret ∧ heap w' = ∅ ∧ calls ucx_call (trace w') = 0%nat) cs_init_world
  | None =>
      wp (λ _ _, True) (main L fuel argv)
         (λ r _, r = -1 ∨ r = 0 ∧ names_server os = true) cs_init_world
  end.
Proof.
  intros os. destruct (rejected _ os) as [ret|] eqn:Hr.
  - apply wp_bind. eapply wp_conseq; [apply (parse_cmd_answer _ argv)|].
    intros [r o] w1 (Hra & Hh & Hc). fold os in Hra. rewrite Hr in Hra. simpl in Hra. subst r.
    rewrite (proj2 (Z.eqb_neq _ _)) by by eapply error_code_nonzero, rejected_error. by apply wp_ret.
  - apply wp_bind. eapply wp_conseq; [apply (parse_cmd_answer _ argv)|].
    intros [r o] w1 (Hra & _). fold os in Hra. rewrite Hr in Hra. destruct Hra as [Hz Ha].
    simpl in Hz, Ha. subst r. cbn [Z.eqb negb].
    eapply wp_conseq; [apply started_result|]. intros r w2 [->|[-> Ho]]; [by left|].
    right. split; [done|]. destruct (names_server os) eqn:Hn; [done|].
    by rewrite Ha in Ho.
Qed.

(** C8: one round of the server over stream or tag matching, with buffers of at least 16
    bytes. It waits for a client and accepts its request; if it comes back to waiting, it
    has received the messages of the iterations and sent the FIN message, nothing else,
    the request is reset and the memory is as it was; if it does not, it jumps to one of
    two labels with the answer -1, and the listener is still open. It stops early only
    at the bound of a waiting loop or at a failed allocation that the program does not
    check. *)
Theorem server_round uw dw sb l ty n len t g0 h0 T w :
  mem_usable L t → polite L → sane_clock L →
  ty = CLIENT_SERVER_SEND_RECV_STREAM ∨ ty = CLIENT_SERVER_SEND_RECV_TAG →
  cs_conf t n len g0 → (16 ≤ len)%nat → - 2 ^ 31 < g_num_iterations g0 < 2 ^ 31 - 2 →
  dw ≠ uw → serving g0 h0 sb uw 0 l T w →
  wp gave_up (serve L fuel uw dw (Loc sb 0) ty)
     (λ x w', match x with
              | inl _ => serving g0 h0 sb uw 0 l
                  (work_transcript n len true (g_num_iterations g0) ++ T) w'
              | inr (r, lab) => r = -1 ∧ goes_to sb lab ∧
                  ∃ conn_request T', serving g0 h0 sb uw conn_request l T' w'
              end) w.
Proof.
  intros Hm HL Hcl Hty Hc Hpr Hit Hdw Hw.
  eapply (serve_ok L t Hm HL Hcl fuel n len gave_up (gave_up_bounded _ _));
    [exact Hty|exact Hc|exact Hpr|exact Hit|by left|exact Hdw|exact Hw|done|].
  intros lab c' T' w' Hlab Hw'. split_and!; [done|done|by exists c', T'].
Qed.

(** C13: the server serves clients until something fails: if it returns at all,
    it returns -1. *)
Theorem server_never_succeeds argv o w w1 :
  parse_cmd argv w = (Ok (0, o), w1) → server_addr o = None →
  wp (λ _ _, True) (main L fuel argv) (λ r _, r = -1) w.
Proof. apply server_result. Qed.
End program.

(** C5: client and server fit. A client over stream or tag matching that is run
    from its command line and exits with 0, and a round of a server with the same
    number and size of buffers, of at least 16 bytes, and of iterations that serves one
    client and comes back to waiting: each transfer of the one is matched, in order, by the
    opposite transfer of the other, which has room for exactly the bytes that are
    sent. Each has its own library and its own type of memory; the client's heap
    is empty in the end, and that of the server as it was. Either may instead stop at the
    bound of a waiting loop or at a failed allocation that the program does not check. *)
Theorem client_served `{!Ucs, !Ucp, !Cuda} (L L' : cs_lib) fuel fuel' argv o w1 t t' n len
    uw dw sb l ty g0 h0 T w :
  mem_usable L t → polite L → sane_clock L → mem_usable L' t' → polite L' → sane_clock L' →
  parse_cmd argv cs_init_world = (Ok (0, o), w1) → client_setup t n len o (glob w1) →
  ty = send_recv_type o → cs_conf t' n len g0 → dw ≠ uw →
  g_num_iterations g0 = g_num_iterations (glob w1) →
  serving g0 h0 sb uw 0 l T w →
  wp gave_up (main L fuel argv) (λ rc wc,
    wp gave_up (serve L' fuel' uw dw (Loc sb 0) ty) (λ x ws,
      heap wc = ∅ ∧
      (rc = 0 → x = inl tt → ∃ Ts,
         serving g0 h0 sb uw 0 l (Ts ++ T) ws ∧
         length Ts = S (Z.to_nat (g_num_iterations g0)) ∧
         Forall2 answers (transcript (trace wc)) Ts)) w) cs_init_world.
Proof.
  intros Hm HL Hcl Hm' HL' Hcl' Hp Hs -> Hc' Hdw Hn Hw. pose proof Hs as [_ Hty _ Hpr Hit].
  rewrite <-Hn in Hit.
  eapply wp_conseq; [eapply main_client_ok; eauto using gave_up_bounded|].
  intros rc wc (Hh & _ & Hr).
  eapply (serve_ok L' t' Hm' HL' Hcl' fuel' n len gave_up (gave_up_bounded _ _));
    [exact Hty|exact Hc'|exact Hpr|exact Hit|by left|exact Hdw|exact Hw|
    |intros; by split; [|intros _ [=]]].
  intros ws Hws. split; [done|]. intros Hz _. eexists. split_and!; [exact Hws|..].
  - simpl. by rewrite length_replicate.
  - rewrite (Hr Hz), <-Hn. apply work_answers. lia.
Qed.

(** The two ends fit. When a client and a server over stream or tag
    matching, with the same number and size of buffers and the same number of
    iterations, each on its own library and in its own type of memory, both
    finish their work with success, then each transfer of the client is matched,
    in order, by the opposite transfer of the server, which has room for exactly
    the bytes that are sent; and both heaps are as they were. *)
Theorem work_pair `{!Ucs, !Ucp, !Cuda} (L L' : cs_lib) fuel fuel' wk wk' ep ep' ty n len t t' wc ws :
  mem_usable L t → polite L → sane_clock L → mem_usable L' t' → polite L' → sane_clock L' →
  ty = CLIENT_SERVER_SEND_RECV_STREAM ∨ ty = CLIENT_SERVER_SEND_RECV_TAG →
  idle t wk n len wc → registered (trace wc) = false →
  idle t' wk' n len ws → registered (trace ws) = false →
  g_num_iterations (glob wc) = g_num_iterations (glob ws) →
  wp gave_up (client_server_do_work L fuel wk ep ty false) (λ rc wc',
    wp gave_up (client_server_do_work L' fuel' wk' ep' ty true) (λ rs ws',
      unchanged wc wc' ∧ unchanged ws ws' ∧
      (rc = 0 → rs = 0 → ∃ Tc Ts,
         transcript (trace wc') = Tc ++ transcript (trace wc) ∧
         transcript (trace ws') = Ts ++ transcript (trace ws) ∧
         length Tc = S (Z.to_nat (g_num_iterations (glob wc))) ∧
         Forall2 answers Tc Ts)) ws) wc.
Proof.
  intros. eapply wp_conseq; [by eapply do_work_spec|]. intros rc wc' [Huc Hc].
  eapply wp_conseq; [by eapply (do_work_spec L')|]. intros rs ws' [Hus Hs]. split_and!; [done|done|]. intros Hrc Hrs.
  eexists _, _. split_and!; [by apply Hc|by apply Hs|..].
  - simpl. by rewrite length_replicate.
  - replace (g_num_iterations (glob ws)) with (g_num_iterations (glob wc)).
    apply work_answers. assert (16 ≤ len)%nat by by eapply id_print. lia.
Qed.

(** The bound on the waiting loops is only a bound: a run that ends before
    it is reached is the run under every larger bound. *)
Theorem fuel_is_a_bound `{!Ucs, !Ucp, !Cuda} (L : cs_lib) n n' argv w r w' :
  main L n argv w = (r, w') → r ≠ Halt NoFuel → (n ≤ n')%nat →
  main L n' argv w = (r, w').
Proof.
  intros Hr Hne Hn. destruct (approx_main L n n' Hn argv w) as [<-|Hf]; [done|].
  rewrite Hr in Hf. by destruct Hne.
Qed.

(** ** The theorems at work *)

(** A server that rejects a client while it serves another. *)
Lemma main_lawful_witness :
  (let '(r, w) := main demo_crowd 2 ["-c"; "tag"; "-i"; "3"]%string cs_init_world in
   r = Halt NoFuel ∧ rejected_requests (trace w) ≠ []) ∧
  wp (λ _ w', lawful w') (main demo_crowd 2 ["-c"; "tag"; "-i"; "3"]%string)
     (λ _ w', protocol (trace w') = Some []) cs_init_world.
Proof.
  split; [vm_compute; split; [reflexivity|discriminate]|].
  apply (main_lawful demo_crowd 2 ["-c"; "tag"; "-i"; "3"]%string). apply demo_crowd_conn.
Defined.

Lemma client_memory_witness :
  fst (main (demo []) 2 demo_argv cs_init_world) = Ok 0 ∧
  wp gave_up (main (demo []) 2 demo_argv)
     (λ _ w', heap w' = ∅ ∧ pending (trace w') = []) cs_init_world.
Proof.
  split; [vm_compute; reflexivity|].
  apply (client_memory (demo []) 2 demo_argv demo_client (demo_world (demo_conf 1 2))
           UCS_MEMORY_TYPE_HOST 1 16);
    [apply demo_host|apply demo_polite|apply demo_clock|vm_compute; reflexivity|apply demo_setup].
Defined.

(** Two rounds are enough; and the failed allocation is a real outcome. *)
Lemma client_terminates_witness :
  fst (main demo_oom 2 demo_argv cs_init_world) = Halt (UB "write through an invalid pointer") ∧
  wp unchecked_oom (main (demo []) 2 demo_argv)
     (λ r w', (r = 0 ∨ r = -1 ∨ r = UCS_ERR_UNSUPPORTED) ∧ heap w' = ∅) cs_init_world.
Proof.
  split; [vm_compute; reflexivity|].
  apply (client_terminates (demo []) 2 demo_argv demo_client (demo_world (demo_conf 1 2))
           UCS_MEMORY_TYPE_HOST 1 16 (λ _, 0%nat) 0);
    [apply demo_host|apply demo_polite|apply demo_clock|apply demo_responsive|lia
    |vm_compute; reflexivity|apply demo_setup].
Defined.

Lemma recv_am_memory_witness :
  fst (send_recv_am (demo demo_messages) 2 2 4 true 0 demo_handler) = Ok 0 ∧
  wp gave_up (send_recv_am (demo demo_messages) 2 2 4 true 0)
     (λ _ w', unchanged demo_handler w') demo_handler.
Proof.
  split; [vm_compute; reflexivity|].
  apply (recv_am_memory (demo demo_messages) 2 2 4 0 1 16 UCS_MEMORY_TYPE_HOST demo_handler);
    [apply demo_host|apply demo_polite| |lia|vm_compute; discriminate].
  destruct (demo_idle 1 2 ltac:(lia) ltac:(lia)). by split.
Defined.

Lemma exchange_memory_witness :
  wp unchecked_oom
     (client_server_communication (demo []) 2 2 4 CLIENT_SERVER_SEND_RECV_STREAM true 0)
     (λ ret w', (ret = 0 ∨ ret = -1) ∧ unchanged (demo_world (demo_conf 3 1)) w')
     (demo_world (demo_conf 3 1)) ∧
  fst (client_server_communication (demo []) 2 2 4 CLIENT_SERVER_SEND_RECV_STREAM true 0
         (demo_world (demo_conf 3 1))) = Ok 0.
Proof.
  split; [|vm_compute; reflexivity].
  apply (exchange_memory (demo []) 2 2 4 CLIENT_SERVER_SEND_RECV_STREAM true 0 3 16
           UCS_MEMORY_TYPE_HOST (λ _, 0%nat) 0);
    [apply demo_host|apply demo_polite|apply demo_responsive|lia|by left
    |apply (demo_idle 3 1); lia|lia|done].
Defined.

Lemma send_payload_witness :
  (∃ w', client_server_communication (demo []) 2 2 4 CLIENT_SERVER_SEND_RECV_AM false 0
           (demo_world (demo_conf 2 1)) = (Ok 0, w')) ∧
  wp gave_up (client_server_communication (demo []) 2 2 4 CLIENT_SERVER_SEND_RECV_AM false 0)
     (λ ret w', ret = 0 →
        sent 2 16 (send_call CLIENT_SERVER_SEND_RECV_AM 4) (demo_world (demo_conf 2 1)) w')
     (demo_world (demo_conf 2 1)).
Proof.
  split; [eexists; vm_compute; reflexivity|].
  apply (send_payload (demo []) 2 2 4 CLIENT_SERVER_SEND_RECV_AM 0 2 16 UCS_MEMORY_TYPE_HOST);
    [apply demo_host|apply demo_polite|done|apply (demo_idle 2 1); lia|lia|done].
Defined.

Lemma am_server_iterations_witness :
  fst (iterations (demo demo_messages) 2 2 4 CLIENT_SERVER_SEND_RECV_AM true demo_handler)
    = Ok None ∧
  wp gave_up (iterations (demo demo_messages) 2 2 4 CLIENT_SERVER_SEND_RECV_AM true)
     (λ r w', unchanged demo_handler w' ∧
        (r = None → 2 + am_waiting (glob w') ≤ accepted 16 (trace w') - 0 + 0)) demo_handler.
Proof.
  split; [vm_compute; reflexivity|].
  apply (am_server_iterations (demo demo_messages) 2 2 4 1 16 UCS_MEMORY_TYPE_HOST);
    [apply demo_host|apply demo_polite|vm_compute; discriminate|].
  destruct (demo_idle 1 2 ltac:(lia) ltac:(lia)). by split.
Defined.

Lemma am_client_work_witness :
  fst (client_server_do_work (demo demo_messages) 2 2 4 CLIENT_SERVER_SEND_RECV_AM false
         demo_start) = Ok 0 ∧
  wp gave_up
     (client_server_do_work (demo demo_messages) 2 2 4 CLIENT_SERVER_SEND_RECV_AM false)
     (λ r w', heap w' = ∅ ∧ pending (trace w') = [] ∧
        (r = 0 → transcript (trace w') =
           replicate (Z.to_nat 2) (Outgoing (test_message 1 16)) ++ [])) demo_start.
Proof.
  split; [vm_compute; reflexivity|].
  apply (am_client_work (demo demo_messages) 2 2 4 1 16 UCS_MEMORY_TYPE_HOST demo_start);
    [apply demo_host|apply demo_polite|apply demo_clock|vm_compute; discriminate
    |apply (demo_idle 1 2); lia|done].
Defined.

Lemma demo_server_setup :
  server_setup UCS_MEMORY_TYPE_HOST 1 16 (Options None None CLIENT_SERVER_SEND_RECV_TAG)
    (demo_conf 1 3).
Proof. split; [done|by right|split; first [done|simpl; lia]|lia|simpl; lia]. Qed.

Definition demo_server_argv : list string := ["-c"; "tag"; "-i"; "3"]%string.

(** A server that returns, as no endpoint can be created. *)
Lemma server_memory_witness :
  fst (main (demo_listening false) 2 demo_server_argv cs_init_world) = Ok (-1) ∧
  wp gave_up (main (demo_listening false) 2 demo_server_argv)
     (λ r w', r = -1 ∧ heap w' = ∅ ∧ pending (trace w') = [] ∧ listeners (trace w') = [])
     cs_init_world.
Proof.
  split; [vm_compute; reflexivity|].
  apply (server_memory (demo_listening false) 2 demo_server_argv
           (Options None None CLIENT_SERVER_SEND_RECV_TAG) (demo_world (demo_conf 1 3))
           UCS_MEMORY_TYPE_HOST 1 16);
    [by split|apply demo_listening_polite|intros h; apply (demo_clock [])
    |apply demo_listening_fresh|vm_compute; reflexivity|apply demo_server_setup].
Defined.

(** A server that is observed until it has served two clients. *)
Lemma server_waits_between_messages_witness :
  (∃ w', main (demo_listening true) 2 demo_server_argv cs_init_world = (Halt NoFuel, w') ∧
     length (transcript (trace w')) = 8%nat) ∧
  wp (λ h w', unchecked_oom h w' ∨ h = NoFuel ∧ ∃ context, waiting ∅ context w')
     (main (demo_listening true) 2 demo_server_argv) (λ r w', r = -1 ∧ heap w' = ∅)
     cs_init_world.
Proof.
  split; [eexists; vm_compute; split; reflexivity|].
  apply (server_waits_between_messages (demo_listening true) 2 demo_server_argv
           (Options None None CLIENT_SERVER_SEND_RECV_TAG) (demo_world (demo_conf 1 3))
           UCS_MEMORY_TYPE_HOST 1 16 (λ _, 0%nat) 0);
    [by split|apply demo_listening_polite|intros h; apply (demo_clock [])
    |apply demo_listening_fresh|apply demo_listening_responsive|lia
    |vm_compute; reflexivity|apply demo_server_setup].
Defined.

(** A server whose listener was opened on worker 1. *)
Definition demo_serving (n : Z) : cs_world :=
  World (demo_conf n 3) {[0%N := Cell KStack (CSrv (Some 0) (Some 3))]} 1%N
    [ECall (A := cs_api) (ucp_listener_create 1 0 localhost (Loc 0 0)) (0, 3)].

Lemma demo_serving_ok n : serving (demo_conf n 3) ∅ 0 1 0 3 [] (demo_serving n).
Proof.
  split; [done| |done..]. intros b Hb. simpl in *. apply lookup_singleton_ne. lia.
Qed.

Lemma demo_conf_ok n i : (1 ≤ n < 1000)%nat →
  cs_conf UCS_MEMORY_TYPE_HOST n 16 (demo_conf (Z.of_nat n) i).
Proof. intros. split; first [done|simpl; lia]. Qed.

Lemma server_round_witness :
  fst (serve (demo_listening true) 2 1 2 (Loc 0 0) CLIENT_SERVER_SEND_RECV_STREAM (demo_serving 2))
    = Ok (inl tt) ∧
  wp gave_up (serve (demo_listening true) 2 1 2 (Loc 0 0) CLIENT_SERVER_SEND_RECV_STREAM)
     (λ x w', match x with
              | inl _ => serving (demo_conf 2 3) ∅ 0 1 0 3 (work_transcript 2 16 true 3 ++ []) w'
              | inr (r, lab) => r = -1 ∧ goes_to 0 lab ∧
                  ∃ conn_request T', serving (demo_conf 2 3) ∅ 0 1 conn_request 3 T' w'
              end) (demo_serving 2).
Proof.
  split; [vm_compute; reflexivity|].
  apply (server_round (demo_listening true) 2 1 2 0 3 CLIENT_SERVER_SEND_RECV_STREAM 2 16
           UCS_MEMORY_TYPE_HOST (demo_conf 2 3) ∅ [] (demo_serving 2));
    [by split|apply demo_listening_polite|intros h; apply (demo_clock [])|by left
    |apply (demo_conf_ok 2 3); lia|lia|simpl; lia|done|apply demo_serving_ok].
Defined.

(** The client's whole run and the server's round, both with success. *)
Definition demo_client_argv : list string := ["-a"; "10.0.0.1"; "-c"; "tag"; "-i"; "3"]%string.

Lemma client_served_witness :
  fst (main (demo []) 2 demo_client_argv cs_init_world) = Ok 0 ∧
  fst (serve (demo_listening true) 2 1 2 (Loc 0 0) CLIENT_SERVER_SEND_RECV_TAG (demo_serving 1))
    = Ok (inl tt) ∧
  wp gave_up (main (demo []) 2 demo_client_argv) (λ rc wc,
    wp gave_up (serve (demo_listening true) 2 1 2 (Loc 0 0) CLIENT_SERVER_SEND_RECV_TAG) (λ x ws,
      heap wc = ∅ ∧
      (rc = 0 → x = inl tt → ∃ Ts,
         serving (demo_conf 1 3) ∅ 0 1 0 3 (Ts ++ []) ws ∧ length Ts = S (Z.to_nat 3) ∧
         Forall2 answers (transcript (trace wc)) Ts)) (demo_serving 1)) cs_init_world.
Proof.
  do 2 (split; [vm_compute; reflexivity|]).
  apply (client_served (demo []) (demo_listening true) 2 2 demo_client_argv demo_client
           (demo_world (demo_conf 1 3)) UCS_MEMORY_TYPE_HOST UCS_MEMORY_TYPE_HOST 1 16
           1 2 0 3 CLIENT_SERVER_SEND_RECV_TAG (demo_conf 1 3) ∅ [] (demo_serving 1));
    [apply demo_host|apply demo_polite|apply demo_clock|by split|apply demo_listening_polite
    |intros h; apply (demo_clock [])|vm_compute; reflexivity| |done
    |apply (demo_conf_ok 1 3); lia|done|done|apply demo_serving_ok].
  split; [done|by right|split; first [done|simpl; lia]|lia|simpl; lia].
Defined.

Lemma do_work_messages_witness :
  (∃ w', client_server_do_work (demo []) 2 2 4 CLIENT_SERVER_SEND_RECV_TAG false demo_start = (Ok 0, w') ∧
     calls (counted true) (trace w') = 2%nat) ∧
  wp (λ _ _, True) (client_server_do_work (demo []) 2 2 4 CLIENT_SERVER_SEND_RECV_TAG false)
     (λ r w', r = 0 → calls (counted true) (trace w') =
        ((if eqb true false then 0 else Z.to_nat (g_num_iterations (glob demo_start)))
         + (if eqb true false then 1 else 0) + calls (counted true) (trace demo_start))%nat) demo_start.
Proof.
  split; [eexists; vm_compute; split; reflexivity|].
  exact (do_work_messages (demo []) 2 true 2 4 CLIENT_SERVER_SEND_RECV_TAG false demo_start
           (or_intror eq_refl)).
Defined.

Lemma client_conversation_witness :
  (∃ w', main (demo []) 2 demo_argv cs_init_world = (Ok 0, w') ∧
     length (transcript (trace w')) = 3%nat) ∧
  wp gave_up (main (demo []) 2 demo_argv)
     (λ r w', r = 0 → transcript (trace w') =
        Incoming (Z.of_nat (1 * 16)) ::
        replicate (Z.to_nat (g_num_iterations (demo_conf 1 2))) (Outgoing (test_message 1 16)))
     cs_init_world.
Proof.
  split; [eexists; vm_compute; split; reflexivity|].
  apply (client_conversation (demo []) 2 demo_argv demo_client (demo_world (demo_conf 1 2))
           UCS_MEMORY_TYPE_HOST 1 16);
    [apply demo_host|apply demo_polite|apply demo_clock|vm_compute; reflexivity|apply demo_setup].
Defined.

(** Both ends succeed, with two buffers and three iterations. *)
Lemma work_pair_witness :
  fst (client_server_do_work (demo []) 2 2 4 CLIENT_SERVER_SEND_RECV_TAG false
         (demo_world (demo_conf 2 3))) = Ok 0 ∧
  fst (client_server_do_work demo_closing 2 2 4 CLIENT_SERVER_SEND_RECV_TAG true
         (demo_world (demo_conf 2 3))) = Ok 0 ∧
  wp gave_up
     (client_server_do_work (demo []) 2 2 4 CLIENT_SERVER_SEND_RECV_TAG false) (λ rc wc',
    wp gave_up
       (client_server_do_work demo_closing 2 2 4 CLIENT_SERVER_SEND_RECV_TAG true) (λ rs ws',
      unchanged (demo_world (demo_conf 2 3)) wc' ∧ unchanged (demo_world (demo_conf 2 3)) ws' ∧
      (rc = 0 → rs = 0 → ∃ Tc Ts,
         transcript (trace wc') = Tc ++ [] ∧ transcript (trace ws') = Ts ++ [] ∧
         length Tc = S (Z.to_nat 3) ∧ Forall2 answers Tc Ts))
      (demo_world (demo_conf 2 3))) (demo_world (demo_conf 2 3)).
Proof.
  do 2 (split; [vm_compute; reflexivity|]).
  apply (work_pair (demo []) demo_closing 2 2 2 2 4 4 CLIENT_SERVER_SEND_RECV_TAG 2 16
           UCS_MEMORY_TYPE_HOST UCS_MEMORY_TYPE_HOST);
    [apply demo_host|apply demo_polite|apply demo_clock|split; done|apply demo_closing_polite
    |intros h; apply (demo_clock [])|by right|apply (demo_idle 2 3); lia|done
    |apply (demo_idle 2 3); lia|done|done].
Defined.

Lemma do_work_memory_witness :
  fst (client_server_do_work (demo []) 2 2 4 CLIENT_SERVER_SEND_RECV_TAG false demo_start) = Ok 0 ∧
  wp gave_up (client_server_do_work (demo []) 2 2 4 CLIENT_SERVER_SEND_RECV_TAG false)
     (λ _ w', unchanged demo_start w') demo_start.
Proof.
  split; [vm_compute; reflexivity|].
  apply (do_work_memory (demo []) 2 2 4 CLIENT_SERVER_SEND_RECV_TAG false 1 16
           UCS_MEMORY_TYPE_HOST);
    [apply demo_host|apply demo_polite|apply demo_clock|by right|apply (demo_idle 1 2); lia|done].
Defined.

(** Without memory the server returns; otherwise it serves on and on. *)
Lemma server_never_succeeds_witness :
  fst (main (demo []) 4 ["-c"; "tag"]%string cs_init_world) = Halt NoFuel ∧
  wp (λ _ _, True) (main (demo []) 4 ["-c"; "tag"]%string) (λ r _, r = -1) cs_init_world.
Proof.
  split; [vm_compute; reflexivity|].
  apply (server_never_succeeds (demo []) 4 _
           (Options None None CLIENT_SERVER_SEND_RECV_TAG) _ cs_init_world);
    [vm_compute; reflexivity|done].
Defined.

Lemma fuel_is_a_bound_witness :
  ∃ w', main (demo []) 1000 demo_argv cs_init_world = (Ok 0, w').
Proof.
  eexists. apply (fuel_is_a_bound (demo []) 2 1000); [vm_compute; reflexivity|done|lia].
Defined.
