(* ===== verification/Parts.v ===== *)
(** * Properties of the parts

    The theorems about single components of ucp_client_server: the command line,
    addresses, buffers, active messages, connection requests, waiting. *)

From S2P Require Import Prelude CRuntime CLib Ucx HelloUtil CsApi Iov SockAddr.
From S2P Require Import Callbacks Request SendRecv Options ClientServer Outside.
From S2P Require Import Exchange Client Demo Program.
From stdpp Require Import pretty.
From Stdlib Require Import Ascii.
Import Ucx.Reference.
Open Scope Z_scope.

(** ** Concrete worlds *)

(** An array of two descriptors, as memset leaves it, and as buffer_malloc does. *)
Definition empty_iov : list ucp_dt_iov_t := [DtIov Null 0; DtIov Null 0].
Definition demo_iov : cs_world :=
  World (demo_conf 2 1) {[0%N := Cell KHost (CIov empty_iov)]} 1%N [].
Definition two_buffers (d : list mbyte) : gmap N (obj (a_cell cs_api)) :=
  {[0%N := Cell KHost (CIov (entries 16 [1; 2]%N [])); 1%N := Bytes KHost d; 2%N := Bytes KHost d]}.
Definition demo_buffers : cs_world :=
  World (with_am_data_desc (AmDataDesc 0 0 Null (Loc 0 0)) (demo_conf 2 1))
    (two_buffers (replicate 16 None)) 3%N [].

Lemma demo_iov_heap :
  iov_heap ∅ (heap demo_iov) 0 [] empty_iov (kind_of UCS_MEMORY_TYPE_HOST) 16.
Proof.
  split; simpl; try done.
  - apply NoDup_singleton.
  - intros b Hb. apply lookup_singleton_ne. intros <-. apply Hb. left.
  - by repeat constructor.
  - intros b Hb. by apply elem_of_nil in Hb.
Qed.

Lemma demo_buffers_heap d : length d = 16%nat →
  iov_heap ∅ (two_buffers d) 0 [1; 2]%N [] (kind_of UCS_MEMORY_TYPE_HOST) 16.
Proof.
  intros Hd. unfold two_buffers. split; simpl; try done.
  - apply (bool_decide_unpack _). by vm_compute.
  - intros b Hb. rewrite !not_elem_of_cons in Hb. destruct Hb as (?&?&?&_).
    by rewrite !lookup_insert_ne, lookup_singleton_ne by done.
  - intros b Hb. exists d. split; [|done].
    apply elem_of_cons in Hb as [->|[->|Hb%elem_of_nil]%elem_of_cons]; done.
Qed.

Lemma demo_receiving :
  receiving UCS_MEMORY_TYPE_HOST 2 16 0 [1; 2]%N ∅ demo_buffers.
Proof.
  split; [split; first [done|simpl; lia]|vm_compute; discriminate| |done|done|].
  - intros b Hb. simpl in *. unfold two_buffers. by rewrite !lookup_insert_ne, lookup_singleton_ne by lia.
  - by apply demo_buffers_heap.
Qed.

Lemma demo_iov_wf : wf_mem demo_iov.
Proof. intros b Hb. simpl in *. by rewrite lookup_singleton_ne by lia. Qed.

(** The array, and the request context of the caller. *)
Definition demo_ctx : gmap N (obj (a_cell cs_api)) := {[5%N := Cell KStack (CReq 7)]}.
Definition demo_request : cs_world :=
  World (demo_conf 2 1) (<[5%N := Cell KStack (CReq 7)]> (heap demo_iov)) 6%N [].

Lemma demo_request_wf : wf_mem demo_request.
Proof.
  intros b Hb. simpl in *. by rewrite lookup_insert_ne, lookup_singleton_ne by lia.
Qed.

Lemma demo_request_heap :
  iov_heap demo_ctx (heap demo_request) 0 [] empty_iov (kind_of UCS_MEMORY_TYPE_HOST) 16.
Proof.
  unfold demo_ctx. rewrite <-insert_empty. apply iov_heap_frame; [apply demo_iov_heap|].
  apply (bool_decide_unpack _). by vm_compute.
Qed.




(** A resolver that knows no address; a CUDA run time whose calls all fail; no
    answer of either matters otherwise. *)
Definition nameless : cs_lib := {|
  l_acts _ _ := [];
  l_ret h c :=
    match c with
    | inet_pton _ _ => None
    | c => demo_ret h c
    end;
  l_alloc _ _ := true;
|}.
Definition broken_cuda : cs_lib := {|
  l_acts _ _ := [];
  l_ret h c :=
    match c with
    | Cuda_call _ => 2
    | c => demo_ret h c
    end;
  l_alloc _ _ := true;
|}.
Definition demo_cuda : cs_world :=
  World (with_mem_type UCS_MEMORY_TYPE_CUDA (demo_conf 2 1)) (heap demo_iov) 1%N [].

(** The server after it received a message, and the server's context with a
    pending request or none. *)
Definition demo_after : cs_world :=
  snd (send_recv_am (demo [replicate 16 66]) 2 2 4 true 0 demo_handler).
Definition demo_server (c : Z) : cs_world :=
  World (demo_conf 1 1) {[0%N := Cell KStack (CSrv (Some c) (Some 3))]} 1%N [].

(** ** The command line *)

Section command_line.
Context `{!Ucs, !Ucp, !Cuda} (L : cs_lib).

(** C38: parse_cmd returns for every command line, without touching the memory,
    and with an error code unless the static variables are within their ranges
    and the communication type is a known one. *)
Theorem parse_cmd_total argv w : conf_ok (glob w) →
  ∃ ret o w', parse_cmd argv w = (Ok (ret, o), w') ∧ heap w' = heap w ∧
    ((ret = 0 ∧ conf_ok (glob w') ∧ known_type o) ∨ error_code ret).
Proof.
  intros Hc. destruct (wp_returns (parse_cmd argv)
    (λ x w', heap w' = heap w ∧
       ((x.1 = 0 ∧ conf_ok (glob w') ∧ known_type x.2) ∨ error_code x.1)) w)
    as ([ret o] & w' & Hr & HQ); [|by exists ret, o, w'].
  apply parse_cmd_ok; [done|..]; intros; simpl; auto.
Qed.

(** The port that is written on the command line is the port used, if it
    is one; a larger number is rejected and nothing is assigned. *)
Theorem port_roundtrip z w : 0 ≤ z < 2 ^ 31 →
  parse_cmd ["-p"%string; pretty z] w =
    (if z <? 65536
     then (Ok (0, default_options), set_glob (with_server_port z (glob w)) w)
     else (Ok (-1, default_options),
           push (EOut Stderr "Wrong server port number %d\n" [AZ z]) w)).
Proof.
  intros Hz. rewrite (parse_cmd_opts _ [("p"%char, pretty z)]) by done.
  pose proof (parse_port default_options z w Hz) as Hp.
  destruct (z <? 65536);
    [by rewrite (parse_opts_cons _ _ _ _ _ _ Hp)|by rewrite (parse_opts_stop _ _ _ _ _ _ Hp)].
Qed.

(** The numbers of iterations, buffers and bytes that are written on the
    command line are the ones used. *)
Theorem counts_roundtrip i s v w :
  0 ≤ i < 2 ^ 31 → 0 ≤ s ≤ LONG_MAX → 1 ≤ v ≤ LONG_MAX →
  parse_cmd ["-i"; pretty i; "-s"; pretty s; "-v"; pretty v]%string w =
    (Ok (0, default_options),
     set_glob (with_iov_cnt v (with_string_length s (with_num_iterations i (glob w)))) w).
Proof.
  intros Hi Hs Hv.
  rewrite (parse_cmd_opts _ [("i", pretty i); ("s", pretty s); ("v", pretty v)]%char) by done.
  rewrite (parse_opts_cons _ _ _ _ _ _ (parse_iterations default_options i w Hi)).
  rewrite (parse_opts_cons _ _ _ _ _ _ (parse_size default_options s _ Hs)).
  by rewrite (parse_opts_cons _ _ _ _ _ _ (parse_count default_options v _ Hv)).
Qed.

(** The port printed for an address is the decimal form of the port the
    address was made from. *)
Theorem port_string_roundtrip s w :
  g_ai_family (glob w) = AF_INET ∨ g_ai_family (glob w) = AF_INET6 →
  0 ≤ g_server_port (glob w) < 65536 →
  wp (λ _ _, False) (set_sock_addr L s)
     (λ sa w', heap w' = heap w ∧ ss_family sa = g_ai_family (glob w) ∧
        sockaddr_get_port_str sa PORT_STRING_LEN = pretty (g_server_port (glob w))) w.
Proof.
  intros Hf Hp. apply set_sock_addr_ok; [done|]. intros sa w' [Hh _] Hfa Hpo _.
  split_and!; [done|done|]. unfold sockaddr_get_port_str.
  rewrite Hfa, Hpo, ntohs_htons by done. rewrite snprintf_port by done.
  by destruct Hf as [-> | ->].
Qed.

(** An address that inet_pton does not understand is not reported; the
    program goes on with the address 0.0.0.0 or ::. *)
Theorem unresolved_address_unnoticed s w :
  g_ai_family (glob w) = AF_INET ∨ g_ai_family (glob w) = AF_INET6 →
  (∀ h af, l_ret L h (inet_pton af s) = None) →
  set_sock_addr L (Some s) w =
    (Ok (SockAddr (g_ai_family (glob w)) (htons (g_server_port (glob w)))
           INADDR_ANY in6addr_any),
     push (ECall (A := cs_api) (inet_pton (g_ai_family (glob w)) s) None) w).
Proof.
  intros Hf Hn. unfold set_sock_addr, glb, call0, ext0, get_glob, gets, mbind, M_bind.
  simpl. by destruct Hf as [-> | ->]; simpl; rewrite Hn.
Qed.

(** -m selects the named type if it is host or if the answer of
    check_mem_type_support allows the CUDA types; that answer is about the type
    selected before, not about the one that is asked for. *)
Theorem mem_type_selected s w :
  ∃ w', parse_mem_type s w =
          (Ok (mem_type_named (supported (g_test_mem_type (glob w))) s), w') ∧
        silent w w'.
Proof.
  destruct (talks_parse_mem_type (glob w) s w eq_refl) as (ty & w' & Hp & Hs & ->). eauto.
Qed.

(** A program built without CUDA accepts -m cuda, and then no message
    is ever exchanged. *)
Theorem cuda_accepted_without_cuda fuel wk ep ty s i w w1 o :
  HAVE_CUDA = false →
  parse_cmd ["-m"; "cuda"]%string cs_init_world = (Ok (0, o), w1) →
  glob w = glob w1 →
  wp (λ _ _, True) (client_server_communication L fuel wk ep ty s i) (λ r _, r = -1) w.
Proof.
  intros Hc Hp Hg.
  assert (g_test_mem_type (glob w) = UCS_MEMORY_TYPE_CUDA ∧ g_iov_cnt (glob w) = 1) as [Ht Hn].
  { rewrite Hg. revert Hp. vm_compute. by intros [= _ <-]. }
  by apply communication_unbuilt; [|left|rewrite Hn].
Qed.
End command_line.

(** ** Buffers *)

Section buffers.
Context `{!Ucs, !Ucp, !Cuda} (L : cs_lib) (t : ucs_memory_type_t).
Implicit Types (w : cs_world).

(** Buffer_malloc gives every descriptor a buffer of its own, or fails
    for lack of memory, and then the buffers and the array are gone. *)
Theorem buffer_malloc_all_or_nothing n len h0 ib es w :
  mem_usable L t → cs_conf t n len (glob w) → length es = n → wf_mem w →
  iov_heap h0 (heap w) ib [] es (kind_of t) len →
  wp (λ _ _, False) (buffer_malloc L (Loc ib 0))
     (λ r w', glob w' = glob w ∧
        ((r = -1 ∧ heap w' = h0 ∧ oom w') ∨
         (r = 0 ∧ ∃ bs, length bs = n ∧ iov_heap h0 (heap w') ib bs [] (kind_of t) len))) w.
Proof.
  intros Hm Hc Hes Hwf Hih. pose proof (cs_conf_rounds _ _ _ _ Hc) as Hr.
  eapply buffer_malloc_ok with (t := t);
    [done|apply Hc|apply Hc|by rewrite Hr|done|exact Hih|..].
  - intros w' [Hh Hg] Ho. split; [done|]. by left.
  - intros bs w' Hg Hbs Hih'. split; [done|]. right. split; [done|]. exists bs.
    split; [congruence|done].
Qed.

(** Buffer_free releases every buffer that was allocated, and the array,
    and nothing else. *)
Theorem buffer_free_releases n len h0 ib bs es w :
  mem_usable L t → cs_conf t n len (glob w) → (length bs + length es = n)%nat →
  iov_heap h0 (heap w) ib bs es (kind_of t) len →
  wp (λ _ _, False) (buffer_free L (Loc ib 0))
     (λ _ w', heap w' = h0 ∧ glob w' = glob w) w.
Proof.
  intros Hm Hc Hn Hih. eapply buffer_free_ok with (t := t);
    [done|apply Hc|exact Hih|by rewrite (cs_conf_rounds _ _ _ _ Hc)|done].
Qed.

(** Fill_request_param describes the message that the buffers form, one
    contiguous buffer or the array of descriptors, with the test string in each
    buffer of a sender; when it fails it leaves no memory behind. *)
Theorem fill_request_param_spec client n len h0 ib cb k c es w :
  mem_usable L t → cs_conf t n len (glob w) → length es = n → wf_mem w →
  h0 !! cb = Some (Cell k (CReq c)) →
  iov_heap h0 (heap w) ib [] es (kind_of t) len →
  wp (λ _ _, False) (fill_request_param L (Loc ib 0) client (Loc cb 0))
     (λ r w', match r with
      | None => heap w' = h0 ∧ oom w'
      | Some (msg, msg_length, param) => ∃ b bs,
          length (b :: bs) = n ∧
          iov_heap (<[cb := Cell k (CReq 0)]> h0) (heap w') ib (b :: bs) [] (kind_of t) len ∧
          (client = true → Forall (λ b, heap w' !! b = Some (Bytes (kind_of t) (filled len))) (b :: bs)) ∧
          rp_user_data param = Loc cb 0 ∧
          (if decide (n = 1%nat)
           then msg = Loc b 0 ∧ msg_length = Z.of_nat len ∧ rp_datatype param = Some (ucp_dt_make_contig 1)
           else msg = Loc ib 0 ∧ msg_length = Z.of_nat n ∧ rp_datatype param = Some UCP_DATATYPE_IOV)
      end) w.
Proof.
  intros Hm Hc Hes Hwf Hcb Hih.
  eapply fill_request_param_ok with (t := t); [done..|exact Hcb|exact Hih|by intros w' []|].
  intros b bs w' Hg Hbs Hih' Hf. exists b, bs. split_and!; [done|done| |done|].
  - intros Hcl. apply List.Forall_forall. intros b' Hb'%list_elem_of_In. by apply Hf.
  - unfold msg_addr, msg_len, request_param. simpl.
    destruct (decide (n = 1%nat)) as [->|Hne]; [done|].
    by rewrite (proj2 (Z.eqb_neq _ _)) by lia.
Qed.

(** Generate_test_string writes size - 1 letters, from A on and again from
    A after Z; the last byte is the one malloc returned, which was never
    written. *)
Theorem generate_test_string_fills b d n w :
  mem_usable L t → g_test_mem_type (glob w) = t → wf_mem w →
  heap w !! b = Some (Bytes (kind_of t) d) → length d = n →
  (1 ≤ n)%nat → Z.of_nat n < 2 ^ 31 →
  wp (λ _ _, False) (generate_test_string L (Loc b 0) (Z.of_nat n))
     (λ r w', glob w' = glob w ∧
        ((r = -1 ∧ heap w' = heap w ∧ oom w') ∨
         (r = 0 ∧ heap w' =
            <[b := Bytes (kind_of t)
                (((λ i, Some (65 + Z.of_nat i `mod` 26)) <$> seq 0 (n - 1)) ++ [None])]> (heap w))))
     w.
Proof.
  intros Hm Ht Hwf Hb Hd Hn Hmax. eapply generate_test_string_ok with (t := t); [done..| |].
  - intros w' [Hh Hg] Ho. split; [done|]. by left.
  - intros w' [Hh Hg]. split; [done|]. by right.
Qed.

(** C39: the size 0, which parse_cmd accepts, makes generate_test_string write
    out of bounds: size - 1 wraps around. *)
Theorem empty_string_overflows str w :
  wf_mem w → l_alloc L (trace w) 0 = true →
  fst (parse_cmd ["-s"; "0"]%string cs_init_world) = Ok (0, default_options) ∧
  fst (generate_test_string L str 0 w) = Halt (UB "write out of bounds").
Proof. intros Hwf Ha. split; [done|by apply generate_test_string_0]. Qed.


(** A failed cudaMalloc is not noticed: buffer_malloc reports success, and
    the descriptors hold the value of an uninitialised variable. *)
Theorem cuda_failure_unnoticed ib k l w :
  HAVE_CUDA = true → is_cuda (g_test_mem_type (glob w)) →
  (∀ h op, l_ret L h (Cuda_call op) ≠ cudaSuccess) →
  heap w !! ib = Some (Cell k (CIov l)) → length l = iov_rounds (g_iov_cnt (glob w)) →
  wp (λ _ _, False) (buffer_malloc L (Loc ib 0))
     (λ r w', r = 0 ∧ ∃ l', heap w' !! ib = Some (Cell k (CIov l')) ∧ length l' = length l ∧
        Forall (λ e, iov_buffer e = Indet) l') w.
Proof. intros. eapply buffer_malloc_failed; eauto 6. Qed.
End buffers.

(** ** Active messages *)

Section messages.
Context `{!Ucs, !Ucp, !Cuda} (L : cs_lib) (t : ucs_memory_type_t).
Implicit Types (w : cs_world).

(** C40: an eager message of the expected length is delivered: the buffers in
    order hold its bytes, and it is marked as complete and not as a
    rendezvous. *)
Theorem am_eager_delivered n len ib bs h0 (bytes : list Z) hl attr w :
  mem_usable L t → receiving t n len ib bs h0 w → length bytes = (n * len)%nat →
  has_flag attr UCP_AM_RECV_ATTR_FLAG_RNDV = false →
  wp (λ _ _, False)
     (handler L (Cb_am_data hl (Eager bytes) (Z.of_nat (length bytes)) attr))
     (λ r w', r = UCS_OK ∧ receiving t n len ib bs h0 w' ∧
        am_complete (g_am_data_desc (glob w')) = 1 ∧
        am_is_rndv (g_am_data_desc (glob w')) = 0 ∧
        ∃ ds, mjoin ds = Some <$> bytes ∧
          Forall2 (λ b d, heap w' !! b = Some (Bytes (kind_of t) d)) bs ds) w.
Proof.
  intros Hm Hrc Hlen Ha. eapply handler_eager_ok with (t := t); [done|exact Hrc|done|done|].
  intros w' Hrc' Hg Hh. rewrite Hg. split_and!; [done|done|done|done|].
  eapply holds_join; [apply Hrc'|done|done].
Qed.

(** Two messages that arrive before the program looks are one message to
    it: the second takes the place of the first, and the flag that counts them
    is 1. *)
Theorem am_second_replaces_first n len ib bs h0 (bytes1 bytes2 : list Z) hl attr w :
  mem_usable L t → receiving t n len ib bs h0 w →
  length bytes1 = (n * len)%nat → length bytes2 = (n * len)%nat →
  has_flag attr UCP_AM_RECV_ATTR_FLAG_RNDV = false →
  wp (λ _ _, False)
     (handler L (Cb_am_data hl (Eager bytes1) (Z.of_nat (length bytes1)) attr);;
      handler L (Cb_am_data hl (Eager bytes2) (Z.of_nat (length bytes2)) attr))
     (λ r w', am_complete (g_am_data_desc (glob w')) = 1 ∧
        ∃ ds, mjoin ds = Some <$> bytes2 ∧
          Forall2 (λ b d, heap w' !! b = Some (Bytes (kind_of t) d)) bs ds) w.
Proof.
  intros Hm Hrc Hl1 Hl2 Ha. apply wp_bind.
  eapply handler_eager_ok with (t := t); [done|exact Hrc|done|done|]. intros w1 Hrc1 _ _.
  eapply handler_eager_ok with (t := t); [done|exact Hrc1|done|done|]. intros w2 Hrc2 Hg Hh.
  rewrite Hg. split; [done|]. eapply holds_join; [apply Hrc2|done|done].
Qed.

(** A message that arrives after its buffers were released is written
    through a dangling pointer: nothing resets am_data_desc.recv_buf. *)
Theorem am_late_message n len ib (bytes : list Z) hl attr w :
  mem_usable L t → cs_conf t n len (glob w) → am_expected n len ≤ LONG_MAX →
  has_flag attr UCP_AM_RECV_ATTR_FLAG_RNDV = false → length bytes = (n * len)%nat →
  am_recv_buf (g_am_data_desc (glob w)) = Loc ib 0 →
  heap w !! ib = None → (ib < next w)%N →
  fst (handler L (Cb_am_data hl (Eager bytes) (Z.of_nat (length bytes)) attr) w) =
    Halt (UB "read of a dead object").
Proof.
  intros Hm Hc Hmax Ha Hlen Hbuf Hib Hlt.
  assert (wp (λ h _, h = UB "read of a dead object")
            (handler L (Cb_am_data hl (Eager bytes) (Z.of_nat (length bytes)) attr))
            (λ _ _, False) w) as Hu by (by eapply handler_late_ok with (t := t)).
  revert Hu. unfold wp. by destruct (handler _ _ w) as [[]?]; simpl; [|intros ->].
Qed.

(** The announcement of a long message only records its descriptor, for
    the receive that send_recv_am then posts. *)
Theorem am_rendezvous_announced n len hl desc attr w :
  g_iov_cnt (glob w) = Z.of_nat n → g_test_string_length (glob w) = Z.of_nat len →
  am_expected n len ≤ LONG_MAX → has_flag attr UCP_AM_RECV_ATTR_FLAG_RNDV = true →
  wp (λ _ _, False) (handler L (Cb_am_data hl (Rndv desc) (am_expected n len) attr))
     (λ r w', r = UCS_INPROGRESS ∧ heap w' = heap w ∧
        glob w' = with_am_data_desc
          (AmDataDesc 1 1 (Abs desc) (am_recv_buf (g_am_data_desc (glob w)))) (glob w)) w.
Proof.
  intros Hn Hl Hmax Ha. eapply am_data_cb_rndv; [done..|]. intros w' Hh _ Hg.
  split_and!; [done|done|exact Hg].
Qed.

(** A message of any other length is reported and changes nothing. *)
Theorem am_wrong_length_ignored n len hl data length attr w :
  g_iov_cnt (glob w) = Z.of_nat n → g_test_string_length (glob w) = Z.of_nat len →
  am_expected n len ≤ LONG_MAX → length ≠ am_expected n len →
  ucp_am_data_cb L hl data length attr w =
    (Ok UCS_OK, push (EOut Stderr "received wrong data length %ld (expected %ld)"
                        [AZ length; AZ (am_expected n len)]) w).
Proof.
  intros Hn Hl Hmax Hne.
  assert (wp (λ _ _, False) (ucp_am_data_cb L hl data length attr)
    (λ r w', (r, w') = (UCS_OK, push (EOut Stderr "received wrong data length %ld (expected %ld)"
                        [AZ length; AZ (am_expected n len)]) w)) w) as Hw.
  { by eapply am_data_cb_wrong_length. }
  by destruct (wp_returns _ _ _ Hw) as (r & w' & -> & [= -> ->]).
Qed.
End messages.

(** ** Connections, waiting, time *)

Section control.
Context `{!Ucs, !Ucp, !Cuda} (L : cs_lib).
Implicit Types (w : cs_world).

(** The first connection request is kept, and not rejected. *)
Theorem conn_request_kept req b k l w :
  heap w !! b = Some (Cell k (CSrv (Some 0) l)) →
  wp (λ _ _, False) (handler L (Cb_conn req (Loc b 0)))
     (λ _ w', heap w' = <[b := Cell k (CSrv (Some req) l)]> (heap w) ∧
        rejected_requests (trace w') = rejected_requests (trace w)) w.
Proof. intros Hb. apply wp_bind. by eapply conn_first_ok. Qed.

(** While a request is kept, every other one is rejected through the
    listener of the server, and the kept one stays. *)
Theorem conn_request_rejected req b k c l w :
  heap w !! b = Some (Cell k (CSrv (Some c) (Some l))) → c ≠ 0 →
  wp (λ _ _, False) (handler L (Cb_conn req (Loc b 0)))
     (λ _ w', heap w' = heap w ∧ rejected_requests (trace w') = (l, req) :: rejected_requests (trace w)) w.
Proof. intros Hb Hc. apply wp_bind. by eapply conn_other_ok. Qed.

(** Request_wait takes an operation that is complete or that could not be
    started from the request alone, without progress. *)
Theorem request_wait_immediate fuel wk r ctx w :
  UCS_PTR_IS_PTR r = false →
  ∃ st, request_wait L fuel wk r ctx w = (Ok st, w) ∧ (r = 0 → st = UCS_OK) ∧ (r ≠ 0 → st < 0).
Proof.
  intros Hr. unfold request_wait. destruct (Z.eqb_spec r 0) as [->|Hne]; [by exists UCS_OK|].
  rewrite ucs_ptr_nonnull in Hr by done. apply negb_false_iff in Hr. rewrite Hr.
  exists (UCS_PTR_STATUS r). split_and!; [done|done|]. intros _. by apply ucs_ptr_err.
Qed.

(** Results are printed in the first and the last iteration and in every
    2000th. *)
Theorem to_print_spec i w :
  0 ≤ i < 2 ^ 31 - 1 → - 2 ^ 31 < g_num_iterations (glob w) < 2 ^ 31 →
  ∃ b, to_print i w = (Ok b, w) ∧
    (b = true ↔ i = 0 ∨ i = g_num_iterations (glob w) - 1 ∨ (2000 | i + 1)).
Proof.
  intros Hi Hn. exists (prints (g_num_iterations (glob w)) i). split; [by apply to_print_ok|].
  unfold prints, PRINT_INTERVAL. rewrite !orb_true_iff, !Z.eqb_eq, <-Z.mod_divide by lia. tauto.
Qed.

(** The elapsed time of the client is the difference of its two times, in
    microseconds. *)
Theorem elapsed_spec a b w : sane a → sane b →
  elapsed a b w = (Ok (1000000 * b.1 + b.2 - (1000000 * a.1 + a.2)), w).
Proof.
  intros [Ha1 Ha2] [Hb1 Hb2].
  assert (wp (λ _ _, False) (elapsed a b) (λ d w', d = 1000000 * b.1 + b.2 - (1000000 * a.1 + a.2)
    ∧ w' = w) w) as Hw.
  { unfold elapsed.
    repeat (apply wp_bind, wp_c_long; [unfold LONG_MIN, LONG_MAX; lia|]).
    apply wp_c_long; [unfold LONG_MIN, LONG_MAX; lia|]. split; [lia|done]. }
  by destruct (wp_returns _ _ _ Hw) as (d & w' & -> & -> & ->).
Qed.
End control.

(** ** The theorems at work *)

Lemma parse_cmd_total_witness :
  ∃ ret o w', parse_cmd demo_argv cs_init_world = (Ok (ret, o), w') ∧ heap w' = heap cs_init_world ∧
    ((ret = 0 ∧ conf_ok (glob w') ∧ known_type o) ∨ error_code ret).
Proof. apply (parse_cmd_total demo_argv cs_init_world init_conf_ok). Defined.

Lemma port_roundtrip_witness :
  parse_cmd ["-p"; "18515"]%string cs_init_world =
    (Ok (0, default_options), set_glob (with_server_port 18515 cs_init_glob) cs_init_world).
Proof. apply (port_roundtrip 18515 cs_init_world). lia. Defined.

Lemma counts_roundtrip_witness :
  parse_cmd ["-i"; "10"; "-s"; "4096"; "-v"; "4"]%string cs_init_world =
    (Ok (0, default_options), set_glob (with_iov_cnt 4 (with_string_length 4096
       (with_num_iterations 10 cs_init_glob))) cs_init_world).
Proof. apply (counts_roundtrip 10 4096 4 cs_init_world); unfold LONG_MAX; lia. Defined.

Lemma port_string_roundtrip_witness :
  wp (λ _ _, False) (set_sock_addr (demo []) None)
     (λ sa w', heap w' = ∅ ∧ ss_family sa = AF_INET ∧
        sockaddr_get_port_str sa PORT_STRING_LEN = pretty 13337) cs_init_world.
Proof.
  apply (port_string_roundtrip (demo []) None cs_init_world); [by left|].
  simpl. unfold DEFAULT_PORT. lia.
Defined.

Lemma unresolved_address_unnoticed_witness :
  set_sock_addr nameless (Some "localhost"%string) cs_init_world =
    (Ok (SockAddr AF_INET (htons 13337) INADDR_ANY in6addr_any),
     push (ECall (A := cs_api) (inet_pton AF_INET "localhost") None) cs_init_world).
Proof. apply (unresolved_address_unnoticed nameless "localhost" cs_init_world); [by left|done]. Defined.

Lemma cuda_accepted_without_cuda_witness :
  wp (λ _ _, True)
     (client_server_communication (demo []) 5 2 4 CLIENT_SERVER_SEND_RECV_TAG false 0)
     (λ r _, r = -1) (demo_world (with_mem_type UCS_MEMORY_TYPE_CUDA cs_init_glob)).
Proof.
  apply (cuda_accepted_without_cuda (demo []) 5 2 4 CLIENT_SERVER_SEND_RECV_TAG false 0 _
           (demo_world (with_mem_type UCS_MEMORY_TYPE_CUDA cs_init_glob)) default_options);
    [done|vm_compute; reflexivity|done].
Defined.

Lemma buffer_malloc_all_or_nothing_witness :
  fst (buffer_malloc (demo []) (Loc 0 0) demo_iov) = Ok 0 ∧
  wp (λ _ _, False) (buffer_malloc (demo []) (Loc 0 0))
     (λ r w', glob w' = demo_conf 2 1 ∧
        ((r = -1 ∧ heap w' = ∅ ∧ oom w') ∨
         (r = 0 ∧ ∃ bs, length bs = 2%nat ∧
            iov_heap ∅ (heap w') 0 bs [] (kind_of UCS_MEMORY_TYPE_HOST) 16))) demo_iov.
Proof.
  split; [vm_compute; reflexivity|].
  apply (buffer_malloc_all_or_nothing (demo []) UCS_MEMORY_TYPE_HOST 2 16 ∅ 0 empty_iov demo_iov);
    [apply demo_host|split; first [done|simpl; lia]|done|apply demo_iov_wf|apply demo_iov_heap].
Defined.

Lemma buffer_free_releases_witness :
  wp (λ _ _, False) (buffer_free (demo []) (Loc 0 0))
     (λ _ w', heap w' = ∅ ∧ glob w' = glob demo_buffers) demo_buffers.
Proof.
  apply (buffer_free_releases (demo []) UCS_MEMORY_TYPE_HOST 2 16 ∅ 0 [1; 2]%N [] demo_buffers);
    [apply demo_host|split; first [done|simpl; lia]|done|by apply demo_buffers_heap].
Defined.

Lemma fill_request_param_spec_witness :
  wp (λ _ _, False) (fill_request_param (demo []) (Loc 0 0) true (Loc 5 0))
     (λ r w', match r with
      | None => heap w' = demo_ctx ∧ oom w'
      | Some (msg, msg_length, param) => ∃ b bs,
          length (b :: bs) = 2%nat ∧
          iov_heap (<[5%N := Cell KStack (CReq 0)]> demo_ctx) (heap w') 0 (b :: bs) [] KHost 16 ∧
          (true = true → Forall (λ b, heap w' !! b = Some (Bytes KHost (filled 16))) (b :: bs)) ∧
          rp_user_data param = Loc 5 0 ∧
          msg = Loc 0 0 ∧ msg_length = 2 ∧ rp_datatype param = Some UCP_DATATYPE_IOV
      end) demo_request.
Proof.
  apply (fill_request_param_spec (demo []) UCS_MEMORY_TYPE_HOST true 2 16 demo_ctx 0 5 KStack 7
           empty_iov demo_request);
    [apply demo_host|split; first [done|simpl; lia]|done|apply demo_request_wf|vm_compute; reflexivity|apply demo_request_heap].
Defined.

Lemma generate_test_string_fills_witness :
  wp (λ _ _, False) (generate_test_string (demo []) (Loc 1 0) 16)
     (λ r w', glob w' = glob demo_buffers ∧
        ((r = -1 ∧ heap w' = heap demo_buffers ∧ oom w') ∨
         (r = 0 ∧ heap w' =
            <[1%N := Bytes KHost
                (((λ i, Some (65 + Z.of_nat i `mod` 26)) <$> seq 0 15) ++ [None])]>
              (heap demo_buffers)))) demo_buffers.
Proof.
  apply (generate_test_string_fills (demo []) UCS_MEMORY_TYPE_HOST 1 (replicate 16 None) 16
           demo_buffers); [apply demo_host|done|apply demo_receiving|done|done|lia|lia].
Defined.

Lemma empty_string_overflows_witness :
  fst (parse_cmd ["-s"; "0"]%string cs_init_world) = Ok (0, default_options) ∧
  fst (generate_test_string (demo []) (Loc 1 0) 0 demo_buffers) = Halt (UB "write out of bounds").
Proof.
  apply (empty_string_overflows (demo []) (Loc 1 0) demo_buffers); [apply demo_receiving|done].
Defined.


Lemma cuda_failure_unnoticed_witness :
  fst (@buffer_malloc with_cuda broken_cuda (Loc 0 0) demo_cuda) = Ok 0 ∧
  wp (λ _ _, False) (@buffer_malloc with_cuda broken_cuda (Loc 0 0))
     (λ r w', r = 0 ∧ ∃ l', heap w' !! 0%N = Some (Cell KHost (CIov l')) ∧ length l' = 2%nat ∧
        Forall (λ e, iov_buffer e = Indet) l') demo_cuda.
Proof.
  split; [vm_compute; reflexivity|].
  apply (@cuda_failure_unnoticed with_cuda broken_cuda 0 KHost empty_iov demo_cuda);
    [done|by left|done|done|done].
Defined.

Lemma am_eager_delivered_witness :
  let bytes := replicate 32 88 in
  wp (λ _ _, False)
     (handler (demo []) (Cb_am_data 0 (Eager bytes) (Z.of_nat (length bytes)) 0))
     (λ r w', r = UCS_OK ∧ receiving UCS_MEMORY_TYPE_HOST 2 16 0 [1; 2]%N ∅ w' ∧
        am_complete (g_am_data_desc (glob w')) = 1 ∧
        am_is_rndv (g_am_data_desc (glob w')) = 0 ∧
        ∃ ds, mjoin ds = Some <$> bytes ∧
          Forall2 (λ b d, heap w' !! b = Some (Bytes (kind_of UCS_MEMORY_TYPE_HOST) d))
            [1; 2]%N ds) demo_buffers.
Proof.
  exact (am_eager_delivered (demo []) UCS_MEMORY_TYPE_HOST 2 16 0 [1; 2]%N ∅ (replicate 32 88)
           0 0 demo_buffers (demo_host []) demo_receiving eq_refl eq_refl).
Defined.

Lemma am_second_replaces_first_witness :
  let bytes1 := replicate 32 88 in
  let bytes2 := replicate 32 89 in
  wp (λ _ _, False)
     (handler (demo []) (Cb_am_data 0 (Eager bytes1) (Z.of_nat (length bytes1)) 0);;
      handler (demo []) (Cb_am_data 0 (Eager bytes2) (Z.of_nat (length bytes2)) 0))
     (λ r w', am_complete (g_am_data_desc (glob w')) = 1 ∧
        ∃ ds, mjoin ds = Some <$> bytes2 ∧
          Forall2 (λ b d, heap w' !! b = Some (Bytes (kind_of UCS_MEMORY_TYPE_HOST) d))
            [1; 2]%N ds) demo_buffers.
Proof.
  exact (am_second_replaces_first (demo []) UCS_MEMORY_TYPE_HOST 2 16 0 [1; 2]%N ∅
           (replicate 32 88) (replicate 32 89) 0 0 demo_buffers
           (demo_host []) demo_receiving eq_refl eq_refl eq_refl).
Defined.

(** After one message was received, and its buffers were freed, one more comes. *)
Lemma am_late_message_witness :
  let bytes := replicate 16 88 in
  fst (handler (demo []) (Cb_am_data 0 (Eager bytes) (Z.of_nat (length bytes)) 0) demo_after) =
    Halt (UB "read of a dead object").
Proof.
  apply (am_late_message (demo []) UCS_MEMORY_TYPE_HOST 1 16 1 (replicate 16 88) 0 0 demo_after);
    [apply demo_host|split; first [vm_compute; reflexivity|vm_compute; congruence|lia]
    |vm_compute; discriminate|done|done|vm_compute; reflexivity..].
Defined.

Lemma am_rendezvous_announced_witness :
  wp (λ _ _, False) (handler (demo []) (Cb_am_data 0 (Rndv 77) (am_expected 2 16) 2))
     (λ r w', r = UCS_INPROGRESS ∧ heap w' = heap demo_buffers ∧
        glob w' = with_am_data_desc
          (AmDataDesc 1 1 (Abs 77) (am_recv_buf (g_am_data_desc (glob demo_buffers))))
          (glob demo_buffers)) demo_buffers.
Proof.
  apply (am_rendezvous_announced (demo []) 2 16 0 77 2 demo_buffers);
    [done|done|vm_compute; discriminate|done].
Defined.

Lemma am_wrong_length_ignored_witness :
  ucp_am_data_cb (demo []) 0 (Abs 5) 31 0 demo_buffers =
    (Ok 0, push (EOut Stderr "received wrong data length %ld (expected %ld)" [AZ 31; AZ 32])
             demo_buffers).
Proof.
  refine (am_wrong_length_ignored (demo []) 2 16 0 (Abs 5) 31 0 demo_buffers _ _ _ _);
    [done|done|vm_compute; discriminate|done].
Defined.

Lemma conn_request_kept_witness :
  wp (λ _ _, False) (handler (demo []) (Cb_conn 9 (Loc 0 0)))
     (λ _ w', heap w' = <[0%N := Cell KStack (CSrv (Some 9) (Some 3))]> (heap (demo_server 0)) ∧
        rejected_requests (trace w') = []) (demo_server 0).
Proof. apply (conn_request_kept (demo []) 9 0 KStack (Some 3) (demo_server 0)). done. Defined.

Lemma conn_request_rejected_witness :
  wp (λ _ _, False) (handler (demo []) (Cb_conn 9 (Loc 0 0)))
     (λ _ w', heap w' = heap (demo_server 8) ∧ rejected_requests (trace w') = [(3, 9)]) (demo_server 8).
Proof. apply (conn_request_rejected (demo []) 9 0 KStack 8 3 (demo_server 8)); done. Defined.

Lemma request_wait_immediate_witness :
  ∃ st, request_wait (demo []) 0 2 (2 ^ 64 - 3) Null cs_init_world = (Ok st, cs_init_world) ∧
    (2 ^ 64 - 3 = 0 → st = UCS_OK) ∧ (2 ^ 64 - 3 ≠ 0 → st < 0).
Proof. apply (request_wait_immediate (demo []) 0 2 (2 ^ 64 - 3) Null cs_init_world). done. Defined.

Lemma to_print_spec_witness :
  ∃ b, to_print 3999 (demo_world (demo_conf 1 5000)) = (Ok b, demo_world (demo_conf 1 5000)) ∧
    (b = true ↔ 3999 = 0 ∨ 3999 = 5000 - 1 ∨ (2000 | 3999 + 1)).
Proof. apply (to_print_spec 3999 (demo_world (demo_conf 1 5000))); simpl; lia. Defined.

Lemma elapsed_spec_witness :
  elapsed (7, 999999) (9, 1) cs_init_world = (Ok 1000002, cs_init_world).
Proof. apply (elapsed_spec (7, 999999) (9, 1) cs_init_world); unfold sane; simpl; lia. Defined.
